(** * The physical page allocator and the x86 unmap path of the kernel
    memory manager (kernel/mm/physical.c, kernel/mm/x86/mapping.c).

    The development models the 32-bit x86 build: UINTN and ULONG are 32
    bits wide, ULONGLONG and PHYSICAL_ADDRESS are 64 bits wide, and the
    page shift is 12.  Machine integers are values of [Z] and every
    arithmetic operation of the C code carries its wrap-around. *)

From stdpp Require Import gmap list.
From Stdlib Require Import ZArith Lia.

Local Open Scope Z_scope.

(** ** Machine integers *)

Definition wrap (bits x : Z) : Z := x mod 2 ^ bits.
Definition UINTN (x : Z) : Z := wrap 32 x.
Definition ULONG (x : Z) : Z := wrap 32 x.
Definition ULONGLONG (x : Z) : Z := wrap 64 x.

(** [MmPageShift()] and [MmPageSize()] on x86. *)
Definition PageShift : Z := 12.
Definition PageSize : Z := 4096.

(** Modelled from the spec: the macro ALIGN_RANGE_UP is declared in a header
    outside the sources; the allocator uses it to compute "the aligned start
    index", rounding a 64-bit value up to a multiple of a power of two. *)
Definition ALIGN_RANGE_UP (Value Size : Z) : Z :=
  Z.land (ULONGLONG (Value + Size - 1)) (ULONGLONG (Z.lnot (Size - 1))).

Module Physical.

(** ** Definitions of physical.c *)

Definition MAX_PHYSICAL_PAGE_LOCK_COUNT : Z := 15.
Definition PHYSICAL_PAGE_FLAG_NON_PAGED : Z := 1.
Definition PHYSICAL_PAGE_FREE : Z := 0.
Definition PHYSICAL_MEMORY_ALLOCATION_TIMEOUT : Z := 180.
Definition PHYSICAL_MEMORY_MAX_PAGE_OUT_FAILURE_COUNT : Z := 10.
Definition PAGING_EVENT_SIGNAL_PAGE_COUNT : Z := 16.

(** Modelled from the spec: the paging entry ("paging descriptor") is declared
    in mmp.h, outside the sources.  It "identifies the owning section, the
    offset within it, a lock count, and flags including paging out in
    progress".  Pointers are addresses in [Z]. *)
Record PAGING_ENTRY : Type := mkPagingEntry {
  Section : Z;
  SectionOffset : Z;
  LockCount : Z;
  Flags : Z
}.

(** Modelled from the spec: the value of the "paging out" flag bit of a paging
    entry (mmp.h). *)
Definition PAGING_ENTRY_FLAG_PAGING_OUT : Z := 1.

(** A PHYSICAL_PAGE is one UINTN word, the union of Free, Flags, PagingEntry
    and PageCacheEntry.  A PHYSICAL_MEMORY_SEGMENT is its header followed by
    the array of its pages, [(PPHYSICAL_PAGE)(Segment + 1)]. *)
Record PHYSICAL_MEMORY_SEGMENT : Type := mkSegment {
  StartAddress : Z;
  EndAddress : Z;
  FreePages : Z;
  PhysicalPages : list Z
}.

Inductive MEMORY_WARNING_LEVEL : Type :=
  | MemoryWarningLevelNone
  | MemoryWarningLevel1
  | MemoryWarningLevel2.

#[global] Instance MEMORY_WARNING_LEVEL_eq_dec : EqDecision MEMORY_WARNING_LEVEL.
Proof. solve_decision. Defined.

Inductive KSTATUS : Type :=
  | STATUS_SUCCESS
  | STATUS_RESOURCE_IN_USE
  | STATUS_NOT_FOUND
  | STATUS_NO_MEMORY
  | STATUS_OTHER_FAILURE (code : Z).

#[global] Instance KSTATUS_eq_dec : EqDecision KSTATUS.
Proof. solve_decision. Defined.

Definition KSUCCESS (Status : KSTATUS) : bool :=
  match Status with STATUS_SUCCESS => true | _ => false end.

(** The globals of physical.c, grouped as the file groups them. *)
Record PageCounts : Type := mkCounts {
  MmTotalPhysicalPages : Z;
  MmTotalAllocatedPhysicalPages : Z;
  MmMinimumFreePhysicalPages : Z;
  MmNonPagedPhysicalPages : Z
}.

(** The two cursors; a segment pointer is the segment's position in the
    segment list. *)
Record SearchCursors : Type := mkCursors {
  MmLastAllocatedSegment : nat;
  MmLastAllocatedSegmentOffset : Z;
  MmLastPagedSegment : nat;
  MmLastPagedSegmentOffset : Z
}.

Record WarningState : Type := mkWarning {
  MmPhysicalMemoryWarningLevel : MEMORY_WARNING_LEVEL;
  MmPhysicalMemoryWarningLevel1HighPages : Z;
  MmPhysicalMemoryWarningLevel1LowPages : Z;
  MmPhysicalMemoryWarningLevel2HighPages : Z;
  MmPhysicalMemoryWarningLevel2LowPages : Z;
  MmPhysicalMemoryWarningCountMask : Z;
  MmPhysicalMemoryAllocationCount : Z;
  MmPhysicalMemoryFreeCount : Z
}.

(** The state the routines of physical.c work on: the segment list in list
    order from [MmPhysicalSegmentListHead.Next], the heap of paging entries
    (by address), and the globals. *)
Record MmState : Type := mkMm {
  Segments : list PHYSICAL_MEMORY_SEGMENT;
  PagingEntries : gmap Z PAGING_ENTRY;
  Counts : PageCounts;
  Cursors : SearchCursors;
  Warnings : WarningState
}.

(** *** Field updates *)

Definition set_Segments (v : list PHYSICAL_MEMORY_SEGMENT) (s : MmState) : MmState :=
  mkMm v (PagingEntries s) (Counts s) (Cursors s) (Warnings s).
Definition set_PagingEntries (v : gmap Z PAGING_ENTRY) (s : MmState) : MmState :=
  mkMm (Segments s) v (Counts s) (Cursors s) (Warnings s).
Definition set_Counts (v : PageCounts) (s : MmState) : MmState :=
  mkMm (Segments s) (PagingEntries s) v (Cursors s) (Warnings s).
Definition set_Cursors (v : SearchCursors) (s : MmState) : MmState :=
  mkMm (Segments s) (PagingEntries s) (Counts s) v (Warnings s).
Definition set_Warnings (v : WarningState) (s : MmState) : MmState :=
  mkMm (Segments s) (PagingEntries s) (Counts s) (Cursors s) v.

Definition set_Allocated (v : Z) (c : PageCounts) : PageCounts :=
  mkCounts (MmTotalPhysicalPages c) v (MmMinimumFreePhysicalPages c)
           (MmNonPagedPhysicalPages c).
Definition set_NonPaged (v : Z) (c : PageCounts) : PageCounts :=
  mkCounts (MmTotalPhysicalPages c) (MmTotalAllocatedPhysicalPages c)
           (MmMinimumFreePhysicalPages c) v.

Definition set_Level (v : MEMORY_WARNING_LEVEL) (w : WarningState) : WarningState :=
  mkWarning v (MmPhysicalMemoryWarningLevel1HighPages w)
    (MmPhysicalMemoryWarningLevel1LowPages w)
    (MmPhysicalMemoryWarningLevel2HighPages w)
    (MmPhysicalMemoryWarningLevel2LowPages w)
    (MmPhysicalMemoryWarningCountMask w)
    (MmPhysicalMemoryAllocationCount w) (MmPhysicalMemoryFreeCount w).
Definition set_AllocationCount (v : Z) (w : WarningState) : WarningState :=
  mkWarning (MmPhysicalMemoryWarningLevel w)
    (MmPhysicalMemoryWarningLevel1HighPages w)
    (MmPhysicalMemoryWarningLevel1LowPages w)
    (MmPhysicalMemoryWarningLevel2HighPages w)
    (MmPhysicalMemoryWarningLevel2LowPages w)
    (MmPhysicalMemoryWarningCountMask w) v (MmPhysicalMemoryFreeCount w).
Definition set_FreeCount (v : Z) (w : WarningState) : WarningState :=
  mkWarning (MmPhysicalMemoryWarningLevel w)
    (MmPhysicalMemoryWarningLevel1HighPages w)
    (MmPhysicalMemoryWarningLevel1LowPages w)
    (MmPhysicalMemoryWarningLevel2HighPages w)
    (MmPhysicalMemoryWarningLevel2LowPages w)
    (MmPhysicalMemoryWarningCountMask w)
    (MmPhysicalMemoryAllocationCount w) v.

Definition set_FreePages (v : Z) (g : PHYSICAL_MEMORY_SEGMENT) : PHYSICAL_MEMORY_SEGMENT :=
  mkSegment (StartAddress g) (EndAddress g) v (PhysicalPages g).
Definition set_PhysicalPages (v : list Z) (g : PHYSICAL_MEMORY_SEGMENT) : PHYSICAL_MEMORY_SEGMENT :=
  mkSegment (StartAddress g) (EndAddress g) (FreePages g) v.

Definition set_LockCount (v : Z) (e : PAGING_ENTRY) : PAGING_ENTRY :=
  mkPagingEntry (Section e) (SectionOffset e) v (Flags e).
Definition set_Flags (v : Z) (e : PAGING_ENTRY) : PAGING_ENTRY :=
  mkPagingEntry (Section e) (SectionOffset e) (LockCount e) v.

(** *** Access to the segment list and to the page array *)

(** The walk over the segment list shared by the routines below: the first
    segment with [StartAddress <= PhysicalAddress < EndAddress]. *)
Definition FindSegment (segs : list PHYSICAL_MEMORY_SEGMENT) (PhysicalAddress : Z)
  : option (nat * PHYSICAL_MEMORY_SEGMENT) :=
  list_find (λ g, StartAddress g <= PhysicalAddress < EndAddress g) segs.

(** [(PhysicalAddress - Segment->StartAddress) >> PageShift] *)
Definition PageOffsetIn (g : PHYSICAL_MEMORY_SEGMENT) (PhysicalAddress : Z) : Z :=
  Z.shiftr (ULONGLONG (PhysicalAddress - StartAddress g)) PageShift.

(** Store to [PhysicalPage[idx]] of the segment at position [si]. *)
Definition WritePage (si idx : nat) (v : Z) (s : MmState) : MmState :=
  set_Segments
    (alter (λ g, set_PhysicalPages (<[idx := v]> (PhysicalPages g)) g) si (Segments s)) s.

Definition ReadPage (si idx : nat) (s : MmState) : option Z :=
  g ← Segments s !! si; PhysicalPages g !! idx.

Definition IsNonPaged (page : Z) : bool :=
  negb (Z.land page PHYSICAL_PAGE_FLAG_NON_PAGED =? 0).

Definition IsPagingOut (e : PAGING_ENTRY) : bool :=
  negb (Z.land (Flags e) PAGING_ENTRY_FLAG_PAGING_OUT =? 0).

(** ** MmFreePhysicalPages *)

(** The locals of MmFreePhysicalPages that live across loop iterations. *)
Record FreeLocals : Type := mkFreeLocals {
  ReleasedPhysicalPage : bool;
  SignalEvent : bool;
  PagingEntryList : list Z
}.

(** The warning check of the free path ("check levels from the lowest page
    count to the highest"). *)
Definition FreeWarningCheck (s : MmState) : MmState * bool :=
  let w := Warnings s in
  let allocated := MmTotalAllocatedPhysicalPages (Counts s) in
  match MmPhysicalMemoryWarningLevel w with
  | MemoryWarningLevel2 =>
      if allocated <? MmPhysicalMemoryWarningLevel2LowPages w
      then (set_Warnings (set_Level MemoryWarningLevelNone w) s, true)
      else (s, false)
  | MemoryWarningLevel1 =>
      if allocated <? MmPhysicalMemoryWarningLevel1LowPages w
      then (set_Warnings (set_Level MemoryWarningLevel2 w) s, true)
      else (s, false)
  | MemoryWarningLevelNone => (s, false)
  end.

(** The metrics update guarded by [ReleasedPhysicalPage != FALSE]. *)
Definition FreeUpdateMetrics (si : nat) (s : MmState) (l : FreeLocals)
  : MmState * FreeLocals :=
  let s1 := set_Counts
              (set_Allocated (UINTN (MmTotalAllocatedPhysicalPages (Counts s) - 1))
                             (Counts s)) s in
  let s2 := set_Segments
              (alter (λ g, set_FreePages (ULONGLONG (FreePages g + 1)) g) si
                     (Segments s1)) s1 in
  let s3 := set_Warnings
              (set_FreeCount (UINTN (MmPhysicalMemoryFreeCount (Warnings s2) + 1))
                             (Warnings s2)) s2 in
  if negb (SignalEvent l) &&
     (Z.land (MmPhysicalMemoryFreeCount (Warnings s3))
             (MmPhysicalMemoryWarningCountMask (Warnings s3)) =? 0)
  then let '(s4, signal) := FreeWarningCheck s3 in
       (s4, mkFreeLocals (ReleasedPhysicalPage l) signal (PagingEntryList l))
  else (s3, l).

(** One iteration of the loop "release each page in the contiguous run", on
    the page at index [idx] of the segment at position [si].  [None] is a
    memory fault: a page outside the array or a pointer to no paging entry. *)
Definition FreeOnePage (si idx : nat) (st : MmState * FreeLocals)
  : option (MmState * FreeLocals) :=
  let '(s, l) := st in
  page ← ReadPage si idx s;
  st1 ←
    (if IsNonPaged page then
       let s1 := WritePage si idx PHYSICAL_PAGE_FREE s in
       let s2 := set_Counts
                   (set_NonPaged (UINTN (MmNonPagedPhysicalPages (Counts s1) - 1))
                                 (Counts s1)) s1 in
       Some (s2, mkFreeLocals true (SignalEvent l) (PagingEntryList l))
     else
       PagingEntry ← PagingEntries s !! page;
       if negb (IsPagingOut PagingEntry) then
         Some (WritePage si idx PHYSICAL_PAGE_FREE s,
               mkFreeLocals true (SignalEvent l) (PagingEntryList l ++ [page]))
       else Some (s, l));
  let '(s', l') := st1 in
  if ReleasedPhysicalPage l' then Some (FreeUpdateMetrics si s' l')
  else Some (s', l').

(** [for (Index = 0; Index < PageCount; Index += 1)] with [PhysicalPage]
    advancing from [idx]. *)
Fixpoint FreeLoop (si : nat) (count : nat) (idx : nat) (st : MmState * FreeLocals)
  : option (MmState * FreeLocals) :=
  match count with
  | O => Some st
  | S count' => st' ← FreeOnePage si idx st; FreeLoop si count' (S idx) st'
  end.

(** Modelled from the spec: MmpDestroyPagingEntry belongs to the image-section
    code outside the sources; it "frees an orphan paging descriptor". *)
Definition MmpDestroyPagingEntry (PagingEntry : Z) (heap : gmap Z PAGING_ENTRY)
  : gmap Z PAGING_ENTRY :=
  delete PagingEntry heap.

Record FreeResult : Type := mkFreeResult {
  free_state : MmState;
  free_destroyed : list Z;
  free_signalled : bool
}.

(** MmFreePhysicalPages.  An address in no segment changes nothing. *)
Definition MmFreePhysicalPages (s : MmState) (PhysicalAddress PageCount : Z)
  : option FreeResult :=
  match FindSegment (Segments s) PhysicalAddress with
  | Some (si, Segment) =>
      let Offset := PageOffsetIn Segment PhysicalAddress in
      '(s', l) ← FreeLoop si (Z.to_nat PageCount) (Z.to_nat Offset)
                   (s, mkFreeLocals false false []);
      Some (mkFreeResult
              (set_PagingEntries
                 (foldl (λ h p, MmpDestroyPagingEntry p h) (PagingEntries s')
                        (PagingEntryList l)) s')
              (PagingEntryList l) (SignalEvent l))
  | None => Some (mkFreeResult s [] false)
  end.

(** ** The page cache entry of a physical page *)

(** MmSetPageCacheEntryForPhysicalAddress *)
Definition MmSetPageCacheEntryForPhysicalAddress (s : MmState)
    (PhysicalAddress PageCacheEntry : Z) : MmState :=
  match FindSegment (Segments s) PhysicalAddress with
  | Some (si, Segment) =>
      let Offset := PageOffsetIn Segment PhysicalAddress in
      WritePage si (Z.to_nat Offset)
        (Z.lor PageCacheEntry PHYSICAL_PAGE_FLAG_NON_PAGED) s
  | None => s
  end.

(** MmpGetPageCacheEntryForPhysicalAddress; NULL is 0. *)
Definition MmpGetPageCacheEntryForPhysicalAddress (s : MmState)
    (PhysicalAddress : Z) : option Z :=
  match FindSegment (Segments s) PhysicalAddress with
  | Some (si, Segment) =>
      let Offset := PageOffsetIn Segment PhysicalAddress in
      page ← ReadPage si (Z.to_nat Offset) s;
      if IsNonPaged page
      then Some (Z.land page (UINTN (Z.lnot PHYSICAL_PAGE_FLAG_NON_PAGED)))
      else Some 0
  | None => Some 0
  end.

(** ** Locking and unlocking physical pages *)

Inductive LoopStep (A : Type) : Type :=
  | Continue (a : A)
  | Break (a : A).
Arguments Continue {A} a.
Arguments Break {A} a.

(** The body of the loop of MmpLockPhysicalPages on one page; [Break] is the
    jump to the end with STATUS_RESOURCE_IN_USE. *)
Definition LockOnePage (page : Z) (s : MmState) : option (LoopStep MmState) :=
  if IsNonPaged page then Some (Continue s)
  else
    PagingEntry ← PagingEntries s !! page;
    if LockCount PagingEntry =? MAX_PHYSICAL_PAGE_LOCK_COUNT then Some (Break s)
    else
      let s1 :=
        if LockCount PagingEntry =? 0
        then set_Counts (set_NonPaged (UINTN (MmNonPagedPhysicalPages (Counts s) + 1))
                                      (Counts s)) s
        else s in
      Some (Continue
              (set_PagingEntries
                 (<[page := set_LockCount (LockCount PagingEntry + 1) PagingEntry]>
                    (PagingEntries s1)) s1)).

(** The loop over [PhysicalPage[PageIndex]]; the result carries the value of
    [PageIndex] on exit. *)
Fixpoint LockLoop (si Offset : nat) (count : nat) (PageIndex : nat) (s : MmState)
  : option (KSTATUS * nat * MmState) :=
  match count with
  | O => Some (STATUS_SUCCESS, PageIndex, s)
  | S count' =>
      page ← ReadPage si (Offset + PageIndex) s;
      step ← LockOnePage page s;
      match step with
      | Continue s' => LockLoop si Offset count' (S PageIndex) s'
      | Break s' => Some (STATUS_RESOURCE_IN_USE, PageIndex, s')
      end
  end.

(** The body of the loop of MmpUnlockPhysicalPages.  The width of the lock
    count field is declared outside the sources, so the decrement of a zero
    count, which the routine's assertion excludes, has no result here. *)
Definition UnlockOnePage (page : Z) (s : MmState) : option MmState :=
  if IsNonPaged page then Some s
  else
    PagingEntry ← PagingEntries s !! page;
    if LockCount PagingEntry =? 0 then None
    else
      let count := LockCount PagingEntry - 1 in
      let s1 := set_PagingEntries
                  (<[page := set_LockCount count PagingEntry]> (PagingEntries s)) s in
      if count =? 0
      then Some (set_Counts
                   (set_NonPaged (UINTN (MmNonPagedPhysicalPages (Counts s1) - 1))
                                 (Counts s1)) s1)
      else Some s1.

Fixpoint UnlockLoop (si Offset : nat) (count : nat) (PageIndex : nat) (s : MmState)
  : option MmState :=
  match count with
  | O => Some s
  | S count' =>
      page ← ReadPage si (Offset + PageIndex) s;
      s' ← UnlockOnePage page s;
      UnlockLoop si Offset count' (S PageIndex) s'
  end.

(** MmpUnlockPhysicalPages *)
Definition MmpUnlockPhysicalPages (s : MmState) (PhysicalAddress PageCount : Z)
  : option MmState :=
  match FindSegment (Segments s) PhysicalAddress with
  | Some (si, Segment) =>
      UnlockLoop si (Z.to_nat (PageOffsetIn Segment PhysicalAddress))
                 (Z.to_nat PageCount) 0 s
  | None => Some s
  end.

(** MmpLockPhysicalPages, with its "undo what was done on failure". *)
Definition MmpLockPhysicalPages (s : MmState) (PhysicalAddress PageCount : Z)
  : option (KSTATUS * MmState) :=
  '(Status, PageIndex, s1) ←
    match FindSegment (Segments s) PhysicalAddress with
    | Some (si, Segment) =>
        LockLoop si (Z.to_nat (PageOffsetIn Segment PhysicalAddress))
                 (Z.to_nat PageCount) 0 s
    | None => Some (STATUS_NOT_FOUND, O, s)
    end;
  if negb (KSUCCESS Status) && negb (Nat.eqb PageIndex 0)
  then s2 ← MmpUnlockPhysicalPages s1 PhysicalAddress (Z.of_nat PageIndex);
       Some (Status, s2)
  else Some (Status, s1).

(** ** MmpEnablePagingOnPhysicalAddress *)

Definition EnablePagingOnePage (si idx : nat) (PagingEntry : Z) (LockPages : bool)
    (s : MmState) : option MmState :=
  let s1 := WritePage si idx PagingEntry s in
  if LockPages then
    e ← PagingEntries s1 !! PagingEntry;
    Some (set_PagingEntries (<[PagingEntry := set_LockCount 1 e]> (PagingEntries s1)) s1)
  else
    Some (set_Counts (set_NonPaged (UINTN (MmNonPagedPhysicalPages (Counts s1) - 1))
                                   (Counts s1)) s1).

Fixpoint EnablePagingLoop (si Offset : nat) (entries : list Z) (LockPages : bool)
    (count : nat) (PageIndex : nat) (s : MmState) : option MmState :=
  match count with
  | O => Some s
  | S count' =>
      PagingEntry ← entries !! PageIndex;
      s' ← EnablePagingOnePage si (Offset + PageIndex) PagingEntry LockPages s;
      EnablePagingLoop si Offset entries LockPages count' (S PageIndex) s'
  end.

(** The [InRange] test of the segment walk. *)
Definition EnablePagingInRange (PhysicalAddress EndAddr : Z)
    (g : PHYSICAL_MEMORY_SEGMENT) : bool :=
  negb (((PhysicalAddress <? StartAddress g) && (EndAddr <=? StartAddress g)) ||
        ((EndAddress g <=? PhysicalAddress) && (EndAddress g <? EndAddr))).

Definition MmpEnablePagingOnPhysicalAddress (s : MmState)
    (PhysicalAddress PageCount : Z) (entries : list Z) (LockPages : bool)
  : option MmState :=
  let EndAddr := ULONGLONG (PhysicalAddress + Z.shiftl PageCount PageShift) in
  match list_find (λ g, EnablePagingInRange PhysicalAddress EndAddr g = true)
                  (Segments s) with
  | Some (si, Segment) =>
      EnablePagingLoop si (Z.to_nat (PageOffsetIn Segment PhysicalAddress))
                       entries LockPages (Z.to_nat PageCount) 0 s
  | None => Some s
  end.

(** ** MmpFindPhysicalPages *)

Inductive PHYSICAL_MEMORY_SEARCH_TYPE : Type :=
  | PhysicalMemoryFindInvalid
  | PhysicalMemoryFindFree
  | PhysicalMemoryFindPagable
  | PhysicalMemoryFindIdentityMappable.

Definition IsFindPagable (t : PHYSICAL_MEMORY_SEARCH_TYPE) : bool :=
  match t with PhysicalMemoryFindPagable => true | _ => false end.
Definition IsFindFree (t : PHYSICAL_MEMORY_SEARCH_TYPE) : bool :=
  match t with PhysicalMemoryFindFree => true | _ => false end.

(** The kernel's virtual address accounting, consulted through
    [MmpIsAccountingRangeFree (&MmKernelVirtualSpace, Address, 1 << PageShift)],
    is a parameter of the search. *)
Definition VaAccounting : Type := Z → bool.

(** One turn of the switch on the search type: [inl] is [ExitCheck = TRUE],
    [inr] the state after a suitable page; [None] a fault or the invalid
    search type. *)
Definition SpanCheckPage (SearchType : PHYSICAL_MEMORY_SEARCH_TYPE)
    (IsRangeFree : VaAccounting) (Segment : PHYSICAL_MEMORY_SEGMENT) (Offset : Z)
    (page : Z) (s : MmState) : option (MmState + MmState) :=
  match SearchType with
  | PhysicalMemoryFindFree =>
      if page =? PHYSICAL_PAGE_FREE then Some (inr s) else Some (inl s)
  | PhysicalMemoryFindPagable =>
      if (page =? PHYSICAL_PAGE_FREE) || IsNonPaged page then Some (inl s)
      else
        PagingEntry ← PagingEntries s !! page;
        if negb (LockCount PagingEntry =? 0) then Some (inl s)
        else Some (inr (set_PagingEntries
                          (<[page := set_Flags (Z.lor (Flags PagingEntry)
                                                      PAGING_ENTRY_FLAG_PAGING_OUT)
                                               PagingEntry]> (PagingEntries s)) s))
  | PhysicalMemoryFindIdentityMappable =>
      if page =? PHYSICAL_PAGE_FREE then
        let VirtualAddress :=
          UINTN (StartAddress Segment + Z.shiftl Offset PageShift) in
        if IsRangeFree VirtualAddress then Some (inr s) else Some (inl s)
      else Some (inl s)
  | PhysicalMemoryFindInvalid => None
  end.

(** [for (SpanCount = 0; SpanCount < SpanPageCount; SpanCount += 1)]: returns
    the final [SpanCount]. *)
Fixpoint SpanLoop (SearchType : PHYSICAL_MEMORY_SEARCH_TYPE)
    (IsRangeFree : VaAccounting) (si : nat) (Segment : PHYSICAL_MEMORY_SEGMENT)
    (Offset : Z) (remaining : nat) (SpanCount : Z) (s : MmState)
  : option (Z * MmState) :=
  match remaining with
  | O => Some (SpanCount, s)
  | S remaining' =>
      page ← ReadPage si (Z.to_nat (Offset + SpanCount)) s;
      r ← SpanCheckPage SearchType IsRangeFree Segment Offset page s;
      match r with
      | inl s' => Some (SpanCount, s')
      | inr s' =>
          SpanLoop SearchType IsRangeFree si Segment Offset remaining'
                   (SpanCount + 1) s'
      end
  end.

Definition SegmentPages (g : PHYSICAL_MEMORY_SEGMENT) : Z :=
  Z.shiftr (ULONGLONG (EndAddress g - StartAddress g)) PageShift.

(** The successor of a segment in the ring around the list head. *)
Definition NextSegment (segs : list PHYSICAL_MEMORY_SEGMENT) (si : nat) : nat :=
  if Nat.eqb (S si) (length segs) then O else S si.

Record FindResult : Type := mkFindResult {
  FoundSegment : nat;
  SelectedPageOffset : Z;
  PagesFound : Z
}.

(** What one turn of the do-while loop of the search comes to: a return from
    the routine ([None] is NULL, which is also what the [break] leads to), or
    the loop condition, reached at the end of the body or by [continue]. *)
Inductive FindTurn : Type :=
  | FindReturn (r : option FindResult) (s : MmState)
  | FindAgain (si : nat) (Offset : Z) (FirstIteration : bool) (s : MmState).

(** The body of the do-while loop. *)
Definition FindLoopBody (PageCount PageAlignment : Z)
    (SearchType : PHYSICAL_MEMORY_SEARCH_TYPE) (IsRangeFree : VaAccounting)
    (LastSegment : nat) (si : nat) (Offset : Z) (FirstIteration : bool)
    (s : MmState) : option FindTurn :=
  Segment ← Segments s !! si;
  let SegmentPageCount := SegmentPages Segment in
  if (SegmentPageCount <=? Offset) ||
     (negb (IsFindPagable SearchType) &&
      (SegmentPageCount <? ULONGLONG (Offset + PageCount))) ||
     (IsFindFree SearchType && (FreePages Segment <? PageCount))
  then
    if Nat.eqb si LastSegment && negb FirstIteration then Some (FindReturn None s)
    else
      let si' := NextSegment (Segments s) si in
      Segment' ← Segments s !! si';
      let StartPage := Z.shiftr (StartAddress Segment') PageShift in
      Some (FindAgain si'
              (ULONGLONG (ALIGN_RANGE_UP StartPage PageAlignment - StartPage))
              false s)
  else
    let SpanPageCount :=
      if IsFindPagable SearchType
      then Z.min PageCount (SegmentPageCount - Offset)
      else PageCount in
    '(SpanCount, s1) ← SpanLoop SearchType IsRangeFree si Segment Offset
                         (Z.to_nat SpanPageCount) 0 s;
    if (SpanCount =? PageCount) ||
       (negb (SpanCount =? 0) && IsFindPagable SearchType)
    then
      let c := Cursors s1 in
      let c' :=
        if IsFindPagable SearchType
        then mkCursors (MmLastAllocatedSegment c) (MmLastAllocatedSegmentOffset c)
                       si (ULONGLONG (Offset + SpanCount))
        else mkCursors si (UINTN (Offset + SpanCount))
                       (MmLastPagedSegment c) (MmLastPagedSegmentOffset c) in
      Some (FindReturn (Some (mkFindResult si Offset SpanCount)) (set_Cursors c' s1))
    else
      Some (FindAgain si
              (if IsFindPagable SearchType then ULONGLONG (Offset + 1)
               else ULONGLONG (Offset + PageAlignment))
              FirstIteration s1).

(** The do-while loop of the search, with its condition
    [(Segment != LastSegment) || (Offset != FirstOffset)].  [fuel] bounds the
    number of turns; the outer [option] is [None] on a fault or when the fuel
    is spent, the inner one is the routine's result, [None] for NULL. *)
Fixpoint FindLoop (fuel : nat) (PageCount PageAlignment : Z)
    (SearchType : PHYSICAL_MEMORY_SEARCH_TYPE) (IsRangeFree : VaAccounting)
    (LastSegment : nat) (FirstOffset : Z)
    (si : nat) (Offset : Z) (FirstIteration : bool) (s : MmState)
  : option (option FindResult * MmState) :=
  match fuel with
  | O => None
  | S fuel' =>
      turn ← FindLoopBody PageCount PageAlignment SearchType IsRangeFree
                          LastSegment si Offset FirstIteration s;
      match turn with
      | FindReturn r s' => Some (r, s')
      | FindAgain si' Offset' FirstIteration' s' =>
          if negb (Nat.eqb si' LastSegment) || negb (Offset' =? FirstOffset)
          then FindLoop fuel' PageCount PageAlignment SearchType IsRangeFree
                        LastSegment FirstOffset si' Offset' FirstIteration' s'
          else Some (None, s')
      end
  end.

(** A bound on the turns of the search loop: every turn either moves to the
    next segment or moves the offset forward inside a segment, and the segment
    the search started in is scanned at most twice. *)
Definition FindFuel (s : MmState) : nat :=
  (2 * (foldr (λ g n, length (PhysicalPages g) + n) 0 (Segments s)
        + length (Segments s)) + 2)%nat.

Definition MmpFindPhysicalPages (s : MmState) (PageCount PageAlignment : Z)
    (SearchType : PHYSICAL_MEMORY_SEARCH_TYPE) (IsRangeFree : VaAccounting)
  : option (option FindResult * MmState) :=
  let c := Cursors s in
  let LastSegment :=
    if IsFindPagable SearchType then MmLastPagedSegment c
    else MmLastAllocatedSegment c in
  let LastSegmentOffset :=
    if IsFindPagable SearchType then MmLastPagedSegmentOffset c
    else MmLastAllocatedSegmentOffset c in
  Segment ← Segments s !! LastSegment;
  let StartPage := Z.shiftr (StartAddress Segment) PageShift in
  let AlignedSegmentStartPage :=
    ALIGN_RANGE_UP (ULONGLONG (StartPage + LastSegmentOffset)) PageAlignment in
  let Offset := ULONGLONG (AlignedSegmentStartPage - StartPage) in
  FindLoop (FindFuel s) PageCount PageAlignment SearchType IsRangeFree
           LastSegment Offset LastSegment Offset true s.

(** ** MmpAllocatePhysicalPages *)

(** The loop that marks the pages of the run found as non-paged. *)
Fixpoint AllocateMarkLoop (si : nat) (count : nat) (idx : nat) (s : MmState) : MmState :=
  match count with
  | O => s
  | S count' =>
      let s1 := set_Segments
                  (alter (λ g, set_FreePages (ULONGLONG (FreePages g - 1)) g) si
                         (Segments s)) s in
      let c := Counts s1 in
      let s2 := set_Counts
                  (mkCounts (MmTotalPhysicalPages c)
                            (UINTN (MmTotalAllocatedPhysicalPages c + 1))
                            (MmMinimumFreePhysicalPages c)
                            (UINTN (MmNonPagedPhysicalPages c + 1))) s1 in
      AllocateMarkLoop si count' (S idx)
                       (WritePage si idx PHYSICAL_PAGE_FLAG_NON_PAGED s2)
  end.

(** "Check the levels from highest page count to the lowest." *)
Definition AllocateWarningCheck (s : MmState) : MmState * bool :=
  let w := Warnings s in
  let allocated := MmTotalAllocatedPhysicalPages (Counts s) in
  let at_level1 :=
    match MmPhysicalMemoryWarningLevel w with MemoryWarningLevel1 => true | _ => false end in
  let at_level2 :=
    match MmPhysicalMemoryWarningLevel w with MemoryWarningLevel2 => true | _ => false end in
  if negb at_level1 && (MmPhysicalMemoryWarningLevel1HighPages w <=? allocated)
  then (set_Warnings (set_Level MemoryWarningLevel1 w) s, true)
  else if negb at_level2 && (MmPhysicalMemoryWarningLevel2HighPages w <=? allocated)
  then (set_Warnings (set_Level MemoryWarningLevel2 w) s, true)
  else (s, false).

(** "Periodically check to see if memory warnings should be signaled." *)
Definition AllocateCountAndWarn (PageCount : Z) (s : MmState) : MmState * bool :=
  let s1 := set_Warnings
              (set_AllocationCount
                 (UINTN (MmPhysicalMemoryAllocationCount (Warnings s) + 1))
                 (Warnings s)) s in
  if (Z.land (MmPhysicalMemoryAllocationCount (Warnings s1))
             (MmPhysicalMemoryWarningCountMask (Warnings s1)) =? 0) ||
     (MmPhysicalMemoryWarningCountMask (Warnings s1) <=? PageCount)
  then AllocateWarningCheck s1
  else (s1, false).

Inductive AllocateStep : Type :=
  | AllocateFound (WorkingAllocation : Z) (s : MmState) (SignalEvent : bool)
  | AllocateNotFound (FreePageTarget : Z) (s : MmState).

(** One turn of the [while (TRUE)] loop, up to the call of MmRequestPagingOut;
    [Alignment] is already in pages. *)
Definition AllocateAttempt (s : MmState) (PageCount Alignment : Z)
  : option AllocateStep :=
  '(found, s1) ← MmpFindPhysicalPages s PageCount Alignment PhysicalMemoryFindFree
                                      (λ _, true);
  match found with
  | Some r =>
      Segment ← Segments s1 !! FoundSegment r;
      let WorkingAllocation :=
        ULONGLONG (StartAddress Segment + Z.shiftl (SelectedPageOffset r) PageShift) in
      let s2 := AllocateMarkLoop (FoundSegment r) (Z.to_nat PageCount)
                                 (Z.to_nat (SelectedPageOffset r)) s1 in
      let '(s3, signal) := AllocateCountAndWarn PageCount s2 in
      Some (AllocateFound WorkingAllocation s3 signal)
  | None =>
      let wanted := ULONGLONG (PageCount + Z.shiftr Alignment PageShift) in
      let FreePageTarget :=
        if MmMinimumFreePhysicalPages (Counts s1) <? wanted then wanted
        else MmMinimumFreePhysicalPages (Counts s1) in
      Some (AllocateNotFound FreePageTarget s1)
  end.

(** What the allocating thread sees when the wait on [MmPagingFreePagesEvent]
    returns: what other threads did to the state while the lock was not
    held, and the reading of the time counter. *)
Record WakeUp : Type := mkWakeUp {
  wake_update : MmState → MmState;
  wake_time : Z
}.

Inductive AllocateOutcome : Type :=
  | AllocateReturned (WorkingAllocation : Z) (s : MmState) (SignalEvent : bool)
  | AllocateCrashedOutOfMemory (s : MmState)
  | AllocateStillWaiting (s : MmState).

(** The loop; the second component lists the targets passed to
    MmRequestPagingOut, in order. *)
Fixpoint AllocateLoop (env : list WakeUp) (Frequency : Z) (Timeout : Z)
    (PageCount Alignment : Z) (s : MmState) : option (AllocateOutcome * list Z) :=
  step ← AllocateAttempt s PageCount Alignment;
  match step with
  | AllocateFound a s' signal => Some (AllocateReturned a s' signal, [])
  | AllocateNotFound target s' =>
      match env with
      | [] => Some (AllocateStillWaiting s', [target])
      | w :: env' =>
          let s'' := wake_update w s' in
          if Timeout =? 0 then
            '(o, reqs) ← AllocateLoop env' Frequency
                           (ULONGLONG (wake_time w +
                              Frequency * PHYSICAL_MEMORY_ALLOCATION_TIMEOUT))
                           PageCount Alignment s'';
            Some (o, target :: reqs)
          else if Timeout <=? wake_time w then
            Some (AllocateCrashedOutOfMemory s'', [target])
          else
            '(o, reqs) ← AllocateLoop env' Frequency Timeout PageCount Alignment s'';
            Some (o, target :: reqs)
      end
  end.

(** MmpAllocatePhysicalPages; [Alignment] is in bytes. *)
Definition MmpAllocatePhysicalPages (env : list WakeUp) (Frequency : Z)
    (s : MmState) (PageCount Alignment : Z) : option (AllocateOutcome * list Z) :=
  let Alignment1 := Z.shiftr Alignment PageShift in
  let Alignment2 := if Alignment1 =? 0 then 1 else Alignment1 in
  AllocateLoop env Frequency 0 PageCount Alignment2 s.

(** ** MmpAllocateIdentityMappablePhysicalPages *)



(** ** MmpPageOutPhysicalPages *)

(** MmpPageOut belongs to the image-section code outside the sources.  One
    call is a function of the state, the paging entry and the physical
    address, and yields the status, the count stored through [PagesPaged]
    and the state it leaves. *)
Definition PageOutCall : Type := MmState → Z → Z → KSTATUS * Z * MmState.

Record PageOutLocals : Type := mkPageOutLocals {
  FreePagesTarget : Z;
  FailureCount : Z;
  PageCountSinceEvent : Z;
  TotalPagesPaged : Z;
  FreePagesEventSignals : nat
}.

(** The first half of a turn of the loop, down to the call of MmpPageOut:
    [Break] leaves the loop, [Continue] carries the paging entry and the
    physical address of the page selected. *)
Definition PageOutSelect (l : PageOutLocals) (s : MmState)
  : option (LoopStep (PageOutLocals * MmState) * (Z * Z)) :=
  let c := Counts s in
  let realistic := UINTN (MmTotalPhysicalPages c - MmNonPagedPhysicalPages c) in
  let target := if realistic <? FreePagesTarget l then realistic else FreePagesTarget l in
  let l1 := mkPageOutLocals target (FailureCount l) (PageCountSinceEvent l)
                            (TotalPagesPaged l) (FreePagesEventSignals l) in
  let FreePages := UINTN (MmTotalPhysicalPages c - MmTotalAllocatedPhysicalPages c) in
  if (target <=? FreePages) || (target <=? TotalPagesPaged l1)
  then Some (Break (l1, s), (0, 0))
  else
    '(found, s1) ← MmpFindPhysicalPages s 1 1 PhysicalMemoryFindPagable (λ _, true);
    match found with
    | None => Some (Break (l1, s1), (0, 0))
    | Some r =>
        Segment ← Segments s1 !! FoundSegment r;
        let PhysicalAddress :=
          ULONGLONG (StartAddress Segment + Z.shiftl (SelectedPageOffset r) PageShift) in
        PagingEntry ← PhysicalPages Segment !! Z.to_nat (SelectedPageOffset r);
        Some (Continue (l1, s1), (PagingEntry, PhysicalAddress))
    end.

(** The second half of a turn, from the return of MmpPageOut. *)
Definition PageOutAccount (Status : KSTATUS) (PagesPaged : Z) (l : PageOutLocals)
  : LoopStep PageOutLocals :=
  let l1 :=
    if KSUCCESS Status then
      let since := ULONGLONG (PageCountSinceEvent l + PagesPaged) in
      if PAGING_EVENT_SIGNAL_PAGE_COUNT <=? since
      then mkPageOutLocals (FreePagesTarget l) (FailureCount l) 0 (TotalPagesPaged l)
                           (S (FreePagesEventSignals l))
      else mkPageOutLocals (FreePagesTarget l) (FailureCount l) since
                           (TotalPagesPaged l) (FreePagesEventSignals l)
    else l in
  let Failure :=
    match Status with
    | STATUS_SUCCESS => false
    | STATUS_RESOURCE_IN_USE => false
    | _ => true
    end in
  let l2 := mkPageOutLocals (FreePagesTarget l1) (FailureCount l1)
                            (PageCountSinceEvent l1)
                            (ULONGLONG (TotalPagesPaged l1 + PagesPaged))
                            (FreePagesEventSignals l1) in
  if Failure then
    let l3 := mkPageOutLocals (FreePagesTarget l2) (ULONG (FailureCount l2 + 1))
                              (PageCountSinceEvent l2) (TotalPagesPaged l2)
                              (FreePagesEventSignals l2) in
    if PHYSICAL_MEMORY_MAX_PAGE_OUT_FAILURE_COUNT <=? FailureCount l3
    then Break l3 else Continue l3
  else Continue l2.

(** The loop, one call of MmpPageOut per turn that reaches it; [None] also
    when the calls supplied run out before the loop ends. *)
Fixpoint PageOutLoop (calls : list PageOutCall) (l : PageOutLocals) (s : MmState)
  : option (PageOutLocals * MmState * list PageOutCall) :=
  '(step, (PagingEntry, PhysicalAddress)) ← PageOutSelect l s;
  match step with
  | Break (l1, s1) => Some (l1, s1, calls)
  | Continue (l1, s1) =>
      match calls with
      | [] => None
      | call :: calls' =>
          let '(Status, PagesPaged, s2) := call s1 PagingEntry PhysicalAddress in
          match PageOutAccount Status PagesPaged l1 with
          | Break l2 => Some (l2, s2, calls')
          | Continue l2 => PageOutLoop calls' l2 s2
          end
      end
  end.

Record PageOutResult : Type := mkPageOutResult {
  pageout_return : Z;
  pageout_state : MmState;
  pageout_failures : Z;
  pageout_signals : nat;
  pageout_calls_left : list PageOutCall
}.

(** MmpPageOutPhysicalPages *)
Definition MmpPageOutPhysicalPages (calls : list PageOutCall) (s : MmState)
    (Target : Z) : option PageOutResult :=
  '(l, s', rest) ← PageOutLoop calls (mkPageOutLocals Target 0 0 0 0) s;
  let signals :=
    if negb (PageCountSinceEvent l =? 0) || (TotalPagesPaged l =? 0)
    then S (FreePagesEventSignals l) else FreePagesEventSignals l in
  Some (mkPageOutResult (TotalPagesPaged l) s' (FailureCount l) signals rest).

(** ** Initialization from the boot memory map *)



















(** MmGetTotalFreePhysicalPages and MmGetTotalPhysicalPages. *)
Definition MmGetTotalPhysicalPages (s : MmState) : Z := MmTotalPhysicalPages (Counts s).
Definition MmGetTotalFreePhysicalPages (s : MmState) : Z :=
  UINTN (MmTotalPhysicalPages (Counts s) - MmTotalAllocatedPhysicalPages (Counts s)).

End Physical.

Module X86Mapping.

(** ** Definitions of x86/mapping.c *)

(** Modelled from the spec: the layout of a page table entry, the address
    space constants and the unmap flags are declared in headers outside the
    sources.  An entry is one 32-bit word; "leaves carry per-frame permission
    bits (present, writable, user/kernel, cache, dirty, accessed, global)" in
    the low bits, at the positions the processor fixes, and the frame number
    ([Entry]) in the upper twenty bits. *)
Definition PTE_Present (pte : Z) : bool := Z.testbit pte 0.
Definition PTE_Dirty (pte : Z) : bool := Z.testbit pte 6.
Definition PTE_Entry (pte : Z) : Z := Z.shiftr pte 12.
(** [Pte.Present = 0] *)
Definition PTE_ClearPresent (pte : Z) : Z := Z.clearbit pte 0.

Definition PAGE_SHIFT : Z := 12.
Definition PAGE_SIZE : Z := 4096.
Definition PAGE_DIRECTORY_SHIFT : Z := 22.
Definition PTE_INDEX_MASK : Z := 4190208.
Definition KERNEL_VA_START : Z := 2147483648.
Definition USER_VA_END : Z := 2147479552.
Definition UNMAP_FLAG_SEND_INVALIDATE_IPI : Z := 1.
Definition UNMAP_FLAG_FREE_PHYSICAL_PAGES : Z := 2.
Definition INVALID_PHYSICAL_ADDRESS : Z := 18446744073709551615.

(** What MmpUnmapPages reads and writes.  [Directory] is the page directory
    seen at X86_PDT, [MmKernelPageDirectory] the kernel's, both by directory
    index; [PageTables] is the memory of the leaf tables, by the frame of the
    table and the index in it, which is what [GET_PAGE_TABLE (DirectoryIndex)]
    shows for the frame in [Directory[DirectoryIndex].Entry].  A word that is
    not in a map is zero. *)
Record ADDRESS_SPACE_X86 : Type := mkSpace {
  Directory : gmap Z Z;
  MmKernelPageDirectory : gmap Z Z;
  PageTables : gmap (Z * Z) Z;
  ResidentSet : Z
}.

Definition word {K} `{Countable K} (m : gmap K Z) (k : K) : Z := default 0 (m !! k).

Definition set_Directory (v : gmap Z Z) (sp : ADDRESS_SPACE_X86) : ADDRESS_SPACE_X86 :=
  mkSpace v (MmKernelPageDirectory sp) (PageTables sp) (ResidentSet sp).
Definition set_PageTables (v : gmap (Z * Z) Z) (sp : ADDRESS_SPACE_X86) : ADDRESS_SPACE_X86 :=
  mkSpace (Directory sp) (MmKernelPageDirectory sp) v (ResidentSet sp).

Definition HasFlag (UnmapFlags Flag : Z) : bool := negb (Z.land UnmapFlags Flag =? 0).

(** INTN, the signed 32-bit integer of [MappedCount]. *)
Definition INTN (x : Z) : Z := (x + 2 ^ 31) mod 2 ^ 32 - 2 ^ 31.

Definition DirectoryIndexOf (CurrentVirtual : Z) : Z :=
  Z.shiftr CurrentVirtual PAGE_DIRECTORY_SHIFT.
Definition TableIndexOf (CurrentVirtual : Z) : Z :=
  Z.shiftr (Z.land CurrentVirtual PTE_INDEX_MASK) PAGE_SHIFT.

(** "Check to see if the kernel page directory has an entry, and update this
    directory if so." *)
Definition SyncKernelDirectory (sp : ADDRESS_SPACE_X86) (DirectoryIndex : Z)
  : ADDRESS_SPACE_X86 :=
  let pde := word (Directory sp) DirectoryIndex in
  if (Z.shiftr KERNEL_VA_START PAGE_DIRECTORY_SHIFT <=? DirectoryIndex) &&
     negb (PTE_Present pde) && (PTE_Entry pde =? 0)
  then set_Directory
         (<[DirectoryIndex := word (MmKernelPageDirectory sp) DirectoryIndex]>
            (Directory sp)) sp
  else sp.

Record UnmapLocals : Type := mkUnmapLocals {
  ChangedSomething : bool;
  MappedCount : Z;
  TlbInvalidated : list Z
}.

(** One turn of the first loop, "loop through once to turn them all off". *)
Definition UnmapFirstPassPage (UnmapFlags : Z) (WantDirty InvalidateTlb : bool)
    (CurrentVirtual : Z) (st : ADDRESS_SPACE_X86 * UnmapLocals)
  : ADDRESS_SPACE_X86 * UnmapLocals :=
  let '(sp, l) := st in
  let DirectoryIndex := DirectoryIndexOf CurrentVirtual in
  let sp1 := SyncKernelDirectory sp DirectoryIndex in
  let pde := word (Directory sp1) DirectoryIndex in
  if negb (PTE_Present pde) then (sp1, l)
  else
    let slot := (PTE_Entry pde, TableIndexOf CurrentVirtual) in
    let pte := word (PageTables sp1) slot in
    if negb (PTE_Entry pte =? 0) then
      let PageWasPresent := PTE_Present pte in
      let pte' :=
        if negb (HasFlag UnmapFlags UNMAP_FLAG_FREE_PHYSICAL_PAGES) && negb WantDirty
        then 0 else PTE_ClearPresent pte in
      let invalidate :=
        PageWasPresent && InvalidateTlb &&
        negb (HasFlag UnmapFlags UNMAP_FLAG_SEND_INVALIDATE_IPI) in
      (set_PageTables (<[slot := pte']> (PageTables sp1)) sp1,
       mkUnmapLocals (ChangedSomething l || PageWasPresent)
                     (INTN (MappedCount l + 1))
                     (if invalidate then TlbInvalidated l ++ [CurrentVirtual]
                      else TlbInvalidated l))
    else (sp1, l).

Fixpoint UnmapFirstPass (UnmapFlags : Z) (WantDirty InvalidateTlb : bool)
    (count : nat) (CurrentVirtual : Z) (st : ADDRESS_SPACE_X86 * UnmapLocals)
  : ADDRESS_SPACE_X86 * UnmapLocals :=
  match count with
  | O => st
  | S count' =>
      UnmapFirstPass UnmapFlags WantDirty InvalidateTlb count'
        (UINTN (CurrentVirtual + PAGE_SIZE))
        (UnmapFirstPassPage UnmapFlags WantDirty InvalidateTlb CurrentVirtual st)
  end.

Record UnmapRun : Type := mkUnmapRun {
  RunPhysicalPage : Z;
  RunSize : Z;
  FreedRuns : list (Z * Z);
  PageWasDirty : bool
}.

(** One turn of the second loop, "loop through again to free the physical
    pages or check if things were dirty".  [FreedRuns] lists the calls of
    MmFreePhysicalPages, address and page count. *)
Definition UnmapSecondPassPage (UnmapFlags : Z) (WantDirty : bool)
    (CurrentVirtual : Z) (st : ADDRESS_SPACE_X86 * UnmapRun)
  : ADDRESS_SPACE_X86 * UnmapRun :=
  let '(sp, r) := st in
  let pde := word (Directory sp) (DirectoryIndexOf CurrentVirtual) in
  if negb (PTE_Present pde) then st
  else
    let slot := (PTE_Entry pde, TableIndexOf CurrentVirtual) in
    let pte := word (PageTables sp) slot in
    if PTE_Entry pte =? 0 then st
    else
      let r1 :=
        if HasFlag UnmapFlags UNMAP_FLAG_FREE_PHYSICAL_PAGES then
          let PhysicalPage := ULONG (Z.shiftl (PTE_Entry pte) PAGE_SHIFT) in
          if negb (RunSize r =? 0) then
            if ULONGLONG (RunPhysicalPage r + RunSize r) =? PhysicalPage
            then mkUnmapRun (RunPhysicalPage r) (UINTN (RunSize r + PAGE_SIZE))
                            (FreedRuns r) (PageWasDirty r)
            else mkUnmapRun PhysicalPage PAGE_SIZE
                            (FreedRuns r ++
                               [(RunPhysicalPage r, Z.shiftr (RunSize r) PAGE_SHIFT)])
                            (PageWasDirty r)
          else mkUnmapRun PhysicalPage PAGE_SIZE (FreedRuns r) (PageWasDirty r)
        else r in
      let r2 :=
        if WantDirty && PTE_Dirty pte
        then mkUnmapRun (RunPhysicalPage r1) (RunSize r1) (FreedRuns r1) true
        else r1 in
      (set_PageTables (<[slot := 0]> (PageTables sp)) sp, r2).

Fixpoint UnmapSecondPass (UnmapFlags : Z) (WantDirty : bool)
    (count : nat) (CurrentVirtual : Z) (st : ADDRESS_SPACE_X86 * UnmapRun)
  : ADDRESS_SPACE_X86 * UnmapRun :=
  match count with
  | O => st
  | S count' =>
      UnmapSecondPass UnmapFlags WantDirty count'
        (UINTN (CurrentVirtual + PAGE_SIZE))
        (UnmapSecondPassPage UnmapFlags WantDirty CurrentVirtual st)
  end.

(** Modelled from the spec: MmpUpdateResidentSetCounter is outside the
    sources; it adds a signed amount to the address space's "resident-set
    counter". *)
Definition MmpUpdateResidentSetCounter (sp : ADDRESS_SPACE_X86) (Addition : Z)
  : ADDRESS_SPACE_X86 :=
  mkSpace (Directory sp) (MmKernelPageDirectory sp) (PageTables sp)
          (UINTN (ResidentSet sp + Addition)).

Record UnmapResult : Type := mkUnmapResult {
  unmap_space : ADDRESS_SPACE_X86;
  unmap_tlb_invalidated : list Z;
  unmap_ipi_sent : bool;
  unmap_freed : list (Z * Z);
  unmap_dirty : option bool
}.

(** MmpUnmapPages.  [ThreadCount] is [None] when there is no current thread,
    else the thread count of the owning process; [WantDirty] tells whether
    [PageWasDirty] is a non-null pointer.  Without a current thread there is
    no address space, and the update of the resident set of a range below
    KERNEL_VA_START has no result. *)
Definition MmpUnmapPages (ThreadCount : option Z) (sp : ADDRESS_SPACE_X86)
    (VirtualAddress PageCount UnmapFlags : Z) (WantDirty : bool)
  : option UnmapResult :=
  let single :=
    match ThreadCount with
    | Some n => (n <=? 1) && (VirtualAddress <? USER_VA_END)
    | None => false
    end in
  let UnmapFlags1 :=
    if single then Z.land UnmapFlags (Z.lnot UNMAP_FLAG_SEND_INVALIDATE_IPI)
    else UnmapFlags in
  let InvalidateTlb :=
    match ThreadCount with
    | Some n => negb (single && (n =? 0))
    | None => true
    end in
  let '(sp1, l) :=
    UnmapFirstPass UnmapFlags1 WantDirty InvalidateTlb (Z.to_nat PageCount)
                   VirtualAddress (sp, mkUnmapLocals false 0 []) in
  let ipi := ChangedSomething l && HasFlag UnmapFlags1 UNMAP_FLAG_SEND_INVALIDATE_IPI in
  let '(sp2, r) :=
    if WantDirty || HasFlag UnmapFlags1 UNMAP_FLAG_FREE_PHYSICAL_PAGES then
      UnmapSecondPass UnmapFlags1 WantDirty (Z.to_nat PageCount) VirtualAddress
                      (sp1, mkUnmapRun INVALID_PHYSICAL_ADDRESS 0 [] false)
    else (sp1, mkUnmapRun INVALID_PHYSICAL_ADDRESS 0 [] false) in
  let freed :=
    if negb (RunSize r =? 0)
    then FreedRuns r ++ [(RunPhysicalPage r, Z.shiftr (RunSize r) PAGE_SHIFT)]
    else FreedRuns r in
  let dirty := if WantDirty then Some (PageWasDirty r) else None in
  if VirtualAddress <? KERNEL_VA_START then
    match ThreadCount with
    | None => None
    | Some _ =>
        Some (mkUnmapResult (MmpUpdateResidentSetCounter sp2 (- MappedCount l))
                            (TlbInvalidated l) ipi freed dirty)
    end
  else Some (mkUnmapResult sp2 (TlbInvalidated l) ipi freed dirty).

(** ** Other routines of x86/mapping.c *)

(** Modelled from the spec: PAGE_MASK and the position of the writable bit of
    a page table entry are declared in headers outside the sources; the mask
    is the page size less one, and the writable bit is the second of the
    "per-frame permission bits (present, writable, ...)", at the position the
    processor fixes. *)
Definition PAGE_MASK : Z := 4095.
Definition PTE_Writable (pte : Z) : bool := Z.testbit pte 1.

(** [Pte.Writable = v] and [Pte.Present = v]: the store to the one-bit field. *)
Definition PTE_SetBit (pte : Z) (bit : Z) (v : bool) : Z :=
  if v then Z.setbit pte bit else Z.clearbit pte bit.

(** The values of the MAP_FLAG_* bits the routines below test are declared in
    a header outside the sources; the routines are modelled for any values. *)
Record MAP_FLAGS : Type := mkMapFlags {
  MAP_FLAG_PRESENT : Z;
  MAP_FLAG_READ_ONLY : Z;
  MAP_FLAG_EXECUTE : Z;
  MAP_FLAG_DIRTY : Z
}.

(** "Sync the current directory entry to the kernel", as MmpVirtualToPhysical
    and MmpChangeMemoryRegionAccess do it for a kernel address. *)
Definition CopyKernelDirectoryEntry (sp : ADDRESS_SPACE_X86) (VirtualAddress : Z)
  : ADDRESS_SPACE_X86 :=
  let DirectoryIndex := DirectoryIndexOf VirtualAddress in
  if KERNEL_VA_START <=? VirtualAddress
  then set_Directory
         (<[DirectoryIndex := word (MmKernelPageDirectory sp) DirectoryIndex]>
            (Directory sp)) sp
  else sp.

Record TranslateResult : Type := mkTranslate {
  translate_space : ADDRESS_SPACE_X86;
  translate_address : Z;
  translate_attributes : Z
}.

(** MmpVirtualToPhysical; [translate_attributes] is what the routine stores
    through [Attributes] when that is not NULL. *)
Definition MmpVirtualToPhysical (K : MAP_FLAGS) (sp : ADDRESS_SPACE_X86)
    (VirtualAddress : Z) : TranslateResult :=
  let DirectoryIndex := DirectoryIndexOf VirtualAddress in
  let sp1 := CopyKernelDirectoryEntry sp VirtualAddress in
  let pde := word (Directory sp1) DirectoryIndex in
  if negb (PTE_Present pde) then mkTranslate sp1 INVALID_PHYSICAL_ADDRESS 0
  else
    let pte := word (PageTables sp1) (PTE_Entry pde, TableIndexOf VirtualAddress) in
    if PTE_Entry pte =? 0 then mkTranslate sp1 INVALID_PHYSICAL_ADDRESS 0
    else
      let PhysicalAddress :=
        UINTN (UINTN (Z.shiftl (PTE_Entry pte) PAGE_SHIFT)
               + Z.land (UINTN VirtualAddress) PAGE_MASK) in
      let a1 :=
        if PTE_Present pte then Z.lor 0 (Z.lor (MAP_FLAG_PRESENT K) (MAP_FLAG_EXECUTE K))
        else 0 in
      let a2 := if negb (PTE_Writable pte) then Z.lor a1 (MAP_FLAG_READ_ONLY K) else a1 in
      let a3 := if PTE_Dirty pte then Z.lor a2 (MAP_FLAG_DIRTY K) else a2 in
      mkTranslate sp1 PhysicalAddress a3.

(** MmpCheckDirectoryUpdates: the result and the address space it leaves. *)
Definition MmpCheckDirectoryUpdates (sp : ADDRESS_SPACE_X86) (FaultingAddress : Z)
  : bool * ADDRESS_SPACE_X86 :=
  if FaultingAddress <? KERNEL_VA_START then (false, sp)
  else
    let DirectoryIndex := DirectoryIndexOf FaultingAddress in
    if PTE_Present (word (MmKernelPageDirectory sp) DirectoryIndex) &&
       negb (PTE_Present (word (Directory sp) DirectoryIndex))
    then
      let sp1 := set_Directory
                   (<[DirectoryIndex := word (MmKernelPageDirectory sp) DirectoryIndex]>
                      (Directory sp)) sp in
      let pte := word (PageTables sp1)
                      (PTE_Entry (word (Directory sp1) DirectoryIndex),
                       TableIndexOf FaultingAddress) in
      if PTE_Present pte then (true, sp1) else (false, sp1)
    else (false, sp).

Record AccessLocals : Type := mkAccessLocals {
  AccessChangedSomething : bool;
  AccessTlbInvalidated : list Z
}.

(** One turn of the loop of MmpChangeMemoryRegionAccess. *)
Definition ChangeAccessPage (K : MAP_FLAGS) (SendInvalidateIpi InvalidateTlb : bool)
    (MapFlags MapFlagsMask : Z) (CurrentVirtual : Z)
    (st : ADDRESS_SPACE_X86 * AccessLocals) : ADDRESS_SPACE_X86 * AccessLocals :=
  let '(sp, l) := st in
  let Writable := Z.land MapFlags (MAP_FLAG_READ_ONLY K) =? 0 in
  let Present := negb (Z.land MapFlags (MAP_FLAG_PRESENT K) =? 0) in
  let DirectoryIndex := DirectoryIndexOf CurrentVirtual in
  let sp1 := CopyKernelDirectoryEntry sp CurrentVirtual in
  let pde := word (Directory sp1) DirectoryIndex in
  if negb (PTE_Present pde) then (sp1, l)
  else
    let slot := (PTE_Entry pde, TableIndexOf CurrentVirtual) in
    let pte := word (PageTables sp1) slot in
    if PTE_Entry pte =? 0 then (sp1, l)
    else
      let SetWritable :=
        negb (Z.land MapFlagsMask (MAP_FLAG_READ_ONLY K) =? 0) &&
        negb (eqb (PTE_Writable pte) Writable) in
      let pte1 := if SetWritable then PTE_SetBit pte 1 Writable else pte in
      let SetPresent :=
        negb (Z.land MapFlagsMask (MAP_FLAG_PRESENT K) =? 0) &&
        negb (eqb (PTE_Present pte1) Present) in
      let pte2 := if SetPresent then PTE_SetBit pte1 0 Present else pte1 in
      let ChangedSomethingThisRound := SetWritable || (SetPresent && negb Present) in
      let sp2 :=
        if SetWritable || SetPresent
        then set_PageTables (<[slot := pte2]> (PageTables sp1)) sp1
        else sp1 in
      if ChangedSomethingThisRound then
        if negb SendInvalidateIpi then
          if InvalidateTlb
          then (sp2, mkAccessLocals (AccessChangedSomething l)
                                    (AccessTlbInvalidated l ++ [CurrentVirtual]))
          else (sp2, l)
        else (sp2, mkAccessLocals true (AccessTlbInvalidated l))
      else (sp2, l).

Fixpoint ChangeAccessLoop (K : MAP_FLAGS) (SendInvalidateIpi InvalidateTlb : bool)
    (MapFlags MapFlagsMask : Z) (count : nat) (CurrentVirtual : Z)
    (st : ADDRESS_SPACE_X86 * AccessLocals) : ADDRESS_SPACE_X86 * AccessLocals :=
  match count with
  | O => st
  | S count' =>
      ChangeAccessLoop K SendInvalidateIpi InvalidateTlb MapFlags MapFlagsMask count'
        (UINTN (CurrentVirtual + PAGE_SIZE))
        (ChangeAccessPage K SendInvalidateIpi InvalidateTlb MapFlags MapFlagsMask
                          CurrentVirtual st)
  end.

Record ChangeAccessResult : Type := mkChangeAccess {
  access_space : ADDRESS_SPACE_X86;
  access_tlb_invalidated : list Z;
  access_ipi_sent : bool
}.

(** MmpChangeMemoryRegionAccess; [ThreadCount] is the thread count of the
    current process. *)
Definition MmpChangeMemoryRegionAccess (K : MAP_FLAGS) (ThreadCount : Z)
    (sp : ADDRESS_SPACE_X86) (VirtualAddress PageCount MapFlags MapFlagsMask : Z)
  : ChangeAccessResult :=
  let user := negb (KERNEL_VA_START <=? VirtualAddress) in
  let SendInvalidateIpi := negb (user && (ThreadCount <=? 1)) in
  let InvalidateTlb := negb (user && (ThreadCount <=? 1) && (ThreadCount =? 0)) in
  let '(sp', l) :=
    ChangeAccessLoop K SendInvalidateIpi InvalidateTlb MapFlags MapFlagsMask
                     (Z.to_nat PageCount) VirtualAddress
                     (sp, mkAccessLocals false []) in
  mkChangeAccess sp' (AccessTlbInvalidated l) (AccessChangedSomething l).

Record TearDownLocals : Type := mkTearDown {
  TearRunPhysicalAddress : Z;
  TearRunSize : Z;
  TearTotal : Z;
  TearFreed : list (Z * Z)
}.

(** One turn of the loop of MmpTearDownPageTables, "free every allocated page
    table in user mode"; [TearFreed] lists the calls of MmFreePhysicalPages,
    address and page count. *)
Definition TearDownStep (Directory : gmap Z Z) (DirectoryIndex : Z) (l : TearDownLocals)
  : TearDownLocals :=
  let pde := word Directory DirectoryIndex in
  if negb (PTE_Entry pde =? 0) then
    let Total := ULONG (TearTotal l + 1) in
    let PhysicalAddress := ULONG (Z.shiftl (PTE_Entry pde) PAGE_SHIFT) in
    if negb (TearRunSize l =? 0) then
      if ULONGLONG (TearRunPhysicalAddress l + TearRunSize l) =? PhysicalAddress
      then mkTearDown (TearRunPhysicalAddress l) (UINTN (TearRunSize l + PAGE_SIZE))
                      Total (TearFreed l)
      else mkTearDown PhysicalAddress PAGE_SIZE Total
                      (TearFreed l ++
                         [(TearRunPhysicalAddress l, Z.shiftr (TearRunSize l) PAGE_SHIFT)])
    else mkTearDown PhysicalAddress PAGE_SIZE Total (TearFreed l)
  else l.

Fixpoint TearDownLoop (Directory : gmap Z Z) (count : nat) (DirectoryIndex : Z)
    (l : TearDownLocals) : TearDownLocals :=
  match count with
  | O => l
  | S count' =>
      TearDownLoop Directory count' (ULONG (DirectoryIndex + 1))
                   (TearDownStep Directory DirectoryIndex l)
  end.

(** MmpTearDownPageTables.  The count of page tables of the address space is
    a field of a structure declared outside the sources; it is passed in and
    the value the routine leaves is returned, with the calls of
    MmFreePhysicalPages in order. *)
Definition MmpTearDownPageTables (sp : ADDRESS_SPACE_X86) (PageTableCount : Z)
    (Terminated : bool) : Z * list (Z * Z) :=
  if negb Terminated then (PageTableCount, [])
  else
    let l := TearDownLoop (Directory sp)
               (Z.to_nat (Z.shiftr USER_VA_END PAGE_DIRECTORY_SHIFT)) 0
               (mkTearDown INVALID_PHYSICAL_ADDRESS 0 0 []) in
    let freed :=
      if negb (TearRunSize l =? 0)
      then TearFreed l ++ [(TearRunPhysicalAddress l, Z.shiftr (TearRunSize l) PAGE_SHIFT)]
      else TearFreed l in
    (ULONG (PageTableCount - TearTotal l), freed).

End X86Mapping.

Import Physical.

(** ** Notions the properties are stated with *)

(** The record of the frame at a physical address, found the way every
    routine of physical.c finds it. *)
Definition PhysicalPageAt (s : MmState) (PhysicalAddress : Z) : option Z :=
  match FindSegment (Segments s) PhysicalAddress with
  | Some (si, Segment) =>
      ReadPage si (Z.to_nat (PageOffsetIn Segment PhysicalAddress)) s
  | None => None
  end.

(** The records of the run of [n] frames that starts at a physical address,
    when the run lies inside the page array of the segment of its first
    frame. *)
Definition RunAt (s : MmState) (PhysicalAddress : Z) (n : nat) : option (list Z) :=
  match FindSegment (Segments s) PhysicalAddress with
  | Some (si, Segment) =>
      let run := take n (drop (Z.to_nat (PageOffsetIn Segment PhysicalAddress))
                              (PhysicalPages Segment)) in
      if decide (length run = n) then Some run else None
  | None => None
  end.

(** The paging entries of the pageable frames of a run. *)
Definition PagingEntriesOf (run : list Z) : list Z :=
  filter (λ page, IsNonPaged page = false) run.

Definition LockCountAt (s : MmState) (PagingEntry : Z) : option Z :=
  LockCount <$> PagingEntries s !! PagingEntry.

(** The counter invariant of the frame database. *)
Definition SegmentFreeSum (s : MmState) : Z :=
  foldr (λ g n, FreePages g + n) 0 (Segments s).

Definition CounterInvariant (s : MmState) : Prop :=
  SegmentFreeSum s =
    MmTotalPhysicalPages (Counts s) - MmTotalAllocatedPhysicalPages (Counts s) ∧
  MmNonPagedPhysicalPages (Counts s) <= MmTotalAllocatedPhysicalPages (Counts s) ∧
  MmTotalAllocatedPhysicalPages (Counts s) <= MmTotalPhysicalPages (Counts s).

Definition WarningLevelOf (s : MmState) : MEMORY_WARNING_LEVEL :=
  MmPhysicalMemoryWarningLevel (Warnings s).

(** The loops of MmpLockPhysicalPages and MmpUnlockPhysicalPages read on the
    list of the records they visit. *)
Fixpoint LockRun (run : list Z) (PageIndex : nat) (s : MmState)
  : option (KSTATUS * nat * MmState) :=
  match run with
  | [] => Some (STATUS_SUCCESS, PageIndex, s)
  | page :: run' =>
      step ← LockOnePage page s;
      match step with
      | Continue s' => LockRun run' (S PageIndex) s'
      | Break s' => Some (STATUS_RESOURCE_IN_USE, PageIndex, s')
      end
  end.

Fixpoint UnlockRun (run : list Z) (s : MmState) : option MmState :=
  match run with
  | [] => Some s
  | page :: run' => s' ← UnlockOnePage page s; UnlockRun run' s'
  end.

(** *** States for the worked examples *)

(** A database of one segment of 1000 frames at 1 MiB, the first
    [allocated] of them non-paged and the others free, with the thresholds
    and the mask the initialization derives for 1000 frames. *)
Definition ThousandFrames (allocated : nat) (level : MEMORY_WARNING_LEVEL)
    (AllocationCount : Z) : MmState :=
  mkMm [mkSegment 1048576 5144576 (1000 - Z.of_nat allocated)
          (replicate allocated PHYSICAL_PAGE_FLAG_NON_PAGED ++
           replicate (1000 - allocated) PHYSICAL_PAGE_FREE)]
       ∅
       (mkCounts 1000 (Z.of_nat allocated) 50 (Z.of_nat allocated))
       (mkCursors 0 0 0 0)
       (mkWarning level 970 950 900 870 7 AllocationCount 0).

(** Two frames at 1 MiB, both non-paged, and a paging entry at 0x5000 that
    is not yet attached to a frame. *)
Definition TwoFrames : MmState :=
  mkMm [mkSegment 1048576 1056768 0 [1; 1]]
       {[ 20480 := mkPagingEntry 28672 0 0 0 ]}
       (mkCounts 2 2 0 2) (mkCursors 0 0 0 0)
       (mkWarning MemoryWarningLevelNone 2 2 2 2 0 0 0).

(** The same two frames once the second has been made pageable and the
    pager's search has selected it: its paging entry has "paging out" set. *)
Definition TwoFramesPagingOut : MmState :=
  mkMm [mkSegment 1048576 1056768 0 [1; 20480]]
       {[ 20480 := mkPagingEntry 28672 0 0 PAGING_ENTRY_FLAG_PAGING_OUT ]}
       (mkCounts 2 2 0 1) (mkCursors 0 0 0 2)
       (mkWarning MemoryWarningLevelNone 2 2 2 2 0 0 0).

(** Sixteen pageable frames at 1 MiB, the paging entry of frame [i] at
    [0x5000 + 16 * i], none locked. *)
Definition SixteenPageable : MmState :=
  mkMm [mkSegment 1048576 1114112 0
          (map (λ i, 20480 + 16 * Z.of_nat i) (seq 0 16))]
       (list_to_map
          (map (λ i, (20480 + 16 * Z.of_nat i, mkPagingEntry 28672 (Z.of_nat i) 0 0))
               (seq 0 16)))
       (mkCounts 16 16 0 0) (mkCursors 0 0 0 0)
       (mkWarning MemoryWarningLevelNone 15 15 14 13 0 0 0).

(** Calls of MmpPageOut for the examples: one that fails with a hard error,
    and one that writes the page out and releases the frame. *)
Definition PageOutFails : PageOutCall :=
  λ s _ _, (STATUS_OTHER_FAILURE 1, 0, s).

Definition PageOutSucceeds : PageOutCall :=
  λ s PagingEntry PhysicalAddress,
    let heap := alter (set_Flags 0) PagingEntry (PagingEntries s) in
    match MmFreePhysicalPages (set_PagingEntries heap s) PhysicalAddress 1 with
    | Some r => (STATUS_SUCCESS, 1, free_state r)
    | None => (STATUS_SUCCESS, 1, s)
    end.



(** [k] allocations of one page each, with no alignment, none of which has
    to wait. *)
Definition AllocateOnePageTimes (k : nat) (s : MmState) : option MmState :=
  Nat.iter k
    (λ os, s' ← os;
           match MmpAllocatePhysicalPages [] 1000 s' 1 0 with
           | Some (AllocateReturned _ s'' _, _) => Some s''
           | _ => None
           end)
    (Some s).

(** The search writes the cursors and the paging entries only. *)
Definition SameDatabase (s s' : MmState) : Prop :=
  Segments s' = Segments s ∧ Counts s' = Counts s ∧ Warnings s' = Warnings s.

(** In the loop of MmFreePhysicalPages the event is marked exactly when the
    level has left the level the call started with. *)
Definition FreeSignalInvariant (level0 : MEMORY_WARNING_LEVEL)
    (st : MmState * FreeLocals) : Prop :=
  SignalEvent st.2 = true ↔ WarningLevelOf st.1 ≠ level0.

(** The state a run is locked in: the non-paged counter is a UINTN, and the
    lock counts of the paging entries of the run are not negative. *)
Definition LockReady (s : MmState) (run : list Z) : Prop :=
  0 <= MmNonPagedPhysicalPages (Counts s) < 2 ^ 32 ∧
  ∀ p e, p ∈ PagingEntriesOf run → PagingEntries s !! p = Some e → 0 <= LockCount e.

(** Two pageable frames at 1 MiB, the first locked three times and the second
    locked as often as the cap allows. *)
Definition TwoPageableOneAtCap : MmState :=
  mkMm [mkSegment 1048576 1056768 0 [20480; 20496]]
       {[ 20480 := mkPagingEntry 28672 0 3 0;
          20496 := mkPagingEntry 28672 1 MAX_PHYSICAL_PAGE_LOCK_COUNT 0 ]}
       (mkCounts 2 2 0 2) (mkCursors 0 0 0 0)
       (mkWarning MemoryWarningLevelNone 2 2 2 2 0 0 0).

Import X86Mapping.

(** *** Notions for the page tables *)

(** The leaf entry that covers a virtual address, read through the page
    directory: none when the directory entry is not present. *)
Definition LeafSlot (sp : ADDRESS_SPACE_X86) (VirtualAddress : Z) : option (Z * Z) :=
  let pde := word (Directory sp) (DirectoryIndexOf VirtualAddress) in
  if PTE_Present pde then Some (PTE_Entry pde, TableIndexOf VirtualAddress) else None.

Definition LeafEntry (sp : ADDRESS_SPACE_X86) (VirtualAddress : Z) : option Z :=
  slot ← LeafSlot sp VirtualAddress; Some (word (PageTables sp) slot).

(** The same, as MmpUnmapPages reads it: after the directory entry has been
    taken over from the kernel's page directory where that applies. *)
Definition LeafEntrySynced (sp : ADDRESS_SPACE_X86) (VirtualAddress : Z) : option Z :=
  LeafEntry (SyncKernelDirectory sp (DirectoryIndexOf VirtualAddress)) VirtualAddress.

(** A leaf entry with its present bit set covers the address. *)
Definition IsPresent (sp : ADDRESS_SPACE_X86) (VirtualAddress : Z) : bool :=
  match LeafEntry sp VirtualAddress with
  | Some pte => PTE_Present pte
  | None => false
  end.

(** A leaf entry with a frame in it covers the address. *)
Definition IsMapped (sp : ADDRESS_SPACE_X86) (VirtualAddress : Z) : bool :=
  match LeafEntrySynced sp VirtualAddress with
  | Some pte => negb (PTE_Entry pte =? 0)
  | None => false
  end.

(** The number of the [n] pages from an address on that satisfy [f]. *)
Fixpoint CountPages (f : Z → bool) (VirtualAddress : Z) (n : nat) : Z :=
  match n with
  | O => 0
  | S n' => (if f VirtualAddress then 1 else 0) +
            CountPages f (VirtualAddress + PAGE_SIZE) n'
  end.

(** The directory entry of an index is what the kernel's page directory would
    make of it. *)
Definition SyncedAt (sp : ADDRESS_SPACE_X86) (DirectoryIndex : Z) : Prop :=
  word (Directory (SyncKernelDirectory sp DirectoryIndex)) DirectoryIndex
    = word (Directory sp) DirectoryIndex.

(** The code's assertion on a range: a leaf entry with no frame in it is not
    present. *)
Definition NoFrameNotPresent (sp : ADDRESS_SPACE_X86) (VirtualAddress : Z) (n : nat)
  : Prop :=
  ∀ i pte, (i < n)%nat →
    LeafEntrySynced sp (VirtualAddress + Z.of_nat i * PAGE_SIZE) = Some pte →
    PTE_Entry pte = 0 → PTE_Present pte = false.

(** Directory entries of a range that are present and stand at different
    indices refer to different leaf tables. *)
Definition LeafTablesDistinct (sp : ADDRESS_SPACE_X86) (VirtualAddress : Z) (n : nat)
  : Prop :=
  ∀ i j, (i < n)%nat → (j < n)%nat →
    let di := DirectoryIndexOf (VirtualAddress + Z.of_nat i * PAGE_SIZE) in
    let dj := DirectoryIndexOf (VirtualAddress + Z.of_nat j * PAGE_SIZE) in
    di ≠ dj →
    PTE_Present (word (Directory sp) di) = true →
    PTE_Present (word (Directory sp) dj) = true →
    PTE_Entry (word (Directory sp) di) ≠ PTE_Entry (word (Directory sp) dj).

(** An address space with one leaf table, in frame 0x300, at directory index
    1; its entry 0 holds the frame 0x400 and is not present, its entry 1 holds
    the frame 0x401 and is present. *)
Definition OneLeafTable : ADDRESS_SPACE_X86 :=
  mkSpace {[ 1 := 3145731 ]} ∅ {[ (768, 0) := 4194310; (768, 1) := 4198407 ]} 10.

(** The directory entry MmpUnmapPages works with at an index: the entry of
    the address space's directory once the kernel's has been copied where
    the routine copies it. *)
Definition EffectivePde (sp : ADDRESS_SPACE_X86) (di : Z) : Z :=
  word (Directory (SyncKernelDirectory sp di)) di.

(** A page that is done: no present leaf entry covers it, and its directory
    entry has been taken over from the kernel's where that applies. *)
Definition PageDone (sp : ADDRESS_SPACE_X86) (b : Z) : Prop :=
  IsPresent sp b = false ∧ SyncedAt sp (DirectoryIndexOf b).

(** What the second loop and the update of the resident set leave of the page
    tables: the directories as they were, and every leaf entry as it was or
    not present. *)
Definition OnlyCleared (sp sp' : ADDRESS_SPACE_X86) : Prop :=
  Directory sp' = Directory sp ∧
  MmKernelPageDirectory sp' = MmKernelPageDirectory sp ∧
  ∀ slot, word (PageTables sp') slot = word (PageTables sp) slot ∨
          PTE_Present (word (PageTables sp') slot) = false.

(** An address space with one leaf table whose entry 0 is present and maps
    the frame at physical address 0, so that its frame field is zero. *)
Definition FrameZeroMapped : ADDRESS_SPACE_X86 :=
  mkSpace {[ 1 := 3145731 ]} ∅ {[ (768, 0) := 7 ]} 1.

(** ** Notions of the further properties *)

(** What a successful search for free pages has found and left: the run lies
    in the segment returned, every frame of it is free, the segment has at
    least that many free frames, and only the allocation cursor has moved,
    to the end of the run. *)
Definition FreeRunFound (s : MmState) (PageCount : Z) (r : FindResult) (s' : MmState)
  : Prop :=
  ∃ g, Segments s !! FoundSegment r = Some g ∧
       PagesFound r = PageCount ∧
       0 <= PageCount <= FreePages g ∧
       0 <= SelectedPageOffset r ∧
       SelectedPageOffset r < SegmentPages g ∧
       (∀ k, 0 <= k < PageCount →
             PhysicalPages g !! Z.to_nat (SelectedPageOffset r + k)
               = Some PHYSICAL_PAGE_FREE) ∧
       s' = set_Cursors
              (mkCursors (FoundSegment r) (UINTN (SelectedPageOffset r + PageCount))
                         (MmLastPagedSegment (Cursors s))
                         (MmLastPagedSegmentOffset (Cursors s))) s.

(** The free frames a segment's page array holds. *)
Definition FreeFramesOf (g : PHYSICAL_MEMORY_SEGMENT) : Z :=
  Z.of_nat (length (filter (λ page, page = PHYSICAL_PAGE_FREE) (PhysicalPages g))).

(** The frames the page arrays of the segments hold. *)
Definition TotalFramesOf (s : MmState) : Z :=
  foldr (λ g n, Z.of_nat (length (PhysicalPages g)) + n) 0 (Segments s).

(** The counters agree with the frame records: the free count of every
    segment is the number of free records of its page array, the total is
    the number of records, and the allocated count is the number of records
    that are not free. *)
Definition DatabaseInvariant (s : MmState) : Prop :=
  Forall (λ g, FreePages g = FreeFramesOf g) (Segments s) ∧
  MmTotalPhysicalPages (Counts s) = TotalFramesOf s ∧
  MmTotalAllocatedPhysicalPages (Counts s)
    = MmTotalPhysicalPages (Counts s) - SegmentFreeSum s ∧
  MmTotalPhysicalPages (Counts s) < 2 ^ 32.

(** The segments lie in the order of their addresses and do not overlap,
    and the page array of each covers its address range. *)
Definition SegmentsLaidOut (s : MmState) : Prop :=
  ∀ si g, Segments s !! si = Some g →
    0 <= StartAddress g ∧
    EndAddress g = StartAddress g + PageSize * Z.of_nat (length (PhysicalPages g)) ∧
    EndAddress g < 2 ^ 64 ∧
    ∀ sj h, (sj < si)%nat → Segments s !! sj = Some h → EndAddress h <= StartAddress g.

(** What the marking loop leaves of the state: the segment of the run with
    [count] frames less free and the frames of the run non-paged, the
    counters moved by [count]. *)
Definition RunMarked (si idx count : nat) (s s' : MmState) : Prop :=
  ∃ g g', Segments s !! si = Some g ∧
          Segments s' = <[si := g']> (Segments s) ∧
          StartAddress g' = StartAddress g ∧ EndAddress g' = EndAddress g ∧
          FreePages g' = FreePages g - Z.of_nat count ∧
          length (PhysicalPages g') = length (PhysicalPages g) ∧
          (∀ k, (k < count)%nat →
                PhysicalPages g' !! (idx + k)%nat = Some PHYSICAL_PAGE_FLAG_NON_PAGED) ∧
          (∀ i, (i < idx ∨ idx + count <= i)%nat →
                PhysicalPages g' !! i = PhysicalPages g !! i) ∧
          MmTotalPhysicalPages (Counts s') = MmTotalPhysicalPages (Counts s) ∧
          MmTotalAllocatedPhysicalPages (Counts s')
            = MmTotalAllocatedPhysicalPages (Counts s) + Z.of_nat count ∧
          MmMinimumFreePhysicalPages (Counts s') = MmMinimumFreePhysicalPages (Counts s) ∧
          MmNonPagedPhysicalPages (Counts s')
            = UINTN (MmNonPagedPhysicalPages (Counts s) + Z.of_nat count) ∧
          PagingEntries s' = PagingEntries s.

(** The offset the search starts at: the allocation cursor, aligned up as a
    physical page number. *)
Definition AlignedAllocationCursor (s : MmState) (g : PHYSICAL_MEMORY_SEGMENT)
    (PageAlignment : Z) : Z :=
  let StartPage := Z.shiftr (StartAddress g) PageShift in
  ULONGLONG
    (ALIGN_RANGE_UP (ULONGLONG (StartPage + MmLastAllocatedSegmentOffset (Cursors s)))
                    PageAlignment - StartPage).

(** What the loop of MmFreePhysicalPages leaves of the state when it has
    released every frame of a run. *)
Definition RunReleased (si idx : nat) (run : list Z) (s s' : MmState) : Prop :=
  ∃ g g', Segments s !! si = Some g ∧
          Segments s' = <[si := g']> (Segments s) ∧
          StartAddress g' = StartAddress g ∧ EndAddress g' = EndAddress g ∧
          FreePages g' = FreePages g + Z.of_nat (length run) ∧
          length (PhysicalPages g') = length (PhysicalPages g) ∧
          (∀ k, (k < length run)%nat →
                PhysicalPages g' !! (idx + k)%nat = Some PHYSICAL_PAGE_FREE) ∧
          (∀ i, (i < idx ∨ idx + length run <= i)%nat →
                PhysicalPages g' !! i = PhysicalPages g !! i) ∧
          MmTotalPhysicalPages (Counts s') = MmTotalPhysicalPages (Counts s) ∧
          MmTotalAllocatedPhysicalPages (Counts s')
            = MmTotalAllocatedPhysicalPages (Counts s) - Z.of_nat (length run) ∧
          MmMinimumFreePhysicalPages (Counts s') = MmMinimumFreePhysicalPages (Counts s) ∧
          MmNonPagedPhysicalPages (Counts s')
            = UINTN (MmNonPagedPhysicalPages (Counts s)
                     - (Z.of_nat (length run) - Z.of_nat (length (PagingEntriesOf run)))) ∧
          Cursors s' = Cursors s.

(** A frame the loop releases: it is allocated, and if it is pageable its
    paging entry is there and not flagged as being paged out. *)
Definition Releasable (s : MmState) (page : Z) : Prop :=
  page ≠ PHYSICAL_PAGE_FREE ∧
  (IsNonPaged page = false →
   ∃ e, PagingEntries s !! page = Some e ∧ IsPagingOut e = false).

(** A paging entry once the pager's search has selected its frame. *)
Definition FlaggedPagingOut (e : PAGING_ENTRY) : PAGING_ENTRY :=
  set_Flags (Z.lor (Flags e) PAGING_ENTRY_FLAG_PAGING_OUT) e.

(** What a successful search for pageable frames has found and left: between
    one and [PageCount] frames of one segment, each pageable with a paging
    entry that nobody had locked; exactly these paging entries are now
    flagged as being paged out, and only the pager's cursor has moved, to
    behind the run. *)
Definition PagableRunFound (s : MmState) (PageCount : Z) (r : FindResult) (s' : MmState)
  : Prop :=
  ∃ g run,
    Segments s !! FoundSegment r = Some g ∧
    0 <= PagesFound r <= PageCount ∧ (0 < PageCount → 1 <= PagesFound r) ∧
    0 <= SelectedPageOffset r ∧
    run = take (Z.to_nat (PagesFound r))
               (drop (Z.to_nat (SelectedPageOffset r)) (PhysicalPages g)) ∧
    Z.of_nat (length run) = PagesFound r ∧
    (∀ page, page ∈ run →
       page ≠ PHYSICAL_PAGE_FREE ∧ IsNonPaged page = false ∧
       ∃ e, PagingEntries s !! page = Some e ∧ LockCount e = 0) ∧
    (∀ p, PagingEntries s' !! p
          = if decide (p ∈ run) then FlaggedPagingOut <$> PagingEntries s !! p
            else PagingEntries s !! p) ∧
    Segments s' = Segments s ∧ Counts s' = Counts s ∧ Warnings s' = Warnings s ∧
    Cursors s' = mkCursors (MmLastAllocatedSegment (Cursors s))
                           (MmLastAllocatedSegmentOffset (Cursors s))
                           (FoundSegment r)
                           (ULONGLONG (SelectedPageOffset r + PagesFound r)).

(** A call of MmpPageOut that reports a page count the pass can add up, and
    none when it fails. *)
Definition PageOutCallSound (call : PageOutCall) : Prop :=
  ∀ s PagingEntry PhysicalAddress,
    let '(Status, PagesPaged, _) := call s PagingEntry PhysicalAddress in
    0 <= PagesPaged < 2 ^ 32 ∧ (KSUCCESS Status = false → PagesPaged = 0).

(** Two physical addresses do not lie in the same frame of a segment. *)
Definition FramesDiffer (s : MmState) (F G : Z) : Prop :=
  ∀ si g h, FindSegment (Segments s) F = Some (si, g) →
            FindSegment (Segments s) G = Some (si, h) →
            Z.to_nat (PageOffsetIn g F) ≠ Z.to_nat (PageOffsetIn h G).

(** The turns of the search loop a segment can take: one for every frame and
    one to leave it. *)
Definition SegmentTurns (segs : list PHYSICAL_MEMORY_SEGMENT) : list nat :=
  map (λ g, S (length (PhysicalPages g))) segs.

(** The turns of the segments from position [i] up to position [j]. *)
Definition TurnsBetween (segs : list PHYSICAL_MEMORY_SEGMENT) (i j : nat) : nat :=
  foldr Nat.add 0%nat (take (j - i) (drop i (SegmentTurns segs))).

(** The turns left to the search in the segment it stands in. *)
Definition TurnsHere (g : PHYSICAL_MEMORY_SEGMENT) (Offset : Z) : nat :=
  S (length (PhysicalPages g) - Z.to_nat Offset).

(** The turns left to the search in the segments it has yet to come to: all
    of them on the first visit of the segment it started in, none on the
    second, and else those up to the segment it started in, around the end of
    the list. *)
Definition TurnsAhead (segs : list PHYSICAL_MEMORY_SEGMENT) (LastSegment si : nat)
    (FirstIteration : bool) : nat :=
  if FirstIteration then TurnsBetween segs 0 (length segs)
  else if decide (si = LastSegment) then 0%nat
  else if decide (si < LastSegment)%nat then TurnsBetween segs (S si) (S LastSegment)
  else (TurnsBetween segs (S si) (length segs) + TurnsBetween segs 0 (S LastSegment))%nat.

(** Every frame record that is neither free nor non-paged refers to a paging
    entry that exists. *)
Definition PageableFramesHaveEntries (s : MmState) : Prop :=
  ∀ si g idx page,
    Segments s !! si = Some g → PhysicalPages g !! idx = Some page →
    page ≠ PHYSICAL_PAGE_FREE → IsNonPaged page = false →
    is_Some (PagingEntries s !! page).


(** No frame is mapped at the address: the leaf entry that covers it, if its
    page table is there, has an empty frame field. *)
Definition NoFrameAt (sp : ADDRESS_SPACE_X86) (VirtualAddress : Z) : Prop :=
  ∀ pte, LeafEntry sp VirtualAddress = Some pte → PTE_Entry pte = 0.

(** The page directories are as they were, and every word of the leaf tables
    is as it was or zero. *)
Definition OnlyZeroed (sp sp' : ADDRESS_SPACE_X86) : Prop :=
  Directory sp' = Directory sp ∧
  ∀ slot, word (PageTables sp') slot = word (PageTables sp) slot ∨
          word (PageTables sp') slot = 0.

(** A leaf entry with a frame in it and its present bit set covers the
    address. *)
Definition MappedPresent (sp : ADDRESS_SPACE_X86) (VirtualAddress : Z) : bool :=
  match LeafEntry sp VirtualAddress with
  | Some pte => negb (PTE_Entry pte =? 0) && PTE_Present pte
  | None => false
  end.

(** The parts of MmpUnmapPages: the flags and the two loops. *)
Definition UnmapSingleThreaded (ThreadCount : option Z) (VirtualAddress : Z) : bool :=
  match ThreadCount with
  | Some n => (n <=? 1) && (VirtualAddress <? USER_VA_END)
  | None => false
  end.

Definition UnmapFlagsUsed (ThreadCount : option Z) (VirtualAddress UnmapFlags : Z) : Z :=
  if UnmapSingleThreaded ThreadCount VirtualAddress
  then Z.land UnmapFlags (Z.lnot UNMAP_FLAG_SEND_INVALIDATE_IPI)
  else UnmapFlags.

Definition UnmapInvalidatesTlb (ThreadCount : option Z) (VirtualAddress : Z) : bool :=
  match ThreadCount with
  | Some n => negb (UnmapSingleThreaded ThreadCount VirtualAddress && (n =? 0))
  | None => true
  end.

Definition UnmapFirstLoop (ThreadCount : option Z) (sp : ADDRESS_SPACE_X86)
    (VirtualAddress PageCount UnmapFlags : Z) (WantDirty : bool)
  : ADDRESS_SPACE_X86 * UnmapLocals :=
  UnmapFirstPass (UnmapFlagsUsed ThreadCount VirtualAddress UnmapFlags) WantDirty
                 (UnmapInvalidatesTlb ThreadCount VirtualAddress)
                 (Z.to_nat PageCount) VirtualAddress (sp, mkUnmapLocals false 0 []).

Definition UnmapSecondLoop (ThreadCount : option Z) (sp : ADDRESS_SPACE_X86)
    (VirtualAddress PageCount UnmapFlags : Z) (WantDirty : bool)
  : ADDRESS_SPACE_X86 * UnmapRun :=
  let flags := UnmapFlagsUsed ThreadCount VirtualAddress UnmapFlags in
  let first := UnmapFirstLoop ThreadCount sp VirtualAddress PageCount UnmapFlags WantDirty in
  if WantDirty || HasFlag flags UNMAP_FLAG_FREE_PHYSICAL_PAGES
  then UnmapSecondPass flags WantDirty (Z.to_nat PageCount) VirtualAddress
                       (first.1, mkUnmapRun INVALID_PHYSICAL_ADDRESS 0 [] false)
  else (first.1, mkUnmapRun INVALID_PHYSICAL_ADDRESS 0 [] false).

(** The leaf entry MmpChangeMemoryRegionAccess leaves where it found [pte]. *)
Definition AccessChanged (K : MAP_FLAGS) (MapFlags MapFlagsMask pte : Z) : Z :=
  let Writable := Z.land MapFlags (MAP_FLAG_READ_ONLY K) =? 0 in
  let Present := negb (Z.land MapFlags (MAP_FLAG_PRESENT K) =? 0) in
  let pte1 :=
    if negb (Z.land MapFlagsMask (MAP_FLAG_READ_ONLY K) =? 0)
    then PTE_SetBit pte 1 Writable else pte in
  if negb (Z.land MapFlagsMask (MAP_FLAG_PRESENT K) =? 0)
  then PTE_SetBit pte1 0 Present else pte1.

(** The permissions a call asks for hold of a leaf entry, if it has a
    frame. *)
Definition AccessAsAsked (K : MAP_FLAGS) (MapFlags MapFlagsMask pte : Z) : Prop :=
  PTE_Entry pte ≠ 0 →
  (Z.land MapFlagsMask (MAP_FLAG_READ_ONLY K) ≠ 0 →
   PTE_Writable pte = (Z.land MapFlags (MAP_FLAG_READ_ONLY K) =? 0)) ∧
  (Z.land MapFlagsMask (MAP_FLAG_PRESENT K) ≠ 0 →
   PTE_Present pte = negb (Z.land MapFlags (MAP_FLAG_PRESENT K) =? 0)).

(** The frames a list of calls of MmFreePhysicalPages releases, in order. *)
Definition FramesOfRuns (runs : list (Z * Z)) : list Z :=
  flat_map (λ run, map (λ k, run.1 + PAGE_SIZE * Z.of_nat k) (seq 0 (Z.to_nat run.2))) runs.

(** The frames of the leaf tables that the directory entries from an index on
    refer to, in the order of the indices. *)
Fixpoint LeafTableFrames (Directory : gmap Z Z) (count : nat) (DirectoryIndex : Z)
  : list Z :=
  match count with
  | O => []
  | S count' =>
      let pde := word Directory DirectoryIndex in
      (if PTE_Entry pde =? 0 then [] else [ULONG (Z.shiftl (PTE_Entry pde) PAGE_SHIFT)])
      ++ LeafTableFrames Directory count' (DirectoryIndex + 1)
  end.

(** What the locals of a loop that collects runs stand for: the run being
    collected has [k] pages, and the runs released so far followed by it are
    the frames [frames]. *)
Definition RunCollected (RunAddress RunBytes : Z) (freed : list (Z * Z))
    (k : nat) (frames : list Z) : Prop :=
  RunBytes = PAGE_SIZE * Z.of_nat k ∧
  (k ≤ length frames)%nat ∧
  (k ≠ 0%nat → 0 <= RunAddress < 2 ^ 32) ∧
  Forall (λ run, 1 <= run.2) freed ∧
  FramesOfRuns (freed ++ [(RunAddress, Z.of_nat k)]) = frames.

(** The physical addresses of the frames that the leaf entries of the [n]
    pages from an address on hold, in the order of the pages. *)
Fixpoint MappedFrames (sp : ADDRESS_SPACE_X86) (VirtualAddress : Z) (n : nat) : list Z :=
  match n with
  | O => []
  | S n' =>
      match LeafEntry sp VirtualAddress with
      | Some pte =>
          if PTE_Entry pte =? 0 then []
          else [ULONG (Z.shiftl (PTE_Entry pte) PAGE_SHIFT)]
      | None => []
      end ++ MappedFrames sp (VirtualAddress + PAGE_SIZE) n'
  end.

(** A leaf entry of the [n] pages from an address on holds a frame and has
    its dirty bit set. *)
Fixpoint MappedDirty (sp : ADDRESS_SPACE_X86) (VirtualAddress : Z) (n : nat) : bool :=
  match n with
  | O => false
  | S n' =>
      match LeafEntry sp VirtualAddress with
      | Some pte => negb (PTE_Entry pte =? 0) && PTE_Dirty pte
      | None => false
      end || MappedDirty sp (VirtualAddress + PAGE_SIZE) n'
  end.

(** The page directory is the same and every leaf entry holds the same frame
    and the same dirty bit. *)
Definition SameFrames (sp sp' : ADDRESS_SPACE_X86) : Prop :=
  Directory sp' = Directory sp ∧
  ∀ slot, PTE_Entry (word (PageTables sp') slot) = PTE_Entry (word (PageTables sp) slot) ∧
          PTE_Dirty (word (PageTables sp') slot) = PTE_Dirty (word (PageTables sp) slot).

(** ** MmpMigratePagingEntries of physical.c *)

(** Modelled from the spec: the image section is declared outside the
    sources.  The routine reads the virtual address a section starts at, and
    it "reassigns the descriptors of frames in a virtual range from one image
    section to another", "releasing one reference on old_section and adding
    one to new_section for each relocated page"; the reference counts are
    kept here by the address of the section. *)
Record MigrateState : Type := mkMigrate {
  migrate_frames : MmState;
  migrate_space : ADDRESS_SPACE_X86;
  migrate_references : gmap Z Z
}.

Definition MmpImageSectionReleaseReference (ImageSection : Z) (references : gmap Z Z)
  : gmap Z Z :=
  <[ImageSection := word references ImageSection - 1]> references.

Definition MmpImageSectionAddReference (ImageSection : Z) (references : gmap Z Z)
  : gmap Z Z :=
  <[ImageSection := word references ImageSection + 1]> references.

(** The locals the loop carries from page to page: [Address] and the segment
    the last frame was found in, NULL at first. *)
Record MigrateLocals : Type := mkMigrateLocals {
  MigrateAddress : Z;
  MigrateSegment : option nat
}.

(** One turn of the loop of MmpMigratePagingEntries.  A frame in no segment
    takes the [continue], which leaves [Address] as it is. *)
Definition MigrateOnePage (K : MAP_FLAGS) (NewSection PageOffset PageIndex : Z)
    (st : MigrateState * MigrateLocals) : option (MigrateState * MigrateLocals) :=
  let '(m, l) := st in
  let Address := MigrateAddress l in
  let translated := MmpVirtualToPhysical K (migrate_space m) Address in
  let sp := translate_space translated in
  let PhysicalAddress := translate_address translated in
  let s := migrate_frames m in
  let NextAddress := UINTN (Address + PageSize) in
  if PhysicalAddress =? INVALID_PHYSICAL_ADDRESS
  then Some (mkMigrate s sp (migrate_references m),
             mkMigrateLocals NextAddress (MigrateSegment l))
  else
    found ←
      match MigrateSegment l with
      | Some si =>
          g ← Segments s !! si;
          if (StartAddress g <=? PhysicalAddress) && (PhysicalAddress <? EndAddress g)
          then Some (Some (si, g))
          else Some (FindSegment (Segments s) PhysicalAddress)
      | None => Some (FindSegment (Segments s) PhysicalAddress)
      end;
    match found with
    | None => Some (mkMigrate s sp (migrate_references m), mkMigrateLocals Address None)
    | Some (si, g) =>
        let SegmentOffset := UINTN (PageOffsetIn g PhysicalAddress) in
        page ← ReadPage si (Z.to_nat SegmentOffset) s;
        if IsNonPaged page
        then Some (mkMigrate s sp (migrate_references m),
                   mkMigrateLocals NextAddress (Some si))
        else
          PagingEntry ← PagingEntries s !! page;
          let references :=
            MmpImageSectionAddReference NewSection
              (MmpImageSectionReleaseReference (Section PagingEntry)
                                               (migrate_references m)) in
          let PagingEntry' :=
            mkPagingEntry NewSection (UINTN (PageOffset + PageIndex))
                          (LockCount PagingEntry) (Flags PagingEntry) in
          Some (mkMigrate
                  (set_PagingEntries (<[page := PagingEntry']> (PagingEntries s)) s)
                  sp references,
                mkMigrateLocals NextAddress (Some si))
    end.

Fixpoint MigrateLoop (K : MAP_FLAGS) (NewSection PageOffset : Z) (count : nat)
    (PageIndex : Z) (st : MigrateState * MigrateLocals)
  : option (MigrateState * MigrateLocals) :=
  match count with
  | O => Some st
  | S count' =>
      st' ← MigrateOnePage K NewSection PageOffset PageIndex st;
      MigrateLoop K NewSection PageOffset count' (UINTN (PageIndex + 1)) st'
  end.

(** MmpMigratePagingEntries; [NewSectionVirtualAddress] is
    [NewSection->VirtualAddress].  The old section is read by the routine's
    assertions only. *)
Definition MmpMigratePagingEntries (K : MAP_FLAGS) (m : MigrateState)
    (OldSection NewSection NewSectionVirtualAddress Address PageCount : Z)
  : option MigrateState :=
  let PageOffset :=
    Z.shiftr (UINTN (UINTN Address - UINTN NewSectionVirtualAddress)) PageShift in
  st ← MigrateLoop K NewSection PageOffset (Z.to_nat PageCount) 0
                   (m, mkMigrateLocals Address None);
  Some st.1.

(** What the routine may do to a paging entry: nothing, or give it to the new
    section at some offset; the lock count and the flags stay. *)
Definition EntryKeptOrMoved (NewSection : Z) (e e' : PAGING_ENTRY) : Prop :=
  LockCount e' = LockCount e ∧ Flags e' = Flags e ∧
  (e' = e ∨ Section e' = NewSection).

(** What the routine leaves of the frame database and of the page tables. *)
Definition OnlyEntriesMoved (NewSection : Z) (m m' : MigrateState) : Prop :=
  Segments (migrate_frames m') = Segments (migrate_frames m) ∧
  Counts (migrate_frames m') = Counts (migrate_frames m) ∧
  Cursors (migrate_frames m') = Cursors (migrate_frames m) ∧
  Warnings (migrate_frames m') = Warnings (migrate_frames m) ∧
  PageTables (migrate_space m') = PageTables (migrate_space m) ∧
  MmKernelPageDirectory (migrate_space m') = MmKernelPageDirectory (migrate_space m) ∧
  ResidentSet (migrate_space m') = ResidentSet (migrate_space m) ∧
  ∀ p, match PagingEntries (migrate_frames m) !! p with
       | Some e => ∃ e', PagingEntries (migrate_frames m') !! p = Some e' ∧
                         EntryKeptOrMoved NewSection e e'
       | None => PagingEntries (migrate_frames m') !! p = None
       end.

(** Every paging entry belongs to one of two sections. *)
Definition EntriesOwnedBy (OldSection NewSection : Z) (m : MigrateState) : Prop :=
  ∀ p e, PagingEntries (migrate_frames m) !! p = Some e →
         Section e = OldSection ∨ Section e = NewSection.

(** The record of the frame that is mapped at a virtual address, when a frame
    is mapped there and the frame database knows it. *)
Definition MappedRecord (K : MAP_FLAGS) (m : MigrateState) (VirtualAddress : Z)
  : option Z :=
  let PhysicalAddress :=
    translate_address (MmpVirtualToPhysical K (migrate_space m) VirtualAddress) in
  if PhysicalAddress =? INVALID_PHYSICAL_ADDRESS then None
  else PhysicalPageAt (migrate_frames m) PhysicalAddress.

(** Every frame mapped on the [n] pages from an address on lies in a segment
    of the frame database. *)
Definition MappedFramesKnown (K : MAP_FLAGS) (m : MigrateState) (VirtualAddress : Z)
    (n : nat) : Prop :=
  ∀ i, (i < n)%nat →
    let PhysicalAddress :=
      translate_address
        (MmpVirtualToPhysical K (migrate_space m) (VirtualAddress + Z.of_nat i * PageSize)) in
    PhysicalAddress ≠ INVALID_PHYSICAL_ADDRESS →
    is_Some (FindSegment (Segments (migrate_frames m)) PhysicalAddress).

(** No two pages of the [n] pages from an address on are mapped to frames
    with the same pageable record: pageable frames that differ have paging
    entries that differ, and no pageable frame is mapped twice. *)
Definition PageableRecordsDistinct (K : MAP_FLAGS) (m : MigrateState)
    (VirtualAddress : Z) (n : nat) : Prop :=
  ∀ i j page, (i < n)%nat → (j < n)%nat → i ≠ j →
    MappedRecord K m (VirtualAddress + Z.of_nat i * PageSize) = Some page →
    MappedRecord K m (VirtualAddress + Z.of_nat j * PageSize) = Some page →
    IsNonPaged page = true.

(** The two frames that [OneLeafTable] maps at 4 MiB, the first pageable with
    a paging entry of the section at 0x7000, the second non-paged; the section
    at 0x7000 holds five references and the one at 0x8000 holds one. *)
Definition TwoMappedFrames : MigrateState :=
  mkMigrate
    (mkMm [mkSegment 4194304 4202496 0 [20480; 1]]
          {[ 20480 := mkPagingEntry 28672 0 0 0 ]}
          (mkCounts 2 2 0 1) (mkCursors 0 0 0 0)
          (mkWarning MemoryWarningLevelNone 2 2 2 2 0 0 0))
    OneLeafTable
    {[ 28672 := 5; 32768 := 1 ]}.

(** The references two sections hold together, and those of every other
    section, are the same in two states. *)
Definition ReferencesConserved (OldSection NewSection : Z) (m m' : MigrateState) : Prop :=
  (∀ t, t ≠ OldSection → t ≠ NewSection →
        word (migrate_references m') t = word (migrate_references m) t) ∧
  (OldSection ≠ NewSection →
   word (migrate_references m') OldSection + word (migrate_references m') NewSection
   = word (migrate_references m) OldSection + word (migrate_references m) NewSection) ∧
  (OldSection = NewSection →
   word (migrate_references m') OldSection = word (migrate_references m) OldSection).

(** ** Lookup of segments and frames *)

Section SegmentLookup.

Implicit Types (segs : list PHYSICAL_MEMORY_SEGMENT) (g : PHYSICAL_MEMORY_SEGMENT).

Lemma FindSegment_alter (f : PHYSICAL_MEMORY_SEGMENT → PHYSICAL_MEMORY_SEGMENT)
    segs i a :
  (∀ g, StartAddress (f g) = StartAddress g ∧ EndAddress (f g) = EndAddress g) →
  FindSegment (alter f i segs) a =
  (λ p, (p.1, if decide (p.1 = i) then f p.2 else p.2)) <$> FindSegment segs a.
Proof.
  intros Hf. unfold FindSegment. revert i.
  induction segs as [|g segs IH]; intros i; [done|].
  destruct i as [|i]; simpl.
  - destruct (Hf g) as [-> ->].
    case_decide; simpl; [done|].
    by destruct (list_find _ segs) as [[j h]|].
  - case_decide; simpl; [done|].
    change (list_alter f i segs) with (alter f i segs). rewrite IH.
    destruct (list_find _ segs) as [[j h]|]; simpl; [|done].
    repeat case_decide; try done; lia.
Qed.

Lemma FindSegment_lookup segs a si g :
  FindSegment segs a = Some (si, g) → segs !! si = Some g.
Proof. unfold FindSegment. intros H. by apply list_find_Some in H as (? & _). Qed.

End SegmentLookup.

(** ** The page cache entry of a frame *)

Lemma land_lor_non_paged_flag e :
  0 <= e < 2 ^ 32 → Z.land e PHYSICAL_PAGE_FLAG_NON_PAGED = 0 →
  Z.land (Z.lor e PHYSICAL_PAGE_FLAG_NON_PAGED)
         (UINTN (Z.lnot PHYSICAL_PAGE_FLAG_NON_PAGED)) = e.
Proof.
  intros Hr He.
  change (UINTN _) with (Z.clearbit (Z.ones 32) 0).
  unfold PHYSICAL_PAGE_FLAG_NON_PAGED in *.
  assert (Hb0 : Z.testbit e 0 = false).
  { apply (f_equal (λ x, Z.testbit x 0)) in He.
    rewrite Z.land_spec, Z.bits_0 in He.
    change (Z.testbit 1 0) with true in He. by rewrite andb_true_r in He. }
  apply Z.bits_inj'. intros n Hn.
  rewrite Z.land_spec, Z.lor_spec.
  destruct (decide (n = 0)) as [->|Hn0].
  - rewrite Z.clearbit_eq, Hb0. apply andb_false_r.
  - rewrite Z.clearbit_neq by lia.
    replace (Z.testbit 1 n) with false
      by (symmetry; apply Z.bits_above_log2; simpl; lia).
    rewrite orb_false_r.
    destruct (decide (n < 32)).
    + rewrite Z.ones_spec_low by lia. apply andb_true_r.
    + rewrite Z.ones_spec_high by lia. rewrite andb_false_r.
      symmetry. destruct (decide (e = 0)) as [->|]; [apply Z.bits_0|].
      assert (Z.log2 e < 32) by (apply Z.log2_lt_pow2; lia).
      apply Z.bits_above_log2; lia.
Qed.

Lemma IsNonPaged_lor_flag e :
  0 <= e → IsNonPaged (Z.lor e PHYSICAL_PAGE_FLAG_NON_PAGED) = true.
Proof.
  intros He. unfold IsNonPaged, PHYSICAL_PAGE_FLAG_NON_PAGED.
  rewrite Z.land_lor_distr_l. change (Z.land 1 1) with 1.
  apply negb_true_iff, Z.eqb_neq. intros H.
  apply Z.lor_eq_0_iff in H as [_ H]. discriminate.
Qed.

Lemma get_page_cache_entry_after_set s F e page :
  PhysicalPageAt s F = Some page →
  0 <= e < 2 ^ 32 →
  Z.land e PHYSICAL_PAGE_FLAG_NON_PAGED = 0 →
  MmpGetPageCacheEntryForPhysicalAddress
    (MmSetPageCacheEntryForPhysicalAddress s F e) F = Some e.
Proof.
  unfold PhysicalPageAt, MmSetPageCacheEntryForPhysicalAddress,
    MmpGetPageCacheEntryForPhysicalAddress.
  intros Hpage He Hlow.
  destruct (FindSegment (Segments s) F) as [[si g]|] eqn:Hfind; [|done].
  unfold WritePage. simpl.
  rewrite FindSegment_alter by done. rewrite Hfind. simpl.
  rewrite decide_True by done.
  unfold ReadPage in *. simpl.
  rewrite list_lookup_alter_eq.
  destruct (Segments s !! si) as [g'|] eqn:Hg; [|done]. simpl in *.
  apply FindSegment_lookup in Hfind. assert (g' = g) as -> by congruence.
  unfold PageOffsetIn in *. simpl.
  rewrite list_lookup_insert_eq by (by eapply lookup_lt_Some).
  simpl. rewrite IsNonPaged_lor_flag by lia. by rewrite land_lor_non_paged_flag.
Qed.

(** C10.  For a frame [F] of the database whose record is [page]: if the
    frame is non-paged, then after MmSetPageCacheEntryForPhysicalAddress
    attached an entry [e] whose low bit is clear,
    MmpGetPageCacheEntryForPhysicalAddress returns exactly [e]; if the frame
    is pageable the lookup returns NULL; and if the frame is non-paged with
    nothing attached (its record is the bare non-paged flag, as the allocator
    leaves it) the lookup returns NULL. *)
Theorem page_cache_entry_get_inverts_set (s : MmState) (F page : Z) :
  PhysicalPageAt s F = Some page →
  (IsNonPaged page = true →
   ∀ e, 0 <= e < 2 ^ 32 → Z.land e PHYSICAL_PAGE_FLAG_NON_PAGED = 0 →
     MmpGetPageCacheEntryForPhysicalAddress
       (MmSetPageCacheEntryForPhysicalAddress s F e) F = Some e) ∧
  (IsNonPaged page = false →
   MmpGetPageCacheEntryForPhysicalAddress s F = Some 0) ∧
  (page = PHYSICAL_PAGE_FLAG_NON_PAGED →
   MmpGetPageCacheEntryForPhysicalAddress s F = Some 0).
Proof.
  intros Hpage. split; [|split].
  - intros _ e He Hlow. by eapply get_page_cache_entry_after_set.
  - intros Hpaged. unfold PhysicalPageAt, MmpGetPageCacheEntryForPhysicalAddress in *.
    destruct (FindSegment (Segments s) F) as [[si g]|]; [|done].
    rewrite Hpage. simpl. by rewrite Hpaged.
  - intros ->. unfold PhysicalPageAt, MmpGetPageCacheEntryForPhysicalAddress in *.
    destruct (FindSegment (Segments s) F) as [[si g]|]; [|done].
    by rewrite Hpage.
Qed.

Lemma page_cache_entry_get_inverts_set_witness :
  MmpGetPageCacheEntryForPhysicalAddress
    (MmSetPageCacheEntryForPhysicalAddress TwoFramesPagingOut 1048576 8192) 1048576
    = Some 8192 ∧
  MmpGetPageCacheEntryForPhysicalAddress TwoFramesPagingOut 1048576 = Some 0.
Proof.
  destruct (page_cache_entry_get_inverts_set TwoFramesPagingOut 1048576 1 eq_refl)
    as (Hset & _ & Hbare).
  split.
  - apply Hset; [reflexivity | lia | reflexivity].
  - apply Hbare. reflexivity.
Defined.

(** ** MmFreePhysicalPages: the three kinds of frame *)

(** A pageable frame whose paging entry has "paging out" set, met before any
    frame of the run was released: nothing changes. *)
Lemma FreeOnePage_paging_out_before_release si idx s l page e :
  ReadPage si idx s = Some page →
  IsNonPaged page = false →
  PagingEntries s !! page = Some e →
  IsPagingOut e = true →
  ReleasedPhysicalPage l = false →
  FreeOnePage si idx (s, l) = Some (s, l).
Proof.
  intros Hr Hn He Hp Hl. unfold FreeOnePage. rewrite Hr. simpl.
  rewrite Hn, He. simpl. rewrite Hp. simpl. by rewrite Hl.
Qed.

(** The same frame met after a frame of the run was released:
    [ReleasedPhysicalPage] is still set, and the metrics are updated although
    the record is left as it is. *)
Lemma FreeOnePage_paging_out_after_release si idx s l page e :
  ReadPage si idx s = Some page →
  IsNonPaged page = false →
  PagingEntries s !! page = Some e →
  IsPagingOut e = true →
  ReleasedPhysicalPage l = true →
  FreeOnePage si idx (s, l) = Some (FreeUpdateMetrics si s l).
Proof.
  intros Hr Hn He Hp Hl. unfold FreeOnePage. rewrite Hr. simpl.
  rewrite Hn, He. simpl. rewrite Hp. simpl. by rewrite Hl.
Qed.

(** A non-paged frame: the record is set free, [non_paged] goes down by one
    and the metrics are updated. *)
Lemma FreeOnePage_non_paged si idx s l page :
  ReadPage si idx s = Some page →
  IsNonPaged page = true →
  FreeOnePage si idx (s, l) =
  Some (FreeUpdateMetrics si
          (set_Counts (set_NonPaged (UINTN (MmNonPagedPhysicalPages (Counts s) - 1))
                                    (Counts s))
                      (WritePage si idx PHYSICAL_PAGE_FREE s))
          (mkFreeLocals true (SignalEvent l) (PagingEntryList l))).
Proof. intros Hr Hn. unfold FreeOnePage. rewrite Hr. simpl. by rewrite Hn. Qed.

(** A pageable frame whose paging entry does not have "paging out" set: the
    record is set free, the entry is queued for destruction and the metrics
    are updated. *)
Lemma FreeOnePage_pageable si idx s l page e :
  ReadPage si idx s = Some page →
  IsNonPaged page = false →
  PagingEntries s !! page = Some e →
  IsPagingOut e = false →
  FreeOnePage si idx (s, l) =
  Some (FreeUpdateMetrics si (WritePage si idx PHYSICAL_PAGE_FREE s)
          (mkFreeLocals true (SignalEvent l) (PagingEntryList l ++ [page]))).
Proof.
  intros Hr Hn He Hp. unfold FreeOnePage. rewrite Hr. simpl.
  rewrite Hn, He. simpl. by rewrite Hp.
Qed.

(** C1.  MmFreePhysicalPages on the run of the two frames of
    [TwoFramesPagingOut], a non-paged frame followed by a pageable frame whose
    paging entry has "paging out" set.  Freeing the first frame alone takes
    [allocated] from 2 to 1 and the segment's free count from 0 to 1.
    Freeing the run of both leaves the record of the second frame allocated
    and queues nothing for destruction, yet takes [allocated] to 0 and the
    free count to 2: the counters change on account of the frame that is
    being paged out. *)
Theorem free_pages_counts_frame_being_paged_out :
  (∃ r, MmFreePhysicalPages TwoFramesPagingOut 1048576 1 = Some r ∧
        MmTotalAllocatedPhysicalPages (Counts (free_state r)) = 1 ∧
        SegmentFreeSum (free_state r) = 1 ∧
        MmNonPagedPhysicalPages (Counts (free_state r)) = 0) ∧
  (∃ r, MmFreePhysicalPages TwoFramesPagingOut 1048576 2 = Some r ∧
        PhysicalPageAt (free_state r) 1052672 = Some 20480 ∧
        PhysicalPageAt TwoFramesPagingOut 1052672 = Some 20480 ∧
        free_destroyed r = [] ∧
        MmTotalAllocatedPhysicalPages (Counts (free_state r)) = 0 ∧
        SegmentFreeSum (free_state r) = 2 ∧
        MmNonPagedPhysicalPages (Counts (free_state r)) = 0).
Proof.
  split; eexists; (split; [vm_compute; reflexivity|]); vm_compute; repeat split.
Qed.

(** ** The counter invariant *)

(** C3.  From [TwoFrames], where the counter invariant holds, the second frame
    is made pageable and the pager's search selects it; the invariant still
    holds.  MmFreePhysicalPages on the run of both frames then leaves the
    second frame allocated with [allocated = 0], and the following
    MmpLockPhysicalPages of that frame succeeds and leaves
    [non_paged = 1 > allocated = 0]: the counter invariant is broken. *)
Theorem free_then_lock_breaks_counter_invariant :
  CounterInvariant TwoFrames ∧
  ∃ s1 r s3,
    MmpEnablePagingOnPhysicalAddress TwoFrames 1052672 1 [20480] false = Some s1 ∧
    CounterInvariant s1 ∧
    MmpFindPhysicalPages s1 1 1 PhysicalMemoryFindPagable (λ _, true)
      = Some (Some (mkFindResult 0 1 1), TwoFramesPagingOut) ∧
    CounterInvariant TwoFramesPagingOut ∧
    MmFreePhysicalPages TwoFramesPagingOut 1048576 2 = Some r ∧
    PhysicalPageAt (free_state r) 1052672 = Some 20480 ∧
    MmTotalAllocatedPhysicalPages (Counts (free_state r)) = 0 ∧
    MmpLockPhysicalPages (free_state r) 1052672 1 = Some (STATUS_SUCCESS, s3) ∧
    MmNonPagedPhysicalPages (Counts s3) = 1 ∧
    MmTotalAllocatedPhysicalPages (Counts s3) = 0 ∧
    ¬ CounterInvariant s3.
Proof.
  split; [by vm_compute|].
  eexists _, _, _.
  split; [vm_compute; reflexivity|].
  split; [by vm_compute|].
  split; [vm_compute; reflexivity|].
  split; [by vm_compute|].
  split; [vm_compute; reflexivity|].
  split; [vm_compute; reflexivity|].
  split; [vm_compute; reflexivity|].
  split; [vm_compute; reflexivity|].
  split; [vm_compute; reflexivity|].
  split; [vm_compute; reflexivity|].
  intros (_ & Hle & _). vm_compute in Hle. by apply Hle.
Qed.

(** ** The search leaves the counters and the warning state alone *)

Lemma SameDatabase_refl s : SameDatabase s s.
Proof. done. Qed.

Lemma SameDatabase_trans s1 s2 s3 :
  SameDatabase s1 s2 → SameDatabase s2 s3 → SameDatabase s1 s3.
Proof. unfold SameDatabase. intros (-> & -> & ->) (-> & -> & ->). done. Qed.

Lemma SpanCheckPage_same t va g off page s r :
  SpanCheckPage t va g off page s = Some r →
  match r with inl s' | inr s' => SameDatabase s s' end.
Proof.
  unfold SpanCheckPage. intros H.
  destruct t; repeat (first [progress simplify_option_eq | case_match]); done.
Qed.

Lemma SpanLoop_same t va si g off n c s c' s' :
  SpanLoop t va si g off n c s = Some (c', s') → SameDatabase s s'.
Proof.
  revert c s. induction n as [|n IH]; intros c s H; simpl in H.
  - by simplify_eq.
  - destruct (ReadPage si _ s) as [page|]; [|done]. simpl in H.
    destruct (SpanCheckPage t va g off page s) as [r|] eqn:Hr; [|done]. simpl in H.
    apply SpanCheckPage_same in Hr.
    destruct r as [s1|s1].
    + by simplify_eq.
    + eapply SameDatabase_trans; [done|]. by eapply IH.
Qed.

Lemma FindLoopBody_same n a t va last si off fi s turn :
  FindLoopBody n a t va last si off fi s = Some turn →
  match turn with FindReturn _ s' | FindAgain _ _ _ s' => SameDatabase s s' end.
Proof.
  unfold FindLoopBody. intros H.
  destruct (Segments s !! si) as [g|]; [|done]. simpl in H.
  destruct (_ || _ || _).
  - destruct (_ && _); [simplify_eq; apply SameDatabase_refl|].
    destruct (Segments s !! _); [|done]. simpl in H. simplify_eq. apply SameDatabase_refl.
  - destruct (SpanLoop _ _ _ _ _ _ _ _) as [[c s1]|] eqn:Hspan; [|done].
    apply SpanLoop_same in Hspan. simpl in H.
    destruct (_ || _); simplify_eq; simpl; apply Hspan.
Qed.

Lemma FindLoop_same fuel n a t va last first si off fi s r s' :
  FindLoop fuel n a t va last first si off fi s = Some (r, s') → SameDatabase s s'.
Proof.
  revert si off fi s. induction fuel as [|fuel IH]; intros si off fi s H; [done|].
  simpl in H.
  destruct (FindLoopBody _ _ _ _ _ _ _ _ _) as [turn|] eqn:Hbody; [|done].
  apply FindLoopBody_same in Hbody. simpl in H.
  destruct turn as [r1 s1|si1 off1 fi1 s1]; [by simplify_eq|].
  destruct (_ || _).
  - eapply SameDatabase_trans; [done|]. by eapply IH.
  - by simplify_eq.
Qed.

Lemma MmpFindPhysicalPages_same s n a t va r s' :
  MmpFindPhysicalPages s n a t va = Some (r, s') → SameDatabase s s'.
Proof.
  unfold MmpFindPhysicalPages. intros H.
  destruct (Segments s !! _); [|done]. by eapply FindLoop_same.
Qed.

(** ** The memory warning level *)

Lemma AllocateWarningCheck_spec s sa siga :
  AllocateWarningCheck s = (sa, siga) →
  let w := Warnings s in
  let allocated := MmTotalAllocatedPhysicalPages (Counts s) in
  (WarningLevelOf s ≠ MemoryWarningLevel1 →
   MmPhysicalMemoryWarningLevel1HighPages w <= allocated →
   WarningLevelOf sa = MemoryWarningLevel1) ∧
  (WarningLevelOf s = MemoryWarningLevelNone →
   allocated < MmPhysicalMemoryWarningLevel1HighPages w →
   MmPhysicalMemoryWarningLevel2HighPages w <= allocated →
   WarningLevelOf sa = MemoryWarningLevel2) ∧
  (WarningLevelOf s = MemoryWarningLevelNone →
   allocated < MmPhysicalMemoryWarningLevel1HighPages w →
   allocated < MmPhysicalMemoryWarningLevel2HighPages w →
   WarningLevelOf sa = MemoryWarningLevelNone) ∧
  (WarningLevelOf s = MemoryWarningLevel2 →
   allocated < MmPhysicalMemoryWarningLevel1HighPages w →
   WarningLevelOf sa = MemoryWarningLevel2) ∧
  (siga = true ↔ WarningLevelOf sa ≠ WarningLevelOf s).
Proof.
  unfold AllocateWarningCheck, WarningLevelOf. intros H. simpl.
  destruct (MmPhysicalMemoryWarningLevel (Warnings s)) eqn:Hlevel; simpl in H;
    repeat (case_match; simplify_eq; simpl);
    rewrite ?Hlevel; repeat split; try done; try lia; intros; try done; try lia.
Qed.

Lemma FreeWarningCheck_spec s sf sigf :
  FreeWarningCheck s = (sf, sigf) →
  let w := Warnings s in
  let allocated := MmTotalAllocatedPhysicalPages (Counts s) in
  (WarningLevelOf s = MemoryWarningLevel2 →
   (allocated < MmPhysicalMemoryWarningLevel2LowPages w →
    WarningLevelOf sf = MemoryWarningLevelNone) ∧
   (MmPhysicalMemoryWarningLevel2LowPages w <= allocated →
    WarningLevelOf sf = MemoryWarningLevel2)) ∧
  (WarningLevelOf s = MemoryWarningLevel1 →
   (allocated < MmPhysicalMemoryWarningLevel1LowPages w →
    WarningLevelOf sf = MemoryWarningLevel2) ∧
   (MmPhysicalMemoryWarningLevel1LowPages w <= allocated →
    WarningLevelOf sf = MemoryWarningLevel1)) ∧
  (WarningLevelOf s = MemoryWarningLevelNone →
   WarningLevelOf sf = MemoryWarningLevelNone) ∧
  (sigf = true ↔ WarningLevelOf sf ≠ WarningLevelOf s).
Proof.
  unfold FreeWarningCheck, WarningLevelOf. intros H. simpl.
  destruct (MmPhysicalMemoryWarningLevel (Warnings s)) eqn:Hlevel; simpl in H;
    repeat case_match; simplify_eq; simpl;
    rewrite ?Hlevel; repeat split; try done; try lia; intros; try done; try lia.
Qed.

Lemma AllocateMarkLoop_Warnings si n idx s :
  Warnings (AllocateMarkLoop si n idx s) = Warnings s.
Proof.
  revert idx s. induction n as [|n IH]; intros idx s; [done|].
  simpl. by rewrite IH.
Qed.

Lemma AllocateCountAndWarn_signal PageCount s sa siga :
  AllocateCountAndWarn PageCount s = (sa, siga) →
  (siga = true ↔ WarningLevelOf sa ≠ WarningLevelOf s).
Proof.
  unfold AllocateCountAndWarn. intros H.
  destruct (_ || _).
  - apply AllocateWarningCheck_spec in H as (_ & _ & _ & _ & H). apply H.
  - simplify_eq. split; [done|]. unfold WarningLevelOf. simpl. done.
Qed.

Lemma AllocateAttempt_signal s n a addr s' sig :
  AllocateAttempt s n a = Some (AllocateFound addr s' sig) →
  (sig = true ↔ WarningLevelOf s' ≠ WarningLevelOf s).
Proof.
  unfold AllocateAttempt. intros H.
  destruct (MmpFindPhysicalPages _ _ _ _ _) as [[found s1]|] eqn:Hfind; [|done].
  apply MmpFindPhysicalPages_same in Hfind as (_ & _ & Hw). simpl in H.
  destruct found as [r|]; [|done].
  destruct (Segments s1 !! _); [|done]. simpl in H.
  destruct (AllocateCountAndWarn _ _) as [s3 signal] eqn:Hwarn.
  apply AllocateCountAndWarn_signal in Hwarn. simplify_eq.
  unfold WarningLevelOf in *. by rewrite AllocateMarkLoop_Warnings, Hw in Hwarn.
Qed.

Lemma FreeUpdateMetrics_signal level0 si s l :
  FreeSignalInvariant level0 (s, l) →
  FreeSignalInvariant level0 (FreeUpdateMetrics si s l).
Proof.
  unfold FreeSignalInvariant, FreeUpdateMetrics. simpl. intros Hinv.
  destruct (negb (SignalEvent l) && _) eqn:Hcheck.
  - apply andb_true_iff in Hcheck as [Hsig _]. apply negb_true_iff in Hsig.
    destruct (FreeWarningCheck _) as [s4 signal] eqn:Hwarn. simpl.
    apply FreeWarningCheck_spec in Hwarn as (_ & _ & _ & Hwarn).
    rewrite Hwarn. unfold WarningLevelOf at 2. simpl.
    assert (WarningLevelOf s = level0) as <-; [|done].
    destruct (decide (WarningLevelOf s = level0)) as [|Hne]; [done|].
    apply Hinv in Hne. congruence.
  - done.
Qed.

Lemma FreeOnePage_signal level0 si idx st st' :
  FreeSignalInvariant level0 st →
  FreeOnePage si idx st = Some st' →
  FreeSignalInvariant level0 st'.
Proof.
  destruct st as [s l]. unfold FreeOnePage. intros Hinv H.
  destruct (ReadPage si idx s) as [page|]; [|done]. simpl in H.
  destruct (IsNonPaged page); simpl in H.
  - simplify_eq. by apply FreeUpdateMetrics_signal.
  - destruct (PagingEntries s !! page) as [e|]; [|done]. simpl in H.
    destruct (negb (IsPagingOut e)); simpl in H.
    + simplify_eq. by apply FreeUpdateMetrics_signal.
    + destruct (ReleasedPhysicalPage l); simplify_eq; [|done].
      by apply FreeUpdateMetrics_signal.
Qed.

Lemma FreeLoop_signal level0 si n idx st st' :
  FreeSignalInvariant level0 st →
  FreeLoop si n idx st = Some st' →
  FreeSignalInvariant level0 st'.
Proof.
  revert idx st. induction n as [|n IH]; intros idx st Hinv H; simpl in H.
  - by simplify_eq.
  - destruct (FreeOnePage si idx st) as [st1|] eqn:Hone; [|done]. simpl in H.
    eapply IH; [|done]. by eapply FreeOnePage_signal.
Qed.

Lemma MmFreePhysicalPages_signal s F n r :
  MmFreePhysicalPages s F n = Some r →
  (free_signalled r = true ↔ WarningLevelOf (free_state r) ≠ WarningLevelOf s).
Proof.
  unfold MmFreePhysicalPages. intros H.
  destruct (FindSegment _ _) as [[si g]|].
  - destruct (FreeLoop _ _ _ _) as [[s' l]|] eqn:Hloop; [|done].
    simpl in H. simplify_eq. simpl.
    eapply (FreeLoop_signal (WarningLevelOf s)) in Hloop; [apply Hloop|].
    unfold FreeSignalInvariant. simpl. split; [done|]. intros Hne. by destruct Hne.
  - simplify_eq. simpl. split; [done|]. intros Hne. by destruct Hne.
Qed.

Lemma AllocateCountAndWarn_unsampled PageCount s sa siga :
  AllocateCountAndWarn PageCount s = (sa, siga) →
  Z.land (UINTN (MmPhysicalMemoryAllocationCount (Warnings s) + 1))
         (MmPhysicalMemoryWarningCountMask (Warnings s)) ≠ 0 →
  PageCount < MmPhysicalMemoryWarningCountMask (Warnings s) →
  WarningLevelOf sa = WarningLevelOf s ∧ siga = false.
Proof.
  unfold AllocateCountAndWarn. simpl. intros H Hbits Hcount.
  destruct (_ || _) eqn:Hcheck.
  - apply orb_true_iff in Hcheck as [Hz|Hge]; lia.
  - by simplify_eq.
Qed.

Lemma AllocateCountAndWarn_sampled PageCount s :
  Z.land (UINTN (MmPhysicalMemoryAllocationCount (Warnings s) + 1))
         (MmPhysicalMemoryWarningCountMask (Warnings s)) = 0 ∨
  MmPhysicalMemoryWarningCountMask (Warnings s) <= PageCount →
  AllocateCountAndWarn PageCount s =
  AllocateWarningCheck
    (set_Warnings
       (set_AllocationCount (UINTN (MmPhysicalMemoryAllocationCount (Warnings s) + 1))
                            (Warnings s)) s).
Proof.
  unfold AllocateCountAndWarn. simpl. intros Hcheck.
  destruct (_ || _) eqn:Hb; [done|].
  apply orb_false_iff in Hb as [Hz Hge]. lia.
Qed.

Lemma FreeUpdateMetrics_unsampled si s l sf lf :
  FreeUpdateMetrics si s l = (sf, lf) →
  SignalEvent l = true ∨
  Z.land (UINTN (MmPhysicalMemoryFreeCount (Warnings s) + 1))
         (MmPhysicalMemoryWarningCountMask (Warnings s)) ≠ 0 →
  WarningLevelOf sf = WarningLevelOf s ∧ SignalEvent lf = SignalEvent l.
Proof.
  unfold FreeUpdateMetrics. simpl. intros H Hskip.
  destruct (negb (SignalEvent l) && _) eqn:Hcheck.
  - apply andb_true_iff in Hcheck as [Hsig Hz]. apply negb_true_iff in Hsig.
    destruct Hskip as [Hs|Hbits]; [congruence | lia].
  - by simplify_eq.
Qed.

Lemma FreeUpdateMetrics_sampled si s l sf lf :
  FreeUpdateMetrics si s l = (sf, lf) →
  SignalEvent l = false →
  Z.land (UINTN (MmPhysicalMemoryFreeCount (Warnings s) + 1))
         (MmPhysicalMemoryWarningCountMask (Warnings s)) = 0 →
  ∃ s3, WarningLevelOf s3 = WarningLevelOf s ∧ Warnings s3 =
          set_FreeCount (UINTN (MmPhysicalMemoryFreeCount (Warnings s) + 1)) (Warnings s) ∧
        MmTotalAllocatedPhysicalPages (Counts s3) =
          UINTN (MmTotalAllocatedPhysicalPages (Counts s) - 1) ∧
        FreeWarningCheck s3 = (sf, SignalEvent lf).
Proof.
  unfold FreeUpdateMetrics. simpl. intros H Hsig Hbits.
  rewrite Hsig in H. simpl in H.
  destruct (_ =? 0) eqn:Hz; [|lia].
  destruct (FreeWarningCheck _) as [s4 signal] eqn:Hwarn.
  simplify_eq. eexists. split; [|split; [|split]]; [..|exact Hwarn]; done.
Qed.

(** C4 (as amended).  The memory warning level is a state machine over
    {none, warn1, warn2}.  At the end of an allocate (AllocateCountAndWarn) it
    is re-evaluated only when the sampled bits of the allocation counter are
    zero or the page count is at least the warning count mask; when it is, a
    level other than warn1 becomes warn1 once allocated has reached the
    level-1 high threshold, and below that threshold the level none becomes
    warn2 once allocated has reached the level-2 high threshold and else
    stays, and warn2 stays.  Inside a free, after a frame is released
    (FreeUpdateMetrics), it is re-evaluated only when the call has made no
    transition yet and the sampled bits of the free counter are zero; then
    warn2 becomes none exactly when allocated is below the level-2 low
    threshold and warn1 becomes warn2 exactly when allocated is below the
    level-1 low threshold.  An allocate and a free pulse the warning event
    exactly when they changed the level. *)
Theorem warning_level_state_machine :
  (∀ s PageCount sa siga,
     AllocateCountAndWarn PageCount s = (sa, siga) →
     let w := Warnings s in
     let allocated := MmTotalAllocatedPhysicalPages (Counts s) in
     let sampled := Z.land (UINTN (MmPhysicalMemoryAllocationCount w + 1))
                           (MmPhysicalMemoryWarningCountMask w) in
     (sampled ≠ 0 → PageCount < MmPhysicalMemoryWarningCountMask w →
      WarningLevelOf sa = WarningLevelOf s) ∧
     (sampled = 0 ∨ MmPhysicalMemoryWarningCountMask w <= PageCount →
      (WarningLevelOf s ≠ MemoryWarningLevel1 →
       MmPhysicalMemoryWarningLevel1HighPages w <= allocated →
       WarningLevelOf sa = MemoryWarningLevel1) ∧
      (WarningLevelOf s = MemoryWarningLevelNone →
       allocated < MmPhysicalMemoryWarningLevel1HighPages w →
       MmPhysicalMemoryWarningLevel2HighPages w <= allocated →
       WarningLevelOf sa = MemoryWarningLevel2) ∧
      (WarningLevelOf s = MemoryWarningLevelNone →
       allocated < MmPhysicalMemoryWarningLevel1HighPages w →
       allocated < MmPhysicalMemoryWarningLevel2HighPages w →
       WarningLevelOf sa = MemoryWarningLevelNone) ∧
      (WarningLevelOf s = MemoryWarningLevel2 →
       allocated < MmPhysicalMemoryWarningLevel1HighPages w →
       WarningLevelOf sa = MemoryWarningLevel2)) ∧
     (siga = true ↔ WarningLevelOf sa ≠ WarningLevelOf s)) ∧
  (∀ s si l sf lf,
     FreeUpdateMetrics si s l = (sf, lf) →
     let w := Warnings s in
     let allocated := UINTN (MmTotalAllocatedPhysicalPages (Counts s) - 1) in
     let sampled := Z.land (UINTN (MmPhysicalMemoryFreeCount w + 1))
                           (MmPhysicalMemoryWarningCountMask w) in
     (SignalEvent l = true ∨ sampled ≠ 0 →
      WarningLevelOf sf = WarningLevelOf s ∧ SignalEvent lf = SignalEvent l) ∧
     (SignalEvent l = false → sampled = 0 →
      (WarningLevelOf s = MemoryWarningLevel2 →
       (allocated < MmPhysicalMemoryWarningLevel2LowPages w →
        WarningLevelOf sf = MemoryWarningLevelNone) ∧
       (MmPhysicalMemoryWarningLevel2LowPages w <= allocated →
        WarningLevelOf sf = MemoryWarningLevel2)) ∧
      (WarningLevelOf s = MemoryWarningLevel1 →
       (allocated < MmPhysicalMemoryWarningLevel1LowPages w →
        WarningLevelOf sf = MemoryWarningLevel2) ∧
       (MmPhysicalMemoryWarningLevel1LowPages w <= allocated →
        WarningLevelOf sf = MemoryWarningLevel1)) ∧
      (WarningLevelOf s = MemoryWarningLevelNone →
       WarningLevelOf sf = MemoryWarningLevelNone) ∧
      (SignalEvent lf = true ↔ WarningLevelOf sf ≠ WarningLevelOf s))) ∧
  (∀ s PageCount Alignment a s' signal,
     AllocateAttempt s PageCount Alignment = Some (AllocateFound a s' signal) →
     (signal = true ↔ WarningLevelOf s' ≠ WarningLevelOf s)) ∧
  (∀ s PhysicalAddress PageCount r,
     MmFreePhysicalPages s PhysicalAddress PageCount = Some r →
     (free_signalled r = true ↔ WarningLevelOf (free_state r) ≠ WarningLevelOf s)).
Proof.
  split; [|split; [|split]].
  - intros s PageCount sa siga H. simpl. split; [|split].
    + intros Hbits Hcount. by eapply AllocateCountAndWarn_unsampled.
    + intros Hcheck. rewrite AllocateCountAndWarn_sampled in H by done.
      apply AllocateWarningCheck_spec in H as (H1 & H2 & H3 & H4 & _).
      auto.
    + by eapply AllocateCountAndWarn_signal.
  - intros s si l sf lf H. simpl. split.
    + by eapply FreeUpdateMetrics_unsampled.
    + intros Hsig Hbits.
      destruct (FreeUpdateMetrics_sampled _ _ _ _ _ H Hsig Hbits)
        as (s3 & Hlevel & Hw & Hallocated & Hcheck).
      apply FreeWarningCheck_spec in Hcheck. simpl in Hcheck.
      rewrite Hlevel, Hallocated, Hw in Hcheck. simpl in Hcheck. exact Hcheck.
  - intros. by eapply AllocateAttempt_signal.
  - intros. by eapply MmFreePhysicalPages_signal.
Qed.

Lemma warning_level_state_machine_witness :
  ∃ sa, AllocateCountAndWarn 10 (ThousandFrames 900 MemoryWarningLevelNone 0)
          = (sa, true) ∧
        WarningLevelOf sa = MemoryWarningLevel2.
Proof.
  eexists. split; [vm_compute; reflexivity|].
  destruct warning_level_state_machine as (Hallocate & _).
  refine (proj1 (proj2 (proj1 (proj2
            (Hallocate (ThousandFrames 900 MemoryWarningLevelNone 0) 10 _ true eq_refl))
            _)) _ _ _).
  - right. vm_compute. discriminate.
  - reflexivity.
  - vm_compute. reflexivity.
  - vm_compute. discriminate.
Defined.

(** C4, the claim as stated fails at two places.  With the mask 7 and the
    allocation counter at 0, an allocate of 10 pages leaves the sampled bits
    at 1 and yet re-evaluates the level, which goes from none to warn2.  And
    after an allocate has fired at level 1 (allocated 970, the level-1 high
    threshold), seven further allocates of one page leave the level at warn1
    and the next one, whose sampled bits are zero, fires again and sets warn2
    although allocated (978) has never gone below the level-1 low threshold
    (950). *)
Lemma warning_level_allocate_counterexample :
  (∃ a s',
     MmpAllocatePhysicalPages [] 1000 (ThousandFrames 890 MemoryWarningLevelNone 0) 10 0
       = Some (AllocateReturned a s' true, []) ∧
     Z.land (MmPhysicalMemoryAllocationCount (Warnings s'))
            (MmPhysicalMemoryWarningCountMask (Warnings s')) = 1 ∧
     WarningLevelOf s' = MemoryWarningLevel2) ∧
  (∃ a1 s1 s8 a9 s9,
     MmpAllocatePhysicalPages [] 1000 (ThousandFrames 969 MemoryWarningLevel2 7) 1 0
       = Some (AllocateReturned a1 s1 true, []) ∧
     WarningLevelOf s1 = MemoryWarningLevel1 ∧
     AllocateOnePageTimes 7 s1 = Some s8 ∧
     WarningLevelOf s8 = MemoryWarningLevel1 ∧
     MmpAllocatePhysicalPages [] 1000 s8 1 0 = Some (AllocateReturned a9 s9 true, []) ∧
     WarningLevelOf s9 = MemoryWarningLevel2 ∧
     MmTotalAllocatedPhysicalPages (Counts s9) = 978 ∧
     MmPhysicalMemoryWarningLevel1LowPages (Warnings s9) = 950).
Proof.
  split.
  - eexists _, _. split; [vm_compute; reflexivity|]. by vm_compute.
  - eexists _, _, _, _, _.
    split; [vm_compute; reflexivity|].
    split; [vm_compute; reflexivity|].
    split; [vm_compute; reflexivity|].
    split; [vm_compute; reflexivity|].
    split; [vm_compute; reflexivity|].
    by vm_compute.
Qed.

(** ** The page-out request of a failed allocation *)

(** When the search finds no free run, the target handed to MmRequestPagingOut
    is the larger of the minimum-free threshold and [PageCount + (Alignment >>
    PageShift)], where [Alignment] is the alignment in pages: the alignment,
    already converted from bytes to pages, is shifted once more. *)
Lemma AllocateAttempt_not_found_target s PageCount Alignment target s' :
  AllocateAttempt s PageCount Alignment = Some (AllocateNotFound target s') →
  SameDatabase s s' ∧
  target = Z.max (MmMinimumFreePhysicalPages (Counts s))
                 (ULONGLONG (PageCount + Z.shiftr Alignment PageShift)).
Proof.
  unfold AllocateAttempt. intros H.
  destruct (MmpFindPhysicalPages _ _ _ _ _) as [[found s1]|] eqn:Hfind; [|done].
  apply MmpFindPhysicalPages_same in Hfind. simpl in H.
  destruct found as [r|].
  - destruct (Segments s1 !! _); [|done]. simpl in H.
    by destruct (AllocateCountAndWarn _ _).
  - simplify_eq. split; [done|].
    destruct Hfind as (_ & -> & _). case_match; lia.
Qed.

(** C5.  On the 1000 frames of [ThousandFrames], all of them allocated and
    with the minimum-free threshold at 50, the allocation of 100 pages aligned
    to 64 KiB (16 pages) finds no free run and requests the page-out target
    100; the larger of the threshold and the page count plus the alignment in
    pages is 116. *)
Theorem allocate_page_out_target_drops_alignment :
  MmpAllocatePhysicalPages [] 1000 (ThousandFrames 1000 MemoryWarningLevel1 0) 100 65536
    = Some (AllocateStillWaiting (ThousandFrames 1000 MemoryWarningLevel1 0), [100]) ∧
  Z.max (MmMinimumFreePhysicalPages (Counts (ThousandFrames 1000 MemoryWarningLevel1 0)))
        (100 + Z.shiftr 65536 PageShift) = 116.
Proof. split; vm_compute; reflexivity. Qed.

(** ** The failure count of a page-out pass *)




(** ** Initialization and physical page zero *)

Lemma ULONGLONG_small x : 0 <= x < 2 ^ 64 → ULONGLONG x = x.
Proof. intros H. unfold ULONGLONG, wrap. by apply Z.mod_small. Qed.

Lemma UINTN_small x : 0 <= x < 2 ^ 32 → UINTN x = x.
Proof. intros H. unfold UINTN, wrap. by apply Z.mod_small. Qed.





(** ** Locking and unlocking a run of frames *)

Section LockUnlock.

Implicit Types (s : MmState) (run : list Z) (page : Z).

Lemma MmState_eq s s' :
  Segments s = Segments s' → PagingEntries s = PagingEntries s' →
  Counts s = Counts s' → Cursors s = Cursors s' → Warnings s = Warnings s' →
  s = s'.
Proof. destruct s, s'. simpl. by intros -> -> -> -> ->. Qed.

Lemma LockOnePage_Segments page s step :
  LockOnePage page s = Some step →
  match step with Continue s' | Break s' => Segments s' = Segments s end.
Proof.
  unfold LockOnePage. intros H.
  destruct (IsNonPaged page); [by simplify_eq|].
  destruct (PagingEntries s !! page) as [e|]; [|done]. simpl in H.
  destruct (LockCount e =? MAX_PHYSICAL_PAGE_LOCK_COUNT); simplify_eq; [done|].
  simpl. by destruct (LockCount e =? 0).
Qed.

Lemma UnlockOnePage_Segments page s s' :
  UnlockOnePage page s = Some s' → Segments s' = Segments s.
Proof.
  unfold UnlockOnePage. intros H.
  destruct (IsNonPaged page); [by simplify_eq|].
  destruct (PagingEntries s !! page) as [e|]; [|done]. simpl in H.
  destruct (LockCount e =? 0); [done|].
  destruct (LockCount e - 1 =? 0); by simplify_eq.
Qed.

Lemma take_drop_cons {A} (l : list A) i c x r :
  take (S c) (drop i l) = x :: r → l !! i = Some x ∧ take c (drop (S i) l) = r.
Proof.
  intros H. destruct (l !! i) as [y|] eqn:Hy.
  - rewrite (drop_S _ _ _ Hy) in H. simpl in H. by simplify_eq.
  - apply lookup_ge_None in Hy. rewrite drop_ge in H by done. done.
Qed.

Lemma LockLoop_LockRun si g Offset count PageIndex s run :
  Segments s !! si = Some g →
  take count (drop (Offset + PageIndex) (PhysicalPages g)) = run →
  length run = count →
  LockLoop si Offset count PageIndex s = LockRun run PageIndex s.
Proof.
  revert PageIndex s run.
  induction count as [|count IH]; intros PageIndex s run Hg Hrun Hlen.
  - by destruct run.
  - destruct run as [|page run]; [done|].
    apply take_drop_cons in Hrun as [Hpage Hrun]. simpl.
    unfold ReadPage. rewrite Hg. simpl. rewrite Hpage. simpl.
    destruct (LockOnePage page s) as [step|] eqn:Hstep; [|done]. simpl.
    apply LockOnePage_Segments in Hstep.
    destruct step as [s'|s']; [|done].
    apply IH; [by rewrite Hstep | by rewrite <- Nat.add_succ_r in Hrun | by simplify_eq/=].
Qed.

Lemma UnlockLoop_UnlockRun si g Offset count PageIndex s run :
  Segments s !! si = Some g →
  take count (drop (Offset + PageIndex) (PhysicalPages g)) = run →
  length run = count →
  UnlockLoop si Offset count PageIndex s = UnlockRun run s.
Proof.
  revert PageIndex s run.
  induction count as [|count IH]; intros PageIndex s run Hg Hrun Hlen.
  - by destruct run.
  - destruct run as [|page run]; [done|].
    apply take_drop_cons in Hrun as [Hpage Hrun]. simpl.
    unfold ReadPage. rewrite Hg. simpl. rewrite Hpage. simpl.
    destruct (UnlockOnePage page s) as [s'|] eqn:Hstep; [|done]. simpl.
    apply UnlockOnePage_Segments in Hstep.
    apply IH; [by rewrite Hstep | by rewrite <- Nat.add_succ_r in Hrun | by simplify_eq/=].
Qed.

Lemma set_LockCount_back e c :
  LockCount e = c → set_LockCount c (set_LockCount (c + 1) e) = e.
Proof. destruct e. simpl. by intros ->. Qed.

(** Unlocking a page undoes its locking. *)
Lemma UnlockOnePage_LockOnePage page s s1 :
  LockOnePage page s = Some (Continue s1) →
  0 <= MmNonPagedPhysicalPages (Counts s) < 2 ^ 32 →
  (IsNonPaged page = false →
   ∀ e, PagingEntries s !! page = Some e → 0 <= LockCount e) →
  UnlockOnePage page s1 = Some s.
Proof.
  unfold LockOnePage, UnlockOnePage. intros H Hnp Hcount.
  destruct (IsNonPaged page); [by simplify_eq|].
  destruct (PagingEntries s !! page) as [e|] eqn:He; [|done]. simpl in H.
  specialize (Hcount eq_refl e eq_refl).
  destruct (LockCount e =? MAX_PHYSICAL_PAGE_LOCK_COUNT); [done|].
  simplify_eq. simpl.
  assert (PagingEntries
            (if LockCount e =? 0
             then set_Counts
                    (set_NonPaged (UINTN (MmNonPagedPhysicalPages (Counts s) + 1))
                                  (Counts s)) s
             else s) = PagingEntries s) as Hheap by (by destruct (LockCount e =? 0)).
  rewrite Hheap, lookup_insert_eq. simpl.
  destruct (LockCount e + 1 =? 0) eqn:Hz; [lia|].
  replace (LockCount e + 1 - 1) with (LockCount e) by lia.
  rewrite insert_insert_eq.
  rewrite set_LockCount_back by done.
  rewrite (insert_id _ _ _ He).
  destruct (LockCount e =? 0); simpl; f_equal.
  - apply MmState_eq; try done. simpl.
    destruct (Counts s) as [t a m np] eqn:Hc. simpl in *. f_equal.
    unfold UINTN, wrap.
    rewrite Zminus_mod_idemp_l. replace (np + 1 - 1) with np by lia.
    rewrite Z.mod_small by done. done.
  - by apply MmState_eq.
Qed.

(** Unlocking two pages with different paging entries can be done in either
    order. *)
Lemma UnlockOnePage_commute p q s :
  IsNonPaged p = true ∨ IsNonPaged q = true ∨ p ≠ q →
  UnlockOnePage p s ≫= UnlockOnePage q = UnlockOnePage q s ≫= UnlockOnePage p.
Proof.
  intros Hpq. unfold UnlockOnePage.
  destruct (IsNonPaged p) eqn:Hp; simpl.
  { destruct (IsNonPaged q); simpl; [done|].
    destruct (PagingEntries s !! q) as [eq|]; simpl; [|done].
    destruct (LockCount eq =? 0); [done|].
    destruct (LockCount eq - 1 =? 0); done. }
  destruct (IsNonPaged q) eqn:Hq; simpl.
  { destruct (PagingEntries s !! p) as [ep|]; simpl; [|done].
    destruct (LockCount ep =? 0); [done|].
    destruct (LockCount ep - 1 =? 0); done. }
  assert (p ≠ q) as Hne by (by destruct Hpq as [?|[?|?]]).
  destruct (PagingEntries s !! p) as [ep|] eqn:Hep;
    destruct (PagingEntries s !! q) as [eq|] eqn:Heq; simpl.
  - destruct (LockCount ep =? 0) eqn:Hcp; destruct (LockCount eq =? 0) eqn:Hcq; simpl.
    + done.
    + destruct (LockCount eq - 1 =? 0); simpl;
        rewrite lookup_insert_ne, Hep by done; simpl; by rewrite Hcp.
    + destruct (LockCount ep - 1 =? 0); simpl;
        rewrite lookup_insert_ne, Heq by done; simpl; by rewrite Hcq.
    + destruct (LockCount ep - 1 =? 0) eqn:Hzp;
      destruct (LockCount eq - 1 =? 0) eqn:Hzq; simpl;
        rewrite !lookup_insert_ne, Hep, Heq by done; simpl;
        rewrite Hcp, Hcq, Hzp, Hzq; simpl;
        f_equal; apply MmState_eq; simpl; try done;
        by apply insert_insert_ne.
  - destruct (LockCount ep =? 0); [done|].
    destruct (LockCount ep - 1 =? 0); simpl;
      rewrite lookup_insert_ne, Heq by done; done.
  - destruct (LockCount eq =? 0); [done|].
    destruct (LockCount eq - 1 =? 0); simpl;
      rewrite lookup_insert_ne, Hep by done; done.
  - done.
Qed.


Lemma PagingEntriesOf_cons page run :
  PagingEntriesOf (page :: run) =
  if IsNonPaged page then PagingEntriesOf run else page :: PagingEntriesOf run.
Proof.
  unfold PagingEntriesOf. rewrite filter_cons.
  destruct (IsNonPaged page); by case_decide.
Qed.

Lemma UnlockRun_commute page run s :
  IsNonPaged page = true ∨ page ∉ PagingEntriesOf run →
  UnlockOnePage page s ≫= UnlockRun run = UnlockRun run s ≫= UnlockOnePage page.
Proof.
  revert s. induction run as [|q run IH]; intros s Hpage; simpl.
  - by destruct (UnlockOnePage page s).
  - assert (IsNonPaged page = true ∨ IsNonPaged q = true ∨ page ≠ q) as Hpq.
    { destruct Hpage as [?|Hnot]; [by left|].
      rewrite PagingEntriesOf_cons in Hnot.
      destruct (IsNonPaged q); [by right; left|].
      right; right. intros ->. apply Hnot. by left. }
    assert (IsNonPaged page = true ∨ page ∉ PagingEntriesOf run) as Hrest.
    { destruct Hpage as [?|Hnot]; [by left|]. right.
      rewrite PagingEntriesOf_cons in Hnot.
      destruct (IsNonPaged q); [done|]. intros Hin. apply Hnot. by right. }
    pose proof (UnlockOnePage_commute page q s Hpq) as Hc.
    destruct (UnlockOnePage page s) as [sp|] eqn:Hp;
      destruct (UnlockOnePage q s) as [sq|] eqn:Hq; simpl in *.
    + rewrite Hc. by apply IH.
    + by rewrite Hc.
    + rewrite <- (IH sq Hrest), <- Hc. done.
    + done.
Qed.

Lemma LockOnePage_other page s s1 p :
  LockOnePage page s = Some (Continue s1) →
  p ≠ page ∨ IsNonPaged page = true →
  PagingEntries s1 !! p = PagingEntries s !! p.
Proof.
  unfold LockOnePage. intros H Hp.
  destruct (IsNonPaged page) eqn:Hpage; [by simplify_eq|].
  destruct Hp as [Hp|]; [|done].
  destruct (PagingEntries s !! page) as [e|]; [|done]. simpl in H.
  destruct (LockCount e =? MAX_PHYSICAL_PAGE_LOCK_COUNT); [done|].
  simplify_eq. simpl. rewrite lookup_insert_ne by done.
  by destruct (LockCount e =? 0).
Qed.

Lemma LockOnePage_NonPaged_range page s s1 :
  LockOnePage page s = Some (Continue s1) →
  0 <= MmNonPagedPhysicalPages (Counts s) < 2 ^ 32 →
  0 <= MmNonPagedPhysicalPages (Counts s1) < 2 ^ 32.
Proof.
  unfold LockOnePage. intros H Hnp.
  destruct (IsNonPaged page) eqn:Hpage; [by simplify_eq|].
  destruct (PagingEntries s !! page) as [e|]; [|done]. simpl in H.
  destruct (LockCount e =? MAX_PHYSICAL_PAGE_LOCK_COUNT); [done|].
  simplify_eq. simpl. destruct (LockCount e =? 0); simpl; [|done].
  unfold UINTN, wrap. apply Z.mod_pos_bound. lia.
Qed.

(** A run that was locked with success is restored by unlocking it. *)
Lemma UnlockRun_LockRun run k k' s s' :
  LockRun run k s = Some (STATUS_SUCCESS, k', s') →
  LockReady s run →
  NoDup (PagingEntriesOf run) →
  UnlockRun run s' = Some s.
Proof.
  revert k s. induction run as [|page run IH]; intros k s H [Hnp Hcount] Hdup; simpl in H.
  - by simplify_eq.
  - destruct (LockOnePage page s) as [step|] eqn:Hstep; [|done]. simpl in H.
    destruct step as [s1|s1]; [|done].
    rewrite PagingEntriesOf_cons in Hdup, Hcount.
    assert (IsNonPaged page = true ∨ page ∉ PagingEntriesOf run) as Hpage.
    { destruct (IsNonPaged page); [by left|]. right. by apply NoDup_cons in Hdup as [? _]. }
    assert (NoDup (PagingEntriesOf run)) as Hdup'.
    { destruct (IsNonPaged page); [done|]. by apply NoDup_cons in Hdup as [_ ?]. }
    assert (UnlockRun run s' = Some s1) as Hrest.
    { eapply IH; [done| |done]. split; [by eapply LockOnePage_NonPaged_range|].
      intros p e Hin He. apply (Hcount p e).
      - destruct (IsNonPaged page); [done|]. by right.
      - rewrite <- He. symmetry. eapply LockOnePage_other; [done|].
        destruct Hpage as [?|Hnot]; [by right|]. left. by intros ->. }
    change (UnlockRun (page :: run) s') with (UnlockOnePage page s' ≫= UnlockRun run).
    rewrite UnlockRun_commute by done. rewrite Hrest. simpl.
    eapply UnlockOnePage_LockOnePage; [done..|].
    intros Hnon e He. apply (Hcount page e); [|done].
    rewrite Hnon. by left.
Qed.


Lemma LockRun_Segments run k s st k' s' :
  LockRun run k s = Some (st, k', s') → Segments s' = Segments s.
Proof.
  revert k s. induction run as [|page run IH]; intros k s H; simpl in H.
  - by simplify_eq.
  - destruct (LockOnePage page s) as [step|] eqn:Hstep; [|done]. simpl in H.
    apply LockOnePage_Segments in Hstep.
    destruct step as [s1|s1]; [|by simplify_eq].
    rewrite <- Hstep. by eapply IH.
Qed.

Lemma LockCountAt_LockOnePage_other page s s1 p :
  LockOnePage page s = Some (Continue s1) →
  p ≠ page ∨ IsNonPaged page = true →
  LockCountAt s1 p = LockCountAt s p.
Proof. intros H Hp. unfold LockCountAt. by erewrite LockOnePage_other. Qed.

(** How the locking of a run ends when no two of its pageable frames share a
    paging entry: with success when no paging entry of the run is at the cap,
    and else at the first frame whose paging entry is at the cap, with the
    frames before it locked. *)
Lemma LockRun_result run k s :
  (∀ p, p ∈ PagingEntriesOf run → is_Some (PagingEntries s !! p)) →
  NoDup (PagingEntriesOf run) →
  (∃ s', LockRun run k s = Some (STATUS_SUCCESS, (k + length run)%nat, s') ∧
         ∀ p, p ∈ PagingEntriesOf run →
              LockCountAt s p ≠ Some MAX_PHYSICAL_PAGE_LOCK_COUNT) ∨
  (∃ pre p post s',
     run = pre ++ p :: post ∧
     LockRun run k s = Some (STATUS_RESOURCE_IN_USE, (k + length pre)%nat, s') ∧
     LockRun pre k s = Some (STATUS_SUCCESS, (k + length pre)%nat, s') ∧
     IsNonPaged p = false ∧
     LockCountAt s p = Some MAX_PHYSICAL_PAGE_LOCK_COUNT).
Proof.
  revert k s. induction run as [|page run IH]; intros k s Hsome Hdup.
  - left. exists s. simpl. rewrite Nat.add_0_r. split; [done|].
    intros p Hp. by apply elem_of_nil in Hp.
  - rewrite PagingEntriesOf_cons in Hsome, Hdup.
    destruct (IsNonPaged page) eqn:Hpage.
    + assert (LockOnePage page s = Some (Continue s)) as Hstep
        by (unfold LockOnePage; by rewrite Hpage).
      destruct (IH (S k) s Hsome Hdup)
        as [(s' & Hrun & Hcap)|(pre & p & post & s' & -> & Hrun & Hpre & Hp & Hcap)].
      * left. exists s'. simpl. rewrite Hstep. simpl.
        rewrite Hrun, PagingEntriesOf_cons, Hpage.
        split; [do 3 f_equal; lia | done].
      * right. exists (page :: pre), p, post, s'. simpl. rewrite Hstep. simpl.
        rewrite Hrun, Hpre. repeat split; try done; do 3 f_equal; lia.
    + destruct (Hsome page) as [e He]; [by left|].
      apply NoDup_cons in Hdup as [Hnot Hdup].
      destruct (decide (LockCount e = MAX_PHYSICAL_PAGE_LOCK_COUNT)) as [Hmax|Hmax].
      * right. exists [], page, run, s. simpl.
        unfold LockOnePage. rewrite Hpage, He. simpl.
        rewrite Hmax. simpl. rewrite Nat.add_0_r.
        repeat split; try done. unfold LockCountAt. by rewrite He, <- Hmax.
      * destruct (LockOnePage page s) as [step|] eqn:Hstep.
        2:{ unfold LockOnePage in Hstep. rewrite Hpage, He in Hstep. simpl in Hstep.
            by destruct (LockCount e =? _). }
        assert (∃ s1, step = Continue s1) as [s1 ->].
        { unfold LockOnePage in Hstep. rewrite Hpage, He in Hstep. simpl in Hstep.
          destruct (LockCount e =? _) eqn:Hq; [lia|]. simplify_eq. by eexists. }
        assert (∀ p, p ∈ PagingEntriesOf run →
                     PagingEntries s1 !! p = PagingEntries s !! p) as Hsame.
        { intros p Hp. eapply LockOnePage_other; [done|]. left. by intros ->. }
        destruct (IH (S k) s1)
          as [(s' & Hrun & Hcap)|(pre & p & post & s' & -> & Hrun & Hpre & Hp & Hcap)];
          [|done|..].
        { intros p Hp. rewrite Hsame by done. apply Hsome. by right. }
        -- left. exists s'. simpl. rewrite Hstep. simpl.
           rewrite Hrun, PagingEntriesOf_cons, Hpage.
           split; [do 3 f_equal; lia|].
           intros p [->|Hp]%elem_of_cons.
           ++ unfold LockCountAt. rewrite He. simpl. congruence.
           ++ unfold LockCountAt in *. rewrite <- Hsame by done. by apply Hcap.
        -- right. exists (page :: pre), p, post, s'. simpl. rewrite Hstep. simpl.
           rewrite Hrun, Hpre.
           assert (p ∈ PagingEntriesOf (pre ++ p :: post)) as Hin.
           { unfold PagingEntriesOf. apply list_elem_of_filter. split; [done|].
             apply elem_of_app. right. by left. }
           repeat split; try done; try (do 3 f_equal; lia).
           unfold LockCountAt in *. by rewrite <- Hsame.
Qed.

Lemma RunAt_inv s F n run :
  RunAt s F n = Some run →
  ∃ si g, FindSegment (Segments s) F = Some (si, g) ∧
          Segments s !! si = Some g ∧
          take n (drop (Z.to_nat (PageOffsetIn g F)) (PhysicalPages g)) = run ∧
          length run = n.
Proof.
  unfold RunAt. intros H.
  destruct (FindSegment (Segments s) F) as [[si g]|] eqn:Hfind; [|done].
  case_decide; [|done]. simplify_eq.
  exists si, g. repeat split; try done. by eapply FindSegment_lookup.
Qed.


Lemma PagingEntriesOf_app run1 run2 :
  PagingEntriesOf (run1 ++ run2) = PagingEntriesOf run1 ++ PagingEntriesOf run2.
Proof. unfold PagingEntriesOf. apply filter_app. Qed.

Lemma LockReady_intro s run :
  0 <= MmNonPagedPhysicalPages (Counts s) < 2 ^ 32 →
  (∀ p, p ∈ PagingEntriesOf run → ∃ c, LockCountAt s p = Some c ∧ 0 <= c) →
  LockReady s run.
Proof.
  intros Hnp Hcount. split; [done|]. intros p e Hp He.
  destruct (Hcount p Hp) as (c & Hc & Hpos).
  unfold LockCountAt in Hc. rewrite He in Hc. by simplify_eq/=.
Qed.

Lemma MmpUnlockPhysicalPages_run s s1 F si g k run :
  FindSegment (Segments s) F = Some (si, g) →
  Segments s1 = Segments s →
  take k (drop (Z.to_nat (PageOffsetIn g F)) (PhysicalPages g)) = run →
  length run = k →
  MmpUnlockPhysicalPages s1 F (Z.of_nat k) = UnlockRun run s1.
Proof.
  intros Hfind Hsegs Hrun Hlen.
  unfold MmpUnlockPhysicalPages. rewrite Hsegs, Hfind, Nat2Z.id.
  apply (UnlockLoop_UnlockRun si g); [|by rewrite Nat.add_0_r|done].
  rewrite Hsegs. by eapply FindSegment_lookup.
Qed.

(** C7.  For a run of [n] frames inside one segment in which the pageable
    frames have paging entries of their own, each with a lock count below the
    cap: MmpLockPhysicalPages succeeds, and MmpUnlockPhysicalPages on the same
    run then leaves the non-paged counter and the lock count of every paging
    entry at their values from before the two calls. *)
Theorem lock_then_unlock_restores (s : MmState) (F : Z) (n : nat) (run : list Z) :
  RunAt s F n = Some run →
  (∀ page, page ∈ run → page ≠ PHYSICAL_PAGE_FREE) →
  (∀ p, p ∈ PagingEntriesOf run →
        ∃ c, LockCountAt s p = Some c ∧ 0 <= c < MAX_PHYSICAL_PAGE_LOCK_COUNT) →
  NoDup (PagingEntriesOf run) →
  0 <= MmNonPagedPhysicalPages (Counts s) < 2 ^ 32 →
  ∃ s1 s2,
    MmpLockPhysicalPages s F (Z.of_nat n) = Some (STATUS_SUCCESS, s1) ∧
    MmpUnlockPhysicalPages s1 F (Z.of_nat n) = Some s2 ∧
    MmNonPagedPhysicalPages (Counts s2) = MmNonPagedPhysicalPages (Counts s) ∧
    ∀ p, LockCountAt s2 p = LockCountAt s p.
Proof.
  intros Hrun _ Hcount Hdup Hnp.
  destruct (RunAt_inv _ _ _ _ Hrun) as (si & g & Hfind & Hg & Htake & Hlen).
  destruct (LockRun_result run 0 s)
    as [(s1 & Hlock & _)|(pre & p & post & s1 & -> & _ & _ & Hp & Hcap)]; [|done|..].
  { intros p Hp. destruct (Hcount p Hp) as (c & Hc & _).
    unfold LockCountAt in Hc. by destruct (PagingEntries s !! p). }
  - exists s1, s. split; [|split; [|done]].
    + unfold MmpLockPhysicalPages. rewrite Hfind, Nat2Z.id.
      rewrite (LockLoop_LockRun si g _ n 0 s run);
        [|done|by rewrite Nat.add_0_r|done].
      by rewrite Hlock.
    + rewrite (MmpUnlockPhysicalPages_run s s1 F si g n run); try done.
      * eapply UnlockRun_LockRun; [done| |done].
        apply LockReady_intro; [done|]. intros p Hp.
        destruct (Hcount p Hp) as (c & Hc & Hpos & _). by exists c.
      * by eapply LockRun_Segments.
  - exfalso. destruct (Hcount p) as (c & Hc & Hlt).
    + unfold PagingEntriesOf. apply list_elem_of_filter. split; [done|].
      apply elem_of_app. right. by left.
    + rewrite Hcap in Hc. simplify_eq. lia.
Qed.

(** C6.  For a run of [n] frames inside one segment in which the pageable
    frames have paging entries of their own, with lock counts up to the cap:
    MmpLockPhysicalPages returns, and its status is "resource in use" exactly
    when a pageable frame of the run has a paging entry whose lock count is at
    the cap; in that case the whole state, and so the non-paged counter and
    the lock count of every paging entry, is as it was before the call. *)
Theorem lock_failure_is_undone (s : MmState) (F : Z) (n : nat) (run : list Z) :
  RunAt s F n = Some run →
  (∀ p, p ∈ PagingEntriesOf run →
        ∃ c, LockCountAt s p = Some c ∧ 0 <= c <= MAX_PHYSICAL_PAGE_LOCK_COUNT) →
  NoDup (PagingEntriesOf run) →
  0 <= MmNonPagedPhysicalPages (Counts s) < 2 ^ 32 →
  ∃ Status s',
    MmpLockPhysicalPages s F (Z.of_nat n) = Some (Status, s') ∧
    (Status = STATUS_RESOURCE_IN_USE ↔
     ∃ p, p ∈ PagingEntriesOf run ∧
          LockCountAt s p = Some MAX_PHYSICAL_PAGE_LOCK_COUNT) ∧
    (Status = STATUS_RESOURCE_IN_USE →
     s' = s ∧
     MmNonPagedPhysicalPages (Counts s') = MmNonPagedPhysicalPages (Counts s) ∧
     ∀ p, LockCountAt s' p = LockCountAt s p).
Proof.
  intros Hrun Hcount Hdup Hnp.
  destruct (RunAt_inv _ _ _ _ Hrun) as (si & g & Hfind & Hg & Htake & Hlen).
  assert (MmpLockPhysicalPages s F (Z.of_nat n) =
          '(Status, PageIndex, s1) ← LockRun run 0 s;
          if negb (KSUCCESS Status) && negb (Nat.eqb PageIndex 0)
          then s2 ← MmpUnlockPhysicalPages s1 F (Z.of_nat PageIndex); Some (Status, s2)
          else Some (Status, s1)) as Hlock.
  { unfold MmpLockPhysicalPages. rewrite Hfind, Nat2Z.id.
    by rewrite (LockLoop_LockRun si g _ n 0 s run);
      [|done|by rewrite Nat.add_0_r|done]. }
  destruct (LockRun_result run 0 s)
    as [(s1 & Hrun1 & Hcap)|(pre & p & post & s1 & -> & Hrun1 & Hpre & Hp & Hcap)];
    [|done|..].
  { intros p Hp. destruct (Hcount p Hp) as (c & Hc & _).
    unfold LockCountAt in Hc. by destruct (PagingEntries s !! p). }
  - exists STATUS_SUCCESS, s1. rewrite Hlock, Hrun1. simpl.
    split; [done|]. split; [|done]. split; [done|].
    intros (p & Hp & Hmax). by apply Hcap in Hp.
  - assert (p ∈ PagingEntriesOf (pre ++ p :: post)) as Hin.
    { unfold PagingEntriesOf. apply list_elem_of_filter. split; [done|].
      apply elem_of_app. right. by left. }
    exists STATUS_RESOURCE_IN_USE, s.
    split; [|split; [split; [by exists p|done]|done]].
    rewrite Hlock, Hrun1. cbn [mbind option_bind KSUCCESS negb andb Nat.add].
    destruct (decide (pre = [])) as [->|Hne].
    + simpl in *. by simplify_eq.
    + assert (Nat.eqb (length pre) 0 = false) as -> by (by destruct pre).
      cbn [negb].
      rewrite (MmpUnlockPhysicalPages_run s s1 F si g (length pre) pre).
      * erewrite UnlockRun_LockRun; [done|exact Hpre| |].
        -- apply LockReady_intro; [done|]. intros q Hq.
           destruct (Hcount q) as (c & Hc & Hpos & _); [|by exists c].
           rewrite PagingEntriesOf_app. apply elem_of_app. by left.
        -- rewrite PagingEntriesOf_app in Hdup. by apply NoDup_app in Hdup as [? _].
      * done.
      * by eapply LockRun_Segments.
      * rewrite length_app in Hlen. simpl in Hlen.
        transitivity (take (length pre)
                        (take n (drop (Z.to_nat (PageOffsetIn g F)) (PhysicalPages g)))).
        { rewrite take_take. f_equal. lia. }
        rewrite Htake. apply take_app_length.
      * done.
Qed.

End LockUnlock.

Lemma lock_then_unlock_restores_witness :
  ∃ s1 s2,
    MmpLockPhysicalPages SixteenPageable 1048576 (Z.of_nat 2) = Some (STATUS_SUCCESS, s1) ∧
    MmpUnlockPhysicalPages s1 1048576 (Z.of_nat 2) = Some s2 ∧
    MmNonPagedPhysicalPages (Counts s2)
      = MmNonPagedPhysicalPages (Counts SixteenPageable) ∧
    ∀ p, LockCountAt s2 p = LockCountAt SixteenPageable p.
Proof.
  apply (lock_then_unlock_restores SixteenPageable 1048576 2 [20480; 20496]).
  - reflexivity.
  - intros page Hpage. apply list_elem_of_In in Hpage. simpl in Hpage.
    destruct Hpage as [<-|[<-|[]]]; discriminate.
  - intros p Hp. apply list_elem_of_In in Hp. simpl in Hp.
    destruct Hp as [<-|[<-|[]]]; exists 0; (split; [reflexivity|by vm_compute]).
  - apply NoDup_ListNoDup. repeat constructor; simpl; intuition discriminate.
  - by vm_compute.
Defined.

Lemma lock_failure_is_undone_witness :
  ∃ Status s',
    MmpLockPhysicalPages TwoPageableOneAtCap 1048576 (Z.of_nat 2) = Some (Status, s') ∧
    (Status = STATUS_RESOURCE_IN_USE ↔
     ∃ p, p ∈ PagingEntriesOf [20480; 20496] ∧
          LockCountAt TwoPageableOneAtCap p = Some MAX_PHYSICAL_PAGE_LOCK_COUNT) ∧
    (Status = STATUS_RESOURCE_IN_USE →
     s' = TwoPageableOneAtCap ∧
     MmNonPagedPhysicalPages (Counts s')
       = MmNonPagedPhysicalPages (Counts TwoPageableOneAtCap) ∧
     ∀ p, LockCountAt s' p = LockCountAt TwoPageableOneAtCap p).
Proof.
  apply (lock_failure_is_undone TwoPageableOneAtCap 1048576 2 [20480; 20496]).
  - reflexivity.
  - intros p Hp. apply list_elem_of_In in Hp. simpl in Hp.
    destruct Hp as [<-|[<-|[]]]; [exists 3 | exists 15];
      (split; [reflexivity|by vm_compute]).
  - apply NoDup_ListNoDup. repeat constructor; simpl; intuition discriminate.
  - by vm_compute.
Defined.

(** The call of the witness above, evaluated: the first frame is locked, the
    second is at the cap, and the state returned is the state before. *)
Example lock_at_cap_evaluated :
  MmpLockPhysicalPages TwoPageableOneAtCap 1048576 2
    = Some (STATUS_RESOURCE_IN_USE, TwoPageableOneAtCap).
Proof. vm_compute. reflexivity. Qed.

(** ** MmpUnmapPages: present bits and the resident-set counter *)

#[local] Arguments PTE_Present : simpl never.
#[local] Arguments PTE_Entry : simpl never.
#[local] Arguments PTE_Dirty : simpl never.
#[local] Arguments PTE_ClearPresent : simpl never.
#[local] Arguments DirectoryIndexOf : simpl never.
#[local] Arguments TableIndexOf : simpl never.
#[local] Arguments SyncKernelDirectory : simpl never.
#[local] Arguments word : simpl never.
#[local] Arguments HasFlag : simpl never.
#[local] Arguments INTN : simpl never.
#[local] Arguments UINTN : simpl never.
#[local] Arguments ULONG : simpl never.
#[local] Arguments ULONGLONG : simpl never.

Section Words.
Context {K : Type} `{Countable K}.
Lemma word_insert (m : gmap K Z) k v k' :
  word (<[k := v]> m) k' = if decide (k = k') then v else word m k'.
Proof.
  unfold word. case_decide as Hk.
  - subst. by rewrite lookup_insert_eq.
  - by rewrite lookup_insert_ne.
Qed.
End Words.

Lemma PTE_Present_clear pte : PTE_Present (PTE_ClearPresent pte) = false.
Proof. unfold PTE_Present, PTE_ClearPresent. apply Z.clearbit_eq. Qed.

Lemma PTE_Present_zero : PTE_Present 0 = false.
Proof. done. Qed.

Lemma SyncKernelDirectory_other sp di dj :
  di ≠ dj →
  word (Directory (SyncKernelDirectory sp di)) dj = word (Directory sp) dj.
Proof.
  intros Hne. unfold SyncKernelDirectory.
  destruct (_ && _ && _); [|done]. simpl. rewrite word_insert. by rewrite decide_False.
Qed.

Lemma SyncKernelDirectory_fields sp di :
  MmKernelPageDirectory (SyncKernelDirectory sp di) = MmKernelPageDirectory sp ∧
  PageTables (SyncKernelDirectory sp di) = PageTables sp ∧
  ResidentSet (SyncKernelDirectory sp di) = ResidentSet sp.
Proof. unfold SyncKernelDirectory. by destruct (_ && _ && _). Qed.

(** The effective directory entry depends on the word at the index in the two
    directories only. *)
Lemma EffectivePde_ext sp sp' di :
  word (Directory sp') di = word (Directory sp) di →
  word (MmKernelPageDirectory sp') di = word (MmKernelPageDirectory sp) di →
  EffectivePde sp' di = EffectivePde sp di.
Proof.
  intros Hdir Hkernel. unfold EffectivePde, SyncKernelDirectory.
  rewrite Hdir, Hkernel.
  destruct (_ && _ && _); simpl; [|done]. by rewrite !word_insert, !decide_True.
Qed.

Lemma SyncKernelDirectory_cases sp di :
  SyncKernelDirectory sp di = sp ∨
  SyncKernelDirectory sp di =
    set_Directory (<[di := word (MmKernelPageDirectory sp) di]> (Directory sp)) sp.
Proof. unfold SyncKernelDirectory. destruct (_ && _ && _); auto. Qed.

Lemma EffectivePde_sync sp di dj :
  EffectivePde (SyncKernelDirectory sp di) dj = EffectivePde sp dj.
Proof.
  destruct (decide (di = dj)) as [->|Hne].
  - destruct (SyncKernelDirectory_cases sp dj) as [Heq|Heq].
    + by rewrite Heq.
    + unfold EffectivePde. rewrite Heq.
      destruct (SyncKernelDirectory_cases
                  (set_Directory
                     (<[dj := word (MmKernelPageDirectory sp) dj]> (Directory sp)) sp)
                  dj) as [Heq'|Heq']; rewrite Heq'; [done|].
      cbn [Directory set_Directory MmKernelPageDirectory].
      rewrite word_insert, decide_True by done.
      rewrite word_insert, decide_True by done. done.
  - apply EffectivePde_ext; [by apply SyncKernelDirectory_other|].
    by destruct (SyncKernelDirectory_fields sp di) as (-> & _).
Qed.

(** *** One turn of the first loop *)

Section FirstPass.

Variables (UnmapFlags : Z) (WantDirty InvalidateTlb : bool).

(** The three ways a turn of the first loop can go. *)
Lemma UnmapFirstPassPage_cases a sp l :
  let sp1 := SyncKernelDirectory sp (DirectoryIndexOf a) in
  let pde := word (Directory sp1) (DirectoryIndexOf a) in
  let slot := (PTE_Entry pde, TableIndexOf a) in
  let pte := word (PageTables sp1) slot in
  let result := UnmapFirstPassPage UnmapFlags WantDirty InvalidateTlb a (sp, l) in
  (PTE_Present pde = false ∧ result = (sp1, l)) ∨
  (PTE_Present pde = true ∧ PTE_Entry pte = 0 ∧ result = (sp1, l)) ∨
  (PTE_Present pde = true ∧ PTE_Entry pte ≠ 0 ∧
   ∃ pte' l', result = (set_PageTables (<[slot := pte']> (PageTables sp1)) sp1, l') ∧
              PTE_Present pte' = false ∧
              MappedCount l' = INTN (MappedCount l + 1)).
Proof.
  intros sp1 pde slot pte result.
  unfold result, UnmapFirstPassPage. fold sp1. fold pde. fold slot. fold pte.
  destruct (PTE_Present pde) eqn:Hpde; [|by left].
  right. cbn [negb].
  destruct (PTE_Entry pte =? 0) eqn:Hpte; cbn [negb].
  - left. split; [done|]. split; [lia|done].
  - right. split; [done|]. split; [lia|].
    eexists _, _. split; [reflexivity|]. split; [|done].
    destruct (_ && _); [done | apply PTE_Present_clear].
Qed.


#[local] Abbreviation FirstPage := (UnmapFirstPassPage UnmapFlags WantDirty InvalidateTlb).

Lemma UnmapFirstPassPage_fields a sp l :
  Directory (FirstPage a (sp, l)).1
    = Directory (SyncKernelDirectory sp (DirectoryIndexOf a)) ∧
  MmKernelPageDirectory (FirstPage a (sp, l)).1 = MmKernelPageDirectory sp ∧
  ResidentSet (FirstPage a (sp, l)).1 = ResidentSet sp.
Proof.
  destruct (SyncKernelDirectory_fields sp (DirectoryIndexOf a)) as (Hk & _ & Hr).
  destruct (UnmapFirstPassPage_cases a sp l)
    as [(_ & ->)|[(_ & _ & ->)|(_ & _ & pte' & l' & -> & _)]]; done.
Qed.

Lemma UnmapFirstPassPage_effective a sp l di :
  EffectivePde (FirstPage a (sp, l)).1 di = EffectivePde sp di.
Proof.
  destruct (UnmapFirstPassPage_fields a sp l) as (Hd & Hk & _).
  rewrite <- (EffectivePde_sync sp (DirectoryIndexOf a) di).
  apply EffectivePde_ext; [by rewrite Hd|].
  rewrite Hk. by destruct (SyncKernelDirectory_fields sp (DirectoryIndexOf a)) as (-> & _).
Qed.

(** The first loop changes a leaf entry only to one that is not present. *)
Lemma UnmapFirstPassPage_tables a sp l slot :
  word (PageTables (FirstPage a (sp, l)).1) slot = word (PageTables sp) slot ∨
  PTE_Present (word (PageTables (FirstPage a (sp, l)).1) slot) = false.
Proof.
  destruct (SyncKernelDirectory_fields sp (DirectoryIndexOf a)) as (_ & Ht & _).
  destruct (UnmapFirstPassPage_cases a sp l)
    as [(_ & ->)|[(_ & _ & ->)|(_ & _ & pte' & l' & -> & Hpte' & _)]];
    cbn [fst PageTables set_PageTables]; rewrite ?Ht; [by left..|].
  rewrite word_insert. case_decide; [by right | by left].
Qed.

Lemma LeafEntrySynced_unfold sp b :
  LeafEntrySynced sp b =
  if PTE_Present (EffectivePde sp (DirectoryIndexOf b))
  then Some (word (PageTables sp)
                  (PTE_Entry (EffectivePde sp (DirectoryIndexOf b)), TableIndexOf b))
  else None.
Proof.
  unfold LeafEntrySynced, LeafEntry, LeafSlot, EffectivePde.
  destruct (SyncKernelDirectory_fields sp (DirectoryIndexOf b)) as (_ & -> & _).
  by destruct (PTE_Present _).
Qed.

Lemma IsPresent_unfold sp b :
  IsPresent sp b =
  PTE_Present (word (Directory sp) (DirectoryIndexOf b)) &&
  PTE_Present (word (PageTables sp)
                    (PTE_Entry (word (Directory sp) (DirectoryIndexOf b)),
                     TableIndexOf b)).
Proof. unfold IsPresent, LeafEntry, LeafSlot. by destruct (PTE_Present _). Qed.

Lemma UnmapFirstPassPage_synced_here a sp l :
  SyncedAt (FirstPage a (sp, l)).1 (DirectoryIndexOf a).
Proof.
  unfold SyncedAt. fold (EffectivePde (FirstPage a (sp, l)).1 (DirectoryIndexOf a)).
  rewrite UnmapFirstPassPage_effective.
  by destruct (UnmapFirstPassPage_fields a sp l) as (-> & _).
Qed.

Lemma UnmapFirstPassPage_directory_word a sp l dj :
  SyncedAt sp dj →
  word (Directory (FirstPage a (sp, l)).1) dj = word (Directory sp) dj.
Proof.
  intros Hsynced. destruct (UnmapFirstPassPage_fields a sp l) as (-> & _).
  destruct (decide (DirectoryIndexOf a = dj)) as [<-|Hne]; [done|].
  by apply SyncKernelDirectory_other.
Qed.

Lemma UnmapFirstPassPage_synced a sp l dj :
  SyncedAt sp dj → SyncedAt (FirstPage a (sp, l)).1 dj.
Proof.
  intros Hsynced. unfold SyncedAt.
  fold (EffectivePde (FirstPage a (sp, l)).1 dj).
  rewrite UnmapFirstPassPage_effective, UnmapFirstPassPage_directory_word by done.
  done.
Qed.

(** After its turn, the page is covered by no present leaf entry, if the
    code's assertion holds for it. *)
Lemma UnmapFirstPassPage_present_here a sp l :
  (∀ pte, LeafEntrySynced sp a = Some pte → PTE_Entry pte = 0 →
          PTE_Present pte = false) →
  IsPresent (FirstPage a (sp, l)).1 a = false.
Proof.
  intros Hassert. rewrite LeafEntrySynced_unfold in Hassert.
  unfold EffectivePde in Hassert.
  destruct (SyncKernelDirectory_fields sp (DirectoryIndexOf a)) as (_ & Ht & _).
  rewrite IsPresent_unfold.
  destruct (UnmapFirstPassPage_cases a sp l)
    as [(Hpde & ->)|[(Hpde & Hpte & ->)|(Hpde & _ & pte' & l' & -> & Hpte' & _)]];
    cbn [fst Directory PageTables set_PageTables].
  - by rewrite Hpde.
  - rewrite Hpde in *. cbn [andb]. rewrite Ht in *. by eapply Hassert.
  - rewrite Hpde. cbn [andb]. by rewrite word_insert, decide_True.
Qed.

Lemma UnmapFirstPassPage_present a sp l b :
  IsPresent sp b = false → SyncedAt sp (DirectoryIndexOf b) →
  IsPresent (FirstPage a (sp, l)).1 b = false.
Proof.
  rewrite !IsPresent_unfold. intros Hb Hsynced.
  rewrite UnmapFirstPassPage_directory_word by done.
  destruct (PTE_Present (word (Directory sp) _)); [|done]. cbn [andb] in *.
  by destruct (UnmapFirstPassPage_tables a sp l
                 (PTE_Entry (word (Directory sp) (DirectoryIndexOf b)), TableIndexOf b))
    as [-> | ->].
Qed.

Lemma UnmapFirstPassPage_assertion a sp l b :
  (∀ pte, LeafEntrySynced sp b = Some pte → PTE_Entry pte = 0 →
          PTE_Present pte = false) →
  (∀ pte, LeafEntrySynced (FirstPage a (sp, l)).1 b = Some pte → PTE_Entry pte = 0 →
          PTE_Present pte = false).
Proof.
  intros Hassert pte. rewrite LeafEntrySynced_unfold in *.
  rewrite UnmapFirstPassPage_effective.
  destruct (PTE_Present (EffectivePde sp _)); [|done].
  intros Heq Hentry. apply Some_inj in Heq. subst pte.
  destruct (UnmapFirstPassPage_tables a sp l
              (PTE_Entry (EffectivePde sp (DirectoryIndexOf b)), TableIndexOf b))
    as [Hsame|Hclear]; [|done].
  rewrite Hsame in *. by apply Hassert.
Qed.


#[local] Abbreviation FirstPass := (UnmapFirstPass UnmapFlags WantDirty InvalidateTlb).

Lemma UnmapFirstPass_done count va sp l b :
  PageDone sp b → PageDone (FirstPass count va (sp, l)).1 b.
Proof.
  revert va sp l. induction count as [|count IH]; intros va sp l [Hpresent Hsynced]; [done|].
  cbn [UnmapFirstPass].
  destruct (FirstPage va (sp, l)) as [sp1 l1] eqn:Hstep.
  apply IH. split.
  - replace sp1 with (FirstPage va (sp, l)).1 by (by rewrite Hstep).
    by apply UnmapFirstPassPage_present.
  - replace sp1 with (FirstPage va (sp, l)).1 by (by rewrite Hstep).
    by apply UnmapFirstPassPage_synced.
Qed.

Lemma next_page va count :
  0 <= va → va + Z.of_nat (S count) * PAGE_SIZE <= 2 ^ 32 →
  0 <= UINTN (va + PAGE_SIZE) ∧
  UINTN (va + PAGE_SIZE) + Z.of_nat count * PAGE_SIZE <= 2 ^ 32 ∧
  (count ≠ O → UINTN (va + PAGE_SIZE) = va + PAGE_SIZE).
Proof.
  unfold PAGE_SIZE, UINTN, wrap. intros Hva Hend.
  destruct count as [|count].
  - pose proof (Z.mod_pos_bound (va + 4096) (2 ^ 32)). lia.
  - rewrite Z.mod_small by lia. lia.
Qed.

(** After the first loop no present leaf entry covers a page of the range. *)
Lemma UnmapFirstPass_range_done count va sp l :
  0 <= va → va + Z.of_nat count * PAGE_SIZE <= 2 ^ 32 →
  NoFrameNotPresent sp va count →
  ∀ i, (i < count)%nat →
       PageDone (FirstPass count va (sp, l)).1 (va + Z.of_nat i * PAGE_SIZE).
Proof.
  revert va sp l. induction count as [|count IH]; intros va sp l Hva Hend Hassert i Hi;
    [lia|].
  cbn [UnmapFirstPass].
  destruct (next_page va count Hva Hend) as (Hva' & Hend' & Hnext).
  destruct (FirstPage va (sp, l)) as [sp1 l1] eqn:Hstep.
  assert (sp1 = (FirstPage va (sp, l)).1) as Hsp1 by (by rewrite Hstep).
  destruct i as [|i].
  - apply UnmapFirstPass_done. rewrite Z.mul_0_l, Z.add_0_r, Hsp1. split.
    + apply UnmapFirstPassPage_present_here. intros pte Hpte.
      apply (Hassert O pte); [lia|]. by rewrite Z.mul_0_l, Z.add_0_r.
    + apply UnmapFirstPassPage_synced_here.
  - replace (va + Z.of_nat (S i) * PAGE_SIZE)
      with (UINTN (va + PAGE_SIZE) + Z.of_nat i * PAGE_SIZE)
      by (rewrite Hnext by lia; lia).
    apply IH; [done..| |lia].
    intros j pte Hj. rewrite Hsp1. apply UnmapFirstPassPage_assertion.
    intros pte' Hpte'. apply (Hassert (S j) pte'); [lia|].
    replace (va + Z.of_nat (S j) * PAGE_SIZE)
      with (UINTN (va + PAGE_SIZE) + Z.of_nat j * PAGE_SIZE)
      by (rewrite Hnext by lia; lia).
    done.
Qed.

Lemma UnmapFirstPass_ResidentSet count va sp l :
  ResidentSet (FirstPass count va (sp, l)).1 = ResidentSet sp.
Proof.
  revert va sp l. induction count as [|count IH]; intros va sp l; [done|].
  cbn [UnmapFirstPass].
  destruct (FirstPage va (sp, l)) as [sp1 l1] eqn:Hstep.
  rewrite IH. replace sp1 with (FirstPage va (sp, l)).1 by (by rewrite Hstep).
  by destruct (UnmapFirstPassPage_fields va sp l) as (_ & _ & ->).
Qed.

End FirstPass.

(** *** The second loop *)

Lemma OnlyCleared_refl sp : OnlyCleared sp sp.
Proof. repeat split. by left. Qed.

Lemma OnlyCleared_trans sp1 sp2 sp3 :
  OnlyCleared sp1 sp2 → OnlyCleared sp2 sp3 → OnlyCleared sp1 sp3.
Proof.
  intros (Hd1 & Hk1 & Ht1) (Hd2 & Hk2 & Ht2).
  split; [congruence|]. split; [congruence|]. intros slot.
  destruct (Ht2 slot) as [Hsame|?]; [|by right]. rewrite Hsame. apply Ht1.
Qed.

Lemma OnlyCleared_present sp sp' b :
  OnlyCleared sp sp' → IsPresent sp b = false → IsPresent sp' b = false.
Proof.
  intros (Hd & _ & Ht). rewrite !IsPresent_unfold, Hd.
  destruct (PTE_Present (word (Directory sp) _)); [|done]. cbn [andb].
  by destruct (Ht (PTE_Entry (word (Directory sp) (DirectoryIndexOf b)), TableIndexOf b))
    as [-> | ->].
Qed.

Lemma UnmapSecondPassPage_cleared UnmapFlags WantDirty a sp r :
  OnlyCleared sp (UnmapSecondPassPage UnmapFlags WantDirty a (sp, r)).1 ∧
  ResidentSet (UnmapSecondPassPage UnmapFlags WantDirty a (sp, r)).1 = ResidentSet sp.
Proof.
  unfold UnmapSecondPassPage.
  destruct (negb (PTE_Present (word (Directory sp) (DirectoryIndexOf a))));
    [split; [apply OnlyCleared_refl|done]|].
  destruct (PTE_Entry _ =? 0); [split; [apply OnlyCleared_refl|done]|].
  cbn [fst]. split; [|done]. split; [done|]. split; [done|].
  intros slot. cbn [PageTables set_PageTables]. rewrite word_insert.
  case_decide; [by right | by left].
Qed.

Lemma UnmapSecondPass_cleared UnmapFlags WantDirty count va sp r :
  OnlyCleared sp (UnmapSecondPass UnmapFlags WantDirty count va (sp, r)).1 ∧
  ResidentSet (UnmapSecondPass UnmapFlags WantDirty count va (sp, r)).1 = ResidentSet sp.
Proof.
  revert va sp r. induction count as [|count IH]; intros va sp r.
  - split; [apply OnlyCleared_refl|done].
  - cbn [UnmapSecondPass].
    destruct (UnmapSecondPassPage UnmapFlags WantDirty va (sp, r)) as [sp1 r1] eqn:Hstep.
    destruct (UnmapSecondPassPage_cleared UnmapFlags WantDirty va sp r) as [Hc Hr].
    rewrite Hstep in Hc, Hr. cbn [fst] in Hc, Hr.
    destruct (IH (UINTN (va + PAGE_SIZE)) sp1 r1) as [Hc' Hr'].
    split; [by eapply OnlyCleared_trans | congruence].
Qed.

(** *** Counting in a user-mode range *)

Lemma DirectoryIndexOf_user a :
  0 <= a < KERNEL_VA_START →
  DirectoryIndexOf a < Z.shiftr KERNEL_VA_START PAGE_DIRECTORY_SHIFT.
Proof.
  intros Ha. unfold DirectoryIndexOf, PAGE_DIRECTORY_SHIFT.
  rewrite !Z.shiftr_div_pow2 by lia.
  change (KERNEL_VA_START / 2 ^ 22) with 512.
  apply Z.div_lt_upper_bound; [lia|]. unfold KERNEL_VA_START in Ha. lia.
Qed.

Lemma SyncKernelDirectory_user sp a :
  0 <= a < KERNEL_VA_START → SyncKernelDirectory sp (DirectoryIndexOf a) = sp.
Proof.
  intros Ha. apply DirectoryIndexOf_user in Ha. unfold SyncKernelDirectory.
  destruct (Z.shiftr KERNEL_VA_START PAGE_DIRECTORY_SHIFT <=? DirectoryIndexOf a) eqn:Hle;
    [lia|done].
Qed.

Lemma TableIndexOf_mod a : 0 <= a → TableIndexOf a = (a / 4096) mod 1024.
Proof.
  intros Ha. unfold TableIndexOf, PTE_INDEX_MASK, PAGE_SHIFT.
  rewrite Z.shiftr_land. change (Z.shiftr 4190208 12) with (Z.ones 10).
  rewrite Z.land_ones by lia. by rewrite Z.shiftr_div_pow2 by lia.
Qed.

Lemma DirectoryIndexOf_div a : 0 <= a → DirectoryIndexOf a = (a / 4096) / 1024.
Proof.
  intros Ha. unfold DirectoryIndexOf, PAGE_DIRECTORY_SHIFT.
  rewrite Z.shiftr_div_pow2 by lia. rewrite Z.div_div by lia. done.
Qed.

(** Two addresses with the same directory index and the same table index lie
    in the same page. *)
Lemma same_indices_same_page a b :
  0 <= a → 0 <= b →
  DirectoryIndexOf a = DirectoryIndexOf b → TableIndexOf a = TableIndexOf b →
  a / 4096 = b / 4096.
Proof.
  intros Ha Hb. rewrite !DirectoryIndexOf_div, !TableIndexOf_mod by done.
  intros Hd Ht.
  rewrite (Z.div_mod (a / 4096) 1024), (Z.div_mod (b / 4096) 1024) by lia.
  by rewrite Hd, Ht.
Qed.

Lemma IsMapped_user sp a :
  0 <= a < KERNEL_VA_START →
  IsMapped sp a =
  match LeafSlot sp a with
  | Some slot => negb (PTE_Entry (word (PageTables sp) slot) =? 0)
  | None => false
  end.
Proof.
  intros Ha. unfold IsMapped, LeafEntrySynced.
  rewrite SyncKernelDirectory_user by done.
  unfold LeafEntry. by destruct (LeafSlot sp a).
Qed.

Lemma INTN_small x : - 2 ^ 31 <= x < 2 ^ 31 → INTN x = x.
Proof. intros Hx. unfold INTN. rewrite Z.mod_small; lia. Qed.

Section Counting.

Variables (UnmapFlags : Z) (WantDirty InvalidateTlb : bool).

#[local] Abbreviation FirstPage := (UnmapFirstPassPage UnmapFlags WantDirty InvalidateTlb).
#[local] Abbreviation FirstPass := (UnmapFirstPass UnmapFlags WantDirty InvalidateTlb).

(** A turn of the first loop in user space: the directory stays, the count
    goes up by one exactly when a frame is mapped at the page, and only the
    leaf entry of the page is written. *)
Lemma UnmapFirstPassPage_user a sp l :
  0 <= a < KERNEL_VA_START →
  Directory (FirstPage a (sp, l)).1 = Directory sp ∧
  MappedCount (FirstPage a (sp, l)).2
    = (if IsMapped sp a then INTN (MappedCount l + 1) else MappedCount l) ∧
  ∀ slot, LeafSlot sp a ≠ Some slot →
          word (PageTables (FirstPage a (sp, l)).1) slot = word (PageTables sp) slot.
Proof.
  intros Ha. rewrite IsMapped_user by done. unfold LeafSlot.
  pose proof (UnmapFirstPassPage_cases UnmapFlags WantDirty InvalidateTlb a sp l) as Hcases.
  rewrite SyncKernelDirectory_user in Hcases by done. cbv zeta in Hcases.
  destruct Hcases
    as [(Hpde & ->)|[(Hpde & Hpte & ->)|(Hpde & Hpte & pte' & l' & -> & _ & Hcount)]];
    rewrite Hpde; cbn [fst snd Directory PageTables set_PageTables].
  - done.
  - rewrite Hpte. done.
  - split; [done|]. split.
    + destruct (PTE_Entry _ =? 0) eqn:Hz; [lia|done].
    + intros slot Hslot. rewrite word_insert, decide_False; [done|congruence].
Qed.

Lemma CountPages_ext f g va n :
  (∀ i, (i < n)%nat → f (va + Z.of_nat i * PAGE_SIZE) = g (va + Z.of_nat i * PAGE_SIZE)) →
  CountPages f va n = CountPages g va n.
Proof.
  revert va. induction n as [|n IH]; intros va Hext; [done|].
  cbn [CountPages]. f_equal.
  - specialize (Hext O ltac:(lia)). rewrite Z.mul_0_l, Z.add_0_r in Hext. by rewrite Hext.
  - apply IH. intros i Hi. specialize (Hext (S i) ltac:(lia)).
    by replace (va + PAGE_SIZE + Z.of_nat i * PAGE_SIZE)
      with (va + Z.of_nat (S i) * PAGE_SIZE) by lia.
Qed.

Lemma CountPages_bounds f va n : 0 <= CountPages f va n <= Z.of_nat n.
Proof.
  revert va. induction n as [|n IH]; intros va; [done|].
  cbn [CountPages]. specialize (IH (va + PAGE_SIZE)). destruct (f va); lia.
Qed.

(** In a user-mode range whose leaf tables are distinct, the first loop counts
    the pages at which a frame is mapped. *)
Lemma UnmapFirstPass_count count va sp l :
  0 <= va → va + Z.of_nat count * PAGE_SIZE <= KERNEL_VA_START →
  LeafTablesDistinct sp va count →
  0 <= MappedCount l → MappedCount l + Z.of_nat count < 2 ^ 31 →
  MappedCount (FirstPass count va (sp, l)).2
    = MappedCount l + CountPages (IsMapped sp) va count.
Proof.
  revert va sp l. induction count as [|count IH];
    intros va sp l Hva Hend Hdistinct Hpos Hsmall.
  { cbn. lia. }
  cbn [UnmapFirstPass CountPages].
  assert (0 <= va < KERNEL_VA_START) as Huser by (unfold PAGE_SIZE in *; lia).
  destruct (UnmapFirstPassPage_user va sp l Huser) as (Hdir & Hcount & Hother).
  destruct (FirstPage va (sp, l)) as [sp1 l1] eqn:Hstep. cbn [fst snd] in *.
  assert (UINTN (va + PAGE_SIZE) = va + PAGE_SIZE) as ->.
  { apply UINTN_small. unfold PAGE_SIZE, KERNEL_VA_START in *. lia. }
  assert (MappedCount l1 = MappedCount l + (if IsMapped sp va then 1 else 0)) as Hl1.
  { rewrite Hcount. destruct (IsMapped sp va); [|lia]. apply INTN_small. lia. }
  rewrite IH.
  - rewrite Hl1, Z.add_assoc. f_equal.
    apply CountPages_ext. intros i Hi.
    set (b := va + PAGE_SIZE + Z.of_nat i * PAGE_SIZE).
    assert (b = va + Z.of_nat (S i) * PAGE_SIZE) as Hb by (unfold b; lia).
    assert (0 <= b < KERNEL_VA_START) as Hbuser by (unfold b, PAGE_SIZE in *; lia).
    rewrite !IsMapped_user by done.
    assert (LeafSlot sp1 b = LeafSlot sp b) as -> by (unfold LeafSlot; by rewrite Hdir).
    destruct (LeafSlot sp b) as [slot|] eqn:Hslot; [|done].
    rewrite Hother; [done|]. intros Hsame.
    unfold LeafSlot in Hslot, Hsame.
    destruct (PTE_Present (word (Directory sp) (DirectoryIndexOf b))) eqn:Hpb; [|done].
    destruct (PTE_Present (word (Directory sp) (DirectoryIndexOf va))) eqn:Hpa; [|done].
    apply Some_inj in Hslot, Hsame. subst slot.
    apply pair_eq in Hsame as [Hentry Hti].
    destruct (decide (DirectoryIndexOf va = DirectoryIndexOf b)) as [Hdi|Hdi].
    + pose proof (same_indices_same_page va b Hva ltac:(lia) Hdi Hti) as Hpage.
      rewrite Hb in Hpage. unfold PAGE_SIZE in Hpage.
      rewrite Z.div_add in Hpage by lia. lia.
    + refine (Hdistinct O (S i) _ _ _ _ _ _); try lia.
      * rewrite Z.mul_0_l, Z.add_0_r, <- Hb. done.
      * by rewrite Z.mul_0_l, Z.add_0_r.
      * by rewrite <- Hb.
      * rewrite Z.mul_0_l, Z.add_0_r, <- Hb. done.
  - unfold PAGE_SIZE. lia.
  - unfold PAGE_SIZE in *. lia.
  - intros i j Hi Hj. cbv zeta. rewrite Hdir.
    replace (va + PAGE_SIZE + Z.of_nat i * PAGE_SIZE)
      with (va + Z.of_nat (S i) * PAGE_SIZE) by lia.
    replace (va + PAGE_SIZE + Z.of_nat j * PAGE_SIZE)
      with (va + Z.of_nat (S j) * PAGE_SIZE) by lia.
    apply Hdistinct; lia.
  - rewrite Hl1. destruct (IsMapped sp va); lia.
  - rewrite Hl1. destruct (IsMapped sp va); lia.
Qed.

End Counting.

(** *** The whole routine *)

Lemma OnlyCleared_counter sp Addition :
  OnlyCleared sp (MmpUpdateResidentSetCounter sp Addition).
Proof. split; [done|]. split; [done|]. intros slot. by left. Qed.

(** What MmpUnmapPages leaves behind, in terms of its two loops. *)
Lemma MmpUnmapPages_space ThreadCount sp va PageCount UnmapFlags WantDirty r :
  MmpUnmapPages ThreadCount sp va PageCount UnmapFlags WantDirty = Some r →
  ∃ UnmapFlags1 InvalidateTlb sp2,
    let first :=
      UnmapFirstPass UnmapFlags1 WantDirty InvalidateTlb (Z.to_nat PageCount) va
                     (sp, mkUnmapLocals false 0 []) in
    OnlyCleared first.1 sp2 ∧
    ResidentSet sp2 = ResidentSet first.1 ∧
    unmap_space r =
      (if va <? KERNEL_VA_START
       then MmpUpdateResidentSetCounter sp2 (- MappedCount first.2)
       else sp2).
Proof.
  unfold MmpUnmapPages.
  set (single := match ThreadCount with
                 | Some n => (n <=? 1) && (va <? USER_VA_END)
                 | None => false
                 end).
  set (UnmapFlags1 := if single then _ else _).
  set (InvalidateTlb := match ThreadCount with
                        | Some n => negb (single && (n =? 0))
                        | None => true
                        end).
  intros Hcall. exists UnmapFlags1, InvalidateTlb.
  destruct (UnmapFirstPass UnmapFlags1 WantDirty InvalidateTlb (Z.to_nat PageCount) va
              (sp, mkUnmapLocals false 0 [])) as [sp1 l] eqn:Hfirst.
  set (r0 := mkUnmapRun INVALID_PHYSICAL_ADDRESS 0 [] false) in Hcall.
  pose proof (UnmapSecondPass_cleared UnmapFlags1 WantDirty (Z.to_nat PageCount) va sp1 r0)
    as [Hcleared Hresident].
  destruct (WantDirty || HasFlag UnmapFlags1 UNMAP_FLAG_FREE_PHYSICAL_PAGES).
  - destruct (UnmapSecondPass UnmapFlags1 WantDirty (Z.to_nat PageCount) va (sp1, r0))
      as [sp2 r2] eqn:Hsecond.
    exists sp2. cbn [fst snd] in *. split; [done|]. split; [done|].
    destruct (va <? KERNEL_VA_START).
    + destruct ThreadCount; [|done]. apply Some_inj in Hcall. by rewrite <- Hcall.
    + apply Some_inj in Hcall. by rewrite <- Hcall.
  - exists sp1. cbn [fst snd]. split; [apply OnlyCleared_refl|]. split; [done|].
    destruct (va <? KERNEL_VA_START).
    + destruct ThreadCount; [|done]. apply Some_inj in Hcall. by rewrite <- Hcall.
    + apply Some_inj in Hcall. by rewrite <- Hcall.
Qed.

(** C2 (as amended).  After MmpUnmapPages returns on a range of [n] pages no
    leaf entry of the range has its present bit set, provided no entry of the
    range was present with an empty frame field, which the routine asserts;
    and for a range below KERNEL_VA_START whose leaf tables are distinct the
    resident-set counter of the address space has gone down by the number of
    leaf entries of the range whose frame field was not zero before the call,
    present or not. *)
Theorem unmap_clears_present_and_counts_mapped
    ThreadCount sp va (n : nat) UnmapFlags WantDirty r :
  0 <= va → va + Z.of_nat n * PAGE_SIZE <= 2 ^ 32 →
  NoFrameNotPresent sp va n →
  MmpUnmapPages ThreadCount sp va (Z.of_nat n) UnmapFlags WantDirty = Some r →
  (∀ i, (i < n)%nat →
        IsPresent (unmap_space r) (va + Z.of_nat i * PAGE_SIZE) = false) ∧
  (va < KERNEL_VA_START → va + Z.of_nat n * PAGE_SIZE <= KERNEL_VA_START →
   LeafTablesDistinct sp va n →
   ResidentSet (unmap_space r)
     = UINTN (ResidentSet sp - CountPages (IsMapped sp) va n)).
Proof.
  intros Hva Hend Hassert Hcall.
  destruct (MmpUnmapPages_space _ _ _ _ _ _ _ Hcall)
    as (UnmapFlags1 & InvalidateTlb & sp2 & Hcleared & Hresident & Hspace).
  cbv zeta in *. rewrite Nat2Z.id in *.
  split.
  - intros i Hi.
    pose proof (UnmapFirstPass_range_done UnmapFlags1 WantDirty InvalidateTlb n va sp
                  (mkUnmapLocals false 0 []) Hva Hend Hassert i Hi) as [Hdone _].
    pose proof (OnlyCleared_present _ _ _ Hcleared Hdone) as Hsp2.
    rewrite Hspace. destruct (va <? KERNEL_VA_START); [|done].
    by apply (OnlyCleared_present _ _ _ (OnlyCleared_counter sp2 _)).
  - intros Huser Huserend Hdistinct.
    rewrite Hspace. destruct (va <? KERNEL_VA_START) eqn:Hlt; [|lia].
    cbn [MmpUpdateResidentSetCounter ResidentSet].
    rewrite Hresident, UnmapFirstPass_ResidentSet.
    rewrite UnmapFirstPass_count; cbn [MappedCount]; [|done..|].
    + f_equal; lia.
    + unfold PAGE_SIZE, KERNEL_VA_START in *. lia.
Qed.

(** The call of the routine on the two pages of [OneLeafTable], in a process
    with one thread: both entries hold a frame, one of them is present, and
    the counter goes down by two. *)
Lemma unmap_clears_present_and_counts_mapped_witness :
  ∃ r, MmpUnmapPages (Some 1) OneLeafTable 4194304 (Z.of_nat 2) 0 false = Some r ∧
       (∀ i, (i < 2)%nat →
             IsPresent (unmap_space r) (4194304 + Z.of_nat i * PAGE_SIZE) = false) ∧
       ResidentSet (unmap_space r)
         = UINTN (ResidentSet OneLeafTable
                  - CountPages (IsMapped OneLeafTable) 4194304 2) ∧
       CountPages (IsMapped OneLeafTable) 4194304 2 = 2.
Proof.
  assert (∃ r, MmpUnmapPages (Some 1) OneLeafTable 4194304 (Z.of_nat 2) 0 false = Some r)
    as [r Hcall] by (vm_compute; eexists; reflexivity).
  exists r. split; [exact Hcall|].
  assert (NoFrameNotPresent OneLeafTable 4194304 2) as Hassert.
  { intros i pte Hi. destruct i as [|[|i]]; [| |lia]; vm_compute; intros Hpte;
      apply Some_inj in Hpte; subst pte; discriminate. }
  assert (LeafTablesDistinct OneLeafTable 4194304 2) as Hdistinct.
  { intros i j Hi Hj. destruct i as [|[|i]]; [| |lia]; (destruct j as [|[|j]]; [| |lia]);
      vm_compute; intros Hne; exfalso; apply Hne; reflexivity. }
  destruct (unmap_clears_present_and_counts_mapped
              (Some 1) OneLeafTable 4194304 2 0 false r
              ltac:(lia) ltac:(vm_compute; discriminate) Hassert Hcall)
    as [Hpresent Hcount].
  split; [exact Hpresent|]. split; [|reflexivity].
  apply Hcount; [reflexivity|vm_compute; discriminate|exact Hdistinct].
Defined.

(** C2 (as stated) fails.  On [OneLeafTable] one entry of the range is
    present before the call, and the resident-set counter goes from 10 to 8;
    on [FrameZeroMapped] the entry of the page is still present after the
    call. *)
Lemma unmap_counter_counts_entries_not_present :
  (∃ r, MmpUnmapPages (Some 1) OneLeafTable 4194304 2 0 false = Some r ∧
        CountPages (IsPresent OneLeafTable) 4194304 2 = 1 ∧
        ResidentSet OneLeafTable = 10 ∧
        ResidentSet (unmap_space r) = 8) ∧
  (∃ r, MmpUnmapPages (Some 1) FrameZeroMapped 4194304 1 0 false = Some r ∧
        IsPresent (unmap_space r) 4194304 = true).
Proof.
  split.
  - eexists. split; [vm_compute; reflexivity|]. by vm_compute.
  - eexists. split; [vm_compute; reflexivity|]. by vm_compute.
Qed.

(** * Further properties of the routines *)

Lemma ULONGLONG_nonneg x : 0 <= ULONGLONG x.
Proof. unfold ULONGLONG, wrap. apply Z.mod_pos_bound. lia. Qed.

Lemma SpanLoop_free va si g Offset n c s c' s' :
  SpanLoop PhysicalMemoryFindFree va si g Offset n c s = Some (c', s') →
  s' = s ∧ c <= c' <= c + Z.of_nat n ∧
  ∀ k, c <= k < c' → ReadPage si (Z.to_nat (Offset + k)) s = Some PHYSICAL_PAGE_FREE.
Proof.
  revert c. induction n as [|n IH]; intros c H; cbn [SpanLoop] in H.
  - apply Some_inj in H. inversion H; subst. split; [done|]. split; [lia|]. intros k Hk; lia.
  - destruct (ReadPage si (Z.to_nat (Offset + c)) s) as [page|] eqn:Hpage; [|done].
    cbn [mbind option_bind SpanCheckPage] in H.
    destruct (page =? PHYSICAL_PAGE_FREE) eqn:Hfree; cbn [mbind option_bind] in H.
    + apply IH in H as (-> & Hc & Hk). split; [done|]. split; [lia|].
      intros k Hk'. destruct (decide (k = c)) as [->|Hne].
      * rewrite Hpage. f_equal. lia.
      * apply Hk. lia.
    + apply Some_inj in H. inversion H; subst. split; [done|]. split; [lia|].
      intros k Hk; lia.
Qed.

Lemma SpanLoop_free_all va si g Offset n c s :
  (∀ k, c <= k < c + Z.of_nat n →
        ReadPage si (Z.to_nat (Offset + k)) s = Some PHYSICAL_PAGE_FREE) →
  SpanLoop PhysicalMemoryFindFree va si g Offset n c s = Some (c + Z.of_nat n, s).
Proof.
  revert c. induction n as [|n IH]; intros c Hall; cbn [SpanLoop].
  - do 2 f_equal. lia.
  - rewrite Hall by lia. cbn [mbind option_bind SpanCheckPage].
    change (PHYSICAL_PAGE_FREE =? PHYSICAL_PAGE_FREE) with true.
    cbn [mbind option_bind]. rewrite IH.
    + do 2 f_equal. lia.
    + intros k Hk. apply Hall. lia.
Qed.

Lemma FindLoopBody_free n a va last si off fi s turn :
  0 <= off →
  FindLoopBody n a PhysicalMemoryFindFree va last si off fi s = Some turn →
  match turn with
  | FindReturn (Some r) s' =>
      FreeRunFound s n r s' ∧ FoundSegment r = si ∧ SelectedPageOffset r = off
  | FindReturn None s' => s' = s
  | FindAgain _ off' _ s' => s' = s ∧ 0 <= off'
  end.
Proof.
  unfold FindLoopBody. intros Hoff H.
  destruct (Segments s !! si) as [g|] eqn:Hg; [|done]. cbn [mbind option_bind] in H.
  cbn [IsFindPagable IsFindFree negb andb] in H.
  destruct (SegmentPages g <=? off) eqn:H1; cbn [orb] in H.
  { destruct (_ && _); [by simplify_eq|].
    destruct (Segments s !! NextSegment _ _); [|done]. cbn [mbind option_bind] in H.
    apply Some_inj in H. subst turn. split; [done|apply ULONGLONG_nonneg]. }
  destruct (SegmentPages g <? ULONGLONG (off + n)) eqn:H2; cbn [orb] in H.
  { destruct (_ && _); [by simplify_eq|].
    destruct (Segments s !! NextSegment _ _); [|done]. cbn [mbind option_bind] in H.
    apply Some_inj in H. subst turn. split; [done|apply ULONGLONG_nonneg]. }
  destruct (FreePages g <? n) eqn:H3.
  { destruct (_ && _); [by simplify_eq|].
    destruct (Segments s !! NextSegment _ _); [|done]. cbn [mbind option_bind] in H.
    apply Some_inj in H. subst turn. split; [done|apply ULONGLONG_nonneg]. }
  destruct (SpanLoop _ _ _ _ _ _ _ _) as [[c s1]|] eqn:Hspan; [|done].
  apply SpanLoop_free in Hspan as (-> & Hc & Hfree).
  cbn [mbind option_bind] in H. rewrite andb_false_r, orb_false_r in H.
  destruct (c =? n) eqn:Hcn.
  - apply Some_inj in H. subst turn. cbn [FoundSegment SelectedPageOffset].
    split; [|done]. exists g. cbn [FoundSegment SelectedPageOffset PagesFound].
    assert (c = n) as -> by lia.
    split; [done|]. split; [done|]. split; [lia|]. split; [done|]. split; [lia|].
    split; [|done].
    intros k Hk. specialize (Hfree k Hk). unfold ReadPage in Hfree.
    rewrite Hg in Hfree. done.
  - apply Some_inj in H. subst turn. split; [done|apply ULONGLONG_nonneg].
Qed.

Lemma FindLoop_free fuel n a va last first si off fi s r s' :
  0 <= off →
  FindLoop fuel n a PhysicalMemoryFindFree va last first si off fi s = Some (r, s') →
  match r with
  | Some r => FreeRunFound s n r s'
  | None => s' = s
  end.
Proof.
  revert si off fi. induction fuel as [|fuel IH]; intros si off fi Hoff H; [done|].
  cbn [FindLoop] in H.
  destruct (FindLoopBody _ _ _ _ _ _ _ _ _) as [turn|] eqn:Hbody; [|done].
  apply FindLoopBody_free in Hbody; [|done]. cbn [mbind option_bind] in H.
  destruct turn as [r1 s1|si1 off1 fi1 s1].
  - apply Some_inj in H. inversion H; subst. destruct r; [apply Hbody|done].
  - destruct Hbody as [-> Hoff1]. destruct (_ || _).
    + by eapply IH.
    + apply Some_inj in H. by inversion H; subst.
Qed.

Lemma MmpFindPhysicalPages_free s n a va r s' :
  MmpFindPhysicalPages s n a PhysicalMemoryFindFree va = Some (Some r, s') →
  FreeRunFound s n r s'.
Proof.
  unfold MmpFindPhysicalPages. intros H.
  destruct (Segments s !! _); [|done]. cbn [mbind option_bind] in H.
  apply (FindLoop_free _ _ _ _ _ _ _ _ _ _ (Some r) _ (ULONGLONG_nonneg _) H).
Qed.

(** ** The counters and the frame records *)

Lemma free_count_insert (pages : list Z) i x y :
  pages !! i = Some x →
  Z.of_nat (length (filter (λ page, page = PHYSICAL_PAGE_FREE) (<[i := y]> pages)))
  = Z.of_nat (length (filter (λ page, page = PHYSICAL_PAGE_FREE) pages))
    - (if decide (x = PHYSICAL_PAGE_FREE) then 1 else 0)
    + (if decide (y = PHYSICAL_PAGE_FREE) then 1 else 0).
Proof.
  revert i. induction pages as [|p pages IH]; intros i Hi; [done|].
  destruct i as [|i]; cbn [lookup list_lookup] in Hi.
  - apply Some_inj in Hi. subst p. cbn [insert list_insert].
    rewrite !filter_cons. repeat case_decide; cbn [length]; lia.
  - change (<[S i := y]> (p :: pages)) with (p :: <[i := y]> pages).
    rewrite !filter_cons. specialize (IH i Hi).
    destruct (decide (p = PHYSICAL_PAGE_FREE)); cbn [length]; lia.
Qed.

Lemma free_count_bounds (pages : list Z) :
  0 <= Z.of_nat (length (filter (λ page, page = PHYSICAL_PAGE_FREE) pages))
    <= Z.of_nat (length pages).
Proof. pose proof (length_filter (λ page, page = PHYSICAL_PAGE_FREE) pages). lia. Qed.

Lemma free_count_positive (pages : list Z) i :
  pages !! i = Some PHYSICAL_PAGE_FREE →
  1 <= Z.of_nat (length (filter (λ page, page = PHYSICAL_PAGE_FREE) pages)).
Proof.
  intros Hi.
  assert (PHYSICAL_PAGE_FREE ∈ filter (λ page, page = PHYSICAL_PAGE_FREE) pages) as Hin.
  { apply list_elem_of_filter. split; [done|]. by eapply list_elem_of_lookup_2. }
  destruct (filter _ pages); [by apply elem_of_nil in Hin|]. cbn [length]. lia.
Qed.

Lemma free_count_not_all (pages : list Z) i x :
  pages !! i = Some x → x ≠ PHYSICAL_PAGE_FREE →
  Z.of_nat (length (filter (λ page, page = PHYSICAL_PAGE_FREE) pages))
    < Z.of_nat (length pages).
Proof.
  revert i. induction pages as [|p pages IH]; intros i Hi Hx; [done|].
  rewrite filter_cons. destruct i as [|i]; cbn [lookup list_lookup] in Hi.
  - apply Some_inj in Hi. subst p. rewrite decide_False by done.
    pose proof (free_count_bounds pages). cbn [length]. lia.
  - specialize (IH i Hi Hx). destruct (decide (p = PHYSICAL_PAGE_FREE)); cbn [length]; lia.
Qed.

Section SegmentSums.

Context {F : PHYSICAL_MEMORY_SEGMENT → Z}.

Lemma segment_sum_insert (segs : list PHYSICAL_MEMORY_SEGMENT) si g g' :
  segs !! si = Some g →
  foldr (λ g n, F g + n) 0 (<[si := g']> segs)
  = foldr (λ g n, F g + n) 0 segs - F g + F g'.
Proof.
  revert si. induction segs as [|h segs IH]; intros si Hsi; [done|].
  destruct si as [|si]; cbn [lookup list_lookup] in Hsi.
  - apply Some_inj in Hsi. subst h. cbn [insert list_insert foldr]. lia.
  - change (<[S si := g']> (h :: segs)) with (h :: <[si := g']> segs).
    cbn [foldr]. rewrite (IH si Hsi). lia.
Qed.

Lemma segment_sum_member (segs : list PHYSICAL_MEMORY_SEGMENT) si g :
  (∀ h, 0 <= F h) → segs !! si = Some g →
  F g <= foldr (λ g n, F g + n) 0 segs.
Proof.
  intros Hpos. revert si. induction segs as [|h segs IH]; intros si Hsi; [done|].
  assert (0 <= foldr (λ g n, F g + n) 0 segs) as Hsum.
  { clear -Hpos. induction segs as [|k segs IHs]; cbn [foldr]; [lia|]. specialize (Hpos k). lia. }
  destruct si as [|si]; cbn [lookup list_lookup] in Hsi; cbn [foldr].
  - apply Some_inj in Hsi. subst h. lia.
  - specialize (IH si Hsi). specialize (Hpos h). lia.
Qed.

End SegmentSums.

Lemma alter_as_insert {A} (f : A → A) (l : list A) i x :
  l !! i = Some x → alter f i l = <[i := f x]> l.
Proof.
  revert i. induction l as [|y l IH]; intros i Hi; [done|].
  destruct i as [|i]; cbn [lookup list_lookup] in Hi.
  - apply Some_inj in Hi. by subst.
  - change (alter f (S i) (y :: l)) with (y :: alter f i l).
    change (<[S i := f x]> (y :: l)) with (y :: <[i := f x]> l).
    by rewrite (IH i Hi).
Qed.

Lemma SegmentFreeSum_free_frames segs :
  Forall (λ g, FreePages g = FreeFramesOf g) segs →
  foldr (λ g n, FreePages g + n) 0 segs = foldr (λ g n, FreeFramesOf g + n) 0 segs.
Proof. induction 1 as [|g segs Hg _ IH]; cbn [foldr]; [done|]. by rewrite Hg, IH. Qed.

(** Under the invariant the free count of a segment is at most the number of
    frames that are not allocated. *)
Lemma DatabaseInvariant_segment s si g :
  DatabaseInvariant s → Segments s !! si = Some g →
  FreePages g = FreeFramesOf g ∧
  0 <= FreePages g <= Z.of_nat (length (PhysicalPages g)) ∧
  FreePages g <= MmTotalPhysicalPages (Counts s) - MmTotalAllocatedPhysicalPages (Counts s) ∧
  Z.of_nat (length (PhysicalPages g)) - FreePages g
    <= MmTotalAllocatedPhysicalPages (Counts s) ∧
  MmTotalAllocatedPhysicalPages (Counts s) <= MmTotalPhysicalPages (Counts s).
Proof.
  intros (Hfree & Htotal & Halloc & Hsmall) Hg.
  pose proof (proj1 (Forall_lookup _ _) Hfree si g Hg) as Hfg. cbn beta in Hfg.
  pose proof (free_count_bounds (PhysicalPages g)) as Hb. fold (FreeFramesOf g) in Hb.
  unfold SegmentFreeSum in Halloc. unfold TotalFramesOf in Htotal.
  rewrite (SegmentFreeSum_free_frames _ Hfree) in Halloc.
  pose proof (segment_sum_member (F := FreeFramesOf) (Segments s) si g
                (λ h, proj1 (free_count_bounds (PhysicalPages h))) Hg) as Hm.
  pose proof (segment_sum_member
                (F := λ h, Z.of_nat (length (PhysicalPages h)) - FreeFramesOf h)
                (Segments s) si g
                (λ h, ltac:(pose proof (free_count_bounds (PhysicalPages h));
                            unfold FreeFramesOf; lia)) Hg) as Hn.
  assert (foldr (λ h n, (Z.of_nat (length (PhysicalPages h)) - FreeFramesOf h) + n) 0
                (Segments s)
          = foldr (λ h n, Z.of_nat (length (PhysicalPages h)) + n) 0 (Segments s)
            - foldr (λ h n, FreeFramesOf h + n) 0 (Segments s)) as Hsplit.
  { clear. induction (Segments s) as [|h segs IH]; cbn [foldr]; [done|]. lia. }
  assert (0 <= foldr (λ h n, (Z.of_nat (length (PhysicalPages h)) - FreeFramesOf h) + n) 0
                (Segments s)) as Hnn.
  { clear. induction (Segments s) as [|h segs IH]; cbn [foldr]; [done|].
    pose proof (free_count_bounds (PhysicalPages h)). unfold FreeFramesOf in *. lia. }
  cbn beta in Hn. rewrite Hfg. repeat split; lia.
Qed.

(** A state that differs in one segment, whose page array keeps its length,
    and in the allocated count, which moves against the free count of the
    segment, satisfies the invariant as well. *)
Lemma DatabaseInvariant_step s s' si g g' :
  DatabaseInvariant s →
  Segments s !! si = Some g →
  Segments s' = <[si := g']> (Segments s) →
  length (PhysicalPages g') = length (PhysicalPages g) →
  FreePages g' = FreeFramesOf g' →
  MmTotalPhysicalPages (Counts s') = MmTotalPhysicalPages (Counts s) →
  MmTotalAllocatedPhysicalPages (Counts s')
    = MmTotalAllocatedPhysicalPages (Counts s) - (FreePages g' - FreePages g) →
  DatabaseInvariant s'.
Proof.
  intros (Hfree & Htotal & Halloc & Hsmall) Hg Hsegs Hlen Hfree' Htotal' Halloc'.
  unfold DatabaseInvariant, TotalFramesOf, SegmentFreeSum in *.
  rewrite Hsegs.
  rewrite (segment_sum_insert (F := λ g, Z.of_nat (length (PhysicalPages g))) _ _ _ _ Hg).
  rewrite (segment_sum_insert (F := FreePages) _ _ _ _ Hg).
  split; [|lia].
  apply Forall_insert; done.
Qed.

(** ** MmpAllocatePhysicalPages: the run found is marked allocated *)

Lemma UINTN_add_idemp x k : UINTN (UINTN x + k) = UINTN (x + k).
Proof. unfold UINTN, wrap. apply Zplus_mod_idemp_l. Qed.

Lemma AllocateMarkLoop_spec si count idx s g :
  DatabaseInvariant s →
  Segments s !! si = Some g →
  (∀ k, (k < count)%nat → PhysicalPages g !! (idx + k)%nat = Some PHYSICAL_PAGE_FREE) →
  0 <= MmNonPagedPhysicalPages (Counts s) < 2 ^ 32 →
  DatabaseInvariant (AllocateMarkLoop si count idx s) ∧
  RunMarked si idx count s (AllocateMarkLoop si count idx s) ∧
  Warnings (AllocateMarkLoop si count idx s) = Warnings s.
Proof.
  revert idx s g. induction count as [|count IH]; intros idx s g Hinv Hg Hfree Hnp.
  { cbn [AllocateMarkLoop]. split; [done|]. split; [|done].
    exists g, g. rewrite list_insert_id by done. change (Z.of_nat 0) with 0.
    rewrite !Z.add_0_r, Z.sub_0_r. rewrite (UINTN_small _ Hnp).
    repeat split; try done; try lia. }
  cbn [AllocateMarkLoop].
  set (s1 := set_Segments _ s).
  set (s2 := set_Counts _ s1).
  set (s3 := WritePage si idx PHYSICAL_PAGE_FLAG_NON_PAGED s2).
  pose proof (Hfree O ltac:(lia)) as Hfirst. rewrite Nat.add_0_r in Hfirst.
  destruct (DatabaseInvariant_segment s si g Hinv Hg) as (Hfg & Hfb & Hfa & _ & Hat).
  pose proof (free_count_positive _ _ Hfirst) as Hone. fold (FreeFramesOf g) in Hone.
  destruct Hinv as (Hi1 & Hi2 & Hi3 & Hi4).
  assert (0 <= MmTotalAllocatedPhysicalPages (Counts s)) as Hanon.
  { pose proof (DatabaseInvariant_segment s si g (conj Hi1 (conj Hi2 (conj Hi3 Hi4))) Hg)
      as (_ & _ & _ & Hx & _). lia. }
  set (g3 := mkSegment (StartAddress g) (EndAddress g) (FreePages g - 1)
                       (<[idx := PHYSICAL_PAGE_FLAG_NON_PAGED]> (PhysicalPages g))).
  assert (Segments s3 = <[si := g3]> (Segments s)) as Hsegs3.
  { unfold s3, WritePage, s2, s1. cbn [Segments set_Segments set_Counts].
    rewrite (alter_as_insert _ _ _ _ Hg).
    rewrite (alter_as_insert _ _ si (set_FreePages (ULONGLONG (FreePages g - 1)) g)).
    - rewrite list_insert_insert_eq. f_equal. unfold g3, set_PhysicalPages, set_FreePages.
      cbn [StartAddress EndAddress FreePages PhysicalPages].
      rewrite ULONGLONG_small by lia. done.
    - apply list_lookup_insert_eq. by eapply lookup_lt_Some. }
  assert (Counts s3 =
          mkCounts (MmTotalPhysicalPages (Counts s))
                   (MmTotalAllocatedPhysicalPages (Counts s) + 1)
                   (MmMinimumFreePhysicalPages (Counts s))
                   (UINTN (MmNonPagedPhysicalPages (Counts s) + 1))) as Hcounts3.
  { unfold s3, WritePage, s2, s1.
    cbn [Counts set_Segments set_Counts MmTotalPhysicalPages
         MmTotalAllocatedPhysicalPages MmMinimumFreePhysicalPages MmNonPagedPhysicalPages].
    rewrite UINTN_small by lia. done. }
  assert (FreePages g3 = FreeFramesOf g3) as Hfg3.
  { unfold g3, FreeFramesOf. cbn [FreePages PhysicalPages].
    rewrite (free_count_insert _ _ _ _ Hfirst).
    rewrite decide_True by done. rewrite decide_False by done.
    fold (FreeFramesOf g). lia. }
  assert (DatabaseInvariant s3) as Hinv3.
  { apply (DatabaseInvariant_step s s3 si g g3 (conj Hi1 (conj Hi2 (conj Hi3 Hi4))) Hg Hsegs3).
    - unfold g3. cbn [PhysicalPages]. by rewrite length_insert.
    - done.
    - by rewrite Hcounts3.
    - rewrite Hcounts3. unfold g3. cbn [MmTotalAllocatedPhysicalPages FreePages]. lia. }
  assert (Segments s3 !! si = Some g3) as Hg3.
  { rewrite Hsegs3. apply list_lookup_insert_eq. by eapply lookup_lt_Some. }
  destruct (IH (S idx) s3 g3 Hinv3 Hg3) as (Hinv' & Hmarked & Hwarn).
  { intros k Hk. unfold g3. cbn [PhysicalPages].
    rewrite list_lookup_insert_ne by lia.
    replace (S idx + k)%nat with (idx + S k)%nat by lia. apply Hfree. lia. }
  { rewrite Hcounts3. cbn [MmNonPagedPhysicalPages]. unfold UINTN, wrap.
    apply Z.mod_pos_bound. lia. }
  split; [done|]. split; [|by rewrite Hwarn].
  destruct Hmarked as (h & g' & Hh & Hsegs' & Hs & He & Hf & Hl & Hrun & Hrest & Ht & Ha & Hm
                       & Hn & Hp).
  rewrite Hg3 in Hh. apply Some_inj in Hh. subst h.
  exists g, g'. split; [done|]. split.
  { rewrite Hsegs', Hsegs3. by rewrite list_insert_insert_eq. }
  split; [by rewrite Hs|]. split; [by rewrite He|].
  split; [rewrite Hf; unfold g3; cbn [FreePages]; lia|].
  split; [rewrite Hl; unfold g3; cbn [PhysicalPages]; by rewrite length_insert|].
  split.
  { intros k Hk. destruct k as [|k].
    - rewrite Nat.add_0_r. rewrite Hrest by lia. unfold g3. cbn [PhysicalPages].
      apply list_lookup_insert_eq. by eapply lookup_lt_Some.
    - replace (idx + S k)%nat with (S idx + k)%nat by lia. apply Hrun. lia. }
  split.
  { intros i Hi. rewrite Hrest by lia. unfold g3. cbn [PhysicalPages].
    apply list_lookup_insert_ne. lia. }
  rewrite Ht, Ha, Hm, Hn, Hp, Hcounts3.
  cbn [MmTotalPhysicalPages MmTotalAllocatedPhysicalPages MmMinimumFreePhysicalPages
       MmNonPagedPhysicalPages].
  rewrite UINTN_add_idemp.
  repeat split; try done; try lia. f_equal. lia.
Qed.

Lemma AllocateMarkLoop_Cursors si n idx s :
  Cursors (AllocateMarkLoop si n idx s) = Cursors s.
Proof.
  revert idx s. induction n as [|n IH]; intros idx s; [done|].
  cbn [AllocateMarkLoop]. by rewrite IH.
Qed.

Lemma AllocateCountAndWarn_fields PageCount s :
  Segments (AllocateCountAndWarn PageCount s).1 = Segments s ∧
  PagingEntries (AllocateCountAndWarn PageCount s).1 = PagingEntries s ∧
  Counts (AllocateCountAndWarn PageCount s).1 = Counts s ∧
  Cursors (AllocateCountAndWarn PageCount s).1 = Cursors s.
Proof.
  unfold AllocateCountAndWarn, AllocateWarningCheck.
  repeat match goal with |- context [if ?b then _ else _] => destruct b end; done.
Qed.

Lemma DatabaseInvariant_ext s s' :
  Segments s' = Segments s → Counts s' = Counts s →
  DatabaseInvariant s → DatabaseInvariant s'.
Proof.
  unfold DatabaseInvariant, TotalFramesOf, SegmentFreeSum. by intros -> ->.
Qed.

Lemma RunMarked_ext si idx count s0 s s' s1 :
  Segments s = Segments s0 → Counts s = Counts s0 → PagingEntries s = PagingEntries s0 →
  Segments s1 = Segments s' → Counts s1 = Counts s' → PagingEntries s1 = PagingEntries s' →
  RunMarked si idx count s s' → RunMarked si idx count s0 s1.
Proof. unfold RunMarked. by intros -> -> -> -> -> ->. Qed.

(** What a turn of the allocation loop that finds a run does. *)
Lemma AllocateAttempt_found s PageCount Alignment a s' signal :
  DatabaseInvariant s →
  0 <= MmNonPagedPhysicalPages (Counts s) < 2 ^ 32 →
  AllocateAttempt s PageCount Alignment = Some (AllocateFound a s' signal) →
  ∃ si off g,
    Segments s !! si = Some g ∧
    0 <= off < SegmentPages g ∧ 0 <= PageCount ∧
    a = ULONGLONG (StartAddress g + Z.shiftl off PageShift) ∧
    (∀ k, 0 <= k < PageCount →
          PhysicalPages g !! Z.to_nat (off + k) = Some PHYSICAL_PAGE_FREE) ∧
    RunMarked si (Z.to_nat off) (Z.to_nat PageCount) s s' ∧
    MmLastAllocatedSegment (Cursors s') = si ∧
    MmLastAllocatedSegmentOffset (Cursors s') = UINTN (off + PageCount) ∧
    MmGetTotalFreePhysicalPages s' = MmGetTotalFreePhysicalPages s - PageCount ∧
    DatabaseInvariant s'.
Proof.
  intros Hinv Hnp Hstep.
  unfold AllocateAttempt in Hstep.
  destruct (MmpFindPhysicalPages s PageCount Alignment PhysicalMemoryFindFree (λ _, true))
    as [[found s1]|] eqn:Hfind; [|done].
  cbn [mbind option_bind] in Hstep.
  destruct found as [r|]; [|done].
  apply MmpFindPhysicalPages_free in Hfind
    as (g & Hg & Hfound & Hcount & Hoff & Hinseg & Hfree & Hs1).
  assert (Segments s1 = Segments s ∧ Counts s1 = Counts s ∧
          PagingEntries s1 = PagingEntries s) as (Hsegs1 & Hcounts1 & Hheap1)
    by (by rewrite Hs1).
  rewrite Hsegs1, Hg in Hstep. cbn [mbind option_bind] in Hstep.
  set (s2 := AllocateMarkLoop _ _ _ s1) in Hstep.
  pose proof (AllocateCountAndWarn_fields PageCount s2) as (Hsegs3 & Hheap3 & Hcounts3 & Hcur3).
  destruct (AllocateCountAndWarn PageCount s2) as [s3 sig3] eqn:Hwarn.
  apply Some_inj in Hstep. inversion Hstep; subst a s3 sig3. clear Hstep.
  cbn [fst] in *.
  destruct (AllocateMarkLoop_spec (FoundSegment r) (Z.to_nat PageCount)
              (Z.to_nat (SelectedPageOffset r)) s1 g)
    as (Hinv2 & Hmarked & _).
  { by apply (DatabaseInvariant_ext s). }
  { by rewrite Hsegs1. }
  { intros k Hk. rewrite <- (Hfree (Z.of_nat k)) by lia. f_equal. lia. }
  { by rewrite Hcounts1. }
  fold s2 in Hinv2, Hmarked.
  exists (FoundSegment r), (SelectedPageOffset r), g.
  split; [done|]. split; [done|]. split; [lia|]. split; [done|]. split; [done|].
  split; [by apply (RunMarked_ext _ _ _ s s1 s2 s')|].
  rewrite Hcur3. unfold s2. rewrite AllocateMarkLoop_Cursors.
  rewrite Hs1. cbn [Cursors set_Cursors MmLastAllocatedSegment MmLastAllocatedSegmentOffset].
  split; [done|]. split; [done|].
  split.
  { unfold MmGetTotalFreePhysicalPages. rewrite Hcounts3.
    destruct Hmarked as (h & g' & Hh & _ & _ & _ & _ & _ & _ & _ & Ht & Ha & _).
    rewrite Ht, Ha, Hcounts1.
    destruct (DatabaseInvariant_segment s _ g Hinv Hg) as (_ & Hfb & Hfa & Hlow & Hat).
    destruct Hinv as (_ & _ & _ & Hsmall).
    rewrite !UINTN_small; lia. }
  by apply (DatabaseInvariant_ext s2).
Qed.

Lemma MmpAllocatePhysicalPages_at_once Frequency s PageCount Alignment a s' signal requests :
  MmpAllocatePhysicalPages [] Frequency s PageCount Alignment
    = Some (AllocateReturned a s' signal, requests) →
  requests = [] ∧
  ∃ Alignment2, AllocateAttempt s PageCount Alignment2 = Some (AllocateFound a s' signal).
Proof.
  intros Hcall.
  unfold MmpAllocatePhysicalPages in Hcall. cbn [AllocateLoop] in Hcall.
  set (Alignment2 := if _ =? 0 then 1 else _) in Hcall.
  destruct (AllocateAttempt s PageCount Alignment2) as [step|] eqn:Hstep; [|done].
  cbn [mbind option_bind] in Hcall.
  destruct step as [a1 s1 sig1|target s1]; [|done].
  apply Some_inj in Hcall. inversion Hcall; subst a1 s1 sig1 requests.
  split; [done|]. by exists Alignment2.
Qed.

(** X1.  An allocation that finds its run at once.  The run was free and lies
    in one segment; it is marked non-paged, the counters move by the page
    count, the allocation cursor stands behind the run, and the counters
    still agree with the frame records. *)
Theorem allocate_marks_the_free_run_found
    (Frequency : Z) (s : MmState) (PageCount Alignment : Z)
    (a : Z) (s' : MmState) (signal : bool) (requests : list Z) :
  DatabaseInvariant s →
  0 <= MmNonPagedPhysicalPages (Counts s) < 2 ^ 32 →
  MmpAllocatePhysicalPages [] Frequency s PageCount Alignment
    = Some (AllocateReturned a s' signal, requests) →
  ∃ si off g,
    Segments s !! si = Some g ∧
    0 <= off < SegmentPages g ∧ 0 <= PageCount ∧
    a = ULONGLONG (StartAddress g + Z.shiftl off PageShift) ∧
    (∀ k, 0 <= k < PageCount →
          PhysicalPages g !! Z.to_nat (off + k) = Some PHYSICAL_PAGE_FREE) ∧
    RunMarked si (Z.to_nat off) (Z.to_nat PageCount) s s' ∧
    MmLastAllocatedSegment (Cursors s') = si ∧
    MmLastAllocatedSegmentOffset (Cursors s') = UINTN (off + PageCount) ∧
    MmGetTotalFreePhysicalPages s' = MmGetTotalFreePhysicalPages s - PageCount ∧
    DatabaseInvariant s'.
Proof.
  intros Hinv Hnp Hcall.
  apply MmpAllocatePhysicalPages_at_once in Hcall as (_ & Alignment2 & Hstep).
  by apply (AllocateAttempt_found s PageCount Alignment2 a s' signal).
Qed.

(** ** MmpFindPhysicalPages: the search for free frames *)

(** A search for free frames that fails leaves the state as it was, and
    one that succeeds has found a run of free frames inside one segment and
    has moved the allocation cursor behind it, and nothing else. *)
Theorem find_free_pages_result (s : MmState) (PageCount PageAlignment : Z)
    (IsRangeFree : VaAccounting) (found : option FindResult) (s' : MmState) :
  MmpFindPhysicalPages s PageCount PageAlignment PhysicalMemoryFindFree IsRangeFree
    = Some (found, s') →
  match found with
  | Some r => FreeRunFound s PageCount r s'
  | None => s' = s
  end.
Proof.
  unfold MmpFindPhysicalPages. intros H.
  destruct (Segments s !! _); [|done]. cbn [mbind option_bind] in H.
  apply (FindLoop_free _ _ _ _ _ _ _ _ _ _ found _ (ULONGLONG_nonneg _) H).
Qed.

(** X2.  The search is cursor-first.  When the frames at the aligned cursor are
    free and the segment has room and free frames enough, the search returns
    that run. *)
Theorem find_free_pages_at_cursor (s : MmState) (PageCount PageAlignment : Z)
    (IsRangeFree : VaAccounting) (g : PHYSICAL_MEMORY_SEGMENT) :
  let si := MmLastAllocatedSegment (Cursors s) in
  let off := AlignedAllocationCursor s g PageAlignment in
  Segments s !! si = Some g →
  0 <= PageCount <= FreePages g →
  off < SegmentPages g →
  ULONGLONG (off + PageCount) <= SegmentPages g →
  (∀ k, 0 <= k < PageCount →
        PhysicalPages g !! Z.to_nat (off + k) = Some PHYSICAL_PAGE_FREE) →
  MmpFindPhysicalPages s PageCount PageAlignment PhysicalMemoryFindFree IsRangeFree
    = Some (Some (mkFindResult si off PageCount),
            set_Cursors
              (mkCursors si (UINTN (off + PageCount))
                         (MmLastPagedSegment (Cursors s))
                         (MmLastPagedSegmentOffset (Cursors s))) s).
Proof.
  intros si off Hg Hcount Hoff Hend Hfree.
  unfold MmpFindPhysicalPages. cbn [IsFindPagable]. fold si. rewrite Hg.
  cbn [mbind option_bind]. fold (AlignedAllocationCursor s g PageAlignment). fold off.
  assert (∃ fuel, FindFuel s = S fuel) as [fuel ->].
  { unfold FindFuel.
    exists (2 * (foldr (λ g n, length (PhysicalPages g) + n) 0 (Segments s)
                 + length (Segments s)) + 1)%nat. lia. }
  cbn [FindLoop]. unfold FindLoopBody. rewrite Hg. cbn [mbind option_bind].
  cbn [IsFindPagable IsFindFree negb andb].
  assert ((SegmentPages g <=? off) = false) as -> by lia.
  assert ((SegmentPages g <? ULONGLONG (off + PageCount)) = false) as -> by lia.
  assert ((FreePages g <? PageCount) = false) as -> by lia.
  cbn [orb].
  rewrite (SpanLoop_free_all IsRangeFree si g off (Z.to_nat PageCount) 0 s).
  - cbn [mbind option_bind]. rewrite Z.add_0_l, Z2Nat.id by lia.
    rewrite Z.eqb_refl. cbn [orb]. done.
  - intros k Hk. unfold ReadPage. rewrite Hg. cbn [mbind option_bind]. apply Hfree. lia.
Qed.

(** ** MmFreePhysicalPages on a run with no frame being paged out *)

Lemma UINTN_sub_idemp x k : UINTN (UINTN x - k) = UINTN (x - k).
Proof. unfold UINTN, wrap. apply Zminus_mod_idemp_l. Qed.

Lemma FreeUpdateMetrics_fields si s l :
  Segments (FreeUpdateMetrics si s l).1
    = alter (λ g, set_FreePages (ULONGLONG (FreePages g + 1)) g) si (Segments s) ∧
  Counts (FreeUpdateMetrics si s l).1
    = set_Allocated (UINTN (MmTotalAllocatedPhysicalPages (Counts s) - 1)) (Counts s) ∧
  PagingEntries (FreeUpdateMetrics si s l).1 = PagingEntries s ∧
  Cursors (FreeUpdateMetrics si s l).1 = Cursors s ∧
  ReleasedPhysicalPage (FreeUpdateMetrics si s l).2 = ReleasedPhysicalPage l ∧
  PagingEntryList (FreeUpdateMetrics si s l).2 = PagingEntryList l.
Proof.
  unfold FreeUpdateMetrics, FreeWarningCheck.
  repeat match goal with
         | |- context [if ?b then _ else _] => destruct b
         | |- context [match ?x with MemoryWarningLevelNone => _ | _ => _ end] => destruct x
         end; done.
Qed.

Lemma FreeOnePage_releasable si idx s l g page :
  DatabaseInvariant s →
  Segments s !! si = Some g →
  PhysicalPages g !! idx = Some page →
  Releasable s page →
  0 <= MmNonPagedPhysicalPages (Counts s) < 2 ^ 32 →
  ∃ s' l',
    FreeOnePage si idx (s, l) = Some (s', l') ∧
    DatabaseInvariant s' ∧
    Segments s' = <[si := mkSegment (StartAddress g) (EndAddress g) (FreePages g + 1)
                            (<[idx := PHYSICAL_PAGE_FREE]> (PhysicalPages g))]> (Segments s) ∧
    Counts s' = mkCounts (MmTotalPhysicalPages (Counts s))
                         (MmTotalAllocatedPhysicalPages (Counts s) - 1)
                         (MmMinimumFreePhysicalPages (Counts s))
                         (if IsNonPaged page
                          then UINTN (MmNonPagedPhysicalPages (Counts s) - 1)
                          else MmNonPagedPhysicalPages (Counts s)) ∧
    PagingEntries s' = PagingEntries s ∧ Cursors s' = Cursors s ∧
    PagingEntryList l' = PagingEntryList l ++ PagingEntriesOf [page].
Proof.
  intros Hinv Hg Hpage [Hnotfree Hentry] Hnp.
  destruct (DatabaseInvariant_segment s si g Hinv Hg) as (Hfg & Hfb & Hfa & Hlow & Hat).
  pose proof (free_count_not_all _ _ _ Hpage Hnotfree) as Hlt.
  fold (FreeFramesOf g) in Hlt.
  assert (MmTotalPhysicalPages (Counts s) < 2 ^ 32) as Hsmall by apply Hinv.
  set (g' := mkSegment (StartAddress g) (EndAddress g) (FreePages g + 1)
                       (<[idx := PHYSICAL_PAGE_FREE]> (PhysicalPages g))).
  assert (ReadPage si idx s = Some page) as Hread.
  { unfold ReadPage. rewrite Hg. done. }
  (* the state after the page has been written and the metrics updated *)
  assert (∀ s1 l1,
            Segments s1 = alter (λ h, set_PhysicalPages
                                        (<[idx := PHYSICAL_PAGE_FREE]> (PhysicalPages h)) h)
                                si (Segments s) →
            MmTotalPhysicalPages (Counts s1) = MmTotalPhysicalPages (Counts s) →
            MmTotalAllocatedPhysicalPages (Counts s1)
              = MmTotalAllocatedPhysicalPages (Counts s) →
            Segments (FreeUpdateMetrics si s1 l1).1 = <[si := g']> (Segments s) ∧
            MmTotalAllocatedPhysicalPages (Counts (FreeUpdateMetrics si s1 l1).1)
              = MmTotalAllocatedPhysicalPages (Counts s) - 1 ∧
            DatabaseInvariant (FreeUpdateMetrics si s1 l1).1) as Hmetrics.
  { intros s1 l1 Hsegs1 Htotal1 Halloc1.
    destruct (FreeUpdateMetrics_fields si s1 l1) as (Hs & Hc & _).
    assert (Segments (FreeUpdateMetrics si s1 l1).1 = <[si := g']> (Segments s)) as Hsegs.
    { rewrite Hs, Hsegs1. rewrite (alter_as_insert _ _ _ _ Hg).
      rewrite (alter_as_insert _ _ si
                 (set_PhysicalPages (<[idx := PHYSICAL_PAGE_FREE]> (PhysicalPages g)) g)).
      - rewrite list_insert_insert_eq. f_equal. unfold g', set_FreePages, set_PhysicalPages.
        cbn [StartAddress EndAddress FreePages PhysicalPages].
        rewrite ULONGLONG_small by lia. done.
      - apply list_lookup_insert_eq. by eapply lookup_lt_Some. }
    assert (MmTotalAllocatedPhysicalPages (Counts (FreeUpdateMetrics si s1 l1).1)
            = MmTotalAllocatedPhysicalPages (Counts s) - 1) as Halloc.
    { rewrite Hc. cbn [set_Allocated MmTotalAllocatedPhysicalPages]. rewrite Halloc1.
      apply UINTN_small. lia. }
    split; [done|]. split; [done|].
    apply (DatabaseInvariant_step s _ si g g' Hinv Hg Hsegs).
    - unfold g'. cbn [PhysicalPages]. by rewrite length_insert.
    - unfold g', FreeFramesOf. cbn [FreePages PhysicalPages].
      rewrite (free_count_insert _ _ _ _ Hpage).
      rewrite decide_False by done. rewrite decide_True by done.
      fold (FreeFramesOf g). lia.
    - rewrite Hc. cbn [set_Allocated MmTotalPhysicalPages]. done.
    - rewrite Halloc. unfold g'. cbn [FreePages]. lia. }
  rewrite (PagingEntriesOf_cons page []).
  destruct (IsNonPaged page) eqn:Hnon.
  - rewrite (FreeOnePage_non_paged si idx s l page Hread Hnon).
    set (s1 := set_Counts _ _). set (l1 := mkFreeLocals _ _ _).
    destruct (Hmetrics s1 l1) as (Hsegs & Halloc & Hinv'); [done..|].
    destruct (FreeUpdateMetrics_fields si s1 l1) as (_ & Hc & Hh & Hcur & _ & Hlist).
    destruct (FreeUpdateMetrics si s1 l1) as [s' l'] eqn:Hfm. cbn [fst snd] in *.
    exists s', l'. split; [done|]. split; [done|]. split; [done|].
    split; [|split; [done|split; [done|]]].
    + rewrite Hc. unfold s1. cbn. rewrite UINTN_small by lia. done.
    + rewrite Hlist. unfold l1. cbn [PagingEntryList]. by rewrite app_nil_r.
  - destruct (Hentry eq_refl) as (e & He & Hout).
    rewrite (FreeOnePage_pageable si idx s l page e Hread Hnon He Hout).
    set (s1 := WritePage si idx PHYSICAL_PAGE_FREE s). set (l1 := mkFreeLocals _ _ _).
    destruct (Hmetrics s1 l1) as (Hsegs & Halloc & Hinv'); [done..|].
    destruct (FreeUpdateMetrics_fields si s1 l1) as (_ & Hc & Hh & Hcur & _ & Hlist).
    destruct (FreeUpdateMetrics si s1 l1) as [s' l'] eqn:Hfm. cbn [fst snd] in *.
    exists s', l'. split; [done|]. split; [done|]. split; [done|].
    split; [|split; [done|split; [done|]]].
    + rewrite Hc. unfold s1. cbn. rewrite UINTN_small by lia. done.
    + rewrite Hlist. unfold l1. cbn [PagingEntryList]. done.
Qed.

Lemma FreeLoop_releasable si run idx s l g :
  DatabaseInvariant s →
  Segments s !! si = Some g →
  take (length run) (drop idx (PhysicalPages g)) = run →
  (∀ page, page ∈ run → Releasable s page) →
  0 <= MmNonPagedPhysicalPages (Counts s) < 2 ^ 32 →
  ∃ s' l',
    FreeLoop si (length run) idx (s, l) = Some (s', l') ∧
    DatabaseInvariant s' ∧
    RunReleased si idx run s s' ∧
    PagingEntries s' = PagingEntries s ∧
    PagingEntryList l' = PagingEntryList l ++ PagingEntriesOf run.
Proof.
  revert idx s l g. induction run as [|page run IH]; intros idx s l g Hinv Hg Hrun Hrel Hnp.
  { exists s, l. cbn [FreeLoop length]. split; [done|]. split; [done|].
    split; [|by rewrite app_nil_r].
    exists g, g. rewrite list_insert_id by done. cbn [length PagingEntriesOf filter].
    change (Z.of_nat 0) with 0. rewrite Z.add_0_r, !Z.sub_0_r.
    rewrite (UINTN_small _ Hnp). repeat split; try done; try lia. }
  cbn [length] in Hrun. apply take_drop_cons in Hrun as [Hpage Hrest].
  destruct (FreeOnePage_releasable si idx s l g page Hinv Hg Hpage
              (Hrel page (list_elem_of_here _ _)) Hnp)
    as (s1 & l1 & Hstep & Hinv1 & Hsegs1 & Hcounts1 & Hheap1 & Hcur1 & Hlist1).
  set (g1 := mkSegment (StartAddress g) (EndAddress g) (FreePages g + 1)
                       (<[idx := PHYSICAL_PAGE_FREE]> (PhysicalPages g))) in *.
  assert (Segments s1 !! si = Some g1) as Hg1.
  { rewrite Hsegs1. apply list_lookup_insert_eq. by eapply lookup_lt_Some. }
  destruct (IH (S idx) s1 l1 g1 Hinv1 Hg1) as (s' & l' & Hloop & Hinv' & Hreleased & Hheap' & Hlist').
  { unfold g1. cbn [PhysicalPages]. rewrite drop_insert_lt by lia. done. }
  { intros p Hp. destruct (Hrel p (list_elem_of_further _ _ _ Hp)) as [Hp1 Hp2].
    split; [done|]. by rewrite Hheap1. }
  { rewrite Hcounts1. cbn [MmNonPagedPhysicalPages].
    destruct (IsNonPaged page); [|done]. unfold UINTN, wrap. apply Z.mod_pos_bound. lia. }
  exists s', l'. split.
  { cbn [length FreeLoop]. rewrite Hstep. done. }
  split; [done|]. split; [|split].
  - destruct Hreleased as (h & g' & Hh & Hsegs' & Hs & He & Hf & Hl & Hfreed & Hother & Ht
                           & Ha & Hm & Hn & Hc).
    rewrite Hg1 in Hh. apply Some_inj in Hh. subst h.
    exists g, g'. split; [done|]. split.
    { rewrite Hsegs', Hsegs1. by rewrite list_insert_insert_eq. }
    split; [by rewrite Hs|]. split; [by rewrite He|].
    split; [rewrite Hf; unfold g1; cbn [FreePages length]; lia|].
    split; [rewrite Hl; unfold g1; cbn [PhysicalPages]; by rewrite length_insert|].
    split.
    { intros k Hk. cbn [length] in Hk. destruct k as [|k].
      - rewrite Nat.add_0_r. rewrite Hother by lia. unfold g1. cbn [PhysicalPages].
        apply list_lookup_insert_eq. by eapply lookup_lt_Some.
      - replace (idx + S k)%nat with (S idx + k)%nat by lia. apply Hfreed. lia. }
    split.
    { intros i Hi. cbn [length] in Hi. rewrite Hother by lia. unfold g1. cbn [PhysicalPages].
      apply list_lookup_insert_ne. lia. }
    rewrite Ht, Ha, Hm, Hn, Hc, Hcounts1, Hcur1.
    cbn [MmTotalPhysicalPages MmTotalAllocatedPhysicalPages MmMinimumFreePhysicalPages
         MmNonPagedPhysicalPages length].
    rewrite PagingEntriesOf_cons.
    repeat split; try done; try lia.
    destruct (IsNonPaged page); cbn [length].
    + rewrite UINTN_sub_idemp. f_equal. lia.
    + f_equal. lia.
  - by rewrite Hheap', Hheap1.
  - rewrite Hlist', Hlist1, <- app_assoc. f_equal.
    rewrite (PagingEntriesOf_cons page []), (PagingEntriesOf_cons page run).
    by destruct (IsNonPaged page).
Qed.

Lemma destroy_paging_entries_lookup (heap : gmap Z PAGING_ENTRY) (l : list Z) p :
  foldl (λ h q, MmpDestroyPagingEntry q h) heap l !! p
  = if decide (p ∈ l) then None else heap !! p.
Proof.
  revert heap. induction l as [|q l IH]; intros heap; cbn [foldl].
  - rewrite decide_False; [done|]. apply not_elem_of_nil.
  - rewrite IH. unfold MmpDestroyPagingEntry.
    destruct (decide (p ∈ l)) as [Hin|Hout].
    + rewrite decide_True; [done|]. by right.
    + destruct (decide (p = q)) as [->|Hne].
      * rewrite lookup_delete_eq. rewrite decide_True; [done|]. by left.
      * rewrite lookup_delete_ne by done. rewrite decide_False; [done|].
        rewrite elem_of_cons. tauto.
Qed.

(** X3.  Freeing a run of allocated frames none of which is being paged out
    releases every frame of the run: the records become free, the counters
    move by the length of the run, the paging entries of the pageable frames
    of the run are destroyed and no others, and the counters still agree with
    the frame records. *)
Theorem free_releases_the_run (s : MmState) (F : Z) (n : nat) (run : list Z) :
  DatabaseInvariant s →
  RunAt s F n = Some run →
  (∀ page, page ∈ run → Releasable s page) →
  0 <= MmNonPagedPhysicalPages (Counts s) < 2 ^ 32 →
  ∃ r si g,
    MmFreePhysicalPages s F (Z.of_nat n) = Some r ∧
    FindSegment (Segments s) F = Some (si, g) ∧
    RunReleased si (Z.to_nat (PageOffsetIn g F)) run s (free_state r) ∧
    DatabaseInvariant (free_state r) ∧
    free_destroyed r = PagingEntriesOf run ∧
    (∀ p, PagingEntries (free_state r) !! p
          = if decide (p ∈ PagingEntriesOf run) then None else PagingEntries s !! p) ∧
    MmGetTotalFreePhysicalPages (free_state r)
      = MmGetTotalFreePhysicalPages s + Z.of_nat n.
Proof.
  intros Hinv Hrun Hrel Hnp.
  apply RunAt_inv in Hrun as (si & g & Hfind & Hg & Hrun & Hlen).
  subst n.
  destruct (FreeLoop_releasable si run (Z.to_nat (PageOffsetIn g F)) s
              (mkFreeLocals false false []) g Hinv Hg Hrun Hrel Hnp)
    as (s' & l' & Hloop & Hinv' & Hreleased & Hheap & Hlist).
  unfold MmFreePhysicalPages. rewrite Hfind. rewrite Nat2Z.id, Hloop.
  cbn [mbind option_bind].
  eexists _, si, g. split; [reflexivity|]. cbn [free_state free_destroyed].
  split; [done|]. split; [exact Hreleased|].
  split; [by apply (DatabaseInvariant_ext s')|].
  cbn [PagingEntryList app] in Hlist.
  split; [done|]. split.
  { intros p. cbn [PagingEntries set_PagingEntries].
    rewrite destroy_paging_entries_lookup, Hlist, Hheap. done. }
  unfold MmGetTotalFreePhysicalPages. cbn [Counts set_PagingEntries].
  destruct Hreleased as (h & g' & Hh & Hsegs' & _ & _ & Hf & _ & _ & _ & Ht & Ha & _).
  rewrite Hg in Hh. apply Some_inj in Hh. subst h.
  rewrite Ht, Ha.
  destruct (DatabaseInvariant_segment s si g Hinv Hg) as (_ & Hfb & Hfa & Hlow & Hat).
  assert (Segments s' !! si = Some g') as Hg'.
  { rewrite Hsegs'. apply list_lookup_insert_eq. by eapply lookup_lt_Some. }
  destruct (DatabaseInvariant_segment s' si g' Hinv' Hg') as (_ & Hfb' & Hfa' & Hlow' & Hat').
  destruct Hinv as (_ & _ & _ & Hsmall).
  rewrite !UINTN_small; lia.
Qed.

(** ** Allocation followed by release *)

Lemma FindSegment_insert_laid_out s si g g' a :
  SegmentsLaidOut s →
  Segments s !! si = Some g →
  StartAddress g' = StartAddress g → EndAddress g' = EndAddress g →
  StartAddress g <= a < EndAddress g →
  FindSegment (<[si := g']> (Segments s)) a = Some (si, g').
Proof.
  intros Hlaid Hg Hs He Ha. unfold FindSegment. apply list_find_Some.
  split; [apply list_lookup_insert_eq; by eapply lookup_lt_Some|].
  split; [lia|].
  intros j h Hj Hlt. rewrite list_lookup_insert_ne in Hj by lia.
  destruct (Hlaid si g Hg) as (_ & _ & _ & Hbefore).
  destruct (Hlaid j h Hj) as (_ & Hend & _ & _).
  specialize (Hbefore j h Hlt Hj). lia.
Qed.

Lemma SegmentPages_laid_out s si g :
  SegmentsLaidOut s → Segments s !! si = Some g →
  SegmentPages g = Z.of_nat (length (PhysicalPages g)).
Proof.
  intros Hlaid Hg. destruct (Hlaid si g Hg) as (Hstart & Hend & Hsmall & _).
  unfold SegmentPages, PageShift. rewrite Hend.
  replace (StartAddress g + PageSize * Z.of_nat (length (PhysicalPages g)) - StartAddress g)
    with (Z.of_nat (length (PhysicalPages g)) * 2 ^ 12) by (unfold PageSize; lia).
  rewrite ULONGLONG_small by (unfold PageSize in *; lia).
  rewrite Z.shiftr_div_pow2 by lia. apply Z.div_mul. lia.
Qed.

(** X4.  An allocation that finds its run at once, followed by the release of
    what it returned, leaves the frame records, the counters and the paging
    entries as they were before the allocation. *)
Theorem allocate_then_free_restores
    (Frequency : Z) (s : MmState) (PageCount Alignment : Z)
    (a : Z) (s1 : MmState) (signal : bool) (requests : list Z) :
  DatabaseInvariant s →
  SegmentsLaidOut s →
  0 <= MmNonPagedPhysicalPages (Counts s) < 2 ^ 32 →
  MmpAllocatePhysicalPages [] Frequency s PageCount Alignment
    = Some (AllocateReturned a s1 signal, requests) →
  ∃ r, MmFreePhysicalPages s1 a PageCount = Some r ∧
       Segments (free_state r) = Segments s ∧
       Counts (free_state r) = Counts s ∧
       PagingEntries (free_state r) = PagingEntries s ∧
       free_destroyed r = [].
Proof.
  intros Hinv Hlaid Hnp Hcall.
  apply MmpAllocatePhysicalPages_at_once in Hcall as (_ & Alignment2 & Hstep).
  apply (AllocateAttempt_found s PageCount Alignment2 a s1 signal Hinv Hnp) in Hstep
    as (si & off & g & Hg & Hoff & Hcount & Ha & Hfree & Hmarked & _ & _ & _ & Hinv1).
  destruct Hmarked as (h & g' & Hh & Hsegs1 & Hs & He & Hf & Hl & Hrun & Hrest & Ht & Hal & Hm
                       & Hn & Hp).
  rewrite Hg in Hh. apply Some_inj in Hh. subst h.
  pose proof (SegmentPages_laid_out s si g Hlaid Hg) as Hpages.
  destruct (Hlaid si g Hg) as (Hstart & Hend & Hsmall & _).
  assert (a = StartAddress g + off * 4096) as Haddr.
  { rewrite Ha. unfold PageShift. rewrite Z.shiftl_mul_pow2 by lia.
    apply ULONGLONG_small. unfold PageSize in *. lia. }
  assert (FindSegment (Segments s1) a = Some (si, g')) as Hfind.
  { rewrite Hsegs1. apply (FindSegment_insert_laid_out s si g g' a Hlaid Hg Hs He).
    unfold PageSize in *. lia. }
  assert (PageOffsetIn g' a = off) as Hoffset.
  { unfold PageOffsetIn, PageShift. rewrite Hs, Haddr.
    replace (StartAddress g + off * 4096 - StartAddress g) with (off * 2 ^ 12) by lia.
    rewrite ULONGLONG_small by (unfold PageSize in *; lia).
    rewrite Z.shiftr_div_pow2 by lia. apply Z.div_mul. lia. }
  assert (Segments s1 !! si = Some g') as Hg'.
  { rewrite Hsegs1. apply list_lookup_insert_eq. by eapply lookup_lt_Some. }
  set (n := Z.to_nat PageCount) in *.
  assert (∀ k, (k < n)%nat → (Z.to_nat off + k < length (PhysicalPages g))%nat) as Hin.
  { intros k Hk. apply (lookup_lt_Some _ _ PHYSICAL_PAGE_FREE).
    rewrite <- (Hfree (Z.of_nat k)) by lia. f_equal. lia. }
  assert (take (length (replicate n PHYSICAL_PAGE_FLAG_NON_PAGED))
               (drop (Z.to_nat off) (PhysicalPages g'))
          = replicate n PHYSICAL_PAGE_FLAG_NON_PAGED) as Htake.
  { rewrite length_replicate. apply list_eq. intros k.
    destruct (decide (k < n)%nat) as [Hk|Hk].
    - rewrite lookup_take_lt, lookup_drop by done. rewrite (Hrun k Hk).
      symmetry. by apply lookup_replicate_2.
    - rewrite lookup_take_ge by lia. symmetry. apply lookup_replicate_None. lia. }
  destruct (FreeLoop_releasable si (replicate n PHYSICAL_PAGE_FLAG_NON_PAGED)
              (Z.to_nat off) s1 (mkFreeLocals false false []) g' Hinv1 Hg' Htake)
    as (s2 & l2 & Hloop & Hinv2 & Hreleased & Hheap2 & Hlist2).
  { intros page Hpage. apply elem_of_replicate in Hpage as [-> _]. split; done. }
  { rewrite Hn. unfold UINTN, wrap. apply Z.mod_pos_bound. lia. }
  rewrite length_replicate in Hloop.
  assert (PagingEntriesOf (replicate n PHYSICAL_PAGE_FLAG_NON_PAGED) = []) as Hnone.
  { clear. induction n as [|n IH]; [done|].
    cbn [replicate]. rewrite PagingEntriesOf_cons. done. }
  rewrite Hnone in Hlist2. cbn [PagingEntryList app] in Hlist2.
  unfold MmFreePhysicalPages. rewrite Hfind, Hoffset. fold n. rewrite Hloop.
  cbn [mbind option_bind]. eexists. split; [reflexivity|].
  cbn [free_state free_destroyed]. rewrite Hlist2. cbn [foldl].
  cbn [Segments Counts PagingEntries set_PagingEntries].
  destruct Hreleased as (h & g'' & Hh & Hsegs2 & Hs2 & He2 & Hf2 & Hl2 & Hfreed & Hother & Ht2
                         & Ha2 & Hm2 & Hn2 & _).
  rewrite Hg' in Hh. apply Some_inj in Hh. subst h.
  rewrite Hnone in Hn2. rewrite length_replicate in *. cbn [length] in Hn2.
  split; [|split; [|split; [by rewrite Hheap2, Hp|done]]].
  - rewrite Hsegs2, Hsegs1, list_insert_insert_eq.
    assert (g'' = g) as ->; [|by apply list_insert_id].
    destruct g'' as [start'' end'' free'' pages''], g as [start0 end0 free0 pages0].
    cbn [StartAddress EndAddress FreePages PhysicalPages] in *.
    f_equal; [congruence|congruence|lia|].
    apply list_eq. intros i.
    destruct (decide (Z.to_nat off <= i < Z.to_nat off + n)%nat) as [Hi|Hi].
    + replace i with (Z.to_nat off + (i - Z.to_nat off))%nat by lia.
      rewrite Hfreed by lia. rewrite <- (Hfree (Z.of_nat (i - Z.to_nat off))) by lia.
      f_equal. lia.
    + rewrite Hother by lia. apply Hrest. lia.
  - rewrite Ht, Hal, Hm, Hn in *.
    destruct (Counts s2) as [t2 a2 m2 n2], (Counts s) as [t0 a0 m0 n0].
    cbn [MmTotalPhysicalPages MmTotalAllocatedPhysicalPages MmMinimumFreePhysicalPages
         MmNonPagedPhysicalPages] in *.
    f_equal; [congruence|lia|congruence|].
    rewrite Hn2, UINTN_sub_idemp. rewrite <- (UINTN_small n0 Hnp) at 2. f_equal. lia.
Qed.

(** *** The theorems on a database of a thousand frames *)

Lemma ThousandFrames_invariant :
  DatabaseInvariant (ThousandFrames 10 MemoryWarningLevelNone 0) ∧
  SegmentsLaidOut (ThousandFrames 10 MemoryWarningLevelNone 0).
Proof.
  split.
  - split; [|by vm_compute]. repeat constructor.
  - intros si g Hg. destruct si as [|si]; [|done].
    apply Some_inj in Hg. subst g.
    split; [by vm_compute|]. split; [by vm_compute|]. split; [by vm_compute|].
    intros sj h Hsj. lia.
Qed.

Lemma find_free_pages_result_witness :
  FreeRunFound (ThousandFrames 10 MemoryWarningLevelNone 0) 3
    (mkFindResult 0 10 3)
    (set_Cursors (mkCursors 0 13 0 0) (ThousandFrames 10 MemoryWarningLevelNone 0)).
Proof.
  apply (find_free_pages_result (ThousandFrames 10 MemoryWarningLevelNone 0) 3 1
           (λ _, true) (Some (mkFindResult 0 10 3))).
  vm_compute. reflexivity.
Defined.

Lemma find_free_pages_at_cursor_witness :
  MmpFindPhysicalPages (ThousandFrames 0 MemoryWarningLevelNone 0) 3 4
    PhysicalMemoryFindFree (λ _, true)
  = Some (Some (mkFindResult 0 0 3),
          set_Cursors (mkCursors 0 3 0 0) (ThousandFrames 0 MemoryWarningLevelNone 0)).
Proof.
  apply (find_free_pages_at_cursor (ThousandFrames 0 MemoryWarningLevelNone 0) 3 4
           (λ _, true)
           (mkSegment 1048576 5144576 1000 (replicate 1000 PHYSICAL_PAGE_FREE))).
  - reflexivity.
  - by vm_compute.
  - by vm_compute.
  - by vm_compute.
  - intros k Hk. assert (k = 0 ∨ k = 1 ∨ k = 2) as [-> | [-> | ->]] by lia; reflexivity.
Defined.

Lemma allocate_marks_the_free_run_found_witness :
  ∃ a s', MmpAllocatePhysicalPages [] 1000 (ThousandFrames 10 MemoryWarningLevelNone 0) 3 0
            = Some (AllocateReturned a s' false, []) ∧
          a = 1089536 ∧
          MmGetTotalFreePhysicalPages s' = 987 ∧
          DatabaseInvariant s'.
Proof.
  assert (0 <= MmNonPagedPhysicalPages (Counts (ThousandFrames 10 MemoryWarningLevelNone 0))
          < 2 ^ 32) as Hnp by (by vm_compute).
  assert (∃ s', MmpAllocatePhysicalPages [] 1000
                  (ThousandFrames 10 MemoryWarningLevelNone 0) 3 0
                = Some (AllocateReturned 1089536 s' false, [])) as (s' & Hcall)
    by (vm_compute; eexists; reflexivity).
  exists 1089536, s'. split; [exact Hcall|]. split; [reflexivity|].
  destruct (allocate_marks_the_free_run_found 1000
              (ThousandFrames 10 MemoryWarningLevelNone 0) 3 0 1089536 s' false []
              (proj1 ThousandFrames_invariant) Hnp Hcall)
    as (si & off & g & Hg & Hoff & Hcount & Ha & Hfree & Hmarked & Hcs & Hco & Htotal & Hinv).
  split; [|exact Hinv].
  rewrite Htotal. reflexivity.
Defined.

Lemma free_releases_the_run_witness :
  ∃ r, MmFreePhysicalPages (ThousandFrames 10 MemoryWarningLevelNone 0) 1048576 (Z.of_nat 4)
         = Some r ∧
       DatabaseInvariant (free_state r) ∧
       free_destroyed r = [] ∧
       MmGetTotalFreePhysicalPages (free_state r) = 994.
Proof.
  assert (RunAt (ThousandFrames 10 MemoryWarningLevelNone 0) 1048576 4 = Some [1; 1; 1; 1])
    as Hrun by reflexivity.
  assert (∀ page, page ∈ [1; 1; 1; 1] →
                  Releasable (ThousandFrames 10 MemoryWarningLevelNone 0) page) as Hrel.
  { intros page Hpage. apply list_elem_of_In in Hpage. cbn [In] in Hpage.
    destruct Hpage as [<- | [<- | [<- | [<- | []]]]]; split; done. }
  assert (0 <= MmNonPagedPhysicalPages (Counts (ThousandFrames 10 MemoryWarningLevelNone 0))
          < 2 ^ 32) as Hnp by (by vm_compute).
  destruct (free_releases_the_run (ThousandFrames 10 MemoryWarningLevelNone 0) 1048576 4
              [1; 1; 1; 1] (proj1 ThousandFrames_invariant) Hrun Hrel Hnp)
    as (r & si & g & Hcall & Hfind & Hreleased & Hinv & Hdestroyed & Hheap & Hfree).
  exists r. split; [exact Hcall|]. split; [exact Hinv|]. split; [exact Hdestroyed|].
  rewrite Hfree. reflexivity.
Defined.

Lemma allocate_then_free_restores_witness :
  ∃ a s1 r,
    MmpAllocatePhysicalPages [] 1000 (ThousandFrames 10 MemoryWarningLevelNone 0) 3 0
      = Some (AllocateReturned a s1 false, []) ∧
    MmFreePhysicalPages s1 a 3 = Some r ∧
    Segments (free_state r) = Segments (ThousandFrames 10 MemoryWarningLevelNone 0) ∧
    Counts (free_state r) = Counts (ThousandFrames 10 MemoryWarningLevelNone 0).
Proof.
  assert (0 <= MmNonPagedPhysicalPages (Counts (ThousandFrames 10 MemoryWarningLevelNone 0))
          < 2 ^ 32) as Hnp by (by vm_compute).
  assert (∃ a s', MmpAllocatePhysicalPages [] 1000
                    (ThousandFrames 10 MemoryWarningLevelNone 0) 3 0
                  = Some (AllocateReturned a s' false, [])) as (a & s1 & Hcall)
    by (vm_compute; eexists _, _; reflexivity).
  destruct (allocate_then_free_restores 1000
              (ThousandFrames 10 MemoryWarningLevelNone 0) 3 0 a s1 false []
              (proj1 ThousandFrames_invariant) (proj2 ThousandFrames_invariant)
              Hnp Hcall)
    as (r & Hfree & Hsegs & Hcounts & _).
  exists a, s1, r. split; [exact Hcall|]. split; [exact Hfree|]. split; assumption.
Defined.


Lemma FlaggedPagingOut_idemp e : FlaggedPagingOut (FlaggedPagingOut e) = FlaggedPagingOut e.
Proof.
  unfold FlaggedPagingOut, set_Flags. cbn [Section SectionOffset LockCount Flags].
  by rewrite <- Z.lor_assoc, Z.lor_diag.
Qed.

Lemma SpanLoop_pagable va si g off n c s c' s' :
  Segments s !! si = Some g → 0 <= off → 0 <= c →
  SpanLoop PhysicalMemoryFindPagable va si g off n c s = Some (c', s') →
  c <= c' <= c + Z.of_nat n ∧
  (c' = c → s' = s) ∧
  Segments s' = Segments s ∧ Counts s' = Counts s ∧ Warnings s' = Warnings s ∧
  Cursors s' = Cursors s ∧
  ∃ run,
    run = take (Z.to_nat (c' - c)) (drop (Z.to_nat (off + c)) (PhysicalPages g)) ∧
    Z.of_nat (length run) = c' - c ∧
    (∀ page, page ∈ run →
       page ≠ PHYSICAL_PAGE_FREE ∧ IsNonPaged page = false ∧
       ∃ e, PagingEntries s !! page = Some e ∧ LockCount e = 0) ∧
    (∀ p, PagingEntries s' !! p
          = if decide (p ∈ run) then FlaggedPagingOut <$> PagingEntries s !! p
            else PagingEntries s !! p).
Proof.
  intros Hg Hoff. revert c s Hg.
  induction n as [|n IH]; intros c s Hg Hc H; cbn [SpanLoop] in H.
  { apply Some_inj in H. inversion H; subst c' s'.
    split; [lia|]. split; [done|]. do 4 (split; [done|]).
    exists []. rewrite Z.sub_diag. cbn [Z.to_nat take].
    split; [done|]. split; [done|]. split; [|done].
    intros q Hq. by apply elem_of_nil in Hq. }
  unfold ReadPage in H. rewrite Hg in H. cbn [mbind option_bind] in H.
  destruct (PhysicalPages g !! Z.to_nat (off + c)) as [page|] eqn:Hpage; [|done].
  cbn [mbind option_bind SpanCheckPage] in H.
  assert (∀ s0, Some (c, s0) = Some (c', s') →
          c <= c' <= c + Z.of_nat (S n) ∧ (c' = c → s' = s0) ∧
          Segments s' = Segments s0 ∧ Counts s' = Counts s0 ∧ Warnings s' = Warnings s0 ∧
          Cursors s' = Cursors s0 ∧
          ∃ run,
            run = take (Z.to_nat (c' - c)) (drop (Z.to_nat (off + c)) (PhysicalPages g)) ∧
            Z.of_nat (length run) = c' - c ∧
            (∀ page, page ∈ run →
               page ≠ PHYSICAL_PAGE_FREE ∧ IsNonPaged page = false ∧
               ∃ e, PagingEntries s0 !! page = Some e ∧ LockCount e = 0) ∧
            (∀ p, PagingEntries s' !! p
                  = if decide (p ∈ run) then FlaggedPagingOut <$> PagingEntries s0 !! p
                    else PagingEntries s0 !! p)) as Hexit.
  { intros s0 Heq. apply Some_inj in Heq. inversion Heq; subst c' s'.
    split; [lia|]. split; [done|]. do 4 (split; [done|]).
    exists []. rewrite Z.sub_diag. cbn [Z.to_nat take].
    split; [done|]. split; [done|]. split; [|done].
    intros q Hq. by apply elem_of_nil in Hq. }
  destruct ((page =? PHYSICAL_PAGE_FREE) || IsNonPaged page) eqn:Hkind.
  { cbn [mbind option_bind] in H. by apply Hexit. }
  destruct (PagingEntries s !! page) as [e|] eqn:He; [|done].
  cbn [mbind option_bind] in H.
  destruct (LockCount e =? 0) eqn:Hlock; cbn [negb mbind option_bind] in H.
  2: { by apply Hexit. }
  apply orb_false_iff in Hkind as [Hnotfree Hnon].
  set (s1 := set_PagingEntries _ s) in H.
  apply IH in H as (Hc' & _ & Hsegs & Hcounts & Hwarn & Hcur & run' & Hrun' & Hlen' & Hpages' & Hheap');
    [|done|lia].
  split; [lia|]. split; [lia|]. do 4 (split; [done|]).
  exists (page :: run').
  assert (Z.to_nat (c' - c) = S (Z.to_nat (c' - (c + 1)))) as Hsucc by lia.
  assert (Z.to_nat (off + (c + 1)) = S (Z.to_nat (off + c))) as Hnext by lia.
  split.
  { rewrite Hsucc. rewrite (drop_S _ page) by done. cbn [take]. f_equal.
    rewrite Hrun', Hnext. done. }
  split; [cbn [length]; lia|].
  split.
  - intros q Hq. apply elem_of_cons in Hq as [->|Hq].
    + split; [lia|]. split; [done|]. exists e. split; [done|lia].
    + destruct (Hpages' q Hq) as (Hq1 & Hq2 & e1 & He1 & Hl1).
      split; [done|]. split; [done|].
      unfold s1 in He1. cbn [PagingEntries set_PagingEntries] in He1.
      destruct (decide (q = page)) as [->|Hne].
      * rewrite lookup_insert_eq in He1. exists e. split; [done|lia].
      * rewrite lookup_insert_ne in He1 by done. by exists e1.
  - intros p. rewrite Hheap'. unfold s1. cbn [PagingEntries set_PagingEntries].
    fold (FlaggedPagingOut e).
    destruct (decide (p = page)) as [->|Hne].
    + rewrite lookup_insert_eq, He. rewrite (decide_True (P := page ∈ page :: run'));
        [|by left]. cbn [fmap option_fmap option_map].
      destruct (decide (page ∈ run')); [|done]. by rewrite FlaggedPagingOut_idemp.
    + rewrite lookup_insert_ne by done.
      destruct (decide (p ∈ run')) as [Hin|Hout].
      * rewrite decide_True; [done|]. by right.
      * rewrite decide_False; [done|]. rewrite elem_of_cons. tauto.
Qed.

Lemma FindLoopBody_pagable n a va last si off fi s turn :
  0 <= off →
  FindLoopBody n a PhysicalMemoryFindPagable va last si off fi s = Some turn →
  match turn with
  | FindReturn (Some r) s' => PagableRunFound s n r s'
  | FindReturn None s' => s' = s
  | FindAgain _ off' _ s' => s' = s ∧ 0 <= off'
  end.
Proof.
  unfold FindLoopBody. intros Hoff H.
  destruct (Segments s !! si) as [g|] eqn:Hg; [|done]. cbn [mbind option_bind] in H.
  cbn [IsFindPagable IsFindFree negb andb] in H. rewrite !orb_false_r in H.
  destruct (SegmentPages g <=? off) eqn:H1.
  { destruct (_ && _); [by simplify_eq|].
    destruct (Segments s !! NextSegment _ _); [|done]. cbn [mbind option_bind] in H.
    apply Some_inj in H. subst turn. split; [done|apply ULONGLONG_nonneg]. }
  destruct (SpanLoop _ _ _ _ _ _ _ _) as [[c s1]|] eqn:Hspan; [|done].
  apply (SpanLoop_pagable _ _ _ _ _ _ _ _ _ Hg Hoff (Z.le_refl 0)) in Hspan
    as (Hc & Hsame & Hsegs & Hcounts & Hwarn & Hcur & run & Hrun & Hlen & Hpages & Hheap).
  cbn [mbind option_bind] in H. rewrite andb_true_r in H.
  destruct ((c =? n) || negb (c =? 0)) eqn:Hret.
  - apply Some_inj in H. subst turn.
    exists g, run. cbn [FoundSegment SelectedPageOffset PagesFound].
    rewrite Z.sub_0_r, Z.add_0_r in *.
    split; [done|]. split; [lia|]. split; [lia|]. split; [done|]. split; [done|].
    split; [done|]. split; [done|]. split; [done|].
    cbn [Segments Counts Warnings Cursors set_Cursors]. rewrite Hcur. done.
  - apply Some_inj in H. subst turn.
    split; [apply Hsame; lia|apply ULONGLONG_nonneg].
Qed.

Lemma FindLoop_pagable fuel n a va last first si off fi s r s' :
  0 <= off →
  FindLoop fuel n a PhysicalMemoryFindPagable va last first si off fi s = Some (r, s') →
  match r with
  | Some r => PagableRunFound s n r s'
  | None => s' = s
  end.
Proof.
  revert si off fi. induction fuel as [|fuel IH]; intros si off fi Hoff H; [done|].
  cbn [FindLoop] in H.
  destruct (FindLoopBody _ _ _ _ _ _ _ _ _) as [turn|] eqn:Hbody; [|done].
  apply FindLoopBody_pagable in Hbody; [|done]. cbn [mbind option_bind] in H.
  destruct turn as [r1 s1|si1 off1 fi1 s1].
  - apply Some_inj in H. inversion H; subst. destruct r; [apply Hbody|done].
  - destruct Hbody as [-> Hoff1]. destruct (_ || _).
    + by eapply IH.
    + apply Some_inj in H. by inversion H; subst.
Qed.

(** A search for pageable frames that fails leaves the state as it was,
    and one that succeeds has selected frames that are pageable and not
    locked, has flagged exactly their paging entries as being paged out, and
    has moved the pager's cursor behind the run, and nothing else. *)
Theorem find_pagable_pages_result (s : MmState) (PageCount PageAlignment : Z)
    (IsRangeFree : VaAccounting) (found : option FindResult) (s' : MmState) :
  MmpFindPhysicalPages s PageCount PageAlignment PhysicalMemoryFindPagable IsRangeFree
    = Some (found, s') →
  match found with
  | Some r => PagableRunFound s PageCount r s'
  | None => s' = s
  end.
Proof.
  unfold MmpFindPhysicalPages. intros H.
  destruct (Segments s !! _); [|done]. cbn [mbind option_bind] in H.
  apply (FindLoop_pagable _ _ _ _ _ _ _ _ _ _ found _ (ULONGLONG_nonneg _) H).
Qed.

Lemma find_pagable_pages_result_witness :
  PagableRunFound SixteenPageable 2 (mkFindResult 0 0 2)
    (set_Cursors (mkCursors 0 0 0 2)
       (set_PagingEntries
          (<[20496 := mkPagingEntry 28672 1 0 1]>
             (<[20480 := mkPagingEntry 28672 0 0 1]> (PagingEntries SixteenPageable)))
          SixteenPageable)).
Proof.
  apply (find_pagable_pages_result SixteenPageable 2 1 (λ _, true)
           (Some (mkFindResult 0 0 2))).
  vm_compute. reflexivity.
Defined.

(** ** MmpPageOutPhysicalPages *)

(** X5.  A page-out pass whose goal is already met when it starts -- the
    target, kept realistic, is not above the number of free pages, or is
    zero -- pages nothing out: it calls MmpPageOut not once, leaves the state
    as it is, returns zero and signals the free pages event once. *)
Theorem page_out_goal_already_met (calls : list PageOutCall) (s : MmState) (Target : Z) :
  let c := Counts s in
  let realistic := UINTN (MmTotalPhysicalPages c - MmNonPagedPhysicalPages c) in
  let FreePages := UINTN (MmTotalPhysicalPages c - MmTotalAllocatedPhysicalPages c) in
  Z.min Target realistic <= Z.max FreePages 0 →
  MmpPageOutPhysicalPages calls s Target = Some (mkPageOutResult 0 s 0 1 calls).
Proof.
  intros c realistic FreePages Hmet.
  unfold MmpPageOutPhysicalPages.
  assert (PageOutSelect (mkPageOutLocals Target 0 0 0 0) s
          = Some (Break (mkPageOutLocals (Z.min Target realistic) 0 0 0 0, s), (0, 0)))
    as Hselect.
  { unfold PageOutSelect. fold c. fold realistic. fold FreePages.
    cbn [FreePagesTarget FailureCount PageCountSinceEvent TotalPagesPaged
         FreePagesEventSignals].
    assert ((if realistic <? Target then realistic else Target) = Z.min Target realistic)
      as -> by (destruct (realistic <? Target) eqn:?; lia).
    destruct ((Z.min Target realistic <=? FreePages) || (Z.min Target realistic <=? 0))
      eqn:Hcond; [done|].
    apply orb_false_iff in Hcond as [H1 H2]. lia. }
  destruct calls as [|call calls]; cbn [PageOutLoop]; rewrite Hselect;
    cbn [mbind option_bind]; done.
Qed.

Lemma page_out_goal_already_met_witness :
  MmpPageOutPhysicalPages [PageOutFails] (ThousandFrames 10 MemoryWarningLevelNone 0) 50
  = Some (mkPageOutResult 0 (ThousandFrames 10 MemoryWarningLevelNone 0) 0 1 [PageOutFails]).
Proof.
  apply (page_out_goal_already_met [PageOutFails]
           (ThousandFrames 10 MemoryWarningLevelNone 0) 50).
  by vm_compute.
Defined.

Lemma PageOutAccount_signals Status PagesPaged l :
  0 <= PagesPaged < 2 ^ 32 →
  (KSUCCESS Status = false → PagesPaged = 0) →
  0 <= PageCountSinceEvent l < PAGING_EVENT_SIGNAL_PAGE_COUNT →
  0 <= TotalPagesPaged l < 2 ^ 64 →
  (TotalPagesPaged l = 0 ∨ PageCountSinceEvent l ≠ 0 ∨ (1 <= FreePagesEventSignals l)%nat) →
  match PageOutAccount Status PagesPaged l with
  | Continue l' | Break l' =>
      0 <= PageCountSinceEvent l' < PAGING_EVENT_SIGNAL_PAGE_COUNT ∧
      0 <= TotalPagesPaged l' < 2 ^ 64 ∧
      (TotalPagesPaged l' = 0 ∨ PageCountSinceEvent l' ≠ 0 ∨
       (1 <= FreePagesEventSignals l')%nat)
  end.
Proof.
  intros Hn Hfail Hsince Htotal Hinv.
  assert (0 <= ULONGLONG (TotalPagesPaged l + PagesPaged) < 2 ^ 64) as Hwrap.
  { unfold ULONGLONG, wrap. apply Z.mod_pos_bound. lia. }
  unfold PageOutAccount, PAGING_EVENT_SIGNAL_PAGE_COUNT in *.
  destruct Status; cbn [KSUCCESS] in *.
  - (* success *)
    rewrite (ULONGLONG_small (PageCountSinceEvent l + PagesPaged)) by lia.
    destruct (16 <=? PageCountSinceEvent l + PagesPaged) eqn:Hsig;
      cbn [FreePagesTarget FailureCount PageCountSinceEvent TotalPagesPaged
           FreePagesEventSignals].
    + split; [lia|]. split; [done|]. right. right. lia.
    + split; [lia|]. split; [done|].
      destruct (decide (PagesPaged = 0)) as [->|Hpos].
      * rewrite !Z.add_0_r. rewrite ULONGLONG_small by done. done.
      * right. left. lia.
  - rewrite (Hfail eq_refl), Z.add_0_r, ULONGLONG_small by done.
    cbn [FreePagesTarget FailureCount PageCountSinceEvent TotalPagesPaged
         FreePagesEventSignals]. done.
  - rewrite (Hfail eq_refl), Z.add_0_r, ULONGLONG_small by done.
    cbn [FreePagesTarget FailureCount PageCountSinceEvent TotalPagesPaged
         FreePagesEventSignals].
    destruct (_ <=? _); cbn [PageCountSinceEvent TotalPagesPaged FreePagesEventSignals];
      done.
  - rewrite (Hfail eq_refl), Z.add_0_r, ULONGLONG_small by done.
    cbn [FreePagesTarget FailureCount PageCountSinceEvent TotalPagesPaged
         FreePagesEventSignals].
    destruct (_ <=? _); cbn [PageCountSinceEvent TotalPagesPaged FreePagesEventSignals];
      done.
  - rewrite (Hfail eq_refl), Z.add_0_r, ULONGLONG_small by done.
    cbn [FreePagesTarget FailureCount PageCountSinceEvent TotalPagesPaged
         FreePagesEventSignals].
    destruct (_ <=? _); cbn [PageCountSinceEvent TotalPagesPaged FreePagesEventSignals];
      done.
Qed.

Lemma PageOutSelect_locals l s step pe :
  PageOutSelect l s = Some (step, pe) →
  match step with
  | Continue (l', _) | Break (l', _) =>
      PageCountSinceEvent l' = PageCountSinceEvent l ∧
      TotalPagesPaged l' = TotalPagesPaged l ∧
      FreePagesEventSignals l' = FreePagesEventSignals l
  end.
Proof.
  unfold PageOutSelect. intros H.
  destruct (_ || _); [by simplify_eq|].
  destruct (MmpFindPhysicalPages _ _ _ _ _) as [[found s1]|]; [|done].
  cbn [mbind option_bind] in H.
  destruct found as [r|]; [|by simplify_eq].
  destruct (Segments s1 !! _) as [g|]; [|done]. cbn [mbind option_bind] in H.
  destruct (PhysicalPages g !! _); [|done]. cbn [mbind option_bind] in H.
  by simplify_eq.
Qed.

Lemma PageOutLoop_signals calls l s l' s' rest :
  Forall PageOutCallSound calls →
  0 <= PageCountSinceEvent l < PAGING_EVENT_SIGNAL_PAGE_COUNT →
  0 <= TotalPagesPaged l < 2 ^ 64 →
  (TotalPagesPaged l = 0 ∨ PageCountSinceEvent l ≠ 0 ∨ (1 <= FreePagesEventSignals l)%nat) →
  PageOutLoop calls l s = Some (l', s', rest) →
  TotalPagesPaged l' = 0 ∨ PageCountSinceEvent l' ≠ 0 ∨ (1 <= FreePagesEventSignals l')%nat.
Proof.
  intros Hsound. revert l s.
  induction Hsound as [|call calls Hcall _ IH]; intros l s Hsince Htotal Hinv H;
    cbn [PageOutLoop] in H.
  - destruct (PageOutSelect l s) as [[step pe]|] eqn:Hsel; [|done].
    apply PageOutSelect_locals in Hsel. cbn [mbind option_bind] in H.
    destruct pe as [e a]. destruct step as [[l1 s1]|[l1 s1]]; [done|].
    apply Some_inj in H. inversion H; subst.
    destruct Hsel as (-> & -> & ->). done.
  - destruct (PageOutSelect l s) as [[step pe]|] eqn:Hsel; [|done].
    apply PageOutSelect_locals in Hsel. cbn [mbind option_bind] in H.
    destruct pe as [e a]. destruct step as [[l1 s1]|[l1 s1]].
    + destruct Hsel as (Hs1 & Hs2 & Hs3).
      specialize (Hcall s1 e a).
      destruct (call s1 e a) as [[Status PagesPaged] s2]. destruct Hcall as [Hn Hfail].
      pose proof (PageOutAccount_signals Status PagesPaged l1 Hn Hfail) as Hacc.
      rewrite Hs1, Hs2, Hs3 in Hacc. specialize (Hacc Hsince Htotal Hinv).
      destruct (PageOutAccount Status PagesPaged l1) as [l2|l2].
      * destruct Hacc as (Ha1 & Ha2 & Ha3). by eapply IH.
      * apply Some_inj in H. inversion H; subst. apply Hacc.
    + apply Some_inj in H. inversion H; subst.
      destruct Hsel as (-> & -> & ->). done.
Qed.

(** X6.  A page-out pass signals the free pages event at least once, whatever
    it has paged out, when the calls of MmpPageOut report no pages for a call
    that fails. *)
Theorem page_out_pass_signals_waiters (calls : list PageOutCall) (s : MmState)
    (Target : Z) (r : PageOutResult) :
  Forall PageOutCallSound calls →
  MmpPageOutPhysicalPages calls s Target = Some r →
  (1 <= pageout_signals r)%nat.
Proof.
  intros Hsound H. unfold MmpPageOutPhysicalPages in H.
  destruct (PageOutLoop calls _ s) as [[[l s'] rest]|] eqn:Hloop; [|done].
  cbn [mbind option_bind] in H. apply Some_inj in H. subst r. cbn [pageout_signals].
  apply (PageOutLoop_signals calls _ s l s' rest Hsound) in Hloop;
    cbn [PageCountSinceEvent TotalPagesPaged FreePagesEventSignals];
    [|by vm_compute|by vm_compute|by left].
  destruct Hloop as [Hzero|[Hsince|Hsig]].
  - rewrite Hzero. rewrite orb_true_r. lia.
  - destruct (PageCountSinceEvent l =? 0) eqn:Heq; [lia|]. cbn [negb orb]. lia.
  - destruct (_ || _); lia.
Qed.

Lemma page_out_pass_signals_waiters_witness :
  ∃ r, MmpPageOutPhysicalPages [PageOutSucceeds; PageOutSucceeds] SixteenPageable 2 = Some r ∧
       pageout_return r = 2 ∧
       (1 <= pageout_signals r)%nat.
Proof.
  assert (Forall PageOutCallSound [PageOutSucceeds; PageOutSucceeds]) as Hsound.
  { assert (PageOutCallSound PageOutSucceeds) as Hone.
    { intros s e a. unfold PageOutSucceeds.
      destruct (MmFreePhysicalPages _ _ _); split; done. }
    repeat constructor; exact Hone. }
  assert (∃ r, MmpPageOutPhysicalPages [PageOutSucceeds; PageOutSucceeds] SixteenPageable 2
               = Some r ∧ pageout_return r = 2) as (r & Hcall & Hret)
    by (vm_compute; eexists; split; reflexivity).
  exists r. split; [exact Hcall|]. split; [exact Hret|].
  exact (page_out_pass_signals_waiters _ _ _ r Hsound Hcall).
Defined.


(** ** The page cache entry of other frames *)

Lemma FindSegment_WritePage s si idx v a :
  FindSegment (Segments (WritePage si idx v s)) a =
  (λ p, (p.1, if decide (p.1 = si)
              then set_PhysicalPages (<[idx := v]> (PhysicalPages p.2)) p.2
              else p.2)) <$> FindSegment (Segments s) a.
Proof. unfold WritePage. cbn [Segments set_Segments]. by rewrite FindSegment_alter. Qed.

Lemma ReadPage_WritePage s si idx v sj jdx :
  (si, idx) ≠ (sj, jdx) →
  ReadPage sj jdx (WritePage si idx v s) = ReadPage sj jdx s.
Proof.
  intros Hne. unfold ReadPage, WritePage. cbn [Segments set_Segments].
  destruct (decide (si = sj)) as [->|Hsi].
  - rewrite list_lookup_alter_eq. destruct (Segments s !! sj) as [g|]; [|done].
    cbn [fmap option_fmap option_map mbind option_bind PhysicalPages set_PhysicalPages].
    apply list_lookup_insert_ne. congruence.
  - by rewrite list_lookup_alter_ne.
Qed.

(** X7.  MmSetPageCacheEntryForPhysicalAddress writes the record of one frame.
    For an address [G] that does not lie in the frame of [F], the record and
    the page cache entry MmpGetPageCacheEntryForPhysicalAddress returns are
    the ones before the call; the counters, the free counts of the segments
    and the paging entries do not change. *)
Theorem set_page_cache_entry_writes_one_record (s : MmState) (F e G : Z) :
  FramesDiffer s F G →
  let s' := MmSetPageCacheEntryForPhysicalAddress s F e in
  PhysicalPageAt s' G = PhysicalPageAt s G ∧
  MmpGetPageCacheEntryForPhysicalAddress s' G
    = MmpGetPageCacheEntryForPhysicalAddress s G ∧
  Counts s' = Counts s ∧
  PagingEntries s' = PagingEntries s ∧
  map FreePages (Segments s') = map FreePages (Segments s).
Proof.
  intros Hdiffer. cbv zeta.
  unfold MmSetPageCacheEntryForPhysicalAddress.
  destruct (FindSegment (Segments s) F) as [[si g]|] eqn:HF; [|done].
  set (idx := Z.to_nat (PageOffsetIn g F)).
  set (v := Z.lor e PHYSICAL_PAGE_FLAG_NON_PAGED).
  assert (PhysicalPageAt (WritePage si idx v s) G = PhysicalPageAt s G) as Hrecord.
  { unfold PhysicalPageAt. rewrite FindSegment_WritePage.
    destruct (FindSegment (Segments s) G) as [[sj h]|] eqn:HG; [|done].
    cbn [fmap option_fmap option_map fst snd].
    assert (PageOffsetIn (if decide (sj = si)
                          then set_PhysicalPages (<[idx:=v]> (PhysicalPages h)) h
                          else h) G = PageOffsetIn h G) as ->.
    { by destruct (decide (sj = si)). }
    apply ReadPage_WritePage. intros Heq. apply pair_eq in Heq as [<- Hidx].
    by apply (Hdiffer si g h). }
  split; [exact Hrecord|]. split.
  { unfold PhysicalPageAt in Hrecord. unfold MmpGetPageCacheEntryForPhysicalAddress.
    rewrite FindSegment_WritePage in *.
    destruct (FindSegment (Segments s) G) as [[sj h]|] eqn:HG; [|done].
    cbn [fmap option_fmap option_map fst snd] in *.
    assert (PageOffsetIn (if decide (sj = si)
                          then set_PhysicalPages (<[idx:=v]> (PhysicalPages h)) h
                          else h) G = PageOffsetIn h G) as Hoff.
    { by destruct (decide (sj = si)). }
    rewrite Hoff in *. by rewrite Hrecord. }
  split; [done|]. split; [done|].
  unfold WritePage. cbn [Segments set_Segments].
  apply list_eq. intros i. rewrite !list_lookup_fmap.
  destruct (decide (i = si)) as [->|Hi].
  - rewrite list_lookup_alter_eq. by destruct (Segments s !! si).
  - by rewrite list_lookup_alter_ne.
Qed.

Lemma set_page_cache_entry_writes_one_record_witness :
  MmpGetPageCacheEntryForPhysicalAddress
    (MmSetPageCacheEntryForPhysicalAddress TwoFrames 1048576 24576) 1052672
  = Some 0.
Proof.
  assert (FramesDiffer TwoFrames 1048576 1052672) as Hdiffer.
  { intros si g h HF HG. vm_compute in HF, HG.
    apply Some_inj in HF, HG. apply pair_eq in HF as [<- <-]. apply pair_eq in HG as [_ <-].
    by vm_compute. }
  assert (MmpGetPageCacheEntryForPhysicalAddress TwoFrames 1052672 = Some 0) as Hbefore
    by (vm_compute; reflexivity).
  destruct (set_page_cache_entry_writes_one_record TwoFrames 1048576 24576 1052672 Hdiffer)
    as (_ & Hget & _).
  exact (eq_trans Hget Hbefore).
Defined.


(** ** The search for free frames comes to an end *)

Lemma TurnsBetween_empty segs i j : (j ≤ i)%nat → TurnsBetween segs i j = 0%nat.
Proof. intros Hji. unfold TurnsBetween. by replace (j - i)%nat with 0%nat by lia. Qed.

Lemma TurnsBetween_first segs i j g :
  segs !! i = Some g → (i < j)%nat →
  TurnsBetween segs i j = (S (length (PhysicalPages g)) + TurnsBetween segs (S i) j)%nat.
Proof.
  intros Hg Hij. unfold TurnsBetween.
  assert (SegmentTurns segs !! i = Some (S (length (PhysicalPages g)))) as Hturn.
  { unfold SegmentTurns. by rewrite list_lookup_fmap, Hg. }
  rewrite (drop_S _ _ _ Hturn).
  replace (j - i)%nat with (S (j - S i)) by lia. done.
Qed.

Lemma TurnsBetween_all segs :
  TurnsBetween segs 0 (length segs)
  = (foldr (λ g n, length (PhysicalPages g) + n) 0 segs + length segs)%nat.
Proof.
  unfold TurnsBetween. rewrite drop_0, Nat.sub_0_r.
  rewrite take_ge by (unfold SegmentTurns; rewrite length_fmap; lia).
  unfold SegmentTurns. induction segs as [|g segs IH]; [done|].
  cbn [map foldr length]. rewrite IH. lia.
Qed.

Lemma TurnsHere_bound segs i g off j :
  segs !! i = Some g → (i < j)%nat →
  (TurnsHere g off ≤ TurnsBetween segs i j)%nat.
Proof.
  intros Hg Hij. rewrite (TurnsBetween_first _ _ _ _ Hg Hij). unfold TurnsHere. lia.
Qed.

Lemma NextSegment_bound segs si :
  (si < length segs)%nat → (NextSegment segs si < length segs)%nat.
Proof. intros Hsi. unfold NextSegment. destruct (Nat.eqb_spec (S si) (length segs)); lia. Qed.

Lemma TurnsBetween_cut segs i j k :
  (i ≤ j)%nat → (j ≤ k)%nat →
  TurnsBetween segs i k = (TurnsBetween segs i j + TurnsBetween segs j k)%nat.
Proof.
  intros Hij Hjk. unfold TurnsBetween.
  replace (k - i)%nat with ((j - i) + (k - j))%nat by lia.
  rewrite <- take_take_drop, foldr_app.
  replace (drop (j - i) (drop i (SegmentTurns segs))) with (drop j (SegmentTurns segs))
    by (rewrite drop_drop; f_equal; lia).
  generalize (foldr Nat.add 0%nat (take (k - j) (drop j (SegmentTurns segs)))).
  induction (take (j - i) (drop i (SegmentTurns segs))) as [|x l IH]; intros n;
    cbn [foldr]; [done|]. rewrite IH. lia.
Qed.

(** A step to the next segment uses up the turns of that segment. *)
Lemma TurnsAhead_next segs last si fi g' :
  (last < length segs)%nat → (si < length segs)%nat →
  (fi = true → si = last) →
  ¬ (si = last ∧ fi = false) →
  segs !! NextSegment segs si = Some g' →
  (S (length (PhysicalPages g')) + TurnsAhead segs last (NextSegment segs si) false
   ≤ TurnsAhead segs last si fi)%nat.
Proof.
  intros Hlast Hsi Hfirst Hgo Hnext.
  set (nx := NextSegment segs si) in *.
  assert (nx < length segs)%nat as Hnx by (by eapply lookup_lt_Some).
  assert (nx < S last → TurnsBetween segs nx (S last)
          = S (length (PhysicalPages g')) + TurnsBetween segs (S nx) (S last))%nat as Hcyc
    by (intros; by apply TurnsBetween_first).
  pose proof (TurnsBetween_first segs nx (length segs) g' Hnext Hnx) as Hend.
  pose proof (TurnsBetween_cut segs 0 (S last) (length segs) ltac:(lia) ltac:(lia)) as Hcut.
  assert (length segs ≤ S si → TurnsBetween segs (S si) (length segs) = 0)%nat as Hempty
    by apply TurnsBetween_empty.
  assert (S last ≤ S nx → TurnsBetween segs (S nx) (S last) = 0)%nat as Hempty'
    by apply TurnsBetween_empty.
  assert (TurnsBetween segs (S last) (S last) = 0)%nat as Hnone
    by (by apply TurnsBetween_empty).
  unfold TurnsAhead. unfold nx, NextSegment in *.
  destruct (Nat.eqb_spec (S si) (length segs)) as [Hwrap|Hwrap].
  - rewrite <- Hwrap in *.
    destruct fi; [specialize (Hfirst eq_refl); subst si|];
      repeat case_decide; try lia.
  - destruct fi; [specialize (Hfirst eq_refl); subst si|];
      repeat case_decide; try lia.
Qed.

Section SearchTurns.

Variables (s : MmState) (PageCount PageAlignment : Z) (IsRangeFree : VaAccounting).
Variables (SearchType : PHYSICAL_MEMORY_SEARCH_TYPE).
Variables (LastSegment : nat) (FirstOffset : Z).

Hypothesis Hlast : (LastSegment < length (Segments s))%nat.

(** One turn of the loop in a segment of the database: it returns, or it
    goes to the next segment, or it goes on in the segment at a greater
    offset; the database is as it was when the loop goes on. *)
Hypothesis Hturn : ∀ si g Offset fi,
  Segments s !! si = Some g → 0 <= Offset →
  ∃ turn,
    FindLoopBody PageCount PageAlignment SearchType IsRangeFree
                 LastSegment si Offset fi s = Some turn ∧
    match turn with
    | FindReturn _ _ => True
    | FindAgain si' Offset' fi' s' =>
        s' = s ∧ 0 <= Offset' ∧
        ((si' = NextSegment (Segments s) si ∧ fi' = false ∧
          ¬ (si = LastSegment ∧ fi = false)) ∨
         (si' = si ∧ fi' = fi ∧
          Offset < Z.of_nat (length (PhysicalPages g)) ∧ Offset + 1 <= Offset'))
    end.

(** The loop returns when it has the turns its segments can take. *)
Lemma FindLoop_returns fuel si g Offset fi :
  Segments s !! si = Some g → 0 <= Offset →
  (fi = true → si = LastSegment) →
  (TurnsHere g Offset + TurnsAhead (Segments s) LastSegment si fi ≤ fuel)%nat →
  ∃ r s', FindLoop fuel PageCount PageAlignment SearchType IsRangeFree
                   LastSegment FirstOffset si Offset fi s = Some (r, s').
Proof.
  revert si g Offset fi.
  induction fuel as [|fuel IH]; intros si g Offset fi Hg Hoff Hfirst Hfuel.
  { unfold TurnsHere in Hfuel. lia. }
  cbn [FindLoop].
  destruct (Hturn si g Offset fi Hg Hoff) as (turn & -> & Hstep).
  cbn [mbind option_bind].
  destruct turn as [r s'|si' Offset' fi' s']; [by eexists _, _|].
  destruct Hstep as (-> & Hoff' & Hstep).
  destruct (negb (Nat.eqb si' LastSegment) || negb (Offset' =? FirstOffset));
    [|by eexists _, _].
  destruct Hstep as [(-> & -> & Hgo)|(-> & -> & Hin & Hup)].
  - assert (is_Some (Segments s !! NextSegment (Segments s) si)) as [g' Hg'].
    { apply lookup_lt_is_Some. apply NextSegment_bound. by eapply lookup_lt_Some. }
    apply (IH _ g'); [done|done|done|].
    pose proof (TurnsAhead_next (Segments s) LastSegment si fi g' Hlast
                  ltac:(by eapply lookup_lt_Some) Hfirst Hgo Hg') as Hnext.
    unfold TurnsHere in *. lia.
  - apply (IH _ g); [done|done|done|]. unfold TurnsHere in *. lia.
Qed.

(** The bound of the search is enough for the loop, started anywhere in the
    segment of the cursor. *)
Lemma FindLoop_fuel g Offset :
  Segments s !! LastSegment = Some g → 0 <= Offset →
  ∃ r s', FindLoop (FindFuel s) PageCount PageAlignment SearchType IsRangeFree
                   LastSegment FirstOffset LastSegment Offset true s = Some (r, s').
Proof.
  intros Hg Hoff. apply (FindLoop_returns _ _ g); [done|done|done|].
  unfold TurnsAhead, FindFuel. rewrite TurnsBetween_all.
  pose proof (TurnsHere_bound (Segments s) _ g Offset (length (Segments s)) Hg Hlast)
    as Hhere.
  pose proof (TurnsBetween_cut (Segments s) 0 LastSegment (length (Segments s))
                ltac:(lia) ltac:(lia)) as Hcut.
  rewrite TurnsBetween_all in Hcut. lia.
Qed.

End SearchTurns.

Section FreeSearch.

Variables (s : MmState) (PageCount PageAlignment : Z) (IsRangeFree : VaAccounting).
Variables (LastSegment : nat).

Hypothesis Hlaid : SegmentsLaidOut s.
Hypothesis Hcount : 0 <= PageCount < 2 ^ 32.
Hypothesis Halign : 1 <= PageAlignment < 2 ^ 32.

Lemma SpanLoop_free_returns si g Offset remaining c :
  (∀ k, c <= k < c + Z.of_nat remaining →
        is_Some (ReadPage si (Z.to_nat (Offset + k)) s)) →
  ∃ c', SpanLoop PhysicalMemoryFindFree IsRangeFree si g Offset remaining c s
        = Some (c', s).
Proof.
  revert c. induction remaining as [|remaining IH]; intros c Hread.
  { by exists c. }
  cbn [SpanLoop]. destruct (Hread c ltac:(lia)) as [page ->].
  cbn [mbind option_bind SpanCheckPage].
  destruct (page =? PHYSICAL_PAGE_FREE); cbn [mbind option_bind]; [|by exists c].
  apply IH. intros k Hk. apply Hread. lia.
Qed.

Lemma laid_out_length si g :
  Segments s !! si = Some g →
  SegmentPages g = Z.of_nat (length (PhysicalPages g)) ∧
  Z.of_nat (length (PhysicalPages g)) < 2 ^ 52.
Proof.
  intros Hg. split; [by eapply SegmentPages_laid_out|].
  destruct (Hlaid si g Hg) as (Hstart & Hend & Hmax & _).
  unfold PageSize in Hend. lia.
Qed.

Lemma FindLoopBody_free_turn si g Offset fi :
  Segments s !! si = Some g → 0 <= Offset →
  ∃ turn,
    FindLoopBody PageCount PageAlignment PhysicalMemoryFindFree IsRangeFree
                 LastSegment si Offset fi s = Some turn ∧
    match turn with
    | FindReturn _ _ => True
    | FindAgain si' Offset' fi' s' =>
        s' = s ∧ 0 <= Offset' ∧
        ((si' = NextSegment (Segments s) si ∧ fi' = false ∧
          ¬ (si = LastSegment ∧ fi = false)) ∨
         (si' = si ∧ fi' = fi ∧
          Offset < Z.of_nat (length (PhysicalPages g)) ∧ Offset + 1 <= Offset'))
    end.
Proof.
  intros Hg Hoff. unfold FindLoopBody. rewrite Hg. cbn [mbind option_bind].
  cbn [IsFindPagable IsFindFree negb andb].
  destruct (laid_out_length si g Hg) as [-> Hlen].
  destruct ((Z.of_nat (length (PhysicalPages g)) <=? Offset) ||
            (Z.of_nat (length (PhysicalPages g)) <? ULONGLONG (Offset + PageCount)) ||
            (FreePages g <? PageCount)) eqn:Hskip.
  - destruct (Nat.eqb_spec si LastSegment) as [Heq|Hne]; cbn [andb].
    + destruct fi; cbn [negb].
      * assert (is_Some (Segments s !! NextSegment (Segments s) si)) as [g' ->].
        { apply lookup_lt_is_Some. apply NextSegment_bound. by eapply lookup_lt_Some. }
        cbn [mbind option_bind]. eexists. split; [done|]. split; [done|].
        split; [apply ULONGLONG_nonneg|]. left. split; [done|]. split; [done|].
        by intros [_ ?].
      * eexists. split; done.
    + assert (is_Some (Segments s !! NextSegment (Segments s) si)) as [g' ->].
      { apply lookup_lt_is_Some. apply NextSegment_bound. by eapply lookup_lt_Some. }
      cbn [mbind option_bind]. eexists. split; [done|]. split; [done|].
      split; [apply ULONGLONG_nonneg|]. left. split; [done|]. split; [done|].
      by intros [? _].
  - apply orb_false_iff in Hskip as [Hskip _].
    apply orb_false_iff in Hskip as [Hhere Hroom].
    apply Z.leb_gt in Hhere. apply Z.ltb_ge in Hroom.
    rewrite ULONGLONG_small in Hroom by lia.
    destruct (SpanLoop_free_returns si g Offset (Z.to_nat PageCount) 0) as [c Hspan].
    { intros k Hk. unfold ReadPage. rewrite Hg. cbn [mbind option_bind].
      apply lookup_lt_is_Some. lia. }
    rewrite Hspan. cbn [mbind option_bind]. rewrite andb_false_r, orb_false_r.
    destruct (c =? PageCount).
    + eexists. split; done.
    + eexists. split; [done|]. split; [done|].
      rewrite ULONGLONG_small by lia. split; [lia|]. right.
      split; [done|]. split; [done|]. lia.
Qed.

End FreeSearch.

Section PagableSearch.

Variables (s : MmState) (PageCount PageAlignment : Z) (IsRangeFree : VaAccounting).
Variables (LastSegment : nat).

Hypothesis Hlaid : SegmentsLaidOut s.
Hypothesis Hentries : PageableFramesHaveEntries s.

Lemma SpanLoop_pagable_returns si g Offset remaining c s1 :
  Segments s1 = Segments s →
  (∀ p, is_Some (PagingEntries s !! p) → is_Some (PagingEntries s1 !! p)) →
  Segments s !! si = Some g →
  (∀ k, c <= k < c + Z.of_nat remaining →
        (Z.to_nat (Offset + k) < length (PhysicalPages g))%nat) →
  ∃ c' s', SpanLoop PhysicalMemoryFindPagable IsRangeFree si g Offset remaining c s1
           = Some (c', s').
Proof.
  revert c s1. induction remaining as [|remaining IH]; intros c s1 Hsegs Hheap Hg Hread.
  { by exists c, s1. }
  cbn [SpanLoop]. unfold ReadPage. rewrite Hsegs, Hg. cbn [mbind option_bind].
  destruct (lookup_lt_is_Some_2 _ _ (Hread c ltac:(lia))) as [page Hpage].
  rewrite Hpage. cbn [mbind option_bind SpanCheckPage].
  destruct (page =? PHYSICAL_PAGE_FREE) eqn:Hfree; cbn [orb mbind option_bind];
    [by eexists _, _|].
  destruct (IsNonPaged page) eqn:Hpaged; cbn [mbind option_bind]; [by eexists _, _|].
  destruct (Hheap page) as [e He].
  { apply (Hentries si g _ page Hg Hpage); [lia|done]. }
  rewrite He. cbn [mbind option_bind].
  destruct (negb (LockCount e =? 0)); cbn [mbind option_bind]; [by eexists _, _|].
  apply IH; [done| |done|].
  - intros p Hp. cbn [PagingEntries set_PagingEntries].
    destruct (decide (p = page)) as [->|Hne].
    + rewrite lookup_insert_eq. by eexists.
    + rewrite lookup_insert_ne by done. by apply Hheap.
  - intros k Hk. apply Hread. lia.
Qed.

Lemma FindLoopBody_pagable_turn si g Offset fi :
  Segments s !! si = Some g → 0 <= Offset →
  ∃ turn,
    FindLoopBody PageCount PageAlignment PhysicalMemoryFindPagable IsRangeFree
                 LastSegment si Offset fi s = Some turn ∧
    match turn with
    | FindReturn _ _ => True
    | FindAgain si' Offset' fi' s' =>
        s' = s ∧ 0 <= Offset' ∧
        ((si' = NextSegment (Segments s) si ∧ fi' = false ∧
          ¬ (si = LastSegment ∧ fi = false)) ∨
         (si' = si ∧ fi' = fi ∧
          Offset < Z.of_nat (length (PhysicalPages g)) ∧ Offset + 1 <= Offset'))
    end.
Proof.
  intros Hg Hoff. unfold FindLoopBody. rewrite Hg. cbn [mbind option_bind].
  cbn [IsFindPagable IsFindFree negb andb orb].
  destruct (laid_out_length s Hlaid si g Hg) as [-> Hlen].
  rewrite !orb_false_r.
  destruct (Z.of_nat (length (PhysicalPages g)) <=? Offset) eqn:Hskip.
  - destruct (Nat.eqb_spec si LastSegment) as [Heq|Hne]; cbn [andb].
    + destruct fi; cbn [negb].
      * assert (is_Some (Segments s !! NextSegment (Segments s) si)) as [g' ->].
        { apply lookup_lt_is_Some. apply NextSegment_bound. by eapply lookup_lt_Some. }
        cbn [mbind option_bind]. eexists. split; [done|]. split; [done|].
        split; [apply ULONGLONG_nonneg|]. left. split; [done|]. split; [done|].
        by intros [_ ?].
      * eexists. split; done.
    + assert (is_Some (Segments s !! NextSegment (Segments s) si)) as [g' ->].
      { apply lookup_lt_is_Some. apply NextSegment_bound. by eapply lookup_lt_Some. }
      cbn [mbind option_bind]. eexists. split; [done|]. split; [done|].
      split; [apply ULONGLONG_nonneg|]. left. split; [done|]. split; [done|].
      by intros [? _].
  - apply Z.leb_gt in Hskip.
    set (span := Z.min PageCount (Z.of_nat (length (PhysicalPages g)) - Offset)).
    destruct (SpanLoop_pagable_returns si g Offset (Z.to_nat span) 0 s)
      as (c & s1 & Hspan); [done|done|done| |].
    { intros k Hk. unfold span in Hk. lia. }
    rewrite Hspan. cbn [mbind option_bind].
    apply SpanLoop_pagable in Hspan as (Hc & Hsame & _); [|done|done|done].
    rewrite andb_true_r.
    destruct ((c =? PageCount) || negb (c =? 0)) eqn:Hfound.
    + eexists. split; done.
    + apply orb_false_iff in Hfound as [_ Hzero].
      apply negb_false_iff in Hzero. apply Z.eqb_eq in Hzero.
      eexists. split; [done|]. split; [by apply Hsame|].
      rewrite ULONGLONG_small by lia. split; [lia|]. right.
      split; [done|]. split; [done|]. lia.
Qed.

End PagableSearch.

(** X8.  On a database whose segments are laid out in order, each with a page
    array that covers it, and whose allocation cursor stands in a segment,
    the search for free frames comes to an end: for every page count below
    2^32 and every alignment from 1 up to 2^32 MmpFindPhysicalPages returns,
    with no run found and the database as it was, or with a run of free
    frames and the allocation cursor behind it. *)
Theorem find_free_pages_returns (s : MmState) (PageCount PageAlignment : Z)
    (IsRangeFree : VaAccounting) :
  SegmentsLaidOut s →
  (MmLastAllocatedSegment (Cursors s) < length (Segments s))%nat →
  0 <= PageCount < 2 ^ 32 →
  1 <= PageAlignment < 2 ^ 32 →
  ∃ found s',
    MmpFindPhysicalPages s PageCount PageAlignment PhysicalMemoryFindFree IsRangeFree
      = Some (found, s') ∧
    match found with
    | Some r => FreeRunFound s PageCount r s'
    | None => s' = s
    end.
Proof.
  intros Hlaid Hlast Hcount Halign.
  assert (∃ found s',
            MmpFindPhysicalPages s PageCount PageAlignment PhysicalMemoryFindFree IsRangeFree
            = Some (found, s')) as (found & s' & Hcall).
  { unfold MmpFindPhysicalPages. cbn [IsFindPagable].
    destruct (lookup_lt_is_Some_2 _ _ Hlast) as [g Hg]. rewrite Hg.
    cbn [mbind option_bind].
    refine (FindLoop_fuel s PageCount PageAlignment IsRangeFree PhysicalMemoryFindFree
              _ _ Hlast _ g _ Hg (ULONGLONG_nonneg _)).
    intros si g0 Offset fi. by apply FindLoopBody_free_turn. }
  exists found, s'. split; [exact Hcall|].
  destruct found as [r|].
  - by apply (MmpFindPhysicalPages_free s PageCount PageAlignment IsRangeFree).
  - unfold MmpFindPhysicalPages in Hcall. cbn [IsFindPagable] in Hcall.
    destruct (Segments s !! _) as [g|]; [|done]. cbn [mbind option_bind] in Hcall.
    by apply (FindLoop_free _ _ _ _ _ _ _ _ _ _ _ _ (ULONGLONG_nonneg _)) in Hcall.
Qed.

(** X9.  The search for pageable frames comes to an end as well.  On a database
    whose segments are laid out in order, whose pageable frame records all
    refer to paging entries that exist and whose pager cursor stands in a
    segment, MmpFindPhysicalPages returns for every page count: with no frame
    selected and the database as it was, or with a run of pageable frames
    that are not locked, flagged as being paged out, and the pager's cursor
    behind it. *)
Theorem find_pagable_pages_returns (s : MmState) (PageCount PageAlignment : Z)
    (IsRangeFree : VaAccounting) :
  SegmentsLaidOut s →
  PageableFramesHaveEntries s →
  (MmLastPagedSegment (Cursors s) < length (Segments s))%nat →
  ∃ found s',
    MmpFindPhysicalPages s PageCount PageAlignment PhysicalMemoryFindPagable IsRangeFree
      = Some (found, s') ∧
    match found with
    | Some r => PagableRunFound s PageCount r s'
    | None => s' = s
    end.
Proof.
  intros Hlaid Hentries Hlast.
  assert (∃ found s',
            MmpFindPhysicalPages s PageCount PageAlignment PhysicalMemoryFindPagable
                                 IsRangeFree
            = Some (found, s')) as (found & s' & Hcall).
  { unfold MmpFindPhysicalPages. cbn [IsFindPagable].
    destruct (lookup_lt_is_Some_2 _ _ Hlast) as [g Hg]. rewrite Hg.
    cbn [mbind option_bind].
    refine (FindLoop_fuel s PageCount PageAlignment IsRangeFree PhysicalMemoryFindPagable
              _ _ Hlast _ g _ Hg (ULONGLONG_nonneg _)).
    intros si g0 Offset fi. by apply FindLoopBody_pagable_turn. }
  exists found, s'. split; [exact Hcall|].
  unfold MmpFindPhysicalPages in Hcall. cbn [IsFindPagable] in Hcall.
  destruct (Segments s !! _) as [g|]; [|done]. cbn [mbind option_bind] in Hcall.
  by apply (FindLoop_pagable _ _ _ _ _ _ _ _ _ _ _ _ (ULONGLONG_nonneg _)) in Hcall.
Qed.

Lemma find_free_pages_returns_witness :
  ∃ found s',
    MmpFindPhysicalPages (ThousandFrames 10 MemoryWarningLevelNone 0) 2000 1
      PhysicalMemoryFindFree (λ _, true) = Some (found, s') ∧
    match found with
    | Some r => FreeRunFound (ThousandFrames 10 MemoryWarningLevelNone 0) 2000 r s'
    | None => s' = ThousandFrames 10 MemoryWarningLevelNone 0
    end.
Proof.
  apply (find_free_pages_returns (ThousandFrames 10 MemoryWarningLevelNone 0) 2000 1
           (λ _, true)).
  - exact (proj2 ThousandFrames_invariant).
  - cbn. lia.
  - lia.
  - lia.
Defined.

Lemma find_pagable_pages_returns_witness :
  ∃ found s',
    MmpFindPhysicalPages SixteenPageable 4 1 PhysicalMemoryFindPagable (λ _, true)
      = Some (found, s') ∧
    match found with
    | Some r => PagableRunFound SixteenPageable 4 r s'
    | None => s' = SixteenPageable
    end.
Proof.
  apply (find_pagable_pages_returns SixteenPageable 4 1 (λ _, true)).
  - intros si g Hg. destruct si as [|si]; [|done].
    apply Some_inj in Hg as <-. cbn. split; [lia|]. split; [done|]. split; [lia|].
    intros sj h Hsj. lia.
  - intros si g idx page Hg Hpage _ _. destruct si as [|si]; [|done].
    apply Some_inj in Hg as <-.
    cbn [PhysicalPages] in Hpage.
    do 16 (destruct idx as [|idx];
           [apply Some_inj in Hpage as <-; vm_compute; by eexists|]).
    done.
  - cbn. lia.
Defined.


(** ** Frames made pageable and locked, then unlocked *)



#[local] Arguments EnablePagingOnePage : simpl never.
#[local] Arguments UnlockOnePage : simpl never.
#[local] Arguments WritePage : simpl never.











(** ** MmpAllocateIdentityMappablePhysicalPages *)








(** ** MmpUnmapPages and MmpVirtualToPhysical *)

Lemma PTE_Entry_zero : PTE_Entry 0 = 0.
Proof. done. Qed.

Lemma OnlyZeroed_refl sp : OnlyZeroed sp sp.
Proof. split; [done|]. intros slot. by left. Qed.

Lemma OnlyZeroed_trans sp1 sp2 sp3 :
  OnlyZeroed sp1 sp2 → OnlyZeroed sp2 sp3 → OnlyZeroed sp1 sp3.
Proof.
  intros [Hd1 Ht1] [Hd2 Ht2]. split; [congruence|].
  intros slot. destruct (Ht2 slot) as [Heq|Hz]; [|by right]. rewrite Heq. apply Ht1.
Qed.

Lemma NoFrameAt_zeroed sp sp' b :
  OnlyZeroed sp sp' → NoFrameAt sp b → NoFrameAt sp' b.
Proof.
  intros [Hd Ht] Hno pte. unfold LeafEntry, LeafSlot. rewrite Hd.
  destruct (PTE_Present _) eqn:Hp; [|done]. cbn [mbind option_bind].
  intros Hpte. apply Some_inj in Hpte. subst pte.
  destruct (Ht (PTE_Entry (word (Directory sp) (DirectoryIndexOf b)), TableIndexOf b))
    as [Heq|Hz].
  - rewrite Heq. apply Hno. unfold LeafEntry, LeafSlot. rewrite Hp. done.
  - rewrite Hz. done.
Qed.

Lemma UnmapSecondPassPage_zeroed UnmapFlags WantDirty a sp r :
  OnlyZeroed sp (UnmapSecondPassPage UnmapFlags WantDirty a (sp, r)).1 ∧
  NoFrameAt (UnmapSecondPassPage UnmapFlags WantDirty a (sp, r)).1 a.
Proof.
  unfold UnmapSecondPassPage, NoFrameAt, LeafEntry, LeafSlot.
  destruct (PTE_Present (word (Directory sp) (DirectoryIndexOf a))) eqn:Hp; cbn [negb].
  2: { cbn [fst]. split; [apply OnlyZeroed_refl|]. rewrite Hp. done. }
  destruct (PTE_Entry _ =? 0) eqn:Hz.
  { cbn [fst]. split; [apply OnlyZeroed_refl|]. rewrite Hp. cbn [mbind option_bind].
    intros pte Hpte. apply Some_inj in Hpte. subst pte. lia. }
  cbn [fst Directory set_PageTables PageTables]. rewrite Hp. cbn [mbind option_bind].
  split.
  - split; [done|]. intros slot. cbn [PageTables set_PageTables]. rewrite word_insert.
    case_decide; [by right|by left].
  - intros pte Hpte. apply Some_inj in Hpte. subst pte.
    rewrite word_insert, decide_True by done. done.
Qed.

Lemma UnmapSecondPass_zeroed UnmapFlags WantDirty count va sp r :
  0 <= va → va + Z.of_nat count * PAGE_SIZE <= 2 ^ 32 →
  OnlyZeroed sp (UnmapSecondPass UnmapFlags WantDirty count va (sp, r)).1 ∧
  ∀ i, (i < count)%nat →
       NoFrameAt (UnmapSecondPass UnmapFlags WantDirty count va (sp, r)).1
                 (va + Z.of_nat i * PAGE_SIZE).
Proof.
  revert va sp r. induction count as [|count IH]; intros va sp r Hva Hend.
  { split; [apply OnlyZeroed_refl|]. intros i Hi; lia. }
  cbn [UnmapSecondPass].
  destruct (UnmapSecondPassPage_zeroed UnmapFlags WantDirty va sp r) as [Hz Hno].
  destruct (UnmapSecondPassPage UnmapFlags WantDirty va (sp, r)) as [sp1 r1] eqn:Hstep.
  cbn [fst] in Hz, Hno.
  destruct count as [|count'].
  { cbn [UnmapSecondPass fst]. split; [done|]. intros i Hi.
    assert (i = 0%nat) as -> by lia. by rewrite Z.mul_0_l, Z.add_0_r. }
  assert (UINTN (va + PAGE_SIZE) = va + PAGE_SIZE) as ->.
  { apply UINTN_small. unfold PAGE_SIZE in *. lia. }
  destruct (IH (va + PAGE_SIZE) sp1 r1) as [Hz' Hno'];
    [unfold PAGE_SIZE; lia|unfold PAGE_SIZE in *; lia|].
  split; [by eapply OnlyZeroed_trans|].
  intros i Hi. destruct i as [|i].
  - rewrite Z.mul_0_l, Z.add_0_r. by eapply NoFrameAt_zeroed.
  - replace (va + Z.of_nat (S i) * PAGE_SIZE) with (va + PAGE_SIZE + Z.of_nat i * PAGE_SIZE)
      by lia.
    apply Hno'. lia.
Qed.

Lemma MmpUnmapPages_unfold ThreadCount sp va PageCount UnmapFlags WantDirty r :
  MmpUnmapPages ThreadCount sp va PageCount UnmapFlags WantDirty = Some r →
  let flags := UnmapFlagsUsed ThreadCount va UnmapFlags in
  let first := UnmapFirstLoop ThreadCount sp va PageCount UnmapFlags WantDirty in
  let second := UnmapSecondLoop ThreadCount sp va PageCount UnmapFlags WantDirty in
  unmap_space r =
    (if va <? KERNEL_VA_START
     then MmpUpdateResidentSetCounter second.1 (- MappedCount first.2)
     else second.1) ∧
  unmap_tlb_invalidated r = TlbInvalidated first.2 ∧
  unmap_ipi_sent r
    = ChangedSomething first.2 && HasFlag flags UNMAP_FLAG_SEND_INVALIDATE_IPI ∧
  unmap_freed r =
    (if negb (RunSize second.2 =? 0)
     then FreedRuns second.2 ++
          [(RunPhysicalPage second.2, Z.shiftr (RunSize second.2) PAGE_SHIFT)]
     else FreedRuns second.2) ∧
  unmap_dirty r = (if WantDirty then Some (PageWasDirty second.2) else None).
Proof.
  intros Hcall flags first second.
  unfold MmpUnmapPages in Hcall. cbv zeta in Hcall.
  unfold second, UnmapSecondLoop, first, UnmapFirstLoop, flags, UnmapFlagsUsed,
    UnmapInvalidatesTlb, UnmapSingleThreaded.
  cbv zeta.
  destruct (UnmapFirstPass _ _ _ _ _ _) as [sp1 l].
  cbn [fst snd].
  destruct (WantDirty || HasFlag _ UNMAP_FLAG_FREE_PHYSICAL_PAGES).
  - destruct (UnmapSecondPass _ _ _ _ _) as [sp2 run]. cbn [fst snd].
    destruct (va <? KERNEL_VA_START).
    + destruct ThreadCount; [|done]. apply Some_inj in Hcall. by subst r.
    + apply Some_inj in Hcall. by subst r.
  - cbn [fst snd].
    destruct (va <? KERNEL_VA_START).
    + destruct ThreadCount; [|done]. apply Some_inj in Hcall. by subst r.
    + apply Some_inj in Hcall. by subst r.
Qed.

Lemma UnmapFirstPassPage_user_space UnmapFlags WantDirty InvalidateTlb a sp l :
  0 <= a < KERNEL_VA_START →
  let pde := word (Directory sp) (DirectoryIndexOf a) in
  let slot := (PTE_Entry pde, TableIndexOf a) in
  let pte := word (PageTables sp) slot in
  (UnmapFirstPassPage UnmapFlags WantDirty InvalidateTlb a (sp, l)).1 =
  if PTE_Present pde && negb (PTE_Entry pte =? 0)
  then set_PageTables
         (<[slot := if negb (HasFlag UnmapFlags UNMAP_FLAG_FREE_PHYSICAL_PAGES) &&
                       negb WantDirty
                    then 0 else PTE_ClearPresent pte]> (PageTables sp)) sp
  else sp.
Proof.
  intros Ha pde slot pte. unfold UnmapFirstPassPage.
  rewrite SyncKernelDirectory_user by done. fold pde. fold slot. fold pte.
  destruct (PTE_Present pde); cbn [negb andb]; [|done].
  destruct (PTE_Entry pte =? 0); cbn [negb]; done.
Qed.

Lemma UnmapFirstPassPage_user_zeroed UnmapFlags InvalidateTlb a sp l :
  0 <= a < KERNEL_VA_START →
  HasFlag UnmapFlags UNMAP_FLAG_FREE_PHYSICAL_PAGES = false →
  OnlyZeroed sp (UnmapFirstPassPage UnmapFlags false InvalidateTlb a (sp, l)).1 ∧
  NoFrameAt (UnmapFirstPassPage UnmapFlags false InvalidateTlb a (sp, l)).1 a.
Proof.
  intros Ha Hfree. rewrite UnmapFirstPassPage_user_space by done. rewrite Hfree.
  cbn [negb andb]. unfold NoFrameAt, LeafEntry, LeafSlot.
  destruct (PTE_Present (word (Directory sp) (DirectoryIndexOf a))) eqn:Hp; cbn [andb].
  2: { split; [apply OnlyZeroed_refl|]. rewrite Hp. done. }
  destruct (PTE_Entry _ =? 0) eqn:Hz; cbn [negb].
  { split; [apply OnlyZeroed_refl|]. rewrite Hp. cbn [mbind option_bind].
    intros pte Hpte. apply Some_inj in Hpte. subst pte. lia. }
  cbn [Directory set_PageTables PageTables]. rewrite Hp. cbn [mbind option_bind].
  split.
  - split; [done|]. intros slot. cbn [PageTables set_PageTables]. rewrite word_insert.
    case_decide; [by right|by left].
  - intros pte Hpte. apply Some_inj in Hpte. subst pte.
    rewrite word_insert, decide_True by done. done.
Qed.

Lemma UnmapFirstPass_user_zeroed UnmapFlags InvalidateTlb count va sp l :
  0 <= va → va + Z.of_nat count * PAGE_SIZE <= KERNEL_VA_START →
  HasFlag UnmapFlags UNMAP_FLAG_FREE_PHYSICAL_PAGES = false →
  OnlyZeroed sp (UnmapFirstPass UnmapFlags false InvalidateTlb count va (sp, l)).1 ∧
  ∀ i, (i < count)%nat →
       NoFrameAt (UnmapFirstPass UnmapFlags false InvalidateTlb count va (sp, l)).1
                 (va + Z.of_nat i * PAGE_SIZE).
Proof.
  intros Hva Hend Hfree. revert va sp l Hva Hend.
  induction count as [|count IH]; intros va sp l Hva Hend.
  { split; [apply OnlyZeroed_refl|]. intros i Hi; lia. }
  cbn [UnmapFirstPass].
  assert (0 <= va < KERNEL_VA_START) as Huser by (unfold PAGE_SIZE in *; lia).
  destruct (UnmapFirstPassPage_user_zeroed UnmapFlags InvalidateTlb va sp l Huser Hfree)
    as [Hz Hno].
  destruct (UnmapFirstPassPage UnmapFlags false InvalidateTlb va (sp, l)) as [sp1 l1].
  cbn [fst] in Hz, Hno.
  assert (UINTN (va + PAGE_SIZE) = va + PAGE_SIZE) as ->.
  { apply UINTN_small. unfold PAGE_SIZE, KERNEL_VA_START in *. lia. }
  destruct (IH (va + PAGE_SIZE) sp1 l1) as [Hz' Hno'];
    [unfold PAGE_SIZE; lia|lia|].
  split; [by eapply OnlyZeroed_trans|].
  intros i Hi. destruct i as [|i].
  - rewrite Z.mul_0_l, Z.add_0_r. by eapply NoFrameAt_zeroed.
  - replace (va + Z.of_nat (S i) * PAGE_SIZE) with (va + PAGE_SIZE + Z.of_nat i * PAGE_SIZE)
      by lia.
    apply Hno'. lia.
Qed.

Lemma UnmapFirstPass_user_directory UnmapFlags WantDirty InvalidateTlb count va sp l :
  0 <= va → va + Z.of_nat count * PAGE_SIZE <= KERNEL_VA_START →
  Directory (UnmapFirstPass UnmapFlags WantDirty InvalidateTlb count va (sp, l)).1
    = Directory sp.
Proof.
  revert va sp l. induction count as [|count IH]; intros va sp l Hva Hend; [done|].
  cbn [UnmapFirstPass].
  assert (0 <= va < KERNEL_VA_START) as Huser by (unfold PAGE_SIZE in *; lia).
  pose proof (UnmapFirstPassPage_user_space UnmapFlags WantDirty InvalidateTlb va sp l Huser)
    as Hspace. cbv zeta in Hspace.
  destruct (UnmapFirstPassPage UnmapFlags WantDirty InvalidateTlb va (sp, l)) as [sp1 l1].
  cbn [fst] in Hspace.
  assert (Directory sp1 = Directory sp) as Hdir.
  { rewrite Hspace. by destruct (_ && _). }
  assert (UINTN (va + PAGE_SIZE) = va + PAGE_SIZE) as ->.
  { apply UINTN_small. unfold PAGE_SIZE, KERNEL_VA_START in *. lia. }
  rewrite IH; [done|unfold PAGE_SIZE; lia|lia].
Qed.

Lemma NoFrameAt_directory sp sp' b :
  Directory sp' = Directory sp → PageTables sp' = PageTables sp →
  NoFrameAt sp b → NoFrameAt sp' b.
Proof. unfold NoFrameAt, LeafEntry, LeafSlot. by intros -> ->. Qed.

Lemma MmpVirtualToPhysical_no_frame K sp b :
  0 <= b < KERNEL_VA_START →
  NoFrameAt sp b →
  MmpVirtualToPhysical K sp b = mkTranslate sp INVALID_PHYSICAL_ADDRESS 0.
Proof.
  intros Hb Hno. unfold MmpVirtualToPhysical, CopyKernelDirectoryEntry.
  assert ((KERNEL_VA_START <=? b) = false) as -> by lia.
  destruct (PTE_Present (word (Directory sp) (DirectoryIndexOf b))) eqn:Hp; [|done].
  cbn [negb]. rewrite (Hno (word (PageTables sp)
                                 (PTE_Entry (word (Directory sp) (DirectoryIndexOf b)),
                                  TableIndexOf b))).
  - done.
  - unfold LeafEntry, LeafSlot. rewrite Hp. done.
Qed.

(** X12.  After MmpUnmapPages has returned on a range of user space, no frame is
    mapped at any page of the range: MmpVirtualToPhysical finds no mapping
    there, whatever the unmap flags were. *)
Theorem unmap_then_translate_finds_nothing
    (K : MAP_FLAGS) (ThreadCount : option Z) (sp : ADDRESS_SPACE_X86)
    (va : Z) (n : nat) (UnmapFlags : Z) (WantDirty : bool) (r : UnmapResult) :
  0 <= va → va + Z.of_nat n * PAGE_SIZE <= KERNEL_VA_START →
  MmpUnmapPages ThreadCount sp va (Z.of_nat n) UnmapFlags WantDirty = Some r →
  ∀ i, (i < n)%nat →
    MmpVirtualToPhysical K (unmap_space r) (va + Z.of_nat i * PAGE_SIZE)
    = mkTranslate (unmap_space r) INVALID_PHYSICAL_ADDRESS 0.
Proof.
  intros Hva Hend Hcall i Hi.
  apply MmpVirtualToPhysical_no_frame; [unfold PAGE_SIZE in *; lia|].
  apply MmpUnmapPages_unfold in Hcall as (Hspace & _). cbv zeta in Hspace.
  assert (NoFrameAt
            (UnmapSecondLoop ThreadCount sp va (Z.of_nat n) UnmapFlags WantDirty).1
            (va + Z.of_nat i * PAGE_SIZE)) as Hno.
  { unfold UnmapSecondLoop. cbv zeta.
    destruct (WantDirty || HasFlag _ UNMAP_FLAG_FREE_PHYSICAL_PAGES) eqn:Hagain.
    - rewrite Nat2Z.id. apply UnmapSecondPass_zeroed; [done| |done].
      unfold KERNEL_VA_START in Hend. lia.
    - apply orb_false_iff in Hagain as [-> Hfree]. cbn [fst].
      unfold UnmapFirstLoop. rewrite Nat2Z.id.
      by apply UnmapFirstPass_user_zeroed. }
  rewrite Hspace. destruct (va <? KERNEL_VA_START); [|done].
  by apply (NoFrameAt_directory _ _ _ eq_refl eq_refl) in Hno.
Qed.

Lemma unmap_then_translate_finds_nothing_witness :
  ∃ r, MmpUnmapPages (Some 1) OneLeafTable 4194304 (Z.of_nat 2) 2 true = Some r ∧
       ∀ i, (i < 2)%nat →
         MmpVirtualToPhysical (mkMapFlags 1 2 4 8) (unmap_space r)
           (4194304 + Z.of_nat i * PAGE_SIZE)
         = mkTranslate (unmap_space r) INVALID_PHYSICAL_ADDRESS 0.
Proof.
  assert (∃ r, MmpUnmapPages (Some 1) OneLeafTable 4194304 (Z.of_nat 2) 2 true = Some r)
    as [r Hcall] by (vm_compute; eexists; reflexivity).
  exists r. split; [exact Hcall|].
  apply (unmap_then_translate_finds_nothing (mkMapFlags 1 2 4 8) (Some 1) OneLeafTable
           4194304 2 2 true r); [lia|by vm_compute|exact Hcall].
Defined.

(** ** MmpUnmapPages writes the leaf entries of its range only *)

Lemma LeafSlot_directory sp sp' b :
  Directory sp' = Directory sp → LeafSlot sp' b = LeafSlot sp b.
Proof. unfold LeafSlot. by intros ->. Qed.

Lemma UnmapFirstPassPage_user_other UnmapFlags WantDirty InvalidateTlb a sp l :
  0 <= a < KERNEL_VA_START →
  Directory (UnmapFirstPassPage UnmapFlags WantDirty InvalidateTlb a (sp, l)).1
    = Directory sp ∧
  MmKernelPageDirectory (UnmapFirstPassPage UnmapFlags WantDirty InvalidateTlb a (sp, l)).1
    = MmKernelPageDirectory sp ∧
  ∀ slot, LeafSlot sp a ≠ Some slot →
    word (PageTables (UnmapFirstPassPage UnmapFlags WantDirty InvalidateTlb a (sp, l)).1) slot
    = word (PageTables sp) slot.
Proof.
  intros Ha. rewrite UnmapFirstPassPage_user_space by done. unfold LeafSlot.
  destruct (PTE_Present (word (Directory sp) (DirectoryIndexOf a))); cbn [andb]; [|done].
  destruct (negb _); [|done].
  cbn [Directory MmKernelPageDirectory PageTables set_PageTables].
  split; [done|]. split; [done|]. intros slot Hslot.
  rewrite word_insert, decide_False; [done|congruence].
Qed.

Lemma UnmapSecondPassPage_other UnmapFlags WantDirty a sp r :
  Directory (UnmapSecondPassPage UnmapFlags WantDirty a (sp, r)).1 = Directory sp ∧
  MmKernelPageDirectory (UnmapSecondPassPage UnmapFlags WantDirty a (sp, r)).1
    = MmKernelPageDirectory sp ∧
  ∀ slot, LeafSlot sp a ≠ Some slot →
    word (PageTables (UnmapSecondPassPage UnmapFlags WantDirty a (sp, r)).1) slot
    = word (PageTables sp) slot.
Proof.
  unfold UnmapSecondPassPage, LeafSlot.
  destruct (PTE_Present (word (Directory sp) (DirectoryIndexOf a))); cbn [negb]; [|done].
  destruct (PTE_Entry _ =? 0); [done|].
  cbn [fst Directory MmKernelPageDirectory PageTables set_PageTables].
  split; [done|]. split; [done|]. intros slot Hslot.
  rewrite word_insert, decide_False; [done|congruence].
Qed.

Lemma UnmapFirstPass_user_other UnmapFlags WantDirty InvalidateTlb count va sp l :
  0 <= va → va + Z.of_nat count * PAGE_SIZE <= KERNEL_VA_START →
  MmKernelPageDirectory
    (UnmapFirstPass UnmapFlags WantDirty InvalidateTlb count va (sp, l)).1
    = MmKernelPageDirectory sp ∧
  ∀ slot, (∀ i, (i < count)%nat → LeafSlot sp (va + Z.of_nat i * PAGE_SIZE) ≠ Some slot) →
    word (PageTables (UnmapFirstPass UnmapFlags WantDirty InvalidateTlb count va (sp, l)).1)
         slot
    = word (PageTables sp) slot.
Proof.
  revert va sp l. induction count as [|count IH]; intros va sp l Hva Hend; [done|].
  cbn [UnmapFirstPass].
  assert (0 <= va < KERNEL_VA_START) as Huser by (unfold PAGE_SIZE in *; lia).
  destruct (UnmapFirstPassPage_user_other UnmapFlags WantDirty InvalidateTlb va sp l Huser)
    as (Hdir & Hkernel & Hother).
  destruct (UnmapFirstPassPage UnmapFlags WantDirty InvalidateTlb va (sp, l)) as [sp1 l1].
  cbn [fst] in Hdir, Hkernel, Hother.
  assert (UINTN (va + PAGE_SIZE) = va + PAGE_SIZE) as ->.
  { apply UINTN_small. unfold PAGE_SIZE, KERNEL_VA_START in *. lia. }
  destruct (IH (va + PAGE_SIZE) sp1 l1) as [Hkernel' Hother'];
    [unfold PAGE_SIZE; lia|lia|].
  split; [congruence|]. intros slot Hslot.
  rewrite Hother'.
  - apply Hother. specialize (Hslot O ltac:(lia)). by rewrite Z.mul_0_l, Z.add_0_r in Hslot.
  - intros i Hi. rewrite (LeafSlot_directory sp sp1) by done.
    replace (va + PAGE_SIZE + Z.of_nat i * PAGE_SIZE) with (va + Z.of_nat (S i) * PAGE_SIZE)
      by lia.
    apply Hslot. lia.
Qed.

Lemma UnmapSecondPass_other UnmapFlags WantDirty count va sp r :
  0 <= va → va + Z.of_nat count * PAGE_SIZE <= 2 ^ 32 →
  Directory (UnmapSecondPass UnmapFlags WantDirty count va (sp, r)).1 = Directory sp ∧
  MmKernelPageDirectory (UnmapSecondPass UnmapFlags WantDirty count va (sp, r)).1
    = MmKernelPageDirectory sp ∧
  ∀ slot, (∀ i, (i < count)%nat → LeafSlot sp (va + Z.of_nat i * PAGE_SIZE) ≠ Some slot) →
    word (PageTables (UnmapSecondPass UnmapFlags WantDirty count va (sp, r)).1) slot
    = word (PageTables sp) slot.
Proof.
  revert va sp r. induction count as [|count IH]; intros va sp r Hva Hend; [done|].
  cbn [UnmapSecondPass].
  destruct (UnmapSecondPassPage_other UnmapFlags WantDirty va sp r)
    as (Hdir & Hkernel & Hother).
  destruct (UnmapSecondPassPage UnmapFlags WantDirty va (sp, r)) as [sp1 r1].
  cbn [fst] in Hdir, Hkernel, Hother.
  destruct count as [|count'].
  { cbn [UnmapSecondPass fst]. split; [done|]. split; [done|]. intros slot Hslot.
    apply Hother. specialize (Hslot O ltac:(lia)). by rewrite Z.mul_0_l, Z.add_0_r in Hslot. }
  assert (UINTN (va + PAGE_SIZE) = va + PAGE_SIZE) as ->.
  { apply UINTN_small. unfold PAGE_SIZE in *. lia. }
  destruct (IH (va + PAGE_SIZE) sp1 r1) as (Hdir' & Hkernel' & Hother');
    [unfold PAGE_SIZE; lia|unfold PAGE_SIZE in *; lia|].
  split; [congruence|]. split; [congruence|]. intros slot Hslot.
  rewrite Hother'.
  - apply Hother. specialize (Hslot O ltac:(lia)). by rewrite Z.mul_0_l, Z.add_0_r in Hslot.
  - intros i Hi. rewrite (LeafSlot_directory sp sp1) by done.
    replace (va + PAGE_SIZE + Z.of_nat i * PAGE_SIZE) with (va + Z.of_nat (S i) * PAGE_SIZE)
      by lia.
    apply Hslot. lia.
Qed.

(** X13.  MmpUnmapPages on a range of user space leaves both page directories
    as they are, and writes no leaf entry but those that cover the pages of
    the range. *)
Theorem unmap_writes_its_range_only
    (ThreadCount : option Z) (sp : ADDRESS_SPACE_X86)
    (va : Z) (n : nat) (UnmapFlags : Z) (WantDirty : bool) (r : UnmapResult) :
  0 <= va → va + Z.of_nat n * PAGE_SIZE <= KERNEL_VA_START →
  MmpUnmapPages ThreadCount sp va (Z.of_nat n) UnmapFlags WantDirty = Some r →
  Directory (unmap_space r) = Directory sp ∧
  MmKernelPageDirectory (unmap_space r) = MmKernelPageDirectory sp ∧
  ∀ slot, (∀ i, (i < n)%nat → LeafSlot sp (va + Z.of_nat i * PAGE_SIZE) ≠ Some slot) →
          word (PageTables (unmap_space r)) slot = word (PageTables sp) slot.
Proof.
  intros Hva Hend Hcall.
  apply MmpUnmapPages_unfold in Hcall as (Hspace & _). cbv zeta in Hspace.
  pose proof (UnmapFirstPass_user_directory
                (UnmapFlagsUsed ThreadCount va UnmapFlags) WantDirty
                (UnmapInvalidatesTlb ThreadCount va) n va sp (mkUnmapLocals false 0 [])
                Hva Hend) as Hdir1.
  destruct (UnmapFirstPass_user_other
              (UnmapFlagsUsed ThreadCount va UnmapFlags) WantDirty
              (UnmapInvalidatesTlb ThreadCount va) n va sp (mkUnmapLocals false 0 [])
              Hva Hend) as [Hkernel1 Hother1].
  assert (Directory (UnmapSecondLoop ThreadCount sp va (Z.of_nat n) UnmapFlags WantDirty).1
            = Directory sp ∧
          MmKernelPageDirectory
            (UnmapSecondLoop ThreadCount sp va (Z.of_nat n) UnmapFlags WantDirty).1
            = MmKernelPageDirectory sp ∧
          ∀ slot, (∀ i, (i < n)%nat →
                        LeafSlot sp (va + Z.of_nat i * PAGE_SIZE) ≠ Some slot) →
                  word (PageTables
                          (UnmapSecondLoop ThreadCount sp va (Z.of_nat n) UnmapFlags
                                           WantDirty).1) slot
                  = word (PageTables sp) slot) as (Hdir & Hkernel & Hother).
  { unfold UnmapSecondLoop, UnmapFirstLoop. cbv zeta. rewrite Nat2Z.id.
    destruct (WantDirty || HasFlag _ UNMAP_FLAG_FREE_PHYSICAL_PAGES).
    - destruct (UnmapSecondPass_other (UnmapFlagsUsed ThreadCount va UnmapFlags) WantDirty
                  n va
                  (UnmapFirstPass (UnmapFlagsUsed ThreadCount va UnmapFlags) WantDirty
                     (UnmapInvalidatesTlb ThreadCount va) n va
                     (sp, mkUnmapLocals false 0 [])).1
                  (mkUnmapRun INVALID_PHYSICAL_ADDRESS 0 [] false) Hva)
        as (Hdir2 & Hkernel2 & Hother2).
      { unfold KERNEL_VA_START in Hend. lia. }
      split; [congruence|]. split; [congruence|]. intros slot Hslot.
      rewrite Hother2; [by apply Hother1|].
      intros i Hi. rewrite (LeafSlot_directory sp) by done. by apply Hslot.
    - cbn [fst]. done. }
  rewrite Hspace. destruct (va <? KERNEL_VA_START); done.
Qed.

Lemma unmap_writes_its_range_only_witness :
  ∃ r, MmpUnmapPages (Some 1) OneLeafTable 4194304 (Z.of_nat 1) 0 false = Some r ∧
       Directory (unmap_space r) = Directory OneLeafTable ∧
       word (PageTables (unmap_space r)) (768, 1) = 4198407.
Proof.
  assert (∃ r, MmpUnmapPages (Some 1) OneLeafTable 4194304 (Z.of_nat 1) 0 false = Some r)
    as [r Hcall] by (vm_compute; eexists; reflexivity).
  exists r. split; [exact Hcall|].
  destruct (unmap_writes_its_range_only (Some 1) OneLeafTable 4194304 1 0 false r)
    as (Hdir & _ & Hother); [lia|by vm_compute|exact Hcall|].
  split; [exact Hdir|]. rewrite Hother; [reflexivity|].
  intros i Hi. assert (i = 0%nat) as -> by lia. vm_compute. discriminate.
Defined.

(** ** MmpUnmapPages: the translation buffers *)

Lemma CountPages_positive f va n :
  0 < CountPages f va n ↔ ∃ i, (i < n)%nat ∧ f (va + Z.of_nat i * PAGE_SIZE) = true.
Proof.
  revert va. induction n as [|n IH]; intros va; cbn [CountPages].
  { split; [lia|]. intros (i & Hi & _). lia. }
  pose proof (CountPages_bounds f (va + PAGE_SIZE) n) as Hb.
  split.
  - intros Hpos. destruct (f va) eqn:Hf.
    + exists O. split; [lia|]. by rewrite Z.mul_0_l, Z.add_0_r.
    + apply IH in Hpos as (i & Hi & Hfi). exists (S i). split; [lia|].
      by replace (va + Z.of_nat (S i) * PAGE_SIZE)
        with (va + PAGE_SIZE + Z.of_nat i * PAGE_SIZE) by lia.
  - intros (i & Hi & Hfi). destruct i as [|i].
    + rewrite Z.mul_0_l, Z.add_0_r in Hfi. rewrite Hfi. lia.
    + assert (0 < CountPages f (va + PAGE_SIZE) n); [|destruct (f va); lia].
      apply IH. exists i. split; [lia|].
      by replace (va + PAGE_SIZE + Z.of_nat i * PAGE_SIZE)
        with (va + Z.of_nat (S i) * PAGE_SIZE) by lia.
Qed.

Lemma UnmapFirstPassPage_user_locals UnmapFlags WantDirty InvalidateTlb a sp l :
  0 <= a < KERNEL_VA_START →
  let invalidate :=
    MappedPresent sp a && InvalidateTlb &&
    negb (HasFlag UnmapFlags UNMAP_FLAG_SEND_INVALIDATE_IPI) in
  ChangedSomething (UnmapFirstPassPage UnmapFlags WantDirty InvalidateTlb a (sp, l)).2
    = ChangedSomething l || MappedPresent sp a ∧
  TlbInvalidated (UnmapFirstPassPage UnmapFlags WantDirty InvalidateTlb a (sp, l)).2
    = TlbInvalidated l ++ (if invalidate then [a] else []).
Proof.
  intros Ha. cbv zeta. unfold UnmapFirstPassPage, MappedPresent, LeafEntry, LeafSlot.
  rewrite SyncKernelDirectory_user by done.
  destruct (PTE_Present (word (Directory sp) (DirectoryIndexOf a))); cbn [negb].
  2: { cbn [snd andb]. by rewrite orb_false_r, app_nil_r. }
  cbn [mbind option_bind].
  destruct (PTE_Entry _ =? 0); cbn [negb andb snd].
  { by rewrite orb_false_r, app_nil_r. }
  cbn [ChangedSomething TlbInvalidated]. split; [done|].
  destruct (_ && _ && _); [done|by rewrite app_nil_r].
Qed.

Lemma MappedPresent_after_first UnmapFlags WantDirty InvalidateTlb a sp l b :
  0 <= a < KERNEL_VA_START →
  let sp1 := (UnmapFirstPassPage UnmapFlags WantDirty InvalidateTlb a (sp, l)).1 in
  (MappedPresent sp1 b = true → MappedPresent sp b = true) ∧
  (MappedPresent sp b = true → MappedPresent sp1 b = true ∨ MappedPresent sp a = true).
Proof.
  intros Ha sp1. unfold sp1. rewrite UnmapFirstPassPage_user_space by done.
  unfold MappedPresent, LeafEntry, LeafSlot.
  destruct (PTE_Present (word (Directory sp) (DirectoryIndexOf a))) eqn:Hpa; cbn [andb].
  2: { split; [done|by left]. }
  cbn [mbind option_bind].
  destruct (PTE_Entry (word (PageTables sp) _) =? 0) eqn:Hza; cbn [negb andb].
  { split; [done|by left]. }
  cbn [Directory PageTables set_PageTables].
  destruct (PTE_Present (word (Directory sp) (DirectoryIndexOf b))) eqn:Hpb;
    [|split; [done|by left]].
  cbn [mbind option_bind]. rewrite word_insert.
  case_decide as Hslot.
  - rewrite <- Hslot. rewrite Hza. cbn [negb andb]. split.
    + destruct (negb (HasFlag _ _) && negb WantDirty).
      * rewrite PTE_Entry_zero. done.
      * rewrite PTE_Present_clear, andb_false_r. done.
    + intros Hb. by right.
  - split; [done|by left].
Qed.

Lemma UnmapFirstPass_user_locals UnmapFlags WantDirty InvalidateTlb count va sp l :
  0 <= va → va + Z.of_nat count * PAGE_SIZE <= KERNEL_VA_START →
  ChangedSomething (UnmapFirstPass UnmapFlags WantDirty InvalidateTlb count va (sp, l)).2
    = ChangedSomething l || (0 <? CountPages (MappedPresent sp) va count) ∧
  (HasFlag UnmapFlags UNMAP_FLAG_SEND_INVALIDATE_IPI = true ∨ InvalidateTlb = false →
   TlbInvalidated (UnmapFirstPass UnmapFlags WantDirty InvalidateTlb count va (sp, l)).2
     = TlbInvalidated l).
Proof.
  revert va sp l. induction count as [|count IH]; intros va sp l Hva Hend.
  { cbn [UnmapFirstPass CountPages snd]. by rewrite orb_false_r. }
  cbn [UnmapFirstPass].
  assert (0 <= va < KERNEL_VA_START) as Huser by (unfold PAGE_SIZE in *; lia).
  destruct (UnmapFirstPassPage_user_locals UnmapFlags WantDirty InvalidateTlb va sp l Huser)
    as [Hchanged Htlb].
  pose proof (λ b, MappedPresent_after_first UnmapFlags WantDirty InvalidateTlb va sp l b
                     Huser) as Hafter. cbv zeta in Hafter.
  destruct (UnmapFirstPassPage UnmapFlags WantDirty InvalidateTlb va (sp, l)) as [sp1 l1].
  cbn [fst snd] in Hchanged, Htlb, Hafter.
  assert (UINTN (va + PAGE_SIZE) = va + PAGE_SIZE) as ->.
  { apply UINTN_small. unfold PAGE_SIZE, KERNEL_VA_START in *. lia. }
  destruct (IH (va + PAGE_SIZE) sp1 l1) as [Hchanged' Htlb'];
    [unfold PAGE_SIZE; lia|lia|].
  split.
  - rewrite Hchanged', Hchanged. cbn [CountPages].
    pose proof (CountPages_bounds (MappedPresent sp) (va + PAGE_SIZE) count) as Hb.
    pose proof (CountPages_bounds (MappedPresent sp1) (va + PAGE_SIZE) count) as Hb1.
    pose proof (CountPages_positive (MappedPresent sp) (va + PAGE_SIZE) count) as Hp.
    pose proof (CountPages_positive (MappedPresent sp1) (va + PAGE_SIZE) count) as Hp1.
    destruct (ChangedSomething l); [done|]. cbn [orb].
    destruct (MappedPresent sp va) eqn:Hm; cbn [orb].
    + symmetry. apply Z.ltb_lt. lia.
    + rewrite Z.add_0_l.
      destruct (0 <? CountPages (MappedPresent sp1) (va + PAGE_SIZE) count) eqn:H1;
        symmetry.
      * apply Z.ltb_lt. apply Hp. apply Z.ltb_lt, Hp1 in H1 as (i & Hi & Hfi).
        exists i. split; [done|]. by apply Hafter.
      * apply Z.ltb_ge. apply Z.ltb_ge in H1.
        destruct (decide (0 < CountPages (MappedPresent sp) (va + PAGE_SIZE) count))
          as [Hpos|]; [|lia].
        apply Hp in Hpos as (i & Hi & Hfi).
        destruct (proj2 (Hafter _) Hfi) as [Hf1|Hf1]; [|congruence].
        assert (0 < CountPages (MappedPresent sp1) (va + PAGE_SIZE) count); [|lia].
        apply Hp1. by exists i.
  - intros Hoff. rewrite (Htlb' Hoff), Htlb. cbv zeta.
    destruct Hoff as [-> | ->]; rewrite ?andb_false_r; by rewrite app_nil_r.
Qed.

Lemma HasFlag_cleared UnmapFlags :
  HasFlag (Z.land UnmapFlags (Z.lnot UNMAP_FLAG_SEND_INVALIDATE_IPI))
          UNMAP_FLAG_SEND_INVALIDATE_IPI = false.
Proof.
  unfold HasFlag. rewrite <- Z.land_assoc.
  change (Z.land (Z.lnot UNMAP_FLAG_SEND_INVALIDATE_IPI) UNMAP_FLAG_SEND_INVALIDATE_IPI)
    with 0.
  by rewrite Z.land_0_r.
Qed.

(** X14.  What MmpUnmapPages decides about the translation buffers, for a range
    of user space.  The invalidate IPI is sent exactly when the flags in
    force ask for it and a page of the range was mapped and present; a
    process with at most one thread is never sent one; and no entry is
    invalidated on the local processor when the IPI is asked for, or when the
    process has no thread left. *)
Theorem unmap_translation_buffer_decisions
    (ThreadCount : option Z) (sp : ADDRESS_SPACE_X86)
    (va : Z) (n : nat) (UnmapFlags : Z) (WantDirty : bool) (r : UnmapResult) :
  0 <= va → va + Z.of_nat n * PAGE_SIZE <= KERNEL_VA_START →
  MmpUnmapPages ThreadCount sp va (Z.of_nat n) UnmapFlags WantDirty = Some r →
  let flags := UnmapFlagsUsed ThreadCount va UnmapFlags in
  unmap_ipi_sent r
    = (0 <? CountPages (MappedPresent sp) va n) &&
      HasFlag flags UNMAP_FLAG_SEND_INVALIDATE_IPI ∧
  (UnmapSingleThreaded ThreadCount va = true → unmap_ipi_sent r = false) ∧
  (HasFlag flags UNMAP_FLAG_SEND_INVALIDATE_IPI = true ∨
   UnmapInvalidatesTlb ThreadCount va = false →
   unmap_tlb_invalidated r = []).
Proof.
  intros Hva Hend Hcall flags.
  apply MmpUnmapPages_unfold in Hcall as (_ & Htlb & Hipi & _). cbv zeta in Htlb, Hipi.
  unfold UnmapFirstLoop in Htlb, Hipi. rewrite Nat2Z.id in Htlb, Hipi.
  destruct (UnmapFirstPass_user_locals (UnmapFlagsUsed ThreadCount va UnmapFlags) WantDirty
              (UnmapInvalidatesTlb ThreadCount va) n va sp (mkUnmapLocals false 0 [])
              Hva Hend) as [Hchanged Hnone].
  cbn [ChangedSomething TlbInvalidated orb] in Hchanged, Hnone.
  rewrite Hipi, Hchanged. fold flags.
  split; [done|]. split.
  - intros Hsingle. unfold flags, UnmapFlagsUsed. rewrite Hsingle.
    rewrite HasFlag_cleared. apply andb_false_r.
  - intros Hoff. rewrite Htlb. by apply Hnone.
Qed.

Lemma unmap_translation_buffer_decisions_witness :
  ∃ r, MmpUnmapPages (Some 2) OneLeafTable 4194304 (Z.of_nat 2) 1 false = Some r ∧
       unmap_ipi_sent r = true ∧
       unmap_tlb_invalidated r = [].
Proof.
  assert (∃ r, MmpUnmapPages (Some 2) OneLeafTable 4194304 (Z.of_nat 2) 1 false = Some r)
    as [r Hcall] by (vm_compute; eexists; reflexivity).
  exists r. split; [exact Hcall|].
  destruct (unmap_translation_buffer_decisions (Some 2) OneLeafTable 4194304 2 1 false r)
    as (Hipi & _ & Hnone); [lia|by vm_compute|exact Hcall|].
  split; [rewrite Hipi; reflexivity|].
  apply Hnone. left. reflexivity.
Defined.

(** ** MmpChangeMemoryRegionAccess *)

#[local] Arguments PTE_Writable : simpl never.
#[local] Arguments PTE_SetBit : simpl never.
#[local] Arguments CopyKernelDirectoryEntry : simpl never.

Lemma PTE_SetBit_testbit pte bit v k :
  0 <= bit → 0 <= k →
  Z.testbit (PTE_SetBit pte bit v) k = if decide (k = bit) then v else Z.testbit pte k.
Proof.
  intros Hbit Hk. unfold PTE_SetBit. case_decide as Heq.
  - subst k. destruct v; [by apply Z.setbit_eq|by apply Z.clearbit_eq].
  - destruct v; [apply Z.setbit_neq|apply Z.clearbit_neq]; lia.
Qed.

Lemma PTE_Entry_SetBit pte bit v :
  0 <= bit < 12 → PTE_Entry (PTE_SetBit pte bit v) = PTE_Entry pte.
Proof.
  intros Hbit. unfold PTE_Entry. apply Z.bits_inj'. intros k Hk.
  rewrite !Z.shiftr_spec by done. rewrite PTE_SetBit_testbit by lia.
  rewrite decide_False by lia. done.
Qed.

Lemma CopyKernelDirectoryEntry_user sp a :
  0 <= a < KERNEL_VA_START → CopyKernelDirectoryEntry sp a = sp.
Proof.
  intros Ha. unfold CopyKernelDirectoryEntry.
  by assert ((KERNEL_VA_START <=? a) = false) as -> by lia.
Qed.

Lemma PTE_SetBit_same pte bit v :
  0 <= bit → Z.testbit pte bit = v → PTE_SetBit pte bit v = pte.
Proof.
  intros Hbit Hv. apply Z.bits_inj'. intros k Hk.
  rewrite PTE_SetBit_testbit by lia. case_decide; [by subst|done].
Qed.

Lemma AccessChanged_bits K MapFlags MapFlagsMask pte :
  PTE_Entry (AccessChanged K MapFlags MapFlagsMask pte) = PTE_Entry pte ∧
  PTE_Dirty (AccessChanged K MapFlags MapFlagsMask pte) = PTE_Dirty pte ∧
  PTE_Writable (AccessChanged K MapFlags MapFlagsMask pte)
    = (if negb (Z.land MapFlagsMask (MAP_FLAG_READ_ONLY K) =? 0)
       then Z.land MapFlags (MAP_FLAG_READ_ONLY K) =? 0 else PTE_Writable pte) ∧
  PTE_Present (AccessChanged K MapFlags MapFlagsMask pte)
    = (if negb (Z.land MapFlagsMask (MAP_FLAG_PRESENT K) =? 0)
       then negb (Z.land MapFlags (MAP_FLAG_PRESENT K) =? 0) else PTE_Present pte).
Proof.
  unfold AccessChanged, PTE_Dirty, PTE_Writable, PTE_Present. cbv zeta.
  destruct (negb (Z.land MapFlagsMask (MAP_FLAG_READ_ONLY K) =? 0));
    destruct (negb (Z.land MapFlagsMask (MAP_FLAG_PRESENT K) =? 0));
    rewrite ?PTE_Entry_SetBit by lia;
    rewrite ?PTE_SetBit_testbit by lia;
    repeat (rewrite ?decide_True by done; rewrite ?decide_False by done);
    done.
Qed.

(** A turn of the loop in user space: the leaf entry of a page that has a
    frame becomes [AccessChanged] of itself, and nothing else is written. *)
Lemma ChangeAccessPage_user_space K ipi inv MapFlags MapFlagsMask a sp l :
  0 <= a < KERNEL_VA_START →
  let pde := word (Directory sp) (DirectoryIndexOf a) in
  let slot := (PTE_Entry pde, TableIndexOf a) in
  let pte := word (PageTables sp) slot in
  let sp' := (ChangeAccessPage K ipi inv MapFlags MapFlagsMask a (sp, l)).1 in
  Directory sp' = Directory sp ∧
  MmKernelPageDirectory sp' = MmKernelPageDirectory sp ∧
  ResidentSet sp' = ResidentSet sp ∧
  ∀ slot',
    word (PageTables sp') slot' =
    if decide (slot' = slot ∧ PTE_Present pde = true ∧ PTE_Entry pte ≠ 0)
    then AccessChanged K MapFlags MapFlagsMask pte
    else word (PageTables sp) slot'.
Proof.
  intros Ha pde slot pte sp'. unfold sp', ChangeAccessPage.
  rewrite CopyKernelDirectoryEntry_user by done. fold pde. fold slot. fold pte.
  destruct (PTE_Present pde) eqn:Hp; cbn [negb].
  2: { cbn [fst]. repeat split. intros slot'. rewrite decide_False; [done|].
       intros (_ & ? & _). done. }
  destruct (PTE_Entry pte =? 0) eqn:Hz.
  { cbn [fst]. repeat split. intros slot'. rewrite decide_False; [done|].
    intros (_ & _ & ?). lia. }
  set (Writable := Z.land MapFlags (MAP_FLAG_READ_ONLY K) =? 0).
  set (Present := negb (Z.land MapFlags (MAP_FLAG_PRESENT K) =? 0)).
  set (SetWritable := _ && negb (eqb (PTE_Writable pte) Writable)).
  set (pte1 := if SetWritable then _ else pte).
  set (SetPresent := _ && negb (eqb (PTE_Present pte1) Present)).
  set (pte2 := if SetPresent then _ else pte1).
  assert (pte2 = AccessChanged K MapFlags MapFlagsMask pte) as Hpte2.
  { unfold AccessChanged. cbv zeta. fold Writable. fold Present.
    assert (pte1 = if negb (Z.land MapFlagsMask (MAP_FLAG_READ_ONLY K) =? 0)
                   then PTE_SetBit pte 1 Writable else pte) as <-.
    { unfold pte1, SetWritable.
      destruct (negb (Z.land MapFlagsMask (MAP_FLAG_READ_ONLY K) =? 0)); cbn [andb]; [|done].
      destruct (eqb (PTE_Writable pte) Writable) eqn:Heq; cbn [negb]; [|done].
      apply eqb_prop in Heq. symmetry. by apply PTE_SetBit_same. }
    unfold pte2, SetPresent.
    destruct (negb (Z.land MapFlagsMask (MAP_FLAG_PRESENT K) =? 0)); cbn [andb]; [|done].
    destruct (eqb (PTE_Present pte1) Present) eqn:Heq; cbn [negb]; [|done].
    apply eqb_prop in Heq. symmetry. by apply PTE_SetBit_same. }
  assert (SetWritable || SetPresent = false → pte2 = pte) as Hsame.
  { intros Hnone. apply orb_false_iff in Hnone as [Hw Hpr].
    unfold pte2, pte1. by rewrite Hw, Hpr. }
  assert (∀ slot', word (PageTables
                           (if SetWritable || SetPresent
                            then set_PageTables (<[slot := pte2]> (PageTables sp)) sp
                            else sp)) slot'
                   = if decide (slot' = slot ∧ true = true ∧ PTE_Entry pte ≠ 0)
                     then AccessChanged K MapFlags MapFlagsMask pte
                     else word (PageTables sp) slot') as Hwords.
  { intros slot'. destruct (SetWritable || SetPresent) eqn:Hany.
    - cbn [PageTables set_PageTables]. rewrite word_insert.
      destruct (decide (slot = slot')) as [<-|Hne].
      + rewrite decide_True by (split; [done|split; [done|lia]]). done.
      + rewrite decide_False; [done|]. intros (? & _). congruence.
    - case_decide as Hd; [|done]. destruct Hd as (-> & _). fold pte.
      by rewrite <- Hpte2, (Hsame eq_refl). }
  destruct (SetWritable || (SetPresent && negb Present));
    [destruct (negb ipi); [destruct inv|]|];
    cbn [fst]; (split; [by destruct (SetWritable || SetPresent)|]);
    (split; [by destruct (SetWritable || SetPresent)|]);
    (split; [by destruct (SetWritable || SetPresent)|]); exact Hwords.
Qed.

Lemma AccessChanged_as_asked K MapFlags MapFlagsMask pte :
  AccessAsAsked K MapFlags MapFlagsMask (AccessChanged K MapFlags MapFlagsMask pte).
Proof.
  destruct (AccessChanged_bits K MapFlags MapFlagsMask pte) as (_ & _ & Hw & Hp).
  intros _. split.
  - intros Hmask. rewrite Hw.
    destruct (Z.land MapFlagsMask (MAP_FLAG_READ_ONLY K) =? 0) eqn:Hz; [lia|done].
  - intros Hmask. rewrite Hp.
    destruct (Z.land MapFlagsMask (MAP_FLAG_PRESENT K) =? 0) eqn:Hz; [lia|done].
Qed.

Lemma ChangeAccessLoop_user K ipi inv MapFlags MapFlagsMask count va sp l :
  0 <= va → va + Z.of_nat count * PAGE_SIZE <= KERNEL_VA_START →
  let sp' := (ChangeAccessLoop K ipi inv MapFlags MapFlagsMask count va (sp, l)).1 in
  Directory sp' = Directory sp ∧
  MmKernelPageDirectory sp' = MmKernelPageDirectory sp ∧
  ResidentSet sp' = ResidentSet sp ∧
  (∀ slot, PTE_Entry (word (PageTables sp') slot) = PTE_Entry (word (PageTables sp) slot) ∧
           PTE_Dirty (word (PageTables sp') slot) = PTE_Dirty (word (PageTables sp) slot)) ∧
  (∀ slot, AccessAsAsked K MapFlags MapFlagsMask (word (PageTables sp) slot) →
           AccessAsAsked K MapFlags MapFlagsMask (word (PageTables sp') slot)) ∧
  (∀ slot, (∀ i, (i < count)%nat →
                 LeafSlot sp (va + Z.of_nat i * PAGE_SIZE) ≠ Some slot) →
           word (PageTables sp') slot = word (PageTables sp) slot) ∧
  (∀ i pte, (i < count)%nat →
     LeafEntry sp' (va + Z.of_nat i * PAGE_SIZE) = Some pte →
     AccessAsAsked K MapFlags MapFlagsMask pte).
Proof.
  revert va sp l. induction count as [|count IH]; intros va sp l Hva Hend sp'.
  { unfold sp'. cbn [ChangeAccessLoop fst].
    split; [done|]. split; [done|]. split; [done|]. split; [done|]. split; [done|].
    split; [done|]. intros i pte Hi; lia. }
  unfold sp'. cbn [ChangeAccessLoop].
  assert (0 <= va < KERNEL_VA_START) as Huser by (unfold PAGE_SIZE in *; lia).
  pose proof (ChangeAccessPage_user_space K ipi inv MapFlags MapFlagsMask va sp l Huser)
    as Hpage. cbv zeta in Hpage.
  destruct (ChangeAccessPage K ipi inv MapFlags MapFlagsMask va (sp, l)) as [sp1 l1].
  cbn [fst] in Hpage. destruct Hpage as (Hdir1 & Hker1 & Hres1 & Hwords1).
  assert (UINTN (va + PAGE_SIZE) = va + PAGE_SIZE) as ->.
  { apply UINTN_small. unfold PAGE_SIZE, KERNEL_VA_START in *. lia. }
  specialize (IH (va + PAGE_SIZE) sp1 l1 ltac:(unfold PAGE_SIZE; lia) ltac:(lia)).
  cbv zeta in IH.
  destruct IH as (Hdir & Hker & Hres & Hbits & Hasked & Hother & Hrange).
  set (sp2 := (ChangeAccessLoop K ipi inv MapFlags MapFlagsMask count (va + PAGE_SIZE)
                 (sp1, l1)).1) in *.
  assert (∀ slot, AccessAsAsked K MapFlags MapFlagsMask (word (PageTables sp) slot) →
                  AccessAsAsked K MapFlags MapFlagsMask (word (PageTables sp1) slot))
    as Hasked1.
  { intros slot Hslot. rewrite Hwords1.
    destruct (decide _) as [Hd|Hd]; [apply AccessChanged_as_asked|exact Hslot]. }
  split; [congruence|]. split; [congruence|]. split; [congruence|].
  split; [|split; [|split]].
  - intros slot. destruct (Hbits slot) as [-> ->]. rewrite Hwords1.
    destruct (decide _) as [Hd|Hd]; [|done]. destruct Hd as (-> & _).
    destruct (AccessChanged_bits K MapFlags MapFlagsMask
                (word (PageTables sp)
                      (PTE_Entry (word (Directory sp) (DirectoryIndexOf va)),
                       TableIndexOf va))) as (He & Hd & _).
    done.
  - intros slot Hslot. by apply Hasked, Hasked1.
  - intros slot Hslot. rewrite Hother.
    + rewrite Hwords1, decide_False; [done|]. intros (-> & Hp & _).
      apply (Hslot O ltac:(lia)). rewrite Z.mul_0_l, Z.add_0_r. unfold LeafSlot.
      by rewrite Hp.
    + intros i Hi. rewrite (LeafSlot_directory sp sp1) by done.
      replace (va + PAGE_SIZE + Z.of_nat i * PAGE_SIZE)
        with (va + Z.of_nat (S i) * PAGE_SIZE) by lia.
      apply Hslot. lia.
  - intros i pte Hi Hpte. destruct i as [|i].
    + rewrite Z.mul_0_l, Z.add_0_r in Hpte. unfold LeafEntry, LeafSlot in Hpte.
      rewrite Hdir, Hdir1 in Hpte.
      destruct (PTE_Present (word (Directory sp) (DirectoryIndexOf va))) eqn:Hp; [|done].
      cbn [mbind option_bind] in Hpte. apply Some_inj in Hpte. subst pte.
      apply Hasked.
      destruct (decide (PTE_Entry
                          (word (PageTables sp)
                                (PTE_Entry (word (Directory sp) (DirectoryIndexOf va)),
                                 TableIndexOf va)) = 0)) as [Hzero|Hmapped].
      * rewrite Hwords1, decide_False by (intros (_ & _ & ?); done).
        intros Hentry. done.
      * rewrite Hwords1, decide_True by done. apply AccessChanged_as_asked.
    + apply (Hrange i pte); [lia|].
      by replace (va + PAGE_SIZE + Z.of_nat i * PAGE_SIZE)
        with (va + Z.of_nat (S i) * PAGE_SIZE) by lia.
Qed.

Lemma ChangeAccessPage_locals K ipi inv MapFlags MapFlagsMask a sp l :
  let l' := (ChangeAccessPage K ipi inv MapFlags MapFlagsMask a (sp, l)).2 in
  (ipi = false → AccessChangedSomething l' = AccessChangedSomething l) ∧
  (ipi = true ∨ inv = false → AccessTlbInvalidated l' = AccessTlbInvalidated l) ∧
  (Z.land MapFlagsMask (MAP_FLAG_READ_ONLY K) = 0 →
   Z.land MapFlags (MAP_FLAG_PRESENT K) ≠ 0 → l' = l).
Proof.
  cbv zeta. unfold ChangeAccessPage.
  set (sp1 := CopyKernelDirectoryEntry sp a).
  destruct (negb (PTE_Present (word (Directory sp1) (DirectoryIndexOf a)))); [done|].
  destruct (PTE_Entry _ =? 0); [done|].
  set (Present := negb (Z.land MapFlags (MAP_FLAG_PRESENT K) =? 0)).
  set (SetWritable := negb (Z.land MapFlagsMask (MAP_FLAG_READ_ONLY K) =? 0) && _).
  set (SetPresent := negb (Z.land MapFlagsMask (MAP_FLAG_PRESENT K) =? 0) && _).
  destruct (SetWritable || (SetPresent && negb Present)) eqn:Hchanged.
  - destruct ipi, inv; cbn [negb snd AccessChangedSomething AccessTlbInvalidated];
      (split; [done|]); (split; [intros [?|?]; done|]);
      intros Hmask Hflags; exfalso;
      unfold SetWritable, Present in Hchanged; rewrite Hmask in Hchanged;
      cbn [negb andb orb] in Hchanged;
      (destruct (Z.land MapFlags (MAP_FLAG_PRESENT K) =? 0) eqn:Hz; [lia|]);
      cbn [negb] in Hchanged; by rewrite andb_false_r in Hchanged.
  - done.
Qed.

Lemma ChangeAccessLoop_locals K ipi inv MapFlags MapFlagsMask count va sp l :
  let l' := (ChangeAccessLoop K ipi inv MapFlags MapFlagsMask count va (sp, l)).2 in
  (ipi = false → AccessChangedSomething l' = AccessChangedSomething l) ∧
  (ipi = true ∨ inv = false → AccessTlbInvalidated l' = AccessTlbInvalidated l) ∧
  (Z.land MapFlagsMask (MAP_FLAG_READ_ONLY K) = 0 →
   Z.land MapFlags (MAP_FLAG_PRESENT K) ≠ 0 → l' = l).
Proof.
  cbv zeta. revert va sp l. induction count as [|count IH]; intros va sp l; [done|].
  cbn [ChangeAccessLoop].
  pose proof (ChangeAccessPage_locals K ipi inv MapFlags MapFlagsMask va sp l) as Hpage.
  cbv zeta in Hpage.
  destruct (ChangeAccessPage K ipi inv MapFlags MapFlagsMask va (sp, l)) as [sp1 l1].
  cbn [snd] in Hpage. destruct Hpage as (H1 & H2 & H3).
  destruct (IH (UINTN (va + PAGE_SIZE)) sp1 l1) as (H1' & H2' & H3').
  split; [|split].
  - intros Hipi. by rewrite H1', H1.
  - intros Hoff. by rewrite H2', H2.
  - intros Hmask Hflags. by rewrite H3', H3.
Qed.

(** X15.  MmpChangeMemoryRegionAccess on a range of user space changes
    permissions only.  Both page directories and the resident set counter
    stay as they are, no leaf entry outside the range is written, no leaf
    entry changes its frame or its dirty bit, and so MmpVirtualToPhysical
    returns the same physical address as before for every user address. *)
Theorem change_access_keeps_translations
    (K : MAP_FLAGS) (ThreadCount : Z) (sp : ADDRESS_SPACE_X86)
    (va : Z) (n : nat) (MapFlags MapFlagsMask : Z) :
  0 <= va → va + Z.of_nat n * PAGE_SIZE <= KERNEL_VA_START →
  let sp' := access_space
               (MmpChangeMemoryRegionAccess K ThreadCount sp va (Z.of_nat n)
                                            MapFlags MapFlagsMask) in
  Directory sp' = Directory sp ∧
  MmKernelPageDirectory sp' = MmKernelPageDirectory sp ∧
  ResidentSet sp' = ResidentSet sp ∧
  (∀ slot, (∀ i, (i < n)%nat → LeafSlot sp (va + Z.of_nat i * PAGE_SIZE) ≠ Some slot) →
           word (PageTables sp') slot = word (PageTables sp) slot) ∧
  (∀ slot, PTE_Entry (word (PageTables sp') slot) = PTE_Entry (word (PageTables sp) slot) ∧
           PTE_Dirty (word (PageTables sp') slot) = PTE_Dirty (word (PageTables sp) slot)) ∧
  (∀ b, 0 <= b < KERNEL_VA_START →
        translate_address (MmpVirtualToPhysical K sp' b)
        = translate_address (MmpVirtualToPhysical K sp b)).
Proof.
  intros Hva Hend sp'. unfold sp', MmpChangeMemoryRegionAccess. cbv zeta.
  rewrite Nat2Z.id.
  set (ipi := negb _). set (inv := negb _).
  pose proof (ChangeAccessLoop_user K ipi inv MapFlags MapFlagsMask n va sp
                (mkAccessLocals false []) Hva Hend) as Hloop. cbv zeta in Hloop.
  destruct (ChangeAccessLoop K ipi inv MapFlags MapFlagsMask n va
              (sp, mkAccessLocals false [])) as [sp2 l2].
  cbn [fst access_space] in *.
  destruct Hloop as (Hdir & Hker & Hres & Hbits & _ & Hother & _).
  split; [done|]. split; [done|]. split; [done|]. split; [done|]. split; [done|].
  intros b Hb. unfold MmpVirtualToPhysical.
  rewrite !CopyKernelDirectoryEntry_user by done. rewrite Hdir.
  destruct (negb (PTE_Present (word (Directory sp) (DirectoryIndexOf b)))); [done|].
  destruct (Hbits (PTE_Entry (word (Directory sp) (DirectoryIndexOf b)), TableIndexOf b))
    as [He _].
  rewrite He. destruct (PTE_Entry _ =? 0); done.
Qed.

(** X16.  After MmpChangeMemoryRegionAccess on a range of user space every leaf
    entry of the range that has a frame carries the permissions asked for:
    it is writable exactly when the flags do not say read-only, if the mask
    names read-only, and present exactly when the flags say present, if the
    mask names present. *)
Theorem change_access_sets_what_is_asked
    (K : MAP_FLAGS) (ThreadCount : Z) (sp : ADDRESS_SPACE_X86)
    (va : Z) (n : nat) (MapFlags MapFlagsMask : Z) (i : nat) (pte : Z) :
  0 <= va → va + Z.of_nat n * PAGE_SIZE <= KERNEL_VA_START →
  (i < n)%nat →
  LeafEntry (access_space
               (MmpChangeMemoryRegionAccess K ThreadCount sp va (Z.of_nat n)
                                            MapFlags MapFlagsMask))
            (va + Z.of_nat i * PAGE_SIZE) = Some pte →
  PTE_Entry pte ≠ 0 →
  (Z.land MapFlagsMask (MAP_FLAG_READ_ONLY K) ≠ 0 →
   PTE_Writable pte = (Z.land MapFlags (MAP_FLAG_READ_ONLY K) =? 0)) ∧
  (Z.land MapFlagsMask (MAP_FLAG_PRESENT K) ≠ 0 →
   PTE_Present pte = negb (Z.land MapFlags (MAP_FLAG_PRESENT K) =? 0)).
Proof.
  intros Hva Hend Hi. unfold MmpChangeMemoryRegionAccess. cbv zeta.
  rewrite Nat2Z.id.
  set (ipi := negb _). set (inv := negb _).
  pose proof (ChangeAccessLoop_user K ipi inv MapFlags MapFlagsMask n va sp
                (mkAccessLocals false []) Hva Hend) as Hloop. cbv zeta in Hloop.
  destruct (ChangeAccessLoop K ipi inv MapFlags MapFlagsMask n va
              (sp, mkAccessLocals false [])) as [sp2 l2].
  cbn [fst access_space] in *.
  destruct Hloop as (_ & _ & _ & _ & _ & _ & Hrange).
  intros Hpte. exact (Hrange i pte Hi Hpte).
Qed.

(** X17.  What MmpChangeMemoryRegionAccess decides about the translation
    buffers.  For a user range of a process with at most one thread no IPI
    is sent, and with no thread left nothing is invalidated at all; when the
    IPI is in force nothing is invalidated on the local processor; and a call
    that only makes pages present invalidates nothing and sends nothing. *)
Theorem change_access_translation_buffer_decisions
    (K : MAP_FLAGS) (ThreadCount : Z) (sp : ADDRESS_SPACE_X86)
    (va PageCount MapFlags MapFlagsMask : Z) :
  let r := MmpChangeMemoryRegionAccess K ThreadCount sp va PageCount MapFlags MapFlagsMask in
  (va < KERNEL_VA_START → ThreadCount <= 1 → access_ipi_sent r = false) ∧
  (va < KERNEL_VA_START → ThreadCount = 0 →
   access_ipi_sent r = false ∧ access_tlb_invalidated r = []) ∧
  (KERNEL_VA_START <= va ∨ 1 < ThreadCount → access_tlb_invalidated r = []) ∧
  (Z.land MapFlagsMask (MAP_FLAG_READ_ONLY K) = 0 →
   Z.land MapFlags (MAP_FLAG_PRESENT K) ≠ 0 →
   access_ipi_sent r = false ∧ access_tlb_invalidated r = []).
Proof.
  cbv zeta. unfold MmpChangeMemoryRegionAccess. cbv zeta.
  set (ipi := negb (negb (KERNEL_VA_START <=? va) && (ThreadCount <=? 1))).
  set (inv := negb (negb (KERNEL_VA_START <=? va) && (ThreadCount <=? 1) &&
                    (ThreadCount =? 0))).
  pose proof (ChangeAccessLoop_locals K ipi inv MapFlags MapFlagsMask (Z.to_nat PageCount)
                va sp (mkAccessLocals false [])) as Hloop. cbv zeta in Hloop.
  destruct (ChangeAccessLoop K ipi inv MapFlags MapFlagsMask (Z.to_nat PageCount) va
              (sp, mkAccessLocals false [])) as [sp2 l2].
  cbn [snd access_ipi_sent access_tlb_invalidated AccessChangedSomething
       AccessTlbInvalidated] in *.
  destruct Hloop as (H1 & H2 & H3).
  split; [|split; [|split]].
  - intros Huser Hone. apply H1. unfold ipi.
    assert ((KERNEL_VA_START <=? va) = false) as -> by lia.
    assert ((ThreadCount <=? 1) = true) as -> by lia. done.
  - intros Huser Hzero. split.
    + apply H1. unfold ipi.
      assert ((KERNEL_VA_START <=? va) = false) as -> by lia.
      assert ((ThreadCount <=? 1) = true) as -> by lia. done.
    + apply H2. right. unfold inv.
      assert ((KERNEL_VA_START <=? va) = false) as -> by lia.
      assert ((ThreadCount <=? 1) = true) as -> by lia.
      assert ((ThreadCount =? 0) = true) as -> by lia. done.
  - intros Hcase. apply H2. left. unfold ipi. destruct Hcase as [Hk|Hmany].
    + assert ((KERNEL_VA_START <=? va) = true) as -> by lia. done.
    + assert ((ThreadCount <=? 1) = false) as -> by lia. by rewrite andb_false_r.
  - intros Hmask Hflags. by rewrite (H3 Hmask Hflags).
Qed.

Lemma change_access_keeps_translations_witness :
  let sp' := access_space
               (MmpChangeMemoryRegionAccess (mkMapFlags 1 2 4 8) 1 OneLeafTable
                                            4194304 (Z.of_nat 2) 2 2) in
  Directory sp' = Directory OneLeafTable ∧
  translate_address (MmpVirtualToPhysical (mkMapFlags 1 2 4 8) sp' 4198404)
  = translate_address (MmpVirtualToPhysical (mkMapFlags 1 2 4 8) OneLeafTable 4198404).
Proof.
  assert (0 <= 4194304) as Hva by lia.
  assert (4194304 + Z.of_nat 2 * PAGE_SIZE <= KERNEL_VA_START) as Hend by (by vm_compute).
  assert (0 <= 4198404 < KERNEL_VA_START) as Hb by (by vm_compute).
  destruct (change_access_keeps_translations (mkMapFlags 1 2 4 8) 1 OneLeafTable
              4194304 2 2 2 Hva Hend) as (Hdir & _ & _ & _ & _ & Hsame).
  split; [exact Hdir|exact (Hsame 4198404 Hb)].
Defined.

Lemma change_access_sets_what_is_asked_witness :
  PTE_Writable 4198405 = false ∧ PTE_Present 4198405 = true.
Proof.
  assert (0 <= 4194304) as Hva by lia.
  assert (4194304 + Z.of_nat 2 * PAGE_SIZE <= KERNEL_VA_START) as Hend by (by vm_compute).
  assert (LeafEntry (access_space
                       (MmpChangeMemoryRegionAccess (mkMapFlags 1 2 4 8) 1 OneLeafTable
                                                    4194304 (Z.of_nat 2) 3 3))
                    (4194304 + Z.of_nat 1 * PAGE_SIZE) = Some 4198405) as Hpte
    by (vm_compute; reflexivity).
  assert (PTE_Entry 4198405 ≠ 0) as Hframe by (by vm_compute).
  assert (Z.land 3 (MAP_FLAG_READ_ONLY (mkMapFlags 1 2 4 8)) ≠ 0) as Hro by (by vm_compute).
  assert (Z.land 3 (MAP_FLAG_PRESENT (mkMapFlags 1 2 4 8)) ≠ 0) as Hpr by (by vm_compute).
  assert (1 < 2)%nat as Hi by lia.
  destruct (change_access_sets_what_is_asked (mkMapFlags 1 2 4 8) 1 OneLeafTable
              4194304 2 3 3 1 4198405 Hva Hend Hi Hpte Hframe) as [Hw Hp].
  split; [exact (Hw Hro)|exact (Hp Hpr)].
Defined.

(** ** MmpCheckDirectoryUpdates *)

Lemma MmpCheckDirectoryUpdates_nothing sp FaultingAddress :
  FaultingAddress < KERNEL_VA_START ∨
  PTE_Present (word (MmKernelPageDirectory sp) (DirectoryIndexOf FaultingAddress)) = false ∨
  PTE_Present (word (Directory sp) (DirectoryIndexOf FaultingAddress)) = true →
  MmpCheckDirectoryUpdates sp FaultingAddress = (false, sp).
Proof.
  intros Hcase. unfold MmpCheckDirectoryUpdates. cbv zeta.
  destruct (FaultingAddress <? KERNEL_VA_START) eqn:Huser; [done|].
  destruct Hcase as [Hcase|[Hcase|Hcase]]; [lia| |]; rewrite Hcase; [done|].
  by rewrite andb_false_r.
Qed.

Lemma MmpCheckDirectoryUpdates_update sp FaultingAddress :
  KERNEL_VA_START <= FaultingAddress →
  PTE_Present (word (MmKernelPageDirectory sp) (DirectoryIndexOf FaultingAddress)) = true →
  PTE_Present (word (Directory sp) (DirectoryIndexOf FaultingAddress)) = false →
  MmpCheckDirectoryUpdates sp FaultingAddress
  = (PTE_Present (word (PageTables sp)
                       (PTE_Entry (word (MmKernelPageDirectory sp)
                                        (DirectoryIndexOf FaultingAddress)),
                        TableIndexOf FaultingAddress)),
     set_Directory (<[DirectoryIndexOf FaultingAddress :=
                        word (MmKernelPageDirectory sp) (DirectoryIndexOf FaultingAddress)]>
                      (Directory sp)) sp).
Proof.
  intros Hkernel Hthere Hhere. unfold MmpCheckDirectoryUpdates. cbv zeta.
  assert ((FaultingAddress <? KERNEL_VA_START) = false) as -> by lia.
  rewrite Hthere, Hhere. cbn [andb negb Directory set_Directory PageTables].
  rewrite word_insert, decide_True by done.
  by destruct (PTE_Present (word (PageTables sp) _)).
Qed.

(** X18.  MmpCheckDirectoryUpdates never answers TRUE for an address below
    KERNEL_VA_START and leaves the address space alone there.  When it
    answers TRUE the directory entry of the address was not present before
    and a present leaf entry covers the address afterwards.  It writes no
    other directory entry, no leaf entry and not the kernel's directory, and
    a second call on the same address right after answers FALSE and changes
    nothing: an update is made once. *)
Theorem directory_update_is_made_once (sp : ADDRESS_SPACE_X86) (FaultingAddress : Z) :
  let r := MmpCheckDirectoryUpdates sp FaultingAddress in
  (FaultingAddress < KERNEL_VA_START → r = (false, sp)) ∧
  (r.1 = true →
   PTE_Present (word (Directory sp) (DirectoryIndexOf FaultingAddress)) = false ∧
   word (Directory r.2) (DirectoryIndexOf FaultingAddress)
   = word (MmKernelPageDirectory sp) (DirectoryIndexOf FaultingAddress) ∧
   IsPresent r.2 FaultingAddress = true) ∧
  (∀ i, i ≠ DirectoryIndexOf FaultingAddress →
        word (Directory r.2) i = word (Directory sp) i) ∧
  PageTables r.2 = PageTables sp ∧
  MmKernelPageDirectory r.2 = MmKernelPageDirectory sp ∧
  ResidentSet r.2 = ResidentSet sp ∧
  MmpCheckDirectoryUpdates r.2 FaultingAddress = (false, r.2).
Proof.
  cbv zeta. set (di := DirectoryIndexOf FaultingAddress).
  assert (∀ sp0, MmpCheckDirectoryUpdates sp FaultingAddress = (false, sp0) → sp0 = sp →
     (FaultingAddress < KERNEL_VA_START → (false, sp0) = (false, sp)) ∧
     ((false, sp0).1 = true →
      PTE_Present (word (Directory sp) di) = false ∧
      word (Directory (false, sp0).2) di = word (MmKernelPageDirectory sp) di ∧
      IsPresent (false, sp0).2 FaultingAddress = true) ∧
     (∀ i, i ≠ di → word (Directory (false, sp0).2) i = word (Directory sp) i) ∧
     PageTables (false, sp0).2 = PageTables sp ∧
     MmKernelPageDirectory (false, sp0).2 = MmKernelPageDirectory sp ∧
     ResidentSet (false, sp0).2 = ResidentSet sp ∧
     MmpCheckDirectoryUpdates (false, sp0).2 FaultingAddress = (false, (false, sp0).2))
    as Hnothing.
  { intros sp0 Hcall ->. cbn [fst snd]. rewrite Hcall.
    split; [done|]. split; [done|]. repeat (split; [done|]). done. }
  destruct (Z.lt_ge_cases FaultingAddress KERNEL_VA_START) as [Huser|Hkernel].
  { pose proof (MmpCheckDirectoryUpdates_nothing sp FaultingAddress (or_introl Huser)) as Hcall.
    rewrite Hcall. by apply Hnothing. }
  destruct (PTE_Present (word (MmKernelPageDirectory sp) di)) eqn:Hthere.
  2:{ pose proof (MmpCheckDirectoryUpdates_nothing sp FaultingAddress
                    (or_intror (or_introl Hthere))) as Hcall.
      rewrite Hcall. by apply Hnothing. }
  destruct (PTE_Present (word (Directory sp) di)) eqn:Hhere.
  { pose proof (MmpCheckDirectoryUpdates_nothing sp FaultingAddress
                  (or_intror (or_intror Hhere))) as Hcall.
    rewrite Hcall. by apply Hnothing. }
  rewrite (MmpCheckDirectoryUpdates_update sp FaultingAddress Hkernel Hthere Hhere).
  fold di. cbn [fst snd].
  set (sp1 := set_Directory _ sp).
  assert (word (Directory sp1) di = word (MmKernelPageDirectory sp) di) as Hdi.
  { unfold sp1. cbn [Directory set_Directory]. by rewrite word_insert, decide_True. }
  split; [lia|]. split.
  { intros Hr. split; [done|]. split; [done|].
    unfold IsPresent, LeafEntry, LeafSlot. fold di. rewrite Hdi, Hthere.
    cbn [mbind option_bind]. unfold sp1. cbn [PageTables set_Directory]. exact Hr. }
  split.
  { intros i Hi. unfold sp1. cbn [Directory set_Directory].
    by rewrite word_insert, decide_False. }
  split; [done|]. split; [done|]. split; [done|].
  apply MmpCheckDirectoryUpdates_nothing. right. right. fold di. by rewrite Hdi.
Qed.


(** ** MmpTearDownPageTables *)

Lemma FramesOfRuns_app runs1 runs2 :
  FramesOfRuns (runs1 ++ runs2) = FramesOfRuns runs1 ++ FramesOfRuns runs2.
Proof. unfold FramesOfRuns. apply flat_map_app. Qed.

Lemma FramesOfRuns_one a k :
  FramesOfRuns [(a, Z.of_nat k)] = map (λ j, a + PAGE_SIZE * Z.of_nat j) (seq 0 k).
Proof. unfold FramesOfRuns. cbn [flat_map fst snd]. by rewrite Nat2Z.id, app_nil_r. Qed.

Lemma FramesOfRuns_extend a k :
  FramesOfRuns [(a, Z.of_nat (S k))]
  = FramesOfRuns [(a, Z.of_nat k)] ++ [a + PAGE_SIZE * Z.of_nat k].
Proof. rewrite !FramesOfRuns_one. rewrite seq_S, map_app. done. Qed.

Lemma ULONG_range x : 0 <= ULONG x < 2 ^ 32.
Proof. unfold ULONG, wrap. apply Z.mod_pos_bound. lia. Qed.

Lemma RunCollected_start : RunCollected INVALID_PHYSICAL_ADDRESS 0 [] 0 [].
Proof.
  split; [done|]. split; [done|]. split; [done|]. split; [apply Forall_nil_2|done].
Qed.

(** The three ways a loop goes on with a frame: the first run begins, the run
    grows, or the run is released and another begins. *)
Lemma RunCollected_first a freed frames p :
  RunCollected a 0 freed 0 frames →
  0 <= p < 2 ^ 32 →
  RunCollected p PAGE_SIZE freed 1 (frames ++ [p]).
Proof.
  intros (_ & _ & _ & Hruns & Hframes) Hp.
  split; [unfold PAGE_SIZE; lia|]. split; [rewrite length_app; cbn [length]; lia|].
  split; [done|]. split; [done|].
  rewrite FramesOfRuns_app in *. rewrite FramesOfRuns_one in *. cbn [seq map] in *.
  rewrite app_nil_r in Hframes. rewrite Hframes. do 2 f_equal. unfold PAGE_SIZE. lia.
Qed.

Lemma RunCollected_grow a bytes freed k frames :
  RunCollected a bytes freed k frames →
  bytes ≠ 0 → Z.of_nat (length frames) < 1000000 →
  RunCollected a (UINTN (bytes + PAGE_SIZE)) freed (S k)
               (frames ++ [ULONGLONG (a + bytes)]).
Proof.
  intros (Hsize & Hk & Hrange & Hruns & Hframes) Hbytes Hlen.
  assert (k ≠ 0%nat) as Hk0 by (unfold PAGE_SIZE in *; lia).
  specialize (Hrange Hk0).
  split; [rewrite Hsize, UINTN_small; unfold PAGE_SIZE; lia|].
  split; [rewrite length_app; cbn [length]; lia|]. split; [done|]. split; [done|].
  rewrite FramesOfRuns_app in *. rewrite FramesOfRuns_extend, app_assoc, Hframes.
  do 2 f_equal. rewrite ULONGLONG_small by (unfold PAGE_SIZE in *; lia). lia.
Qed.

Lemma RunCollected_next a bytes freed k frames p :
  RunCollected a bytes freed k frames →
  bytes ≠ 0 → 0 <= p < 2 ^ 32 →
  RunCollected p PAGE_SIZE (freed ++ [(a, Z.shiftr bytes PAGE_SHIFT)]) 1 (frames ++ [p]).
Proof.
  intros (Hsize & Hk & Hrange & Hruns & Hframes) Hbytes Hp.
  assert (k ≠ 0%nat) as Hk0 by (unfold PAGE_SIZE in *; lia).
  assert (Z.shiftr bytes PAGE_SHIFT = Z.of_nat k) as ->.
  { rewrite Hsize. unfold PAGE_SHIFT.
    replace (PAGE_SIZE * Z.of_nat k) with (Z.of_nat k * 2 ^ 12) by (unfold PAGE_SIZE; lia).
    by rewrite Z.shiftr_div_pow2, Z.div_mul by lia. }
  split; [unfold PAGE_SIZE; lia|]. split; [rewrite length_app; cbn [length]; lia|].
  split; [done|]. split.
  { apply Forall_app. split; [done|]. apply Forall_singleton. cbn [snd]. lia. }
  rewrite FramesOfRuns_app, Hframes, FramesOfRuns_one. cbn [seq map].
  do 2 f_equal. unfold PAGE_SIZE. lia.
Qed.

(** The release of the last run, after the loop. *)
Lemma RunCollected_flush a bytes freed k frames :
  RunCollected a bytes freed k frames →
  let runs := if negb (bytes =? 0)
              then freed ++ [(a, Z.shiftr bytes PAGE_SHIFT)] else freed in
  FramesOfRuns runs = frames ∧ Forall (λ run, 1 <= run.2) runs.
Proof.
  intros (Hsize & Hk & Hrange & Hruns & Hframes). cbv zeta.
  destruct (bytes =? 0) eqn:Hz; cbn [negb].
  - assert (k = 0%nat) as -> by (unfold PAGE_SIZE in *; lia).
    rewrite FramesOfRuns_app, FramesOfRuns_one in Hframes. cbn [seq map] in Hframes.
    by rewrite app_nil_r in Hframes.
  - assert (Z.shiftr bytes PAGE_SHIFT = Z.of_nat k) as ->.
    { rewrite Hsize. unfold PAGE_SHIFT.
      replace (PAGE_SIZE * Z.of_nat k) with (Z.of_nat k * 2 ^ 12) by (unfold PAGE_SIZE; lia).
      by rewrite Z.shiftr_div_pow2, Z.div_mul by lia. }
    split; [done|]. apply Forall_app. split; [done|]. apply Forall_singleton. cbn [snd].
    unfold PAGE_SIZE in *. lia.
Qed.

Lemma TearDownStep_collected Directory di l k frames :
  RunCollected (TearRunPhysicalAddress l) (TearRunSize l) (TearFreed l) k frames →
  TearTotal l = Z.of_nat (length frames) →
  Z.of_nat (length frames) < 1000000 →
  let l' := TearDownStep Directory di l in
  let frames' := frames ++ LeafTableFrames Directory 1 di in
  (∃ k', RunCollected (TearRunPhysicalAddress l') (TearRunSize l') (TearFreed l') k' frames') ∧
  TearTotal l' = Z.of_nat (length frames').
Proof.
  intros Hc Htotal Hlen. cbv zeta.
  unfold TearDownStep. cbn [LeafTableFrames]. rewrite app_nil_r.
  destruct (PTE_Entry (word Directory di) =? 0) eqn:Hz; cbn [negb].
  { rewrite app_nil_r. split; [by exists k|done]. }
  set (p := ULONG (Z.shiftl (PTE_Entry (word Directory di)) PAGE_SHIFT)).
  pose proof (ULONG_range (Z.shiftl (PTE_Entry (word Directory di)) PAGE_SHIFT)) as Hp.
  fold p in Hp.
  assert (ULONG (TearTotal l + 1) = Z.of_nat (length (frames ++ [p]))) as Htotal'.
  { rewrite length_app. cbn [length]. rewrite Htotal. unfold ULONG, wrap.
    rewrite Z.mod_small; lia. }
  destruct (TearRunSize l =? 0) eqn:Hrun; cbn [negb].
  - cbn [TearRunPhysicalAddress TearRunSize TearFreed TearTotal]. split; [|done].
    exists 1%nat. apply Z.eqb_eq in Hrun. rewrite Hrun in Hc.
    assert (k = 0%nat) as -> by (destruct Hc as (Hsize & _); unfold PAGE_SIZE in *; lia).
    by eapply RunCollected_first.
  - apply Z.eqb_neq in Hrun.
    destruct (ULONGLONG (TearRunPhysicalAddress l + TearRunSize l) =? p) eqn:Hnext;
      cbn [TearRunPhysicalAddress TearRunSize TearFreed TearTotal]; (split; [|done]).
    + exists (S k). apply Z.eqb_eq in Hnext. rewrite <- Hnext.
      by apply (RunCollected_grow _ _ _ k).
    + exists 1%nat. by apply (RunCollected_next _ _ _ k).
Qed.

Lemma LeafTableFrames_length Directory count di :
  (length (LeafTableFrames Directory count di) ≤ count)%nat.
Proof.
  revert di. induction count as [|count IH]; intros di; cbn [LeafTableFrames]; [done|].
  rewrite length_app. specialize (IH (di + 1)). destruct (_ =? 0); cbn [length]; lia.
Qed.

Lemma TearDownLoop_collected Directory count di l k frames :
  RunCollected (TearRunPhysicalAddress l) (TearRunSize l) (TearFreed l) k frames →
  TearTotal l = Z.of_nat (length frames) →
  0 <= di → di + Z.of_nat count < 2 ^ 32 →
  Z.of_nat (length frames + count) < 1000000 →
  let l' := TearDownLoop Directory count di l in
  let frames' := frames ++ LeafTableFrames Directory count di in
  (∃ k', RunCollected (TearRunPhysicalAddress l') (TearRunSize l') (TearFreed l') k' frames') ∧
  TearTotal l' = Z.of_nat (length frames').
Proof.
  revert di l k frames.
  induction count as [|count IH]; intros di l k frames Hc Htotal Hdi Hend Hlen.
  { cbn [TearDownLoop LeafTableFrames]. rewrite app_nil_r. split; [by exists k|done]. }
  cbn [TearDownLoop].
  destruct (TearDownStep_collected Directory di l k frames Hc Htotal ltac:(lia))
    as [[k1 Hc1] Htotal1].
  assert (ULONG (di + 1) = di + 1) as ->.
  { unfold ULONG, wrap. apply Z.mod_small. lia. }
  cbn [LeafTableFrames] in Hc1, Htotal1. rewrite app_nil_r in Hc1, Htotal1.
  destruct (IH (di + 1) _ k1 _ Hc1 Htotal1 ltac:(lia) ltac:(lia)) as [Hc' Htotal'].
  { rewrite length_app. destruct (_ =? 0); cbn [length]; lia. }
  cbn [LeafTableFrames]. by rewrite <- app_assoc in Hc', Htotal'.
Qed.

(** X19.  On the termination of a process MmpTearDownPageTables releases the
    frame of every leaf table that a directory entry below the directory
    index of USER_VA_END refers to, each once and in the order of the
    indices, in runs of adjacent frames; it takes their number off the count
    of page tables.  When the process is not terminated it does nothing. *)
Theorem tear_down_releases_every_leaf_table
    (sp : ADDRESS_SPACE_X86) (PageTableCount : Z) :
  let user := Z.to_nat (Z.shiftr USER_VA_END PAGE_DIRECTORY_SHIFT) in
  let result := MmpTearDownPageTables sp PageTableCount true in
  FramesOfRuns result.2 = LeafTableFrames (Directory sp) user 0 ∧
  result.1 = ULONG (PageTableCount
                    - Z.of_nat (length (LeafTableFrames (Directory sp) user 0))) ∧
  (∀ run, run ∈ result.2 → 1 <= run.2) ∧
  MmpTearDownPageTables sp PageTableCount false = (PageTableCount, []).
Proof.
  intros user result. unfold result, MmpTearDownPageTables. cbn [negb fst snd]. fold user.
  assert (user = 511%nat) as Huser by reflexivity.
  destruct (TearDownLoop_collected (Directory sp) user 0
              (mkTearDown INVALID_PHYSICAL_ADDRESS 0 0 []) 0 [])
    as [[k Hc] Htotal].
  { apply RunCollected_start. }
  { done. }
  { done. }
  { rewrite Huser. done. }
  { rewrite Huser. cbn [length]. lia. }
  cbn [app] in Htotal, Hc.
  set (l := TearDownLoop (Directory sp) user 0 _) in *.
  destruct (RunCollected_flush _ _ _ _ _ Hc) as [Hframes Hruns].
  split; [exact Hframes|]. split; [by rewrite Htotal|]. split; [|done].
  intros run Hrun. rewrite Forall_forall in Hruns. by apply Hruns.
Qed.


(** ** MmpUnmapPages: the frames released and the dirty report *)

Lemma SameFrames_refl sp : SameFrames sp sp.
Proof. by split. Qed.

Lemma SameFrames_trans sp1 sp2 sp3 :
  SameFrames sp1 sp2 → SameFrames sp2 sp3 → SameFrames sp1 sp3.
Proof.
  intros [Hd1 Hs1] [Hd2 Hs2]. split; [congruence|].
  intros slot. destruct (Hs1 slot), (Hs2 slot). split; congruence.
Qed.

Lemma PTE_ClearPresent_frame pte :
  PTE_Entry (PTE_ClearPresent pte) = PTE_Entry pte ∧
  PTE_Dirty (PTE_ClearPresent pte) = PTE_Dirty pte.
Proof.
  change (PTE_ClearPresent pte) with (PTE_SetBit pte 0 false).
  split; [apply PTE_Entry_SetBit; lia|].
  unfold PTE_Dirty. rewrite PTE_SetBit_testbit by lia. by rewrite decide_False.
Qed.

Lemma UnmapFirstPassPage_user_frames UnmapFlags WantDirty InvalidateTlb a sp l :
  0 <= a < KERNEL_VA_START →
  negb (HasFlag UnmapFlags UNMAP_FLAG_FREE_PHYSICAL_PAGES) && negb WantDirty = false →
  SameFrames sp (UnmapFirstPassPage UnmapFlags WantDirty InvalidateTlb a (sp, l)).1.
Proof.
  intros Ha Hkeep.
  rewrite (UnmapFirstPassPage_user_space UnmapFlags WantDirty InvalidateTlb a sp l Ha).
  rewrite Hkeep.
  destruct (PTE_Present _ && negb (PTE_Entry _ =? 0)); [|apply SameFrames_refl].
  split; [done|]. intros slot. cbn [PageTables set_PageTables].
  rewrite word_insert. destruct (decide _) as [->|]; [|done].
  apply PTE_ClearPresent_frame.
Qed.

Lemma UnmapFirstPass_user_frames UnmapFlags WantDirty InvalidateTlb count va sp l :
  0 <= va → va + Z.of_nat count * PAGE_SIZE <= KERNEL_VA_START →
  negb (HasFlag UnmapFlags UNMAP_FLAG_FREE_PHYSICAL_PAGES) && negb WantDirty = false →
  SameFrames sp (UnmapFirstPass UnmapFlags WantDirty InvalidateTlb count va (sp, l)).1.
Proof.
  intros Hva Hend Hkeep. revert va sp l Hva Hend.
  induction count as [|count IH]; intros va sp l Hva Hend; [apply SameFrames_refl|].
  cbn [UnmapFirstPass].
  assert (0 <= va < KERNEL_VA_START) as Huser by (unfold PAGE_SIZE in *; lia).
  pose proof (UnmapFirstPassPage_user_frames UnmapFlags WantDirty InvalidateTlb va sp l
                Huser Hkeep) as Hstep.
  destruct (UnmapFirstPassPage UnmapFlags WantDirty InvalidateTlb va (sp, l)) as [sp1 l1].
  cbn [fst] in Hstep.
  assert (UINTN (va + PAGE_SIZE) = va + PAGE_SIZE) as ->.
  { apply UINTN_small. unfold PAGE_SIZE, KERNEL_VA_START in *. lia. }
  eapply SameFrames_trans; [exact Hstep|]. apply IH; unfold PAGE_SIZE in *; lia.
Qed.

(** The frames and the dirty bits of a range depend on the leaf entries of
    the range only. *)
Lemma MappedFrames_ext sp sp' va n :
  Directory sp' = Directory sp →
  (∀ i slot, (i < n)%nat → LeafSlot sp (va + Z.of_nat i * PAGE_SIZE) = Some slot →
     PTE_Entry (word (PageTables sp') slot) = PTE_Entry (word (PageTables sp) slot) ∧
     PTE_Dirty (word (PageTables sp') slot) = PTE_Dirty (word (PageTables sp) slot)) →
  MappedFrames sp' va n = MappedFrames sp va n ∧
  MappedDirty sp' va n = MappedDirty sp va n.
Proof.
  intros Hdir. revert va. induction n as [|n IH]; intros va Hsame; [done|].
  cbn [MappedFrames MappedDirty].
  destruct (IH (va + PAGE_SIZE)) as [-> ->].
  { intros i slot Hi Hslot. apply (Hsame (S i)); [lia|].
    by replace (va + Z.of_nat (S i) * PAGE_SIZE)
      with (va + PAGE_SIZE + Z.of_nat i * PAGE_SIZE) by lia. }
  unfold LeafEntry. rewrite (LeafSlot_directory sp sp' va Hdir).
  destruct (LeafSlot sp va) as [slot|] eqn:Hslot; cbn [mbind option_bind]; [|done].
  destruct (Hsame O slot ltac:(lia)) as [-> ->]; [|done].
  by rewrite Z.mul_0_l, Z.add_0_r.
Qed.

Lemma MappedFrames_same sp sp' va n :
  SameFrames sp sp' →
  MappedFrames sp' va n = MappedFrames sp va n ∧
  MappedDirty sp' va n = MappedDirty sp va n.
Proof. intros [Hdir Hslots]. apply MappedFrames_ext; [done|]. intros. apply Hslots. Qed.

(** In a range below KERNEL_VA_START whose leaf tables are distinct, different
    pages have different leaf entries. *)
Lemma LeafSlot_distinct sp va n i j slot :
  0 <= va → LeafTablesDistinct sp va n →
  (i < n)%nat → (j < n)%nat → i ≠ j →
  LeafSlot sp (va + Z.of_nat i * PAGE_SIZE) = Some slot →
  LeafSlot sp (va + Z.of_nat j * PAGE_SIZE) ≠ Some slot.
Proof.
  intros Hva Hdistinct Hi Hj Hij Hslot Hsame.
  unfold LeafSlot in Hslot, Hsame.
  set (a := va + Z.of_nat i * PAGE_SIZE) in *.
  set (b := va + Z.of_nat j * PAGE_SIZE) in *.
  destruct (PTE_Present (word (Directory sp) (DirectoryIndexOf a))) eqn:Hpa; [|done].
  destruct (PTE_Present (word (Directory sp) (DirectoryIndexOf b))) eqn:Hpb; [|done].
  apply Some_inj in Hslot, Hsame. subst slot.
  apply pair_eq in Hsame as [Hentry Hti].
  destruct (decide (DirectoryIndexOf a = DirectoryIndexOf b)) as [Hdi|Hdi].
  - pose proof (same_indices_same_page a b ltac:(unfold a, PAGE_SIZE; lia)
                  ltac:(unfold b, PAGE_SIZE; lia) Hdi (eq_sym Hti)) as Hpage.
    unfold a, b, PAGE_SIZE in Hpage. rewrite !Z.div_add in Hpage by lia. lia.
  - by refine (Hdistinct i j Hi Hj Hdi Hpa Hpb _).
Qed.

Lemma LeafTablesDistinct_tail sp sp' va n :
  Directory sp' = Directory sp →
  LeafTablesDistinct sp va (S n) → LeafTablesDistinct sp' (va + PAGE_SIZE) n.
Proof.
  intros Hdir Hdistinct i j Hi Hj. cbv zeta. rewrite Hdir.
  replace (va + PAGE_SIZE + Z.of_nat i * PAGE_SIZE)
    with (va + Z.of_nat (S i) * PAGE_SIZE) by lia.
  replace (va + PAGE_SIZE + Z.of_nat j * PAGE_SIZE)
    with (va + Z.of_nat (S j) * PAGE_SIZE) by lia.
  apply Hdistinct; lia.
Qed.

(** The locals the second loop leaves after one page. *)
Lemma UnmapSecondPassPage_run UnmapFlags WantDirty a sp r :
  (UnmapSecondPassPage UnmapFlags WantDirty a (sp, r)).2 =
  match LeafEntry sp a with
  | Some pte =>
      if PTE_Entry pte =? 0 then r
      else
        let r1 :=
          if HasFlag UnmapFlags UNMAP_FLAG_FREE_PHYSICAL_PAGES then
            let PhysicalPage := ULONG (Z.shiftl (PTE_Entry pte) PAGE_SHIFT) in
            if negb (RunSize r =? 0) then
              if ULONGLONG (RunPhysicalPage r + RunSize r) =? PhysicalPage
              then mkUnmapRun (RunPhysicalPage r) (UINTN (RunSize r + PAGE_SIZE))
                              (FreedRuns r) (PageWasDirty r)
              else mkUnmapRun PhysicalPage PAGE_SIZE
                              (FreedRuns r ++
                                 [(RunPhysicalPage r, Z.shiftr (RunSize r) PAGE_SHIFT)])
                              (PageWasDirty r)
            else mkUnmapRun PhysicalPage PAGE_SIZE (FreedRuns r) (PageWasDirty r)
          else r in
        if WantDirty && PTE_Dirty pte
        then mkUnmapRun (RunPhysicalPage r1) (RunSize r1) (FreedRuns r1) true
        else r1
  | None => r
  end.
Proof.
  unfold UnmapSecondPassPage, LeafEntry, LeafSlot.
  destruct (PTE_Present (word (Directory sp) (DirectoryIndexOf a)));
    cbn [negb mbind option_bind snd]; [|done].
  by destruct (PTE_Entry _ =? 0).
Qed.

Lemma UnmapSecondPassPage_collected UnmapFlags WantDirty a sp r :
  let r' := (UnmapSecondPassPage UnmapFlags WantDirty a (sp, r)).2 in
  PageWasDirty r' = PageWasDirty r || (WantDirty && MappedDirty sp a 1) ∧
  (HasFlag UnmapFlags UNMAP_FLAG_FREE_PHYSICAL_PAGES = false →
   RunSize r' = RunSize r ∧ FreedRuns r' = FreedRuns r) ∧
  (HasFlag UnmapFlags UNMAP_FLAG_FREE_PHYSICAL_PAGES = true →
   ∀ k frames,
     RunCollected (RunPhysicalPage r) (RunSize r) (FreedRuns r) k frames →
     Z.of_nat (length frames) < 1000000 →
     ∃ k', RunCollected (RunPhysicalPage r') (RunSize r') (FreedRuns r') k'
             (frames ++ MappedFrames sp a 1)).
Proof.
  cbv zeta. rewrite UnmapSecondPassPage_run. cbn [MappedFrames MappedDirty].
  rewrite app_nil_r, orb_false_r.
  destruct (LeafEntry sp a) as [pte|].
  2:{ rewrite andb_false_r, orb_false_r. split; [done|]. split; [done|].
      intros _ k frames Hc _. exists k. by rewrite app_nil_r. }
  destruct (PTE_Entry pte =? 0) eqn:Hz; cbn [negb andb].
  { rewrite andb_false_r, orb_false_r. split; [done|]. split; [done|].
    intros _ k frames Hc _. exists k. by rewrite app_nil_r. }
  cbv zeta.
  set (p := ULONG (Z.shiftl (PTE_Entry pte) PAGE_SHIFT)).
  pose proof (ULONG_range (Z.shiftl (PTE_Entry pte) PAGE_SHIFT)) as Hp. fold p in Hp.
  destruct (HasFlag UnmapFlags UNMAP_FLAG_FREE_PHYSICAL_PAGES) eqn:Hfree.
  2:{ split.
      { destruct (WantDirty && PTE_Dirty pte) eqn:Hd;
          cbn [PageWasDirty]; [by rewrite orb_true_r|by rewrite orb_false_r]. }
      split; [|done]. intros _. by destruct (WantDirty && PTE_Dirty pte). }
  split.
  { destruct (WantDirty && PTE_Dirty pte) eqn:Hd; cbn [PageWasDirty].
    - by rewrite orb_true_r.
    - rewrite orb_false_r.
      destruct (negb (RunSize r =? 0)); [|done]. by destruct (_ =? p). }
  split; [done|]. intros _ k frames Hc Hlen.
  assert (∀ r1 k1 : _,
            RunCollected (RunPhysicalPage r1) (RunSize r1) (FreedRuns r1) k1 (frames ++ [p]) →
            ∃ k', RunCollected
                    (RunPhysicalPage
                       (if WantDirty && PTE_Dirty pte
                        then mkUnmapRun (RunPhysicalPage r1) (RunSize r1) (FreedRuns r1) true
                        else r1))
                    (RunSize
                       (if WantDirty && PTE_Dirty pte
                        then mkUnmapRun (RunPhysicalPage r1) (RunSize r1) (FreedRuns r1) true
                        else r1))
                    (FreedRuns
                       (if WantDirty && PTE_Dirty pte
                        then mkUnmapRun (RunPhysicalPage r1) (RunSize r1) (FreedRuns r1) true
                        else r1)) k' (frames ++ [p])) as Hdirty.
  { intros r1 k1 Hc1. exists k1. by destruct (WantDirty && PTE_Dirty pte). }
  destruct (RunSize r =? 0) eqn:Hrun; cbn [negb].
  - apply Z.eqb_eq in Hrun. rewrite Hrun in Hc.
    assert (k = 0%nat) as -> by (destruct Hc as (Hsize & _); unfold PAGE_SIZE in *; lia).
    apply (Hdirty _ 1%nat). cbn [RunPhysicalPage RunSize FreedRuns].
    by eapply RunCollected_first.
  - apply Z.eqb_neq in Hrun.
    destruct (ULONGLONG (RunPhysicalPage r + RunSize r) =? p) eqn:Hnext.
    + apply (Hdirty _ (S k)). cbn [RunPhysicalPage RunSize FreedRuns].
      apply Z.eqb_eq in Hnext. rewrite <- Hnext. by apply (RunCollected_grow _ _ _ k).
    + apply (Hdirty _ 1%nat). cbn [RunPhysicalPage RunSize FreedRuns].
      by apply (RunCollected_next _ _ _ k).
Qed.

Lemma MappedFrames_length sp va n : (length (MappedFrames sp va n) ≤ n)%nat.
Proof.
  revert va. induction n as [|n IH]; intros va; cbn [MappedFrames]; [done|].
  rewrite length_app. specialize (IH (va + PAGE_SIZE)).
  destruct (LeafEntry sp va) as [pte|]; [destruct (PTE_Entry pte =? 0)|]; cbn [length]; lia.
Qed.

Lemma UnmapSecondPass_collected UnmapFlags WantDirty n va sp r :
  0 <= va → va + Z.of_nat n * PAGE_SIZE <= KERNEL_VA_START →
  LeafTablesDistinct sp va n →
  let r' := (UnmapSecondPass UnmapFlags WantDirty n va (sp, r)).2 in
  PageWasDirty r' = PageWasDirty r || (WantDirty && MappedDirty sp va n) ∧
  (HasFlag UnmapFlags UNMAP_FLAG_FREE_PHYSICAL_PAGES = true →
   ∀ k frames,
     RunCollected (RunPhysicalPage r) (RunSize r) (FreedRuns r) k frames →
     Z.of_nat (length frames + n) < 1000000 →
     ∃ k', RunCollected (RunPhysicalPage r') (RunSize r') (FreedRuns r') k'
             (frames ++ MappedFrames sp va n)).
Proof.
  revert va sp r. induction n as [|n IH]; intros va sp r Hva Hend Hdistinct.
  { cbv zeta. cbn [UnmapSecondPass snd MappedDirty MappedFrames].
    rewrite andb_false_r, orb_false_r. split; [done|].
    intros _ k frames Hc _. exists k. by rewrite app_nil_r. }
  cbv zeta. cbn [UnmapSecondPass].
  assert (UINTN (va + PAGE_SIZE) = va + PAGE_SIZE) as ->.
  { apply UINTN_small. unfold PAGE_SIZE, KERNEL_VA_START in *. lia. }
  destruct (UnmapSecondPassPage_collected UnmapFlags WantDirty va sp r)
    as (Hdirty1 & _ & Hrun1).
  destruct (UnmapSecondPassPage_other UnmapFlags WantDirty va sp r)
    as (Hdir1 & _ & Hother1).
  destruct (UnmapSecondPassPage UnmapFlags WantDirty va (sp, r)) as [sp1 r1].
  cbn [fst snd] in Hdirty1, Hrun1, Hdir1, Hother1.
  destruct (MappedFrames_ext sp sp1 (va + PAGE_SIZE) n Hdir1) as [Hframes Hdirty].
  { intros i slot Hi Hslot. rewrite Hother1; [done|].
    replace (va + PAGE_SIZE + Z.of_nat i * PAGE_SIZE)
      with (va + Z.of_nat (S i) * PAGE_SIZE) in Hslot by lia.
    pose proof (LeafSlot_distinct sp va (S n) (S i) O slot Hva Hdistinct
                  ltac:(lia) ltac:(lia) ltac:(lia) Hslot) as Hne.
    by rewrite Z.mul_0_l, Z.add_0_r in Hne. }
  destruct (IH (va + PAGE_SIZE) sp1 r1) as [Hdirty' Hrun'].
  { unfold PAGE_SIZE; lia. }
  { lia. }
  { by apply (LeafTablesDistinct_tail sp). }
  cbn [MappedFrames MappedDirty] in *.
  rewrite app_nil_r, orb_false_r in *.
  split.
  { rewrite Hdirty', Hdirty1, Hdirty.
    destruct (PageWasDirty r), WantDirty,
      (match LeafEntry sp va with
       | Some pte => negb (PTE_Entry pte =? 0) && PTE_Dirty pte
       | None => false
       end), (MappedDirty sp (va + PAGE_SIZE) n); done. }
  intros Hfree k frames Hc Hlen.
  destruct (Hrun1 Hfree k frames Hc ltac:(lia)) as [k1 Hc1].
  destruct (Hrun' Hfree k1 _ Hc1) as [k' Hc'].
  { rewrite length_app.
    destruct (LeafEntry sp va) as [pte|]; [destruct (PTE_Entry pte =? 0)|];
      cbn [length]; lia. }
  exists k'. by rewrite Hframes, <- app_assoc in Hc'.
Qed.

Lemma UnmapSecondPass_frees_nothing UnmapFlags WantDirty n va sp r :
  HasFlag UnmapFlags UNMAP_FLAG_FREE_PHYSICAL_PAGES = false →
  RunSize (UnmapSecondPass UnmapFlags WantDirty n va (sp, r)).2 = RunSize r ∧
  FreedRuns (UnmapSecondPass UnmapFlags WantDirty n va (sp, r)).2 = FreedRuns r.
Proof.
  intros Hfree. revert va sp r. induction n as [|n IH]; intros va sp r; [done|].
  cbn [UnmapSecondPass].
  destruct (UnmapSecondPassPage_collected UnmapFlags WantDirty va sp r)
    as (_ & Hsame & _).
  destruct (UnmapSecondPassPage UnmapFlags WantDirty va (sp, r)) as [sp1 r1].
  cbn [snd] in Hsame. destruct (Hsame Hfree) as [<- <-]. apply IH.
Qed.

Lemma HasFlag_free_used ThreadCount va UnmapFlags :
  HasFlag (UnmapFlagsUsed ThreadCount va UnmapFlags) UNMAP_FLAG_FREE_PHYSICAL_PAGES
  = HasFlag UnmapFlags UNMAP_FLAG_FREE_PHYSICAL_PAGES.
Proof.
  unfold UnmapFlagsUsed. destruct (UnmapSingleThreaded ThreadCount va); [|done].
  unfold HasFlag. rewrite <- Z.land_assoc.
  by change (Z.land (Z.lnot UNMAP_FLAG_SEND_INVALIDATE_IPI) UNMAP_FLAG_FREE_PHYSICAL_PAGES)
    with UNMAP_FLAG_FREE_PHYSICAL_PAGES.
Qed.

(** X20.  MmpUnmapPages with UNMAP_FLAG_FREE_PHYSICAL_PAGES on a range of user
    space whose leaf tables are distinct releases exactly the frames that the
    leaf entries of the range held before the call, each once and in the
    order of the pages, in runs of at least one page. *)
Theorem unmap_frees_every_mapped_frame
    (ThreadCount : option Z) (sp : ADDRESS_SPACE_X86) (va : Z) (n : nat)
    (UnmapFlags : Z) (WantDirty : bool) (r : UnmapResult) :
  0 <= va → va + Z.of_nat n * PAGE_SIZE <= KERNEL_VA_START →
  LeafTablesDistinct sp va n →
  HasFlag UnmapFlags UNMAP_FLAG_FREE_PHYSICAL_PAGES = true →
  MmpUnmapPages ThreadCount sp va (Z.of_nat n) UnmapFlags WantDirty = Some r →
  FramesOfRuns (unmap_freed r) = MappedFrames sp va n ∧
  ∀ run, run ∈ unmap_freed r → 1 <= run.2.
Proof.
  intros Hva Hend Hdistinct Hfree Hcall.
  destruct (MmpUnmapPages_unfold _ _ _ _ _ _ _ Hcall) as (_ & _ & _ & Hfreed & _).
  cbv zeta in Hfreed. rewrite Hfreed. clear Hfreed Hcall.
  unfold UnmapSecondLoop, UnmapFirstLoop. cbv zeta.
  rewrite HasFlag_free_used, Hfree, orb_true_r, Nat2Z.id.
  set (flags := UnmapFlagsUsed ThreadCount va UnmapFlags).
  assert (HasFlag flags UNMAP_FLAG_FREE_PHYSICAL_PAGES = true) as Hfree'
    by (unfold flags; by rewrite HasFlag_free_used).
  pose proof (UnmapFirstPass_user_frames flags WantDirty (UnmapInvalidatesTlb ThreadCount va)
                n va sp (mkUnmapLocals false 0 []) Hva Hend) as Hfirst.
  rewrite Hfree' in Hfirst. specialize (Hfirst eq_refl).
  set (sp1 := (UnmapFirstPass flags WantDirty _ n va _).1) in *.
  destruct (MappedFrames_same sp sp1 va n Hfirst) as [<- _].
  assert (LeafTablesDistinct sp1 va n) as Hdistinct1.
  { destruct Hfirst as [Hdir _]. intros i j Hi Hj. cbv zeta. rewrite Hdir.
    by apply Hdistinct. }
  destruct (UnmapSecondPass_collected flags WantDirty n va sp1
              (mkUnmapRun INVALID_PHYSICAL_ADDRESS 0 [] false) Hva Hend Hdistinct1)
    as [_ Hrun].
  destruct (Hrun Hfree' O [] RunCollected_start) as [k Hc].
  { cbn [length]. unfold PAGE_SIZE, KERNEL_VA_START in *. lia. }
  cbn [app] in Hc.
  destruct (RunCollected_flush _ _ _ _ _ Hc) as [Hframes Hruns].
  split; [exact Hframes|].
  intros run Hin. rewrite Forall_forall in Hruns. by apply Hruns.
Qed.

(** X21.  MmpUnmapPages without UNMAP_FLAG_FREE_PHYSICAL_PAGES releases no
    frame, whatever the range. *)
Theorem unmap_without_the_flag_frees_nothing
    (ThreadCount : option Z) (sp : ADDRESS_SPACE_X86) (va PageCount : Z)
    (UnmapFlags : Z) (WantDirty : bool) (r : UnmapResult) :
  HasFlag UnmapFlags UNMAP_FLAG_FREE_PHYSICAL_PAGES = false →
  MmpUnmapPages ThreadCount sp va PageCount UnmapFlags WantDirty = Some r →
  unmap_freed r = [].
Proof.
  intros Hfree Hcall.
  destruct (MmpUnmapPages_unfold _ _ _ _ _ _ _ Hcall) as (_ & _ & _ & Hfreed & _).
  cbv zeta in Hfreed. rewrite Hfreed. clear Hfreed Hcall.
  unfold UnmapSecondLoop, UnmapFirstLoop. cbv zeta.
  rewrite HasFlag_free_used, Hfree, orb_false_r.
  destruct WantDirty; [|done].
  set (flags := UnmapFlagsUsed ThreadCount va UnmapFlags).
  assert (HasFlag flags UNMAP_FLAG_FREE_PHYSICAL_PAGES = false) as Hfree'
    by (unfold flags; by rewrite HasFlag_free_used).
  edestruct (UnmapSecondPass_frees_nothing flags true (Z.to_nat PageCount) va) as [-> ->];
    [exact Hfree'|done].
Qed.

(** X22.  When the caller of MmpUnmapPages asks whether a page was dirty, the
    answer on a range of user space whose leaf tables are distinct is TRUE
    exactly when some leaf entry of the range held a frame with the dirty bit
    set before the call; a caller that does not ask gets no answer. *)
Theorem unmap_reports_a_dirty_page
    (ThreadCount : option Z) (sp : ADDRESS_SPACE_X86) (va : Z) (n : nat)
    (UnmapFlags : Z) (WantDirty : bool) (r : UnmapResult) :
  0 <= va → va + Z.of_nat n * PAGE_SIZE <= KERNEL_VA_START →
  LeafTablesDistinct sp va n →
  MmpUnmapPages ThreadCount sp va (Z.of_nat n) UnmapFlags WantDirty = Some r →
  unmap_dirty r = (if WantDirty then Some (MappedDirty sp va n) else None).
Proof.
  intros Hva Hend Hdistinct Hcall.
  destruct (MmpUnmapPages_unfold _ _ _ _ _ _ _ Hcall) as (_ & _ & _ & _ & Hdirty).
  cbv zeta in Hdirty. rewrite Hdirty. clear Hdirty Hcall.
  destruct WantDirty; [|done]. f_equal.
  unfold UnmapSecondLoop, UnmapFirstLoop. cbv zeta. cbn [orb]. rewrite Nat2Z.id.
  set (flags := UnmapFlagsUsed ThreadCount va UnmapFlags).
  pose proof (UnmapFirstPass_user_frames flags true (UnmapInvalidatesTlb ThreadCount va)
                n va sp (mkUnmapLocals false 0 []) Hva Hend) as Hfirst.
  rewrite andb_false_r in Hfirst. specialize (Hfirst eq_refl).
  set (sp1 := (UnmapFirstPass flags true _ n va _).1) in *.
  destruct (MappedFrames_same sp sp1 va n Hfirst) as [_ <-].
  assert (LeafTablesDistinct sp1 va n) as Hdistinct1.
  { destruct Hfirst as [Hdir _]. intros i j Hi Hj. cbv zeta. rewrite Hdir.
    by apply Hdistinct. }
  destruct (UnmapSecondPass_collected flags true n va sp1
              (mkUnmapRun INVALID_PHYSICAL_ADDRESS 0 [] false) Hva Hend Hdistinct1)
    as [-> _].
  done.
Qed.

Lemma unmap_frees_every_mapped_frame_witness :
  ∃ r, MmpUnmapPages (Some 1) OneLeafTable 4194304 (Z.of_nat 2) 2 false = Some r ∧
       FramesOfRuns (unmap_freed r) = [4194304; 4198400].
Proof.
  assert (0 <= 4194304) as Hva by lia.
  assert (4194304 + Z.of_nat 2 * PAGE_SIZE <= KERNEL_VA_START) as Hend by (by vm_compute).
  assert (HasFlag 2 UNMAP_FLAG_FREE_PHYSICAL_PAGES = true) as Hfree by reflexivity.
  assert (LeafTablesDistinct OneLeafTable 4194304 2) as Hdistinct.
  { intros i j Hi Hj. destruct i as [|[|i]]; [| |lia]; (destruct j as [|[|j]]; [| |lia]);
      vm_compute; intros Hne; exfalso; apply Hne; reflexivity. }
  assert (MappedFrames OneLeafTable 4194304 2 = [4194304; 4198400]) as Hframes
    by (vm_compute; reflexivity).
  assert (∃ r, MmpUnmapPages (Some 1) OneLeafTable 4194304 (Z.of_nat 2) 2 false = Some r)
    as [r Hcall] by (vm_compute; eexists; reflexivity).
  exists r. split; [exact Hcall|].
  destruct (unmap_frees_every_mapped_frame (Some 1) OneLeafTable 4194304 2 2 false r
              Hva Hend Hdistinct Hfree Hcall) as [Hfreed _].
  exact (eq_trans Hfreed Hframes).
Defined.

Lemma unmap_without_the_flag_frees_nothing_witness :
  ∃ r, MmpUnmapPages (Some 1) OneLeafTable 4194304 2 0 true = Some r ∧
       unmap_freed r = [].
Proof.
  assert (HasFlag 0 UNMAP_FLAG_FREE_PHYSICAL_PAGES = false) as Hfree by reflexivity.
  assert (∃ r, MmpUnmapPages (Some 1) OneLeafTable 4194304 2 0 true = Some r)
    as [r Hcall] by (vm_compute; eexists; reflexivity).
  exists r. split; [exact Hcall|].
  exact (unmap_without_the_flag_frees_nothing (Some 1) OneLeafTable 4194304 2 0 true r
           Hfree Hcall).
Defined.

Lemma unmap_reports_a_dirty_page_witness :
  ∃ r, MmpUnmapPages (Some 1)
         (mkSpace {[ 1 := 3145731 ]} ∅ {[ (768, 0) := 4194374; (768, 1) := 4198407 ]} 10)
         4194304 (Z.of_nat 2) 0 true = Some r ∧
       unmap_dirty r = Some true.
Proof.
  set (sp := mkSpace {[ 1 := 3145731 ]} ∅ {[ (768, 0) := 4194374; (768, 1) := 4198407 ]} 10).
  assert (0 <= 4194304) as Hva by lia.
  assert (4194304 + Z.of_nat 2 * PAGE_SIZE <= KERNEL_VA_START) as Hend by (by vm_compute).
  assert (LeafTablesDistinct sp 4194304 2) as Hdistinct.
  { intros i j Hi Hj. destruct i as [|[|i]]; [| |lia]; (destruct j as [|[|j]]; [| |lia]);
      vm_compute; intros Hne; exfalso; apply Hne; reflexivity. }
  assert (MappedDirty sp 4194304 2 = true) as Hdirty by (vm_compute; reflexivity).
  assert (∃ r, MmpUnmapPages (Some 1) sp 4194304 (Z.of_nat 2) 0 true = Some r)
    as [r Hcall] by (vm_compute; eexists; reflexivity).
  exists r. split; [exact Hcall|].
  pose proof (unmap_reports_a_dirty_page (Some 1) sp 4194304 2 0 true r
                Hva Hend Hdistinct Hcall) as Hreport.
  cbn match in Hreport. rewrite Hreport. by rewrite Hdirty.
Defined.


(** ** MmpMigratePagingEntries *)

Lemma EntryKeptOrMoved_refl NewSection e : EntryKeptOrMoved NewSection e e.
Proof. split; [done|]. split; [done|]. by left. Qed.

Lemma OnlyEntriesMoved_refl NewSection m : OnlyEntriesMoved NewSection m m.
Proof.
  repeat (split; [done|]). intros p.
  destruct (PagingEntries (migrate_frames m) !! p) as [e|]; [|done].
  exists e. split; [done|apply EntryKeptOrMoved_refl].
Qed.

Lemma OnlyEntriesMoved_trans NewSection m1 m2 m3 :
  OnlyEntriesMoved NewSection m1 m2 → OnlyEntriesMoved NewSection m2 m3 →
  OnlyEntriesMoved NewSection m1 m3.
Proof.
  intros (H1 & H2 & H3 & H4 & H5 & H6 & H7 & Hheap)
         (G1 & G2 & G3 & G4 & G5 & G6 & G7 & Hheap').
  split; [congruence|]. split; [congruence|]. split; [congruence|]. split; [congruence|].
  split; [congruence|]. split; [congruence|]. split; [congruence|].
  intros p. specialize (Hheap p). specialize (Hheap' p).
  destruct (PagingEntries (migrate_frames m1) !! p) as [e|].
  - destruct Hheap as (e2 & He2 & Hl2 & Hf2 & Hs2). rewrite He2 in Hheap'.
    destruct Hheap' as (e3 & He3 & Hl3 & Hf3 & Hs3).
    exists e3. split; [done|]. split; [congruence|]. split; [congruence|].
    destruct Hs3 as [->|Hs3]; [done|by right].
  - by rewrite Hheap in Hheap'.
Qed.

Lemma MmpVirtualToPhysical_space K sp va :
  PageTables (translate_space (MmpVirtualToPhysical K sp va)) = PageTables sp ∧
  MmKernelPageDirectory (translate_space (MmpVirtualToPhysical K sp va))
    = MmKernelPageDirectory sp ∧
  ResidentSet (translate_space (MmpVirtualToPhysical K sp va)) = ResidentSet sp.
Proof.
  unfold MmpVirtualToPhysical, CopyKernelDirectoryEntry. cbv zeta.
  destruct (KERNEL_VA_START <=? va);
    repeat match goal with |- context [if ?b then _ else _] => destruct b end; done.
Qed.

Lemma word_references_insert (references : gmap Z Z) k v t :
  word (<[k := v]> references) t = if decide (t = k) then v else word references t.
Proof.
  unfold word. destruct (decide (t = k)) as [->|Hne].
  - by rewrite lookup_insert_eq.
  - by rewrite lookup_insert_ne.
Qed.

Lemma ReferencesConserved_refl OldSection NewSection m :
  ReferencesConserved OldSection NewSection m m.
Proof. by split. Qed.

Lemma ReferencesConserved_trans OldSection NewSection m1 m2 m3 :
  ReferencesConserved OldSection NewSection m1 m2 →
  ReferencesConserved OldSection NewSection m2 m3 →
  ReferencesConserved OldSection NewSection m1 m3.
Proof.
  intros (H1 & H2 & H3) (G1 & G2 & G3). split; [|split].
  - intros t Ho Hn. by rewrite G1, H1.
  - intros Hne. by rewrite G2, H2.
  - intros Heq. by rewrite G3, H3.
Qed.

(** One turn of the loop. *)
Lemma MigrateOnePage_moved K OldSection NewSection PageOffset PageIndex m l m' l' :
  MigrateOnePage K NewSection PageOffset PageIndex (m, l) = Some (m', l') →
  OnlyEntriesMoved NewSection m m' ∧
  (EntriesOwnedBy OldSection NewSection m →
   EntriesOwnedBy OldSection NewSection m' ∧
   ReferencesConserved OldSection NewSection m m').
Proof.
  unfold MigrateOnePage. cbv zeta.
  destruct (MmpVirtualToPhysical_space K (migrate_space m) (MigrateAddress l))
    as (Htables & Hkernel & Hresident).
  set (translated := MmpVirtualToPhysical K (migrate_space m) (MigrateAddress l)) in *.
  assert (OnlyEntriesMoved NewSection m
            (mkMigrate (migrate_frames m) (translate_space translated)
                       (migrate_references m))) as Hsame.
  { repeat (split; [done|]). intros p. cbn [migrate_frames].
    destruct (PagingEntries (migrate_frames m) !! p) as [e|]; [|done].
    exists e. split; [done|apply EntryKeptOrMoved_refl]. }
  assert (EntriesOwnedBy OldSection NewSection m →
          EntriesOwnedBy OldSection NewSection
            (mkMigrate (migrate_frames m) (translate_space translated)
                       (migrate_references m)) ∧
          ReferencesConserved OldSection NewSection m
            (mkMigrate (migrate_frames m) (translate_space translated)
                       (migrate_references m))) as Hrefs.
  { intros Howned. split; [done|by split]. }
  destruct (translate_address translated =? INVALID_PHYSICAL_ADDRESS).
  { intros H. apply Some_inj in H. inversion H; subst. done. }
  destruct (match MigrateSegment l with
            | Some si => _
            | None => _
            end) as [found|]; cbn [mbind option_bind]; [|done].
  destruct found as [[si g]|].
  2:{ intros H. apply Some_inj in H. inversion H; subst. done. }
  destruct (ReadPage si _ (migrate_frames m)) as [page|]; cbn [mbind option_bind]; [|done].
  destruct (IsNonPaged page).
  { intros H. apply Some_inj in H. inversion H; subst. done. }
  destruct (PagingEntries (migrate_frames m) !! page) as [e|] eqn:He;
    cbn [mbind option_bind]; [|done].
  intros H. apply Some_inj in H. inversion H; subst m' l'. clear H.
  split.
  - split; [done|]. split; [done|]. split; [done|]. split; [done|]. split; [done|].
    split; [done|]. split; [done|].
    intros p. cbn [migrate_frames PagingEntries set_PagingEntries].
    destruct (decide (p = page)) as [->|Hp].
    + rewrite He, lookup_insert_eq. eexists. split; [done|].
      split; [done|]. split; [done|]. by right.
    + rewrite lookup_insert_ne by done.
      destruct (PagingEntries (migrate_frames m) !! p) as [e0|]; [|done].
      exists e0. split; [done|apply EntryKeptOrMoved_refl].
  - intros Howned. split.
    + intros p e0. cbn [migrate_frames PagingEntries set_PagingEntries].
      destruct (decide (p = page)) as [->|Hp].
      * rewrite lookup_insert_eq. intros He0. apply Some_inj in He0 as <-. by right.
      * rewrite lookup_insert_ne by done. apply Howned.
    + unfold ReferencesConserved, MmpImageSectionAddReference,
        MmpImageSectionReleaseReference.
      cbn [migrate_references].
      assert (Section e = OldSection ∨ Section e = NewSection) as Hsec
        by exact (Howned page e He).
      set (owner := Section e) in *. clearbody owner.
      split; [|split].
      * intros t Ho Hn. rewrite !word_references_insert.
        repeat (destruct (decide _)); subst; try done; destruct Hsec; congruence.
      * intros Hne. rewrite !word_references_insert.
        repeat (destruct (decide _)); subst; try done; destruct Hsec; try congruence; lia.
      * intros Heq. subst NewSection. rewrite !word_references_insert.
        repeat (destruct (decide _)); subst; try done; destruct Hsec; try congruence; lia.
Qed.

Lemma MigrateLoop_moved K OldSection NewSection PageOffset count PageIndex m l m' l' :
  MigrateLoop K NewSection PageOffset count PageIndex (m, l) = Some (m', l') →
  OnlyEntriesMoved NewSection m m' ∧
  (EntriesOwnedBy OldSection NewSection m →
   EntriesOwnedBy OldSection NewSection m' ∧
   ReferencesConserved OldSection NewSection m m').
Proof.
  revert PageIndex m l. induction count as [|count IH]; intros PageIndex m l Hloop.
  { cbn [MigrateLoop] in Hloop. apply Some_inj in Hloop. inversion Hloop; subst.
    split; [apply OnlyEntriesMoved_refl|]. intros Howned.
    split; [done|apply ReferencesConserved_refl]. }
  cbn [MigrateLoop] in Hloop.
  destruct (MigrateOnePage K NewSection PageOffset PageIndex (m, l)) as [[m1 l1]|] eqn:Hone;
    cbn [mbind option_bind] in Hloop; [|done].
  apply (MigrateOnePage_moved K OldSection) in Hone as [Hmoved1 Hrefs1].
  apply IH in Hloop as [Hmoved Hrefs].
  split; [by eapply OnlyEntriesMoved_trans|].
  intros Howned. destruct (Hrefs1 Howned) as [Howned1 Hcons1].
  destruct (Hrefs Howned1) as [Howned' Hcons].
  split; [done|]. by eapply ReferencesConserved_trans.
Qed.

(** X23.  MmpMigratePagingEntries writes paging entries and nothing else of the
    frame database: the frame records, the counters, the cursors and the
    warning state stay, no paging entry appears or disappears, and a paging
    entry is either left as it is or given to the new section, with its lock
    count and its flags as they were.  Of the address space it leaves the
    leaf tables, the kernel's page directory and the resident set alone. *)
Theorem migrate_moves_paging_entries_only
    (K : MAP_FLAGS) (m m' : MigrateState)
    (OldSection NewSection NewSectionVirtualAddress Address PageCount : Z) :
  MmpMigratePagingEntries K m OldSection NewSection NewSectionVirtualAddress
                          Address PageCount = Some m' →
  OnlyEntriesMoved NewSection m m'.
Proof.
  unfold MmpMigratePagingEntries. cbv zeta. intros Hcall.
  destruct (MigrateLoop _ _ _ _ _ _) as [[m1 l1]|] eqn:Hloop;
    cbn [mbind option_bind fst] in Hcall; [|done].
  apply Some_inj in Hcall as <-.
  by apply (MigrateLoop_moved K OldSection) in Hloop as [Hmoved _].
Qed.

(** X24.  MmpMigratePagingEntries keeps the references in balance.  When every
    paging entry belongs to the old or to the new section, it still does
    after the call, the references the two sections hold together are as
    many as before, and the references of every other section are as they
    were. *)
Theorem migrate_conserves_references
    (K : MAP_FLAGS) (m m' : MigrateState)
    (OldSection NewSection NewSectionVirtualAddress Address PageCount : Z) :
  EntriesOwnedBy OldSection NewSection m →
  MmpMigratePagingEntries K m OldSection NewSection NewSectionVirtualAddress
                          Address PageCount = Some m' →
  EntriesOwnedBy OldSection NewSection m' ∧
  ReferencesConserved OldSection NewSection m m'.
Proof.
  unfold MmpMigratePagingEntries. cbv zeta. intros Howned Hcall.
  destruct (MigrateLoop _ _ _ _ _ _) as [[m1 l1]|] eqn:Hloop;
    cbn [mbind option_bind fst] in Hcall; [|done].
  apply Some_inj in Hcall as <-.
  apply (MigrateLoop_moved K OldSection) in Hloop as [_ Hrefs]. by apply Hrefs.
Qed.

(** *** The entries of the pages of the range *)

Lemma MmpVirtualToPhysical_user K sp va :
  0 <= va < KERNEL_VA_START →
  translate_space (MmpVirtualToPhysical K sp va) = sp ∧
  (translate_address (MmpVirtualToPhysical K sp va) = INVALID_PHYSICAL_ADDRESS ∨
   0 <= translate_address (MmpVirtualToPhysical K sp va) < 2 ^ 32).
Proof.
  intros Hva. unfold MmpVirtualToPhysical. cbv zeta.
  rewrite CopyKernelDirectoryEntry_user by done.
  destruct (negb _); [split; [done|by left]|].
  destruct (_ =? 0); [split; [done|by left]|].
  split; [done|]. right. cbn [translate_address].
  unfold UINTN at 1, wrap. apply Z.mod_pos_bound. lia.
Qed.

Lemma FindSegment_laid_out s si g a :
  SegmentsLaidOut s → Segments s !! si = Some g →
  StartAddress g <= a < EndAddress g →
  FindSegment (Segments s) a = Some (si, g).
Proof.
  intros Hlaid Hg Ha. unfold FindSegment. apply list_find_Some.
  split; [done|]. split; [done|].
  intros j h Hj Hlt.
  destruct (Hlaid si g Hg) as (_ & _ & _ & Hbefore).
  destruct (Hlaid j h Hj) as (_ & Hend & _ & _).
  specialize (Hbefore j h Hlt Hj). lia.
Qed.

(** One turn of the loop on a page of a range below KERNEL_VA_START whose
    frame, if there is one, the frame database knows. *)
Lemma MigrateOnePage_user K NewSection PageOffset PageIndex m l m' l' :
  SegmentsLaidOut (migrate_frames m) →
  0 <= MigrateAddress l → MigrateAddress l + PageSize <= KERNEL_VA_START →
  (translate_address (MmpVirtualToPhysical K (migrate_space m) (MigrateAddress l))
     ≠ INVALID_PHYSICAL_ADDRESS →
   is_Some (FindSegment (Segments (migrate_frames m))
              (translate_address
                 (MmpVirtualToPhysical K (migrate_space m) (MigrateAddress l))))) →
  match MigrateSegment l with
  | Some si => is_Some (Segments (migrate_frames m) !! si)
  | None => True
  end →
  MigrateOnePage K NewSection PageOffset PageIndex (m, l) = Some (m', l') →
  migrate_space m' = migrate_space m ∧
  Segments (migrate_frames m') = Segments (migrate_frames m) ∧
  MigrateAddress l' = MigrateAddress l + PageSize ∧
  match MigrateSegment l' with
  | Some si => is_Some (Segments (migrate_frames m) !! si)
  | None => True
  end ∧
  match MappedRecord K m (MigrateAddress l) with
  | Some page =>
      if IsNonPaged page
      then PagingEntries (migrate_frames m') = PagingEntries (migrate_frames m)
      else ∃ e, PagingEntries (migrate_frames m) !! page = Some e ∧
                PagingEntries (migrate_frames m')
                = <[page := mkPagingEntry NewSection (UINTN (PageOffset + PageIndex))
                                          (LockCount e) (Flags e)]>
                    (PagingEntries (migrate_frames m))
  | None => PagingEntries (migrate_frames m') = PagingEntries (migrate_frames m)
  end.
Proof.
  intros Hlaid Hlow Hhigh Hknown Hcache.
  unfold MigrateOnePage, MappedRecord. cbv zeta.
  destruct (MmpVirtualToPhysical_user K (migrate_space m) (MigrateAddress l))
    as [Hspace Hrange]; [unfold PageSize in *; lia|].
  rewrite Hspace.
  set (pa := translate_address _) in *.
  assert (UINTN (MigrateAddress l + PageSize) = MigrateAddress l + PageSize) as ->.
  { apply UINTN_small. unfold PageSize, KERNEL_VA_START in *. lia. }
  destruct (pa =? INVALID_PHYSICAL_ADDRESS) eqn:Hinvalid.
  { intros H. apply Some_inj in H. inversion H; subst. done. }
  destruct Hrange as [Hrange|Hrange]; [lia|].
  destruct (Hknown ltac:(lia)) as [[si g] Hfind].
  pose proof (FindSegment_lookup _ _ _ _ Hfind) as Hg.
  assert (match MigrateSegment l with
          | Some si =>
              Segments (migrate_frames m) !! si
              ≫= λ g, if (StartAddress g <=? pa) && (pa <? EndAddress g)
                      then Some (Some (si, g))
                      else Some (FindSegment (Segments (migrate_frames m)) pa)
          | None => Some (FindSegment (Segments (migrate_frames m)) pa)
          end = Some (Some (si, g))) as ->.
  { destruct (MigrateSegment l) as [sc|]; [|by rewrite Hfind].
    destruct Hcache as [gc Hgc]. rewrite Hgc. cbn [mbind option_bind].
    destruct ((StartAddress gc <=? pa) && (pa <? EndAddress gc)) eqn:Hin;
      [|by rewrite Hfind].
    rewrite <- Hfind. symmetry. do 2 f_equal.
    assert (FindSegment (Segments (migrate_frames m)) pa = Some (sc, gc)) as Hsame
      by (apply FindSegment_laid_out; [done|done|lia]).
    by rewrite Hsame in Hfind. }
  cbn [mbind option_bind]. unfold PhysicalPageAt. rewrite Hfind.
  assert (UINTN (PageOffsetIn g pa) = PageOffsetIn g pa) as ->.
  { destruct (Hlaid si g Hg) as (Hstart & _).
    unfold FindSegment in Hfind. apply list_find_Some in Hfind as (_ & Hin & _).
    apply UINTN_small. unfold PageOffsetIn, PageShift.
    rewrite ULONGLONG_small by lia. rewrite Z.shiftr_div_pow2 by lia.
    split; [apply Z.div_pos; lia|]. apply Z.div_lt_upper_bound; lia. }
  destruct (ReadPage si _ (migrate_frames m)) as [page|]; cbn [mbind option_bind]; [|done].
  destruct (IsNonPaged page).
  { intros H. apply Some_inj in H. inversion H; subst. cbn. split; [done|].
    split; [done|]. split; [done|]. split; [by eexists|done]. }
  destruct (PagingEntries (migrate_frames m) !! page) as [e|] eqn:He;
    cbn [mbind option_bind]; [|done].
  intros H. apply Some_inj in H. inversion H; subst. cbn. split; [done|].
  split; [done|]. split; [done|]. split; [by eexists|]. by exists e.
Qed.

Lemma MappedRecord_ext K m m' va :
  migrate_space m' = migrate_space m →
  Segments (migrate_frames m') = Segments (migrate_frames m) →
  MappedRecord K m' va = MappedRecord K m va.
Proof.
  intros Hspace Hsegs. unfold MappedRecord, PhysicalPageAt, ReadPage. cbv zeta.
  by rewrite Hspace, Hsegs.
Qed.

Lemma SegmentsLaidOut_ext s s' :
  Segments s' = Segments s → SegmentsLaidOut s → SegmentsLaidOut s'.
Proof. unfold SegmentsLaidOut. by intros ->. Qed.

(** The loop on the pages from an index on. *)
Lemma MigrateLoop_user K NewSection PageOffset va count idx m l m' l' :
  SegmentsLaidOut (migrate_frames m) →
  0 <= va → va + Z.of_nat (idx + count) * PageSize <= KERNEL_VA_START →
  MigrateAddress l = va + Z.of_nat idx * PageSize →
  match MigrateSegment l with
  | Some si => is_Some (Segments (migrate_frames m) !! si)
  | None => True
  end →
  MappedFramesKnown K m va (idx + count) →
  PageableRecordsDistinct K m va (idx + count) →
  MigrateLoop K NewSection PageOffset count (Z.of_nat idx) (m, l) = Some (m', l') →
  (∀ i page, (idx ≤ i < idx + count)%nat →
     MappedRecord K m (va + Z.of_nat i * PageSize) = Some page →
     IsNonPaged page = false →
     ∃ e, PagingEntries (migrate_frames m) !! page = Some e ∧
          PagingEntries (migrate_frames m') !! page
          = Some (mkPagingEntry NewSection (UINTN (PageOffset + Z.of_nat i))
                                (LockCount e) (Flags e))) ∧
  (∀ q, (∀ i, (idx ≤ i < idx + count)%nat →
              MappedRecord K m (va + Z.of_nat i * PageSize) = Some q →
              IsNonPaged q = true) →
        PagingEntries (migrate_frames m') !! q = PagingEntries (migrate_frames m) !! q).
Proof.
  revert idx m l. induction count as [|count IH];
    intros idx m l Hlaid Hva Hend Haddress Hcache Hknown Hdistinct Hloop.
  { cbn [MigrateLoop] in Hloop. apply Some_inj in Hloop. inversion Hloop; subst.
    split; [intros; lia|done]. }
  cbn [MigrateLoop] in Hloop.
  destruct (MigrateOnePage K NewSection PageOffset (Z.of_nat idx) (m, l))
    as [[m1 l1]|] eqn:Hone; cbn [mbind option_bind] in Hloop; [|done].
  apply MigrateOnePage_user in Hone
    as (Hspace1 & Hsegs1 & Haddress1 & Hcache1 & Hentry1); [|done|..].
  2:{ rewrite Haddress. unfold PageSize. lia. }
  2:{ rewrite Haddress. unfold PageSize in *. lia. }
  2:{ rewrite Haddress. apply (Hknown idx). lia. }
  2:{ done. }
  assert (UINTN (Z.of_nat idx + 1) = Z.of_nat (S idx)) as Hnext.
  { rewrite UINTN_small; unfold PageSize, KERNEL_VA_START in *; lia. }
  rewrite Hnext in Hloop. rewrite Haddress in Hentry1.
  assert (∀ b, MappedRecord K m1 b = MappedRecord K m b) as Hrecord
    by (intros b; by apply MappedRecord_ext).
  apply IH in Hloop as [Hmoved Hothers].
  2:{ by apply (SegmentsLaidOut_ext (migrate_frames m)). }
  2:{ done. }
  2:{ replace (S idx + count)%nat with (idx + S count)%nat by lia. done. }
  2:{ rewrite Haddress1, Haddress. lia. }
  2:{ by rewrite Hsegs1. }
  2:{ intros i Hi. cbv zeta. rewrite Hspace1, Hsegs1. apply Hknown. lia. }
  2:{ intros i j page Hi Hj Hij. rewrite !Hrecord. apply Hdistinct; lia. }
  (* what the turn on the page [idx] has done to the entry of a record *)
  assert (∀ q, (MappedRecord K m (va + Z.of_nat idx * PageSize) = Some q →
                IsNonPaged q = true) →
               PagingEntries (migrate_frames m1) !! q
               = PagingEntries (migrate_frames m) !! q) as Hfirst.
  { intros q Hq.
    destruct (MappedRecord K m (va + Z.of_nat idx * PageSize)) as [page|];
      [|by rewrite Hentry1].
    destruct (IsNonPaged page) eqn:Hpaged; [by rewrite Hentry1|].
    destruct Hentry1 as (e & He & ->).
    rewrite lookup_insert_ne; [done|]. intros <-.
    specialize (Hq eq_refl). congruence. }
  split.
  - intros i page Hi Hpage Hpaged.
    destruct (decide (i = idx)) as [->|Hne].
    + rewrite Hpage, Hpaged in Hentry1. destruct Hentry1 as (e & He & Hheap1).
      exists e. split; [done|].
      rewrite Hothers.
      * rewrite Hheap1. apply lookup_insert_eq.
      * intros j Hj Hjpage. rewrite Hrecord in Hjpage.
        apply (Hdistinct idx j page); [lia|lia|lia|done|done].
    + destruct (Hmoved i page ltac:(lia)) as (e1 & He1 & Hheap').
      { by rewrite Hrecord. }
      { done. }
      exists e1. split; [|done].
      rewrite <- He1. symmetry. apply Hfirst. intros Hidx.
      apply (Hdistinct idx i page); [lia|lia|lia|done|done].
  - intros q Hq. rewrite Hothers.
    + apply Hfirst. apply Hq. lia.
    + intros i Hi. rewrite Hrecord. apply Hq. lia.
Qed.

(** X25.  MmpMigratePagingEntries gives every page of the range the entry of
    its frame.  On a range below KERNEL_VA_START whose mapped frames the
    frame database knows, and no two pages of which share a pageable frame
    record, the paging entry of the pageable frame mapped at the page [i] of
    the range belongs to the new section after the call, at the section
    offset of that page, with its lock count and flags as before; and the
    paging entry of every record that is not that of a pageable frame mapped
    in the range is as it was. *)
Theorem migrate_gives_each_entry_its_page
    (K : MAP_FLAGS) (m m' : MigrateState)
    (OldSection NewSection NewSectionVirtualAddress va : Z) (n : nat) :
  SegmentsLaidOut (migrate_frames m) →
  0 <= va → va + Z.of_nat n * PageSize <= KERNEL_VA_START →
  MappedFramesKnown K m va n →
  PageableRecordsDistinct K m va n →
  MmpMigratePagingEntries K m OldSection NewSection NewSectionVirtualAddress
                          va (Z.of_nat n) = Some m' →
  let PageOffset :=
    Z.shiftr (UINTN (UINTN va - UINTN NewSectionVirtualAddress)) PageShift in
  (∀ i page, (i < n)%nat →
     MappedRecord K m (va + Z.of_nat i * PageSize) = Some page →
     IsNonPaged page = false →
     ∃ e, PagingEntries (migrate_frames m) !! page = Some e ∧
          PagingEntries (migrate_frames m') !! page
          = Some (mkPagingEntry NewSection (UINTN (PageOffset + Z.of_nat i))
                                (LockCount e) (Flags e))) ∧
  (∀ q, (∀ i, (i < n)%nat →
              MappedRecord K m (va + Z.of_nat i * PageSize) = Some q →
              IsNonPaged q = true) →
        PagingEntries (migrate_frames m') !! q = PagingEntries (migrate_frames m) !! q).
Proof.
  intros Hlaid Hva Hend Hknown Hdistinct Hcall. cbv zeta.
  unfold MmpMigratePagingEntries in Hcall. cbv zeta in Hcall.
  rewrite Nat2Z.id in Hcall.
  destruct (MigrateLoop _ _ _ _ _ _) as [[m1 l1]|] eqn:Hloop;
    cbn [mbind option_bind fst] in Hcall; [|done].
  apply Some_inj in Hcall as <-.
  change 0 with (Z.of_nat 0) in Hloop at 1.
  apply (MigrateLoop_user K NewSection _ va n 0) in Hloop as [Hmoved Hothers];
    [|done|done|done|cbn; lia|done|done|done].
  split.
  - intros i page Hi. apply Hmoved. lia.
  - intros q Hq. apply Hothers. intros i Hi. apply Hq. lia.
Qed.

Lemma migrate_moves_paging_entries_only_witness :
  ∃ m', MmpMigratePagingEntries (mkMapFlags 1 2 4 8) TwoMappedFrames 28672 32768
          4194304 4194304 2 = Some m' ∧
        PagingEntries (migrate_frames m') !! 20480 = Some (mkPagingEntry 32768 0 0 0) ∧
        OnlyEntriesMoved 32768 TwoMappedFrames m'.
Proof.
  assert (∃ m', MmpMigratePagingEntries (mkMapFlags 1 2 4 8) TwoMappedFrames 28672 32768
                  4194304 4194304 2 = Some m' ∧
                PagingEntries (migrate_frames m') !! 20480
                = Some (mkPagingEntry 32768 0 0 0)) as (m' & Hcall & Hentry)
    by (vm_compute; eexists; split; reflexivity).
  exists m'. split; [exact Hcall|]. split; [exact Hentry|].
  exact (migrate_moves_paging_entries_only (mkMapFlags 1 2 4 8) TwoMappedFrames m'
           28672 32768 4194304 4194304 2 Hcall).
Defined.

Lemma migrate_conserves_references_witness :
  ∃ m', MmpMigratePagingEntries (mkMapFlags 1 2 4 8) TwoMappedFrames 28672 32768
          4194304 4194304 2 = Some m' ∧
        word (migrate_references m') 28672 = 4 ∧
        word (migrate_references m') 32768 = 2 ∧
        ReferencesConserved 28672 32768 TwoMappedFrames m'.
Proof.
  assert (EntriesOwnedBy 28672 32768 TwoMappedFrames) as Howned.
  { intros p e He. cbn [TwoMappedFrames migrate_frames PagingEntries] in He.
    apply lookup_singleton_Some in He as [_ <-]. by left. }
  assert (∃ m', MmpMigratePagingEntries (mkMapFlags 1 2 4 8) TwoMappedFrames 28672 32768
                  4194304 4194304 2 = Some m' ∧
                word (migrate_references m') 28672 = 4 ∧
                word (migrate_references m') 32768 = 2) as (m' & Hcall & Hold & Hnew)
    by (vm_compute; eexists; repeat split; reflexivity).
  exists m'. split; [exact Hcall|]. split; [exact Hold|]. split; [exact Hnew|].
  exact (proj2 (migrate_conserves_references (mkMapFlags 1 2 4 8) TwoMappedFrames m'
                  28672 32768 4194304 4194304 2 Howned Hcall)).
Defined.

Lemma migrate_gives_each_entry_its_page_witness :
  ∃ m', MmpMigratePagingEntries (mkMapFlags 1 2 4 8) TwoMappedFrames 28672 32768
          4190208 4194304 (Z.of_nat 2) = Some m' ∧
        PagingEntries (migrate_frames m') !! 20480 = Some (mkPagingEntry 32768 1 0 0).
Proof.
  assert (SegmentsLaidOut (migrate_frames TwoMappedFrames)) as Hlaid.
  { intros si g Hg. destruct si as [|si]; [|done].
    apply Some_inj in Hg as <-. cbn. split; [lia|]. split; [done|]. split; [lia|].
    intros sj h Hsj. lia. }
  assert (0 <= 4194304) as Hva by lia.
  assert (4194304 + Z.of_nat 2 * PageSize <= KERNEL_VA_START) as Hend by (by vm_compute).
  assert (MappedFramesKnown (mkMapFlags 1 2 4 8) TwoMappedFrames 4194304 2) as Hknown.
  { intros i Hi. destruct i as [|[|i]]; [| |lia]; vm_compute; intros _; by eexists. }
  assert (MappedRecord (mkMapFlags 1 2 4 8) TwoMappedFrames (4194304 + Z.of_nat 0 * PageSize)
          = Some 20480) as Hzero by (vm_compute; reflexivity).
  assert (MappedRecord (mkMapFlags 1 2 4 8) TwoMappedFrames (4194304 + Z.of_nat 1 * PageSize)
          = Some 1) as Hone by (vm_compute; reflexivity).
  assert (PageableRecordsDistinct (mkMapFlags 1 2 4 8) TwoMappedFrames 4194304 2)
    as Hdistinct.
  { intros i j page Hi Hj Hij.
    destruct i as [|[|i]]; [| |lia]; (destruct j as [|[|j]]; [| |lia]); try lia.
    - rewrite Hzero, Hone. intros H1 H2. congruence.
    - rewrite Hzero, Hone. intros H1 H2. congruence. }
  assert (IsNonPaged 20480 = false) as Hpaged by reflexivity.
  assert (PagingEntries (migrate_frames TwoMappedFrames) !! 20480
          = Some (mkPagingEntry 28672 0 0 0)) as Hbefore by reflexivity.
  assert (UINTN (Z.shiftr (UINTN (UINTN 4194304 - UINTN 4190208)) PageShift + Z.of_nat 0) = 1)
    as Hoffset by reflexivity.
  assert (∃ m', MmpMigratePagingEntries (mkMapFlags 1 2 4 8) TwoMappedFrames 28672 32768
                  4190208 4194304 (Z.of_nat 2) = Some m') as [m' Hcall]
    by (vm_compute; eexists; reflexivity).
  exists m'. split; [exact Hcall|].
  destruct (migrate_gives_each_entry_its_page (mkMapFlags 1 2 4 8) TwoMappedFrames m'
              28672 32768 4190208 4194304 2 Hlaid Hva Hend Hknown Hdistinct Hcall)
    as [Hmoved _].
  destruct (Hmoved O 20480 ltac:(lia) Hzero Hpaged) as (e & He & Hafter).
  rewrite Hbefore in He. apply Some_inj in He as <-.
  rewrite Hafter, Hoffset. reflexivity.
Defined.

